(* ===== verification/_CoqProject ===== *)
-Q . S2P
Prelude.v
Utils.v
Bytes.v
Header.v
Node.v
Broadcast.v
Suspicion.v
Messages.v
FlatBuffers.v
Codec.v
Gossiper.v
Membership.v
Reports.v
Protocol.v
Dynamics.v
Records.v
Exchange.v
Session.v
Runs.v
Typed.v
Healing.v
Joining.v
Cluster.v
Rounds.v
Draining.v
Detection.v
Pools.v
Threads.v
Sharing.v
ThreadSafety.v
OneThread.v
Races.v
Timer.v
Ticker.v
UdpServer.v
UdpClient.v
Probe.v
BlockingClient.v
TcpClient.v
TcpServer.v
HybridRunner.v
Main.v
Echo.v
Scenarios.v
ProbeScenarios.v
ProcessScenarios.v
