(* ===== verification/Prelude.v ===== *)
(** * cpp_gossip: verification library

    cpp_gossip is a gossip membership protocol in the style of SWIM, a header-only
    C++11 library. A node keeps a table of the nodes it has heard of, probes its
    members one after the other over UDP, lets reports of nodes alive, suspected
    and dead ride on its pings, exchanges whole tables over TCP when it joins, and
    calls the user's handlers when nodes join and leave. This library models its
    code in Rocq and proves what it does, and where it fails.

    ** The parts, and how they interact

    - [gossiper] (src/gossiper.hpp) owns the node table [node_map_], the member list
      [nodes_], the suspicions, the broadcast queue and the counters. Reports enter
      through [aliveNode], [suspectNode] and [deadNode]. What they change they push
      into the queue; what the queue holds [appendGossipMsg] puts behind the next
      ping; what a ping carries the receiver's [handlePacket] merges through the
      same three functions.
    - [BroadcastQueue] (src/broadcast.hpp) hands out each queued state a number of
      times; [suspicion] (src/suspicion.hpp) counts confirmations and convicts when
      there are enough, or when its timer expires.
    - The messages are FlatBuffers tables (src/message/message_generated.h, on the
      bundled flatbuffers.h) behind the eight bytes of src/message/header.hpp.
    - A probe is a UDP client (src/network/udp/async_client.hpp) whose callbacks come
      back to the gossiper: a pong, or a timeout that makes the target suspect.
    - [Join] exchanges tables through the blocking TCP client
      (src/network/tcp/blocking_client.hpp) with a session of the peer's TCP server
      (src/network/tcp/runner.hpp).
    - [HybridRunner] (src/hybrid_runner.hpp) runs the TCP server, the UDP server
      (src/network/udp/runner.hpp), and the tickers (src/ticker.hpp) that start
      probes. examples/main.cpp puts it all together.

    ** The files

    State is passed explicitly, in the monad [M] below; leaving defined behaviour,
    an uncaught exception and the end of the process are [Crash] values with their
    reason. Functions keep the names of the source.

    Data and leaves:
    - Utils: [Split] (src/utils.hpp), [std::stoi], [std::to_string]. Bytes: buffers,
      [memcpy], little endian. Header: message/header.hpp, on hosts of either order.
    - Node: src/node.hpp, src/config.hpp, the enumerations. Messages: the tables of
      the schema, conversion to and from [node_state], and the class [MessageCodec]
      with its laws [MessageCodecOk], which is all the gossiper's proofs know of
      FlatBuffers.
    - FlatBuffers, Codec: the builder, the readers, the generated functions; they
      implement [MessageCodec].
    - Broadcast, Suspicion: the queue and a suspicion.
    - Timer: the operations of asio's steady timer that the program uses.

    The gossiper:
    - Gossiper: its state and every operation that does not touch the network.
      Membership: the invariant [inv], the order [evolves] on its states, and that
      each operation keeps the first and respects the second ([safe]). Reports: what
      each of the three reports does on each branch.
    - Protocol: pings, gossip, pongs, alerts, table exchanges, [Join]. Dynamics:
      these keep the invariant too; the step relation of a node among peers that
      send anything, and reachability. Runs: what holds in every reachable state.
    - Records: properties of records ([RecordProperty]) that every operation keeps
      of every stored record. Typed: the instance that says each record has the
      types of the wire, so that sending never fails.
    - Exchange, Session: a ping and its pong, a batch of gossip, a table exchange
      between two nodes, byte for byte. Healing: three packets in a row. Joining: a
      [Join] and the session that serves it. Rounds: one probe after the other.
      Draining: one ping after the other. Detection: from a probe that times out to
      the conviction. Cluster: any number of nodes, and a network that delays,
      repeats, reorders and loses.
    - Pools: threads that share a state, an indivisible access at a time. Threads: the
      report handlers, the suspicions behind their shared pointers, their timers
      and posted handlers, at the granularity of the mutexes and atomics. Sharing:
      reference counts and mutexes accounted for ([accounts]). ThreadSafety: each
      handler among others, by rely and guarantee ([rg]). OneThread: uninterrupted,
      they are the handlers of Gossiper. Races: what goes wrong in between.

    The machinery around it:
    - UdpServer, UdpClient, Probe (a client and the gossiper it calls),
      BlockingClient, TcpClient (which the program does not use yet), Ticker,
      TcpServer, HybridRunner (the process: gossiper, servers, tickers and clients in
      one step relation), Main (examples/main.cpp), Echo (examples/timer.cpp).
    - Scenarios, ProbeScenarios, ProcessScenarios: concrete nodes, datagrams and runs
      with the FlatBuffers codec, at which the theorems are applied.

    ** What the theorems show

    - Membership: in every reachable state the member list has no duplicates and is
      exactly the nodes known and not dead ([reachable_members]); a view only moves
      up in the order of (dominant, state) ([view_monotone]); the join and leave
      calls add up to the current members ([reachable_notifications]); a node stays
      in its own list ([joined_stays_member]). In a closed cluster every record is
      the named member's own ([cluster_genuine]).
    - Reports: the exact effect of each report ([aliveNode_report], [deadNode_report],
      [suspectNode_start], [suspectNode_confirm]), that alive reports commute
      ([alive_reports_converge]), that a refuted suspicion does not convict although
      its cancelled timer still runs the conviction ([refutation_stands]), and which
      faults merging can have ([merge_faults]): the logarithm of a count of zero, and
      the read of a captured state that is gone.
    - Detection: as many probes as there are members ping each one that is alive
      exactly once ([round_probes_everyone]); a ping that times out starts a suspicion
      that nothing loses: at every later moment the member is known dead, a newer
      record of it has come, or the suspicion's timer will convict it
      ([crash_detected], from the clause [ev_watch] of [evolves]).
    - Dissemination: a ping is answered with its own number, gossip is delivered in
      order, tables are exchanged, a newcomer and its peer learn of each other, a node
      wrongly held dead gets back ([ping_answered], [gossip_delivered],
      [sync_exchanges_tables], [join_mutual], [false_death_heals]); the queue sends
      what it owes, each message in turn, keeps the newest, and drains
      ([batch_sent], [pop_accounting], [Push_newest], [queue_drains]).
    - Data: messages and headers are read back as written ([messages_roundtrip],
      [header_roundtrip]); strings split as a reference definition says; stored
      records are typed, so no send fails ([reachable_typed], [sending_never_fails]).
    - Processes: the UDP server answers each datagram once ([udp_server_serves]); a
      probe calls back at most once, and with a verdict ([probe_callbacks],
      [probe_verdict]); blocking operations end by their deadline, once the peer's name
      is resolved, which nothing bounds ([sync_operations_bounded]); the ticker keeps time; the whole process is a run
      of the gossiper ([process_refines]); connecting tries the endpoints in order.
    - Threads: several threads that merge reports, confirm and convict suspicions never
      forget or misfile, use a suspicion that is gone or wait for ever, and fail only
      where one thread does ([threads_safe]); one after the other they do what
      Gossiper's handlers do ([threads_in_turn]).
    - Failures, proved as such: a death counted twice, an irrefutable death, gossip
      blocked by one large message, a peer that blocks [Join], a host name that ends
      the process, two threads that enter one node twice, or lose a refutation
      ([death_counted_twice], [death_irrefutable], [oversize_batch],
      [silent_peer_blocks], [probe_of_a_name_terminates], [join_race],
      [refutation_race]).

    ** Bounds and fuel

    Integers are [Z], wrapped where the source's types wrap ([wrap], [swrap]).
    Recursion that is not on data is bounded by what it works on: the pops of
    [ApplyPeek] by [peeked_], which is at most the size of the queue and falls by
    one each round; the peeks of [appendGossipMsg] by [MAX_APPENDED_MSG_]; [Split]
    by the length of the text; the decimal digits of an integer by 20, as a 64-bit
    number has at most 20; the logarithm of [Push] by 10, as a count of 32 bits has
    at most 10 digits. [run_until_done] of the blocking client runs at most the
    given number of handlers; three are enough for any operation with a deadline
    ([sync_operations_bounded]). [drain] runs the given number of ready handlers of
    a probe's client; theorems that use it say the number.

    ** Parameters

    What the language or a library leaves open is a parameter of the model, and a
    theorem says what it needs of it: the iteration order of the hash tables
    ([IterationOrder], [TableOrder]); what reading an object after its lifetime
    yields ([Residue], [FreedHeap], [StaleHeader]); how large an array on the stack
    may be ([StackRoom]); the host's byte order; which address texts asio accepts;
    what the network delivers, when, and with which errors.

    Reading a [node_state] that is gone may fail ([stale_node n = None]), which is a
    [Crash]: the report that [convert] returns a reference to, and the state that a
    conviction captured by reference. A theorem that needs the read to succeed says
    [Intact] (it yields the last value) or [readable]; one that needs only that it
    yields no other value says [Unspoilt]; one that needs only its types says
    [TypedResidue]. Reading freed heap memory and the stale header, which hold
    numbers and bytes, yields some numbers and bytes; [IntactHeap] and
    [IntactHeader] say they are the last ones.

    ** Not modelled

    - Two handlers at the same time, outside of Threads: the other files run handlers
      one at a time. That is how the program runs them, with one thread
      ([gossiper<1>]) that is started when [Join] has merged its table. Sending
      (probes, batches of gossip, tables) is not among the jobs of the threads: one
      ticker starts it, one probe after the other.
    - The standard lets a rehash invalidate the iterators the queue keeps; Broadcast
      reads them as the known libraries do, where they go on designating their
      element.
    - Debug assertions; the growth of the builder's buffer; FlatBuffers verifiers,
      mutators and sorted vectors, which nothing calls; log output and the printing
      destructors; the destructors of the runner and of the gossiper, which do not
      run before the process ends.
    - asio beyond its steady timers: sockets are their completions. The timer heap
      and the reactor are not modelled; a due timer's completion may come at any
      later time (in BlockingClient, as soon as it is due).
    - The readers verify nothing, and neither does the model: a read outside of a
      buffer is a [Crash]. The fields of a ping or an alert are read one by one, where
      the code reads them ([Ping_seqNo], [NodeState_name], ...); a table of states is
      decoded at once, where [mergeStates] reads all the fields of one state, merges
      it, and goes on to the next.
    - src/network/udp/broadcast.hpp, which nothing includes and which does not
      compile; src/logger.hpp; the vendored asio and spdlog. *)
From Stdlib Require Export ZArith Lia.
From stdpp Require Export base tactics option list gmap strings.

(** ** Fixed-width integers

    A [w]-bit C++ integer is a [Z] kept in range by the conversions below; the
    conversions wrap exactly where the source converts or computes modulo. *)
Definition wrap (w x : Z) : Z := x `mod` 2 ^ w.
Definition swrap (w x : Z) : Z := (x + 2 ^ (w - 1)) `mod` 2 ^ w - 2 ^ (w - 1).

Abbreviation u8 := (wrap 8).
Abbreviation u32 := (wrap 32).
Abbreviation u64 := (wrap 64).
Abbreviation i16 := (swrap 16).

Definition in_range (w x : Z) : Prop := (0 <= x < 2 ^ w)%Z.
Definition in_srange (w x : Z) : Prop := (- 2 ^ (w - 1) <= x < 2 ^ (w - 1))%Z.

Lemma wrap_range w x : (0 <= w)%Z -> in_range w (wrap w x).
Proof. intros. apply Z.mod_pos_bound. lia. Qed.

Lemma wrap_small w x : in_range w x -> wrap w x = x.
Proof. apply Z.mod_small. Qed.

Lemma swrap_range w x : (0 < w)%Z -> in_srange w (swrap w x).
Proof.
  intros Hw. unfold in_srange, swrap.
  pose proof (Z.mod_pos_bound (x + 2 ^ (w - 1)) (2 ^ w) ltac:(lia)).
  replace (2 ^ w)%Z with (2 * 2 ^ (w - 1))%Z in * by (rewrite <- Z.pow_succ_r by lia; f_equal; lia).
  lia.
Qed.

Lemma swrap_small w x : (0 < w)%Z -> in_srange w x -> swrap w x = x.
Proof.
  intros Hw Hx. unfold swrap. unfold in_srange in Hx.
  rewrite Z.mod_small; [lia|].
  replace (2 ^ w)%Z with (2 * 2 ^ (w - 1))%Z by (rewrite <- Z.pow_succ_r by lia; f_equal; lia).
  lia.
Qed.

(** A wrapping counter that goes up once and down twice. *)
Lemma wrap_up_down w x : wrap w (wrap w (wrap w (x + 1) - 1) - 1) = wrap w (x - 1).
Proof.
  unfold wrap. rewrite Zminus_mod_idemp_l.
  replace (((x + 1) mod 2 ^ w - 1 - 1))%Z with ((x + 1) mod 2 ^ w - 2)%Z by lia.
  rewrite Zminus_mod_idemp_l. f_equal. lia.
Qed.

(** The lemmas that close routine side conditions of the gossiper's proofs. *)
Create HintDb gossip.

(** ** Lists *)

Lemma last_cons_default {A} (x : A) l d : List.last (x :: l) d = List.last l x.
Proof.
  revert x d. induction l as [|y l IH]; intros x d; [done|].
  transitivity (List.last l y); [apply (IH y d) | symmetry; apply (IH y x)].
Qed.

Lemma size_list_to_set_le `{Countable A} (l : list A) :
  size (list_to_set l : gset A) <= length l.
Proof.
  induction l as [|x l IH]; [done|]. simpl.
  pose proof (size_union_alt {[x]} (list_to_set l : gset A)) as E. rewrite size_singleton in E.
  pose proof (subseteq_size (list_to_set l ∖ {[x]}) (list_to_set l : gset A) ltac:(set_solver)).
  lia.
Qed.

(** ** Outcomes and the state-and-fault monad

    [Crash] is an execution that leaves defined behaviour (or the program): a
    null or invalid dereference, an out-of-range access, an exception nobody
    catches, [std::terminate]. *)
Inductive fault :=
  | NullDeref            (* dereference of a null pointer *)
  | OutOfBounds          (* access past the end of a vector or buffer *)
  | InvalidIterator      (* dereference of end() or of an erased element *)
  | Uninitialised        (* use of an object that was never initialised *)
  | LifetimeEnded        (* use of an object that was destroyed *)
  | StackOverflow        (* an array larger than the stack *)
  | BadFloatCast         (* conversion of a double that does not fit *)
  | InvalidArgument      (* std::invalid_argument *)
  | OutOfRange           (* std::out_of_range *)
  | Terminated           (* std::terminate *)
  | Deadlock.            (* a thread alone waits for a mutex that is taken *)

#[global] Instance fault_eq_dec : EqDecision fault.
Proof. solve_decision. Defined.

Inductive outcome (A : Type) :=
  | Ok (a : A)
  | Crash (f : fault).
Arguments Ok {A} a.
Arguments Crash {A} f.

(** Monadic bind on outcomes, for pure fallible code. *)
#[global] Instance outcome_ret : MRet outcome := fun A a => Ok a.
#[global] Instance outcome_bind : MBind outcome := fun A B k o =>
  match o with Ok a => k a | Crash f => Crash f end.

Lemma outcome_bind_Ok {A B} (o : outcome A) (k : A -> outcome B) b :
  o ≫= k = Ok b <-> exists a, o = Ok a /\ k a = Ok b.
Proof. destruct o as [a|f]; cbn; naive_solver. Qed.

Lemma mapM_Ok {A B} (f : A -> outcome B) l k :
  mapM f l = Ok k <-> Forall2 (fun x y => f x = Ok y) l k.
Proof.
  revert k. induction l as [|x l IH]; intros k; cbn [mapM].
  - split; [intros [= <-]; constructor|by intros ->%Forall2_nil_inv_l].
  - rewrite outcome_bind_Ok. split.
    + intros (y & Hy & (k' & Hk & [= <-])%outcome_bind_Ok). constructor; [done|by apply IH].
    + intros (y & k' & Hy & Hk%IH & ->)%Forall2_cons_inv_l.
      exists y. split; [done|]. apply outcome_bind_Ok. by exists k'.
Qed.

Definition M (S A : Type) : Type := S -> outcome (A * S).

#[global] Instance M_ret {S} : MRet (M S) := fun A a s => Ok (a, s).
#[global] Instance M_bind {S} : MBind (M S) := fun A B k m s =>
  match m s with Ok (a, s') => k a s' | Crash f => Crash f end.

Definition get {S} : M S S := fun s => Ok (s, s).
Definition modify {S} (f : S -> S) : M S unit := fun s => Ok (tt, f s).
Definition crash {S A} (f : fault) : M S A := fun _ => Crash f.
Definition when {S} (b : bool) (m : M S unit) : M S unit := if b then m else mret tt.

(** A fallible pure computation run inside the monad. *)
Definition lift {S A} (o : outcome A) : M S A := fun s =>
  match o with Ok a => Ok (a, s) | Crash f => Crash f end.

(** Sequential iteration, a C++ range loop whose body changes the state. *)
Fixpoint for_each {S A} (l : list A) (body : A -> M S unit) : M S unit :=
  match l with
  | [] => mret tt
  | a :: l' => body a ;; for_each l' body
  end.

Lemma for_each_app {S A} (l1 l2 : list A) (body : A -> M S unit) s :
  for_each (l1 ++ l2) body s =
    match for_each l1 body s with Ok (_, s') => for_each l2 body s' | Crash f => Crash f end.
Proof.
  revert s. induction l1 as [|a l1 IH]; intros s; [done|]. cbn. unfold mbind, M_bind.
  destruct (body a s) as [[[] s']|]; [apply IH|done].
Qed.

(** Unfolds the monad and computes as far as the state allows. *)
Ltac run := cbv [mbind M_bind mret M_ret get modify when crash lift].

(** Decidable facts about computed states, by evaluation alone. *)
Ltac evaluate := solve [by vm_compute | apply (bool_decide_unpack _); by vm_compute].

Tactic Notation "run" "in" hyp(H) := cbv [mbind M_bind mret M_ret get modify when crash lift] in H.

Section run.
Context {S A B : Type}.

Lemma bind_Ok (m : M S A) (k : A -> M S B) s a s' :
  m s = Ok (a, s') -> (m ≫= k) s = k a s'.
Proof. intros E. run. by rewrite E. Qed.

Lemma bind_Ok_inv (m : M S A) (k : A -> M S B) s r :
  (m ≫= k) s = Ok r -> exists a s', m s = Ok (a, s') /\ k a s' = Ok r.
Proof. run. destruct (m s) as [[a s']|]; [by eauto|done]. Qed.

Lemma bind_Crash (m : M S A) (k : A -> M S B) s f :
  m s = Crash f -> (m ≫= k) s = Crash f.
Proof. intros E. run. by rewrite E. Qed.
End run.

(** [step E]: the first action of the goal runs as the equation [E] says;
    [step]: it runs by computation. *)
Tactic Notation "step" constr(E) := rewrite (bind_Ok _ _ _ _ _ E).
Tactic Notation "step" := erewrite bind_Ok by reflexivity.

(** ** Weakest preconditions

    [wpx E m Q s]: run from [s], [m] either ends normally in a result and state
    that satisfy [Q], or crashes with a fault that [E] allows. [wp] allows no
    crash, [wlp] any. *)
Definition wpx {S A} (E : fault -> Prop) (m : M S A) (Q : A -> S -> Prop) (s : S) : Prop :=
  match m s with Ok (a, s') => Q a s' | Crash f => E f end.

Abbreviation wp := (wpx (fun _ => False)).
Abbreviation wlp := (wpx (fun _ => True)).

Section wpx_rules.
Context {S A B : Type} (E : fault -> Prop).
Implicit Types (s : S) (m : M S A) (Q : A -> S -> Prop).

Lemma wpx_mono m Q Q' s : wpx E m Q s -> (forall a s', Q a s' -> Q' a s') -> wpx E m Q' s.
Proof. unfold wpx. destruct (m s) as [[]|]; auto. Qed.

Lemma wpx_weaken (E' : fault -> Prop) m Q s :
  (forall f, E' f -> E f) -> wpx E' m Q s -> wpx E m Q s.
Proof. unfold wpx. destruct (m s) as [[]|]; auto. Qed.

Lemma wpx_bind m (k : A -> M S B) (Q : B -> S -> Prop) s :
  wpx E m (fun a s' => wpx E (k a) Q s') s -> wpx E (m ≫= k) Q s.
Proof. unfold wpx, mbind, M_bind. by destruct (m s) as [[]|]. Qed.

(** Sequencing with a step that ends normally in a known state. *)
Lemma wpx_step m (k : A -> M S B) (Q : B -> S -> Prop) s a s' :
  m s = Ok (a, s') -> wpx E (k a) Q s' -> wpx E (m ≫= k) Q s.
Proof. intros Hm Hk. unfold wpx. by rewrite (bind_Ok _ _ _ _ _ Hm). Qed.

Lemma wpx_ret (a : A) Q s : Q a s -> wpx E (mret a) Q s.
Proof. done. Qed.

Lemma wpx_elim m Q s a s' : wpx E m Q s -> m s = Ok (a, s') -> Q a s'.
Proof. unfold wpx. intros H Hm. by rewrite Hm in H. Qed.

Lemma wpx_crash m Q s f : wpx E m Q s -> m s = Crash f -> E f.
Proof. unfold wpx. intros H Hm. by rewrite Hm in H. Qed.
End wpx_rules.

Lemma wp_ok {S A} (m : M S A) (Q : A -> S -> Prop) s :
  wp m Q s -> exists a s', m s = Ok (a, s') /\ Q a s'.
Proof. unfold wpx. destruct (m s) as [[a s']|]; [eauto|done]. Qed.

(** A property of the state that a loop body preserves is preserved by the loop. *)
Lemma wpx_for_each {S A} E (l : list A) (body : A -> M S unit) (I : S -> Prop) s :
  (forall a s, a ∈ l -> I s -> wpx E (body a) (fun _ => I) s) -> I s ->
  wpx E (for_each l body) (fun _ => I) s.
Proof.
  revert s. induction l as [|a l IH]; intros s Hb Hs; [done|].
  apply wpx_bind. eapply wpx_mono; [apply Hb; [by left|done]|].
  intros [] s' Hs'. apply IH; [|done]. intros. apply Hb; [by right|done].
Qed.
