(* ===== verification/Utils.v ===== *)
(** * Strings: [Split] of src/utils.hpp and the number conversions the code uses

    [std::string] is [string]; [find] and [substr] are the standard member
    functions ([None] is [npos]). [stoi] and [to_string] are the standard
    conversions used on ports; [stoi]'s exceptions are [Crash] values. *)
From Stdlib Require Import Ascii String.
From S2P Require Import Prelude.
#[local] Arguments String.append : simpl nomatch.

(** ** std::string primitives *)

Definition find (s sep : string) (pos : nat) : option nat := String.index pos sep s.
Definition substr (s : string) (pos len : nat) : string := String.substring pos len s.
Definition substr_from (s : string) (pos : nat) : string := substr s pos (String.length s - pos).

(** ** utils.hpp: Split

    One unfolding of the [while] loop per unit of fuel; [None] means the loop
    is still running when the fuel is spent. *)
Fixpoint split_loop (fuel : nat) (s sep : string) (start : nat) (mark : option nat)
    (rst : list string) : option (nat * list string) :=
  match fuel with
  | O => None
  | S fuel =>
    match mark with
    | None => Some (start, rst)
    | Some m =>
      let rst := rst ++ [substr s start (m - start)] in
      let start := m + String.length sep in
      split_loop fuel s sep start (find s sep start) rst
    end
  end.

Definition Split (s sep : string) : option (list string) :=
  match split_loop (S (String.length s)) s sep 0 (find s sep 0) [] with
  | None => None
  | Some (start, rst) =>
    Some (if start <? String.length s then rst ++ [substr_from s start] else rst)
  end.

(** Reference definition for a one-character separator: cut at every
    separator, then forget a last piece that is empty. *)
Fixpoint split_char (c : ascii) (s : string) : string * list string :=
  match s with
  | EmptyString => ("", [])
  | String d s' =>
    let '(h, t) := split_char c s' in
    if Ascii.eqb c d then ("", h :: t) else (String d h, t)
  end.

Fixpoint drop_last_empty (h : string) (t : list string) : list string :=
  match t with
  | [] => if String.eqb h "" then [] else [h]
  | h' :: t' => h :: drop_last_empty h' t'
  end.

Definition split_ref (c : ascii) (s : string) : list string :=
  let '(h, t) := split_char c s in drop_last_empty h t.

(** ** std::to_string and std::stoi *)

Definition digit_char (d : Z) : ascii := ascii_of_N (Z.to_N (48 + d)).

Fixpoint print_digits (fuel : nat) (n : Z) (acc : string) : string :=
  match fuel with
  | O => acc
  | S fuel =>
    let acc := String (digit_char (n mod 10)) acc in
    if (n / 10 =? 0)%Z then acc else print_digits fuel (n / 10) acc
  end.

(** Twenty digits hold every 64-bit value. *)
Definition to_string (n : Z) : string :=
  if (n <? 0)%Z then String "-" (print_digits 20 (- n) "") else print_digits 20 n "".

Definition is_space (c : ascii) : bool :=
  let n := N_of_ascii c in ((n =? 32) || ((9 <=? n) && (n <=? 13)))%N.

Definition digit_val (c : ascii) : option Z :=
  let n := Z.of_N (N_of_ascii c) in
  if ((48 <=? n) && (n <=? 57))%Z then Some (n - 48)%Z else None.

Fixpoint skip_space (s : string) : string :=
  match s with
  | String c s' => if is_space c then skip_space s' else s
  | EmptyString => s
  end.

(** Longest prefix of digits; [None] when there is none. *)
Fixpoint read_digits (s : string) (acc : option Z) : option Z :=
  match s with
  | String c s' =>
    match digit_val c with
    | Some d => read_digits s' (Some (default 0 acc * 10 + d)%Z)
    | None => acc
    end
  | EmptyString => acc
  end.

Definition read_sign (s : string) : Z * string :=
  match s with
  | String "-" s' => (-1, s')%Z
  | String "+" s' => (1, s')%Z
  | _ => (1, s)%Z
  end.

Definition stoi (s : string) : outcome Z :=
  let '(sign, body) := read_sign (skip_space s) in
  match read_digits body None with
  | None => Crash InvalidArgument
  | Some n =>
    let v := (sign * n)%Z in
    if ((- 2 ^ 31 <=? v) && (v <? 2 ^ 31))%Z then Ok v else Crash OutOfRange
  end.

(** ** Lemmas *)

Section split.
Variable c : ascii.
Let sep := String c "".

Definition sdrop (n : nat) (s : string) : string := substr_from s n.

Lemma substring_0_all s : substring 0 (String.length s) s = s.
Proof. induction s; simpl; by f_equal. Qed.

Lemma sdrop_0 s : sdrop 0 s = s.
Proof. unfold sdrop, substr_from, substr. rewrite Nat.sub_0_r. apply substring_0_all. Qed.

Lemma sdrop_S n a s : sdrop (S n) (String a s) = sdrop n s.
Proof. done. Qed.

Lemma length_sdrop n s : String.length (sdrop n s) = String.length s - n.
Proof.
  revert s. induction n as [|n IH]; intros s; [by rewrite sdrop_0, Nat.sub_0_r|].
  destruct s as [|a s]; [done|]. by rewrite sdrop_S, IH.
Qed.

Lemma sdrop_sdrop n k s : sdrop k (sdrop n s) = sdrop (n + k) s.
Proof.
  revert s. induction n as [|n IH]; intros s; [by rewrite sdrop_0|].
  destruct s as [|a s]; [|by rewrite sdrop_S, IH]. by destruct k.
Qed.

Lemma substr_sdrop n k s : n <= String.length s ->
  substr s n k = substr (sdrop n s) 0 k.
Proof.
  unfold substr. revert s. induction n as [|n IH]; intros s Hn; [by rewrite sdrop_0|].
  destruct s as [|a s]; simpl in *; [lia|]. rewrite sdrop_S. apply IH. lia.
Qed.

Lemma find_sdrop n s : n <= String.length s ->
  find s sep n = Nat.add n <$> find (sdrop n s) sep 0.
Proof.
  unfold find. revert s. induction n as [|n IH]; intros s Hn.
  { rewrite sdrop_0. by destruct (index 0 sep s). }
  destruct s as [|a s]; simpl in Hn; [lia|]. rewrite sdrop_S. cbn [index].
  rewrite IH by lia. by destruct (index 0 sep (sdrop n s)).
Qed.

Lemma find_cons d t :
  find (String d t) sep 0 = if Ascii.eqb c d then Some 0 else S <$> find t sep 0.
Proof.
  unfold find, sep. cbn [index String.prefix].
  destruct (ascii_dec c d) as [Heq|Hne].
  - apply Ascii.eqb_eq in Heq. rewrite Heq; by destruct t.
  - apply Ascii.eqb_neq in Hne. rewrite Hne. by destruct (index 0 _ t).
Qed.

(** What one search does to the reference splitting. *)
Lemma find_split_char t :
  match find t sep 0 with
  | None => split_char c t = (t, [])
  | Some k => k < String.length t /\
      split_char c t =
        (substr t 0 k, (split_char c (sdrop (S k) t)).1 :: (split_char c (sdrop (S k) t)).2)
  end.
Proof.
  induction t as [|d t IH]; [done|]. rewrite find_cons. cbn [split_char].
  destruct (Ascii.eqb c d) eqn:E.
  - rewrite sdrop_S, sdrop_0. destruct (split_char c t). split; [simpl; lia|done].
  - destruct (find t sep 0) as [k|].
    + destruct IH as [Hk ->]. cbn [fmap option_fmap option_map]. rewrite sdrop_S.
      split; [simpl; lia|done].
    + by rewrite IH.
Qed.

Lemma split_loop_ref s : forall fuel start rst,
  start <= String.length s -> String.length s - start < fuel ->
  exists start', split_loop fuel s sep start (find s sep start) rst =
      Some (start', rst ++ (let '(h, t) := split_char c (sdrop start s) in
                            removelast (h :: t))) /\
    sdrop start' s = List.last (split_char c (sdrop start s)).2 (split_char c (sdrop start s)).1 /\
    start' <= String.length s.
Proof.
  induction fuel as [|fuel IH]; intros start rst Hs Hf; [lia|].
  pose proof (find_split_char (sdrop start s)) as Hspec.
  cbn [split_loop]. rewrite find_sdrop by done.
  destruct (find (sdrop start s) sep 0) as [k|] eqn:E; simpl.
  - destruct Hspec as [Hk Hsplit]. rewrite length_sdrop in Hk.
    replace (start + k - start) with k by lia. rewrite substr_sdrop by done.
    destruct (IH (start + k + 1) (rst ++ [substr (sdrop start s) 0 k])) as (st & -> & Hst & Hle);
      [lia..|].
    exists st. rewrite Hsplit, sdrop_sdrop. replace (start + S k) with (start + k + 1) by lia.
    destruct (split_char c (sdrop (start + k + 1) s)) as [h t]; simpl in *.
    split; [|split; [|done]].
    + by rewrite <- app_assoc.
    + rewrite Hst. symmetry. apply last_cons_default.
  - exists start. rewrite Hspec. simpl. by rewrite app_nil_r.
Qed.

Lemma drop_last_empty_spec h t :
  drop_last_empty h t =
    removelast (h :: t) ++ (if String.eqb (List.last t h) "" then [] else [List.last t h]).
Proof.
  revert h. induction t as [|x t IH]; intros h; [done|].
  change (drop_last_empty h (x :: t)) with (h :: drop_last_empty x t).
  rewrite IH. change (removelast (h :: x :: t)) with (h :: removelast (x :: t)).
  by rewrite last_cons_default.
Qed.

Lemma Split_split_ref s : Split s sep = Some (split_ref c s).
Proof.
  unfold Split, split_ref.
  destruct (split_loop_ref s (S (String.length s)) 0 []) as (st & -> & Hst & Hle); [lia..|].
  rewrite sdrop_0 in *. destruct (split_char c s) as [h t] eqn:E; simpl in *.
  rewrite drop_last_empty_spec, <- Hst.
  pose proof (length_sdrop st s) as Hlen.
  destruct (Nat.ltb_spec st (String.length s)) as [Hlt|Hge].
  - destruct (String.eqb_spec (sdrop st s) "") as [He|He]; [|done].
    rewrite He in Hlen. simpl in Hlen. lia.
  - destruct (sdrop st s); simpl in *; [|lia]. by rewrite app_nil_r.
Qed.
End split.

Fixpoint has_char (c : ascii) (s : string) : bool :=
  match s with
  | EmptyString => false
  | String d s' => Ascii.eqb c d || has_char c s'
  end.

Section split_char.
Variable c : ascii.

Lemma split_char_plain h : has_char c h = false -> split_char c h = (h, []).
Proof.
  induction h as [|d h IH]; [done|]. cbn [has_char split_char].
  intros [Hd Hh]%orb_false_iff. by rewrite IH, Hd.
Qed.

Lemma split_char_app h s : has_char c h = false ->
  split_char c (h +:+ String c s) = (h, (split_char c s).1 :: (split_char c s).2).
Proof.
  induction h as [|d h IH]; cbn [has_char split_char String.app].
  - intros _. simpl. destruct (split_char c s). by rewrite Ascii.eqb_refl.
  - intros [Hd Hh]%orb_false_iff. simpl. by rewrite IH, Hd.
Qed.

(** The pieces determine the string, and hold no separator. *)
Lemma split_char_inv s h t : split_char c s = (h, t) ->
  has_char c h = false /\
  match t with
  | [] => s = h
  | h' :: t' => exists s', s = h +:+ String c s' /\ split_char c s' = (h', t')
  end.
Proof.
  revert h t. induction s as [|d s IH]; intros h t; cbn [split_char].
  { by intros [= <- <-]. }
  destruct (split_char c s) as [h1 t1]. specialize (IH _ _ eq_refl) as [Hc Ht].
  destruct (Ascii.eqb c d) eqn:E; intros [= <- <-].
  - apply Ascii.eqb_eq in E as <-. split; [done|].
    exists s. split; [done|]. destruct t1 as [|x t1]; [by subst; apply split_char_plain|].
    destruct Ht as (s' & -> & Hs'). by rewrite split_char_app, Hs'.
  - cbn [has_char]. rewrite E. split; [done|]. destruct t1 as [|x t1]; [by subst|].
    destruct Ht as (s' & -> & Hs'). by exists s'.
Qed.
End split_char.

Section digits.
Local Open Scope Z_scope.

Lemma digit_char_cases d (P : ascii -> Prop) : 0 <= d < 10 ->
  P "0"%char -> P "1"%char -> P "2"%char -> P "3"%char -> P "4"%char ->
  P "5"%char -> P "6"%char -> P "7"%char -> P "8"%char -> P "9"%char -> P (digit_char d).
Proof.
  intros Hd. assert (d = 0 \/ d = 1 \/ d = 2 \/ d = 3 \/ d = 4 \/ d = 5 \/ d = 6 \/ d = 7 \/
    d = 8 \/ d = 9) as Hcases by lia. by destruct_or! Hcases; subst.
Qed.

Lemma digit_val_char d : 0 <= d < 10 -> digit_val (digit_char d) = Some d.
Proof.
  intros Hd. unfold digit_val, digit_char. rewrite N_ascii_embedding by lia.
  rewrite Z2N.id by lia. repeat case_match; try lia. f_equal. lia.
Qed.

Lemma read_print_digits fuel n acc : (0 < fuel)%nat -> 0 <= n < 10 ^ Z.of_nat fuel ->
  read_digits (print_digits fuel n acc) None = read_digits acc (Some n).
Proof.
  revert n acc. induction fuel as [|fuel IH]; intros n acc Hf Hn; [lia|].
  cbn [print_digits]. pose proof (Z.mod_pos_bound n 10 ltac:(lia)).
  pose proof (Z.div_mod n 10 ltac:(lia)).
  destruct (n / 10 =? 0) eqn:E.
  - cbn [read_digits]. rewrite digit_val_char by lia. simpl. do 2 f_equal. lia.
  - assert (1 <= n / 10) by (pose proof (Z.div_pos n 10); lia).
    assert (10 ^ Z.of_nat (S fuel) = 10 * 10 ^ Z.of_nat fuel) as Hpow
      by (rewrite Nat2Z.inj_succ, Z.pow_succ_r; lia).
    destruct fuel as [|fuel]; [simpl in Hpow; lia|].
    rewrite IH; [|lia|lia].
    cbn [read_digits]. rewrite digit_val_char by lia. simpl. do 2 f_equal. lia.
Qed.

Lemma print_digits_no_char c fuel n acc : digit_val c = None ->
  has_char c (print_digits fuel n acc) = has_char c acc.
Proof.
  intros Hc. revert n acc. induction fuel as [|fuel IH]; intros n acc; [done|].
  assert (Ascii.eqb c (digit_char (n mod 10)) = false) as Hne.
  { apply Ascii.eqb_neq. intros ->. rewrite digit_val_char in Hc; [done|].
    apply Z.mod_pos_bound. lia. }
  cbn [print_digits]. case_match; rewrite ?IH; cbn [has_char]; by rewrite Hne.
Qed.

Lemma print_digits_head fuel n acc : exists d rest,
  0 <= d < 10 /\ print_digits (S fuel) n acc = String (digit_char d) rest.
Proof.
  revert n acc. induction fuel as [|fuel IH]; intros n acc.
  { exists (n mod 10), acc. split; [apply Z.mod_pos_bound; lia|]. cbn. by case_match. }
  remember (S fuel) as f eqn:Ef. cbn [print_digits]. case_match; [|apply IH].
  eexists _, _. split; [|done]. apply Z.mod_pos_bound; lia.
Qed.

Lemma stoi_print_digits n : 0 <= n < 2 ^ 31 -> stoi (print_digits 20 n "") = Ok n.
Proof.
  intros Hn. unfold stoi.
  destruct (print_digits_head 19 n "") as (d & rest & Hd & E).
  assert (skip_space (print_digits 20 n "") = print_digits 20 n "") as ->.
  { rewrite E. cbn [skip_space]. by pattern (digit_char d); apply digit_char_cases. }
  assert (read_sign (print_digits 20 n "") = (1, print_digits 20 n "")) as ->.
  { rewrite E. by pattern (digit_char d); apply digit_char_cases. }
  rewrite read_print_digits by lia. cbn [read_digits].
  rewrite Z.mul_1_l. repeat case_match; try lia. done.
Qed.

Lemma stoi_to_string_lemma n : in_srange 32 n -> stoi (to_string n) = Ok n.
Proof.
  unfold in_srange, to_string. intros Hn. simpl in Hn. destruct (n <? 0) eqn:E.
  - unfold stoi. cbn [skip_space is_space]. change (is_space "-") with false. cbn match.
    change (read_sign (String "-" ?s)) with (-1, s).
    cbv iota beta. rewrite read_print_digits by lia. cbn [read_digits].
    replace (-1 * - n) with n by lia. repeat case_match; try lia. done.
  - apply stoi_print_digits. lia.
Qed.
End digits.

Lemma to_string_no_colon n : has_char ":" (to_string n) = false.
Proof. unfold to_string. case_match; cbn [has_char]; by rewrite print_digits_no_char. Qed.

(** A non-negative number prints as a string that starts with a digit. *)
Lemma to_string_nonneg n : (0 <= n)%Z ->
  exists d rest, (0 <= d < 10)%Z /\ to_string n = String (digit_char d) rest.
Proof.
  intros Hn. unfold to_string. rewrite (proj2 (Z.ltb_ge _ _)) by lia. apply print_digits_head.
Qed.

Lemma to_string_sign n p : (n < 0)%Z -> (0 <= p)%Z -> to_string n <> to_string p.
Proof.
  intros Hn Hp. destruct (to_string_nonneg p Hp) as (d & rest & Hd & ->).
  unfold to_string. rewrite (proj2 (Z.ltb_lt _ _)) by lia. generalize (print_digits 20 (- n) "").
  intros digits [= Heq _].
  revert Heq. by pattern (digit_char d); apply digit_char_cases.
Qed.

(** ** Properties of Split *)

Section properties.
Variable c : ascii.
Let sep := String c "".

Lemma string_app_nil s : s +:+ "" = s.
Proof. induction s; simpl; by f_equal. Qed.

Lemma string_app_assoc (a b d : string) : a +:+ (b +:+ d) = (a +:+ b) +:+ d.
Proof. induction a; simpl; by f_equal. Qed.

Lemma split_char_concat s h t : split_char c s = (h, t) -> s = String.concat sep (h :: t).
Proof.
  revert s h. induction t as [|x t IH]; intros s h [_ Ht]%split_char_inv; [done|].
  destruct Ht as (s' & -> & Hs'). cbn [String.concat]. by rewrite (IH _ _ Hs').
Qed.

Lemma split_char_pieces s h t : split_char c s = (h, t) ->
  Forall (fun p => has_char c p = false) (h :: t).
Proof.
  revert s h. induction t as [|x t IH]; intros s h [Hh Ht]%split_char_inv; constructor; auto.
  destruct Ht as (s' & _ & Hs'). by eapply IH.
Qed.

Lemma drop_last_empty_concat h t :
  String.concat sep (h :: t) = String.concat sep (drop_last_empty h t) \/
  String.concat sep (h :: t) = String.concat sep (drop_last_empty h t) +:+ sep.
Proof.
  revert h. induction t as [|x t IH]; intros h; cbn [drop_last_empty].
  { case_match eqn:E; [apply String.eqb_eq in E as ->|]; by left. }
  specialize (IH x). change (String.concat sep (h :: x :: t)) with (h +:+ sep +:+ String.concat sep (x :: t)).
  destruct (drop_last_empty x t) as [|y l] eqn:E.
  - assert (String.concat sep (x :: t) = "") as ->.
    { destruct t as [|x' t]; [|done]. revert E. cbn [drop_last_empty].
      case_match eqn:E'; [|done]. by apply String.eqb_eq in E' as ->. }
    right. cbn [String.concat]. by rewrite string_app_nil.
  - change (String.concat sep (h :: y :: l)) with (h +:+ sep +:+ String.concat sep (y :: l)).
    destruct IH as [->| ->]; [by left|right]. by rewrite !string_app_assoc.
Qed.

Lemma drop_last_empty_incl P h t : Forall P (h :: t) -> Forall P (drop_last_empty h t).
Proof.
  revert h. induction t as [|x t IH]; intros h Hf; inversion_clear Hf; cbn [drop_last_empty].
  - case_match; auto.
  - constructor; auto.
Qed.

(** Splitting at a colon yields exactly two fields for the strings
    ["h:p"] (with [p] not empty) and ["h:p:"], and for no others. *)
Lemma split_ref_two s h p : split_ref c s = [h; p] <->
  has_char c h = false /\ has_char c p = false /\
  ((s = h +:+ String c p /\ p <> "") \/ s = h +:+ String c (p +:+ sep)).
Proof.
  unfold split_ref. split.
  - destruct (split_char c s) as [h0 t0] eqn:E.
    pose proof (split_char_inv _ _ _ _ E) as [Hh Ht].
    destruct t0 as [|p0 t0]; cbn [drop_last_empty]; [by case_match|].
    intros [= -> Hd]. destruct Ht as (s1 & -> & E1). clear E.
    apply split_char_inv in E1 as [Hp Ht]. destruct t0 as [|q t0]; cbn [drop_last_empty] in Hd.
    + revert Hd. case_match eqn:Eq; [done|]. intros [= ->]. subst.
      apply String.eqb_neq in Eq. auto.
    + injection Hd as -> Hd. destruct Ht as (s2 & -> & E2). apply split_char_inv in E2 as [_ Ht].
      destruct t0; cbn [drop_last_empty] in Hd; [|done]. revert Hd.
      case_match eqn:Eq; [|done]. apply String.eqb_eq in Eq as ->. subst. auto.
  - intros (Hh & Hp & [[-> Hne]| ->]).
    + rewrite split_char_app by done. rewrite split_char_plain by done.
      cbn. by rewrite (proj2 (String.eqb_neq p "")) by done.
    + rewrite split_char_app by done. unfold sep. rewrite split_char_app by done. done.
Qed.
End properties.

(** [Split] with a one-character separator always returns; it returns what
    the reference splitting returns; no piece holds the separator; and joining
    the pieces gives the input back, up to one trailing separator. *)
Theorem Split_correct (c : ascii) (s : string) :
  exists ps, Split s (String c "") = Some ps /\ ps = split_ref c s /\
    Forall (fun p => has_char c p = false) ps /\
    (s = String.concat (String c "") ps \/ s = String.concat (String c "") ps +:+ String c "").
Proof.
  exists (split_ref c s). split; [apply Split_split_ref|split; [done|]].
  unfold split_ref. destruct (split_char c s) as [h t] eqn:E. split.
  - eapply drop_last_empty_incl, split_char_pieces, E.
  - rewrite (split_char_concat _ _ _ _ E). apply drop_last_empty_concat.
Qed.

(** An empty separator is found at every position: the loop never ends. *)
Lemma split_loop_empty_sep fuel s rst : split_loop fuel s "" 0 (find s "" 0) rst = None.
Proof.
  assert (find s "" 0 = Some 0) as -> by (by destruct s).
  revert rst. induction fuel as [|fuel IH]; intros rst; [done|].
  cbn [split_loop String.length Nat.add]. rewrite <- (IH (rst ++ [substr s 0 0])).
  by destruct s.
Qed.

(** The decimal printing of a 32-bit integer reads back as that integer. *)
Theorem stoi_to_string (n : Z) : in_srange 32 n -> stoi (to_string n) = Ok n.
Proof. apply stoi_to_string_lemma. Qed.

Lemma stoi_to_string_witness : in_srange 32 (-25536) /\ stoi (to_string (-25536)) = Ok (-25536)%Z.
Proof.
  split; [unfold in_srange; lia|].
  apply (stoi_to_string (-25536)). unfold in_srange; lia.
Defined.
