(* ===== verification/Bytes.v ===== *)
(** * Byte buffers

    A buffer is the list of its bytes, each an 8-bit [Z]. Reads and writes
    check the bounds: what C++ leaves undefined past the end is a [Crash]. *)
From Stdlib Require Import Ascii.
From S2P Require Import Prelude.
Local Open Scope Z_scope.

(** ** Integers as byte lists, least significant byte first *)

Fixpoint le_split (n : nat) (z : Z) : list Z :=
  match n with
  | O => []
  | S n => z mod 256 :: le_split n (z / 256)
  end.

Fixpoint le_combine (bs : list Z) : Z :=
  match bs with
  | [] => 0
  | b :: bs => b + 256 * le_combine bs
  end.

Definition is_byte (b : Z) : Prop := 0 <= b < 256.

(** ** Buffer accesses *)

Definition read_at (m : list Z) (pos : Z) (n : nat) : outcome (list Z) :=
  if (0 <=? pos) && (pos + Z.of_nat n <=? Z.of_nat (length m))
  then Ok (take n (drop (Z.to_nat pos) m))
  else Crash OutOfBounds.

Definition memcpy (m : list Z) (pos : Z) (src : list Z) : outcome (list Z) :=
  if (0 <=? pos) && (pos + Z.of_nat (length src) <=? Z.of_nat (length m))
  then Ok (take (Z.to_nat pos) m ++ src ++ drop (Z.to_nat pos + length src) m)
  else Crash OutOfBounds.

(** A little-endian unsigned scalar of [n] bytes, and the signed one. *)
Definition read_le (m : list Z) (pos : Z) (n : nat) : outcome Z :=
  bs ← read_at m pos n; mret (le_combine bs).
Definition read_sle (m : list Z) (pos : Z) (n : nat) : outcome Z :=
  z ← read_le m pos n; mret (swrap (8 * Z.of_nat n) z).

(** ** Strings and bytes *)

Fixpoint string_bytes (s : string) : list Z :=
  match s with
  | EmptyString => []
  | String c s => Z.of_N (N_of_ascii c) :: string_bytes s
  end.

Fixpoint bytes_string (bs : list Z) : string :=
  match bs with
  | [] => EmptyString
  | b :: bs => String (ascii_of_N (Z.to_N b)) (bytes_string bs)
  end.

(** ** Lemmas *)

Lemma length_le_split n z : length (le_split n z) = n.
Proof. revert z. induction n; intros z; simpl; auto. Qed.

Lemma le_split_bytes n z : Forall is_byte (le_split n z).
Proof.
  revert z. induction n as [|n IH]; intros z; constructor; [|apply IH].
  apply Z.mod_pos_bound. lia.
Qed.

Lemma pow256_succ n : 256 ^ Z.of_nat (S n) = 256 * 256 ^ Z.of_nat n.
Proof. rewrite Nat2Z.inj_succ, Z.pow_succ_r; lia. Qed.

Lemma le_combine_split n z : le_combine (le_split n z) = z mod 256 ^ Z.of_nat n.
Proof.
  revert z. induction n as [|n IH]; intros z; [by rewrite Z.mod_1_r|].
  cbn [le_split le_combine]. rewrite IH, pow256_succ.
  rewrite (Z.rem_mul_r z 256 (256 ^ Z.of_nat n)) by lia. lia.
Qed.

Lemma le_split_combine bs : Forall is_byte bs -> le_split (length bs) (le_combine bs) = bs.
Proof.
  induction 1 as [|b bs Hb _ IH]; [done|]. cbn [length le_split le_combine].
  unfold is_byte in Hb. rewrite (Z.mul_comm 256), Z.mod_add, Z.mod_small by lia.
  rewrite Z.div_add, Z.div_small by lia. by rewrite Z.add_0_l, IH.
Qed.

Lemma le_combine_range bs : Forall is_byte bs -> 0 <= le_combine bs < 256 ^ Z.of_nat (length bs).
Proof.
  induction 1 as [|b bs Hb _ IH]; [simpl; lia|].
  cbn [length le_combine]. rewrite pow256_succ. unfold is_byte in Hb. lia.
Qed.

Lemma le_split_small n z : 0 <= z < 256 ^ Z.of_nat n -> le_combine (le_split n z) = z.
Proof. intros. by rewrite le_combine_split, Z.mod_small. Qed.

Section access.
Implicit Types m x y src : list Z.

Lemma read_at_Ok m pos n bs : read_at m pos n = Ok bs <->
  0 <= pos /\ pos + Z.of_nat n <= Z.of_nat (length m) /\ bs = take n (drop (Z.to_nat pos) m).
Proof.
  unfold read_at. split.
  - destruct (_ && _) eqn:E; [|done]. intros [= <-]. split_and!; [lia|lia|done].
  - intros (? & ? & ->). by replace (_ && _) with true by lia.
Qed.

(** Reads are stable when bytes are added in front or behind. *)
Lemma read_at_shift x m pos n : 0 <= pos ->
  read_at (x ++ m) (Z.of_nat (length x) + pos) n = read_at m pos n.
Proof.
  intros Hp. unfold read_at. rewrite length_app.
  replace (Z.to_nat (Z.of_nat (length x) + pos)) with (length x + Z.to_nat pos)%nat by lia.
  rewrite <- drop_drop, drop_app_length.
  destruct (Z.leb_spec (pos + Z.of_nat n) (Z.of_nat (length m))).
  - by rewrite !(proj2 (Z.leb_le _ _)) by lia.
  - rewrite (proj2 (Z.leb_gt _ (Z.of_nat (length x + length m)))) by lia.
    by rewrite !andb_false_r.
Qed.

Lemma read_at_app_l m y pos n bs : read_at m pos n = Ok bs -> read_at (m ++ y) pos n = Ok bs.
Proof.
  rewrite !read_at_Ok, length_app. intros (? & ? & ->). split; [done|split; [lia|]].
  rewrite drop_app_le by lia. rewrite take_app_le; [done|]. rewrite length_drop. lia.
Qed.

Lemma read_at_mid x src y n : length src = n ->
  read_at (x ++ src ++ y) (Z.of_nat (length x)) n = Ok src.
Proof.
  intros <-. apply read_at_Ok. rewrite !length_app. split; [lia|split; [lia|]].
  by rewrite Nat2Z.id, drop_app_length, take_app_length.
Qed.

Lemma read_at_length m pos n bs : read_at m pos n = Ok bs -> length bs = n.
Proof. intros (? & ? & ->)%read_at_Ok. rewrite length_take, length_drop. lia. Qed.

Lemma memcpy_Ok m pos src m' : memcpy m pos src = Ok m' <->
  0 <= pos /\ pos + Z.of_nat (length src) <= Z.of_nat (length m) /\
  m' = take (Z.to_nat pos) m ++ src ++ drop (Z.to_nat pos + length src) m.
Proof.
  unfold memcpy. split.
  - destruct (_ && _) eqn:E; [|done]. intros [= <-]. split_and!; [lia|lia|done].
  - intros (? & ? & ->). by replace (_ && _) with true by lia.
Qed.

Lemma memcpy_crash m pos src : Z.of_nat (length m) < pos + Z.of_nat (length src) ->
  memcpy m pos src = Crash OutOfBounds.
Proof. intros. unfold memcpy. destruct (_ && _) eqn:E; [lia|done]. Qed.

Lemma memcpy_length m pos src m' : memcpy m pos src = Ok m' -> length m' = length m.
Proof.
  intros (? & ? & ->)%memcpy_Ok. rewrite !length_app, length_take, length_drop. lia.
Qed.

(** Copying over the front of a buffer. *)
Lemma memcpy_0 m src : (length src <= length m)%nat ->
  memcpy m 0 src = Ok (src ++ drop (length src) m).
Proof. intros. apply memcpy_Ok. split; [lia|split; [lia|done]]. Qed.

(** Copying right behind a prefix. *)
Lemma memcpy_app x m src : (length src <= length m)%nat ->
  memcpy (x ++ m) (Z.of_nat (length x)) src = Ok (x ++ src ++ drop (length src) m).
Proof.
  intros. apply memcpy_Ok. rewrite length_app. split; [lia|split; [lia|]].
  rewrite Nat2Z.id, take_app_length, <- drop_drop, drop_app_length. done.
Qed.
End access.

Lemma read_le_shift x m pos n : 0 <= pos ->
  read_le (x ++ m) (Z.of_nat (length x) + pos) n = read_le m pos n.
Proof. intros. unfold read_le. by rewrite read_at_shift. Qed.

Lemma read_le_app_l m y pos n z : read_le m pos n = Ok z -> read_le (m ++ y) pos n = Ok z.
Proof.
  unfold read_le. destruct (read_at m pos n) as [bs|] eqn:E; [|done].
  by rewrite (read_at_app_l _ y _ _ _ E).
Qed.

Lemma read_le_mid x z y n : 0 <= z < 256 ^ Z.of_nat n ->
  read_le (x ++ le_split n z ++ y) (Z.of_nat (length x)) n = Ok z.
Proof.
  intros. unfold read_le. rewrite read_at_mid by apply length_le_split.
  cbn. by rewrite le_split_small.
Qed.

Lemma bytes_string_bytes s : bytes_string (string_bytes s) = s.
Proof.
  induction s as [|c s IH]; [done|]. cbn. by rewrite N2Z.id, ascii_N_embedding, IH.
Qed.

Lemma length_string_bytes s : length (string_bytes s) = String.length s.
Proof. induction s; simpl; auto. Qed.

Lemma string_bytes_bytes s : Forall is_byte (string_bytes s).
Proof.
  induction s as [|c s IH]; constructor; [|done].
  unfold is_byte. pose proof (N_ascii_bounded c). lia.
Qed.
