(* ===== verification/Header.v ===== *)
(** * src/message/header.hpp: the packet header

    Eight bytes in network order in front of every body: the message type and
    the length of the body. The host's byte order is a parameter: [store32] and
    [load32] are a [uint32_t] in memory, [htobe32]/[be32toh] the conversions of
    portable_endian.h for that host. *)
From S2P Require Import Prelude Bytes.
Local Open Scope Z_scope.

Inductive endian := LittleEndian | BigEndian.

Section host.
Variable host : endian.

Definition store32 (x : Z) : list Z :=
  match host with LittleEndian => le_split 4 x | BigEndian => rev (le_split 4 x) end.

Definition load32 (bs : list Z) : Z :=
  match host with LittleEndian => le_combine bs | BigEndian => le_combine (rev bs) end.

Definition bswap32 (x : Z) : Z := le_combine (rev (le_split 4 x)).

Definition htobe32 (x : Z) : Z :=
  match host with LittleEndian => bswap32 x | BigEndian => x end.

Definition be32toh (x : Z) : Z :=
  match host with LittleEndian => bswap32 x | BigEndian => x end.

Record Header := mkHeader { Type_ : Z; Body_length_ : Z }.

(** [sizeof(struct Header)] under [#pragma pack(4)]: two 4-byte fields. *)
Definition HEADER_SIZE : Z := 4 + 4.

(** Both reads go through the raw pointer [buff]. *)
Definition DecodeHeader (buff : list Z) : outcome Header :=
  t ← read_at buff 0 4;
  l ← read_at buff 4 4;
  mret (mkHeader (be32toh (load32 t)) (be32toh (load32 l))).

Definition EncodeHeader (buff : list Z) (header : Header) : outcome (list Z) :=
  buff ← memcpy buff 0 (store32 (htobe32 (Type_ header)));
  memcpy buff 4 (store32 (htobe32 (Body_length_ header))).

(** A header whose fields are [uint32_t] values. *)
Definition header_ok (h : Header) : Prop :=
  in_range 32 (Type_ h) /\ in_range 32 (Body_length_ h).

(** The bytes of a header on the wire: big endian, whatever the host. *)
Definition header_bytes (h : Header) : list Z :=
  rev (le_split 4 (Type_ h)) ++ rev (le_split 4 (Body_length_ h)).

Lemma length_store32 x : length (store32 x) = 4%nat.
Proof. unfold store32. destruct host; rewrite ?length_rev; apply length_le_split. Qed.

Lemma store_htobe32 x : in_range 32 x -> store32 (htobe32 x) = rev (le_split 4 x).
Proof.
  intros Hx. unfold store32, htobe32. destruct host; [|done]. unfold bswap32.
  rewrite <- (le_split_combine (rev (le_split 4 x))) at 2.
  - by rewrite length_rev, length_le_split.
  - apply Forall_rev, le_split_bytes.
Qed.

Lemma load_be32toh x : in_range 32 x -> be32toh (load32 (rev (le_split 4 x))) = x.
Proof.
  intros Hx. unfold be32toh, load32. destruct host.
  - unfold bswap32. pose proof (le_split_bytes 4 x) as Hb%Forall_rev.
    assert (length (rev (le_split 4 x)) = 4%nat) as Hl by by rewrite length_rev, length_le_split.
    pose proof (le_split_combine _ Hb) as E. rewrite Hl in E.
    rewrite E, rev_involutive. by apply le_split_small.
  - rewrite rev_involutive. by apply le_split_small.
Qed.

(** Eight bytes of room are enough, and only those eight bytes change. *)
Lemma EncodeHeader_Ok buff h : header_ok h -> HEADER_SIZE <= Z.of_nat (length buff) ->
  EncodeHeader buff h = Ok (header_bytes h ++ drop 8 buff).
Proof.
  unfold HEADER_SIZE. intros [Ht Hl] Hlen. unfold EncodeHeader. rewrite !store_htobe32 by done.
  rewrite memcpy_0 by (rewrite length_rev, length_le_split; lia).
  cbn [mbind outcome_bind]. rewrite length_rev, length_le_split.
  pose proof (memcpy_app (rev (le_split 4 (Type_ h))) (drop 4 buff)
    (rev (le_split 4 (Body_length_ h)))) as E.
  rewrite !length_rev, !length_le_split in E.
  change (Z.of_nat 4) with 4 in E. rewrite E by (rewrite length_drop; lia).
  unfold header_bytes. by rewrite <- app_assoc, drop_drop.
Qed.

Lemma DecodeHeader_bytes h rest : header_ok h ->
  DecodeHeader (header_bytes h ++ rest) = Ok h.
Proof.
  intros [Ht Hl]. unfold DecodeHeader, header_bytes. rewrite <- app_assoc.
  pose proof (read_at_mid [] (rev (le_split 4 (Type_ h))) (rev (le_split 4 (Body_length_ h)) ++ rest) 4) as E0.
  cbn [length app] in E0. change (Z.of_nat 0) with 0 in E0.
  rewrite E0 by by rewrite length_rev, length_le_split.
  cbn [mbind outcome_bind].
  pose proof (read_at_mid (rev (le_split 4 (Type_ h))) (rev (le_split 4 (Body_length_ h))) rest 4) as E.
  rewrite !length_rev, !length_le_split in E.
  change (Z.of_nat 4) with 4 in E. rewrite E by done.
  cbn [mbind outcome_bind mret outcome_ret]. rewrite !load_be32toh by done. by destruct h.
Qed.

Lemma DecodeHeader_total buff : HEADER_SIZE <= Z.of_nat (length buff) ->
  exists h, DecodeHeader buff = Ok h.
Proof.
  unfold HEADER_SIZE, DecodeHeader, read_at. intros H.
  rewrite !(proj2 (Z.leb_le _ _)) by lia. simpl. eauto.
Qed.
End host.

Lemma EncodeHeader_length host buff h buff' : EncodeHeader host buff h = Ok buff' ->
  length buff' = length buff.
Proof. intros (b & <-%memcpy_length & E2%memcpy_length)%outcome_bind_Ok. done. Qed.

Lemma DecodeHeader_short host buff : Z.of_nat (length buff) < HEADER_SIZE ->
  DecodeHeader host buff = Crash OutOfBounds.
Proof.
  unfold HEADER_SIZE, DecodeHeader, read_at. intros H.
  rewrite (proj2 (Z.leb_gt (4 + Z.of_nat 4) _)), andb_false_r by lia. by destruct (_ && _).
Qed.

Lemma length_header_bytes h : length (header_bytes h) = 8%nat.
Proof. unfold header_bytes. by rewrite length_app, !length_rev, !length_le_split. Qed.

(** C28: a header written by a host of one byte order is read back unchanged by a
    host of any byte order, the bytes behind it are untouched, and encoding
    fails exactly when the buffer has no room for it. *)
Theorem header_roundtrip (writer reader : endian) (buff : list Z) (h : Header) :
  header_ok h ->
  (HEADER_SIZE <= Z.of_nat (length buff) ->
   exists buff', EncodeHeader writer buff h = Ok buff' /\ length buff' = length buff /\
     drop 8 buff' = drop 8 buff /\ DecodeHeader reader buff' = Ok h) /\
  (Z.of_nat (length buff) < HEADER_SIZE -> EncodeHeader writer buff h = Crash OutOfBounds).
Proof.
  intros Hh. split; intros Hlen.
  - exists (header_bytes h ++ drop 8 buff). unfold HEADER_SIZE in Hlen. split_and!.
    + by apply EncodeHeader_Ok.
    + rewrite length_app, length_header_bytes, length_drop. lia.
    + rewrite drop_app_ge, length_header_bytes by (rewrite length_header_bytes; lia).
      by rewrite drop_0.
    + by apply DecodeHeader_bytes.
  - unfold HEADER_SIZE in Hlen. unfold EncodeHeader.
    destruct (memcpy buff 0 _) as [b|f] eqn:E; cbn.
    + apply memcpy_length in E. apply memcpy_crash. rewrite length_store32. lia.
    + unfold memcpy in E. by case_match; simplify_eq.
Qed.

Lemma header_roundtrip_witness :
  header_ok (mkHeader 3 512) /\
  exists buff', EncodeHeader LittleEndian (replicate 10 7) (mkHeader 3 512) = Ok buff' /\
    length buff' = length (replicate 10 7) /\ drop 8 buff' = drop 8 (replicate 10 7) /\
    DecodeHeader BigEndian buff' = Ok (mkHeader 3 512).
Proof.
  assert (header_ok (mkHeader 3 512)) as Hh by (split; unfold in_range; simpl; lia).
  split; [exact Hh|].
  apply (header_roundtrip LittleEndian BigEndian (replicate 10 7) (mkHeader 3 512) Hh).
  unfold HEADER_SIZE. simpl. lia.
Defined.
