(* ===== verification/Node.v ===== *)
(** * Node states, their message form and the configuration

    [node_state] of src/node.hpp, the [STATE] and [TYPE] enumerations of
    src/message/message_generated.h, [config] of src/config.hpp. *)
From Stdlib Require Import Ascii.
From S2P Require Import Prelude Utils.
Local Open Scope Z_scope.

(** ** Enumerations

    On the wire a state is an [int8_t] that is cast to [STATE] unchecked:
    [STATE_other] stands for the values outside the enumerators. *)
Inductive STATE :=
  | STATE_ALIVE
  | STATE_SUSPECT
  | STATE_DEAD
  | STATE_other (v : Z).

#[global] Instance STATE_eq_dec : EqDecision STATE.
Proof. solve_decision. Defined.

(** The underlying integer, which [<] and [>] on states compare. *)
Definition STATE_val (s : STATE) : Z :=
  match s with
  | STATE_ALIVE => 0
  | STATE_SUSPECT => 1
  | STATE_DEAD => 2
  | STATE_other v => v
  end.

(** [static_cast<STATE>(int8_t)]. *)
Definition STATE_of_int8 (v : Z) : STATE :=
  if v =? 0 then STATE_ALIVE
  else if v =? 1 then STATE_SUSPECT
  else if v =? 2 then STATE_DEAD
  else STATE_other v.

(** [enum TYPE]: the message type in the header. *)
Definition TYPE_PING : Z := 0.
Definition TYPE_PONG : Z := 1.
Definition TYPE_INDIRECTPING : Z := 2.
Definition TYPE_SYNCSTATE : Z := 3.

(** The names of the enumerators, arrays closed by a null pointer, indexed by
    the cast value without a check. *)
Definition EnumNamesSTATE : list (option string) :=
  [Some "ALIVE"; Some "SUSPECT"; Some "DEAD"; None].
Definition EnumNamesTYPE : list (option string) :=
  [Some "PING"; Some "PONG"; Some "INDIRECTPING"; Some "SYNCSTATE"; None].

Definition name_at (names : list (option string)) (i : Z) : outcome (option string) :=
  if i <? 0 then Crash OutOfBounds
  else match names !! Z.to_nat i with Some nm => Ok nm | None => Crash OutOfBounds end.

Definition EnumNameSTATE (e : STATE) : outcome (option string) := name_at EnumNamesSTATE (STATE_val e).
Definition EnumNameTYPE (e : Z) : outcome (option string) := name_at EnumNamesTYPE e.

(** Of the values a peer can send as a state, the three enumerators have a name,
    3 reads the closing null pointer, and every other is out of bounds. *)
Lemma EnumNameSTATE_cast v : in_srange 8 v ->
  EnumNameSTATE (STATE_of_int8 v) =
    if bool_decide (0 <= v <= 2) then Ok (EnumNamesSTATE !!! Z.to_nat v)
    else if v =? 3 then Ok None else Crash OutOfBounds.
Proof.
  intros Hv. unfold EnumNameSTATE, name_at.
  assert (STATE_val (STATE_of_int8 v) = v) as ->.
  { unfold STATE_of_int8. repeat case_match; simpl; lia. }
  destruct (Z.ltb_spec v 0) as [Hneg|Hpos].
  { rewrite bool_decide_eq_false_2 by lia. by rewrite (proj2 (Z.eqb_neq v 3)) by lia. }
  destruct (decide (v <= 3)) as [H3|H3].
  - assert (v = 0 \/ v = 1 \/ v = 2 \/ v = 3) as [->|[->|[->| ->]]] by lia; done.
  - rewrite bool_decide_eq_false_2, (proj2 (Z.eqb_neq v 3)) by lia.
    rewrite lookup_ge_None_2; [done|]. simpl. lia.
Qed.

(** ** node.hpp *)

Record node_state := mkNode {
  Name_ : string;
  IP_ : string;
  Port_ : string;
  Dominant_ : Z;        (* uint64_t *)
  State_ : STATE;
  From_ : string;
  Timestamp_ : Z        (* uint64_t *)
}.

#[global] Instance node_state_eq_dec : EqDecision node_state.
Proof. solve_decision. Defined.

(** The copy constructor and the copy assignment, member by member. *)
Definition copy (other : node_state) : node_state :=
  {| Name_ := Name_ other; IP_ := IP_ other; Port_ := Port_ other;
     Dominant_ := Dominant_ other; State_ := State_ other; From_ := From_ other;
     Timestamp_ := Timestamp_ other |}.

Definition assign (target other : node_state) : node_state :=
  {| Name_ := Name_ other; IP_ := IP_ other; Port_ := Port_ other;
     Dominant_ := Dominant_ other; State_ := State_ other; From_ := From_ other;
     Timestamp_ := Timestamp_ other |}.

(** The single-member assignments the gossiper makes. *)
Definition set_Dominant (d : Z) (n : node_state) : node_state :=
  {| Name_ := Name_ n; IP_ := IP_ n; Port_ := Port_ n; Dominant_ := d; State_ := State_ n;
     From_ := From_ n; Timestamp_ := Timestamp_ n |}.
Definition set_State (s : STATE) (n : node_state) : node_state :=
  {| Name_ := Name_ n; IP_ := IP_ n; Port_ := Port_ n; Dominant_ := Dominant_ n; State_ := s;
     From_ := From_ n; Timestamp_ := Timestamp_ n |}.
Definition set_Timestamp (t : Z) (n : node_state) : node_state :=
  {| Name_ := Name_ n; IP_ := IP_ n; Port_ := Port_ n; Dominant_ := Dominant_ n;
     State_ := State_ n; From_ := From_ n; Timestamp_ := t |}.

Lemma assign_eq target other : assign target other = other.
Proof. by destruct other. Qed.

Lemma copy_eq n : copy n = n.
Proof. by destruct n. Qed.

Lemma STATE_val_int8 s : (exists v, s = STATE_of_int8 v) ->
  STATE_of_int8 (STATE_val s) = s.
Proof. intros [v ->]. unfold STATE_of_int8. repeat case_match; simpl in *; lia || done. Qed.

(** ** The precedence of reports about one node

    A higher dominant wins; at the same dominant the higher state does. *)
Definition stamp (n : node_state) : Z * Z := (Dominant_ n, STATE_val (State_ n)).

Definition stamp_le (a b : Z * Z) : Prop := a.1 < b.1 \/ (a.1 = b.1 /\ a.2 <= b.2).

#[global] Instance stamp_le_dec a b : Decision (stamp_le a b).
Proof. unfold stamp_le. apply _. Defined.

#[global] Instance stamp_le_preorder : PreOrder stamp_le.
Proof.
  split; unfold stamp_le; [intros ?|intros ???]; lia.
Qed.

#[global] Instance stamp_le_antisymm : AntiSymm eq stamp_le.
Proof.
  intros [a1 a2] [b1 b2]; unfold stamp_le; simpl; intros. f_equal; lia.
Qed.

Lemma stamp_le_total a b : stamp_le a b \/ stamp_le b a.
Proof. unfold stamp_le. lia. Qed.

(** ** config.hpp *)

Record config := mkConfig {
  conf_Name : string;
  conf_Addr : string;
  conf_Port : Z;                 (* short *)
  Indirect_checks_ : Z;          (* short *)
  Sync_state_timeout_ : Z;       (* uint32_t *)
  Probe_interval_ : Z;
  Probe_timeout_ : Z;
  Gossip_interval_ : Z;
  Gossip_node_num_ : Z           (* never initialised by the constructor *)
}.

(** The constructor; [junk] is the indeterminate value of [Gossip_node_num_].
    A wrong address terminates the program, and so does a port that [stoi]
    rejects; the result of [stoi] is narrowed to a [short]. *)
Definition config_new (junk : Z) (addr : string) : outcome config :=
  match Split addr ":" with
  | Some [host; port] =>
    match stoi port with
    | Ok p => Ok (mkConfig addr host (i16 p) 1000 0 500 500 1000 junk)
    | Crash _ => Crash Terminated
    end
  | _ => Crash Terminated
  end.

Definition DefaultConfig (junk : Z) : outcome config := config_new junk "127.0.0.1:29011".

(** For a host without a colon and a signed 16-bit port, [host:port] gives a
    configuration with that name, address and port; a larger port is accepted
    too and stored as a negative number that prints as a different port. *)
Theorem config_address (junk p : Z) (host : string) :
  has_char ":" host = false -> 0 <= p < 2 ^ 16 ->
  exists conf, config_new junk (host +:+ String ":" (to_string p)) = Ok conf /\
    conf_Addr conf = host /\ conf_Name conf = host +:+ String ":" (to_string p) /\
    (p < 2 ^ 15 -> to_string (conf_Port conf) = to_string p) /\
    (2 ^ 15 <= p -> conf_Port conf < 0 /\ to_string (conf_Port conf) <> to_string p).
Proof.
  intros Hh Hp.
  assert (Split (host +:+ String ":" (to_string p)) ":" = Some [host; to_string p]) as E.
  { rewrite Split_split_ref. f_equal. apply split_ref_two.
    split_and!; [done|apply to_string_no_colon|]. left. split; [done|].
    by destruct (to_string_nonneg p) as (? & ? & _ & ->); [lia|]. }
  unfold config_new. rewrite E, stoi_to_string_lemma by (unfold in_srange; lia).
  eexists. split; [done|]. cbn. split_and!; [done..| |].
  - intros. by rewrite swrap_small by (unfold in_srange; lia).
  - intros. assert (i16 p = p - 2 ^ 16) as ->.
    { unfold swrap. rewrite <- (Z_mod_plus_full _ (-1)), Z.mod_small; lia. }
    split; [lia|]. apply to_string_sign; lia.
Qed.

Lemma config_address_witness :
  has_char ":" "127.0.0.1" = false /\ 0 <= 40000 < 2 ^ 16 /\
  exists conf, config_new 0 ("127.0.0.1" +:+ String ":" (to_string 40000)) = Ok conf /\
    conf_Addr conf = "127.0.0.1" /\
    conf_Name conf = "127.0.0.1" +:+ String ":" (to_string 40000) /\
    (40000 < 2 ^ 15 -> to_string (conf_Port conf) = to_string 40000) /\
    (2 ^ 15 <= 40000 -> conf_Port conf < 0 /\ to_string (conf_Port conf) <> to_string 40000).
Proof.
  split; [reflexivity|split; [lia|]].
  apply (config_address 0 40000 "127.0.0.1"); [reflexivity|lia].
Defined.
