(* ===== verification/Broadcast.v ===== *)
(** * src/broadcast.hpp: the queue of states to gossip

    [m_] is an [unordered_map]: a list of entries with distinct keys, in
    iteration order. Where a new element lands in that order (and how a rehash
    reorders the others) is the library's choice, the parameter [place]. The
    standard invalidates all iterators in a rehash, the code keeps two across
    insertions; here they go on designating their element, as they do in the
    libraries whose hash maps are lists of nodes. An iterator is the key of its
    element, [None] for [end()]; using an iterator whose element is gone is [Crash
    InvalidIterator]. The mutex only serialises the operations. *)
From S2P Require Import Prelude Node.
Local Open Scope Z_scope.

Abbreviation entry := (string * (node_state * Z))%type.

(** The iteration order of a standard hash map is unspecified: an insertion
    yields some permutation of the old elements and the new one. *)
Class IterationOrder := {
  place : list entry -> entry -> list entry;
  place_perm l e : place l e ≡ₚ e :: l
}.

(** libstdc++ puts the element of an empty bucket in front. *)
#[export] Program Instance place_front : IterationOrder := {| place l e := e :: l |}.
Next Obligation. done. Qed.

Record BroadcastQueue := mkQueue {
  broadcast_multi_ : Z;
  m_ : list entry;
  cur_ : option string;
  peek_ : option string;
  peeked_ : Z
}.

(** The constructor: [cur_ = m_.begin(); peek_ = cur_]. *)
Definition queue_new : BroadcastQueue := mkQueue 3 [] None None 0.

Definition set_m (m : list entry) (q : BroadcastQueue) : BroadcastQueue :=
  mkQueue (broadcast_multi_ q) m (cur_ q) (peek_ q) (peeked_ q).
Definition set_cur (it : option string) (q : BroadcastQueue) : BroadcastQueue :=
  mkQueue (broadcast_multi_ q) (m_ q) it (peek_ q) (peeked_ q).
Definition set_peek (it : option string) (q : BroadcastQueue) : BroadcastQueue :=
  mkQueue (broadcast_multi_ q) (m_ q) (cur_ q) it (peeked_ q).
Definition set_peeked (n : Z) (q : BroadcastQueue) : BroadcastQueue :=
  mkQueue (broadcast_multi_ q) (m_ q) (cur_ q) (peek_ q) n.

(** ** unordered_map operations *)

Definition map_begin (m : list entry) : option string := head (m.*1).

Fixpoint map_find (k : string) (m : list entry) : option (node_state * Z) :=
  match m with
  | [] => None
  | (k', v) :: m' => if decide (k' = k) then Some v else map_find k m'
  end.

(** The iterator after the element with key [k]. *)
Fixpoint map_next (k : string) (m : list entry) : option string :=
  match m with
  | [] => None
  | (k', _) :: m' => if decide (k' = k) then map_begin m' else map_next k m'
  end.

Fixpoint map_update (k : string) (v : node_state * Z) (m : list entry) : list entry :=
  match m with
  | [] => []
  | (k', v') :: m' => if decide (k' = k) then (k, v) :: m' else (k', v') :: map_update k v m'
  end.

Fixpoint map_erase (k : string) (m : list entry) : list entry :=
  match m with
  | [] => []
  | (k', v') :: m' => if decide (k' = k) then m' else (k', v') :: map_erase k m'
  end.

(** [if (it == m_.end()) it = m_.begin();] *)
Definition wrap_end (it : option string) (m : list entry) : option string :=
  match it with None => map_begin m | Some k => Some k end.

Definition deref (k : string) (m : list entry) : M BroadcastQueue (node_state * Z) :=
  match map_find k m with Some v => mret v | None => crash InvalidIterator end.

(** ** The operations *)

(** [std::ceil(std::log10(n))] for [1 <= n <= 10^10] (a [uint32_t] is below
    [10^10]): the least [k] with [n <= 10^k]. *)
Fixpoint ceil_log10_from (fuel : nat) (k n : Z) : Z :=
  match fuel with
  | O => k
  | S fuel => if n <=? 10 ^ k then k else ceil_log10_from fuel (k + 1) n
  end.
Definition ceil_log10 (n : Z) : Z := ceil_log10_from 10 0 n.

Definition pop : M BroadcastQueue (option node_state) :=
  q ← get;
  let cur := wrap_end (cur_ q) (m_ q) in
  modify (set_cur cur) ;;
  match cur with
  | None => mret None
  | Some k =>
    '(rst, times) ← deref k (m_ q);
    (if times - 1 <? 1
     then modify (set_m (map_erase k (m_ q)))
     else modify (set_m (map_update k (rst, times - 1) (m_ q)))) ;;
    modify (set_cur (map_next k (m_ q))) ;;
    mret (Some rst)
  end.

Definition Pop : M BroadcastQueue (option node_state) := pop.

Definition Peek : M BroadcastQueue (option node_state) :=
  q ← get;
  let peek := wrap_end (peek_ q) (m_ q) in
  modify (set_peek peek) ;;
  match peek with
  | None => mret None
  | Some k =>
    if Z.of_nat (length (m_ q)) <=? peeked_ q then mret None
    else
      modify (set_peeked (peeked_ q + 1)) ;;
      '(rst, _) ← deref k (m_ q);
      modify (set_peek (map_next k (m_ q))) ;;
      mret (Some rst)
  end.

Definition ResetPeek : M BroadcastQueue unit :=
  q ← get; modify (set_peek (cur_ q)) ;; modify (set_peeked 0).

(** [while (peeked_ > 0) { pop(); --peeked_; }]: every turn lowers [peeked_]. *)
Fixpoint apply_loop (fuel : nat) : M BroadcastQueue unit :=
  match fuel with
  | O => mret tt
  | S fuel =>
    q ← get;
    if 0 <? peeked_ q then
      _ ← pop;
      q ← get;
      modify (set_peeked (peeked_ q - 1)) ;;
      apply_loop fuel
    else mret tt
  end.

Definition ApplyPeek : M BroadcastQueue unit :=
  q ← get;
  apply_loop (Z.to_nat (peeked_ q)) ;;
  q ← get;
  modify (set_peek (cur_ q)).

(** The test that lets a message replace the queued one of the same node. *)
Definition supersedes (msg old : node_state) : bool :=
  (Dominant_ old <? Dominant_ msg)
  || ((STATE_val (State_ old) <? STATE_val (State_ msg)) && (Dominant_ msg =? Dominant_ old)).

Definition Push `{IterationOrder} (msg : node_state) (node_num : Z) : M BroadcastQueue unit :=
  let node_num := if node_num <=? 1 then 2 else node_num in
  let key := Name_ msg in
  q ← get;
  let times := broadcast_multi_ q * ceil_log10 node_num in
  match map_find key (m_ q) with
  | None => modify (set_m (place (m_ q) (key, (msg, times))))
  | Some (old, _) =>
    when (supersedes msg old) (modify (set_m (map_update key (msg, times) (m_ q))))
  end.

Definition Distinct : M BroadcastQueue Z :=
  q ← get; mret (Z.of_nat (length (m_ q))).

(** Up to [n] peeks, stopped by the first null: the loop around [Peek] in
    [gossiper::appendGossipMsg]. *)
Fixpoint peek_n (n : nat) : M BroadcastQueue (list node_state) :=
  match n with
  | O => mret []
  | S n =>
    r ← Peek;
    match r with
    | None => mret []
    | Some msg => rest ← peek_n n; mret (msg :: rest)
    end
  end.

Fixpoint pop_n (n : nat) : M BroadcastQueue (list node_state) :=
  match n with
  | O => mret []
  | S n =>
    r ← pop;
    match r with
    | None => mret []
    | Some msg => rest ← pop_n n; mret (msg :: rest)
    end
  end.

(** ** Abstract specification: a ring served from its head

    The cyclic list of the entries as seen from an iterator. [pop] takes the
    head: it comes back at the tail with its counter lowered, or leaves. *)
Fixpoint from (k : string) (m : list entry) : list entry :=
  match m with
  | [] => []
  | e :: m' => if decide (e.1 = k) then m else from k m'
  end.

Fixpoint before (k : string) (m : list entry) : list entry :=
  match m with
  | [] => []
  | e :: m' => if decide (e.1 = k) then [] else e :: before k m'
  end.

Definition rotate (it : option string) (m : list entry) : list entry :=
  match it with None => m | Some k => from k m ++ before k m end.

Definition ring (q : BroadcastQueue) : list entry := rotate (cur_ q) (m_ q).

Definition served (e : entry) : list entry :=
  let '(k, (msg, times)) := e in if times - 1 <? 1 then [] else [(k, (msg, times - 1))].

Definition msg_of (e : entry) : node_state := e.2.1.

Definition ring_pop (r : list entry) : option node_state * list entry :=
  match r with [] => (None, []) | e :: r' => (Some (msg_of e), r' ++ served e) end.

(** Remaining transmissions of the message of node [k]. *)
Definition remaining (k : string) (m : list entry) : Z :=
  match map_find k m with Some (_, times) => times | None => 0 end.

(** An iterator is [end()] or designates an element. *)
Definition valid_iter (it : option string) (m : list entry) : Prop :=
  match it with None => True | Some k => k ∈ m.*1 end.

Definition entry_ok (e : entry) : Prop := Name_ (msg_of e) = e.1 /\ 1 <= e.2.2.

Record queue_wf (q : BroadcastQueue) : Prop := {
  wf_keys : NoDup ((m_ q).*1);
  wf_entries : Forall entry_ok (m_ q);
  wf_cur : valid_iter (cur_ q) (m_ q);
  wf_multi : broadcast_multi_ q = 3
}.

(** No peek is pending: what [ResetPeek] and [ApplyPeek] establish. *)
Definition quiescent (q : BroadcastQueue) : Prop := peeked_ q = 0 /\ peek_ q = cur_ q.

(** ** Lemmas on the map representation *)

Section map.
Implicit Types (m A B : list entry) (k : string) (v w : node_state * Z).

Lemma split_at k m : k ∈ m.*1 -> exists A v B, m = A ++ (k, v) :: B /\ k ∉ A.*1.
Proof.
  induction m as [|[k' v'] m IH]; [by intros ?%not_elem_of_nil|]. intros Hk.
  destruct (decide (k' = k)) as [->|Hne].
  { exists [], v', m. split; [done|apply not_elem_of_nil]. }
  destruct IH as (A & v & B & -> & HA); [set_solver|].
  exists ((k', v') :: A), v, B. split; [done|set_solver].
Qed.

Section at_key.
Context (A B : list entry) (k : string) (v : node_state * Z) (HA : k ∉ A.*1).

Ltac at_key := revert HA; induction A as [|[k' v'] A' IH]; intros HA; simpl in *;
  [by rewrite decide_True|rewrite decide_False by set_solver; try f_equal; apply IH; set_solver].

Lemma find_at : map_find k (A ++ (k, v) :: B) = Some v.
Proof. at_key. Qed.
Lemma next_at : map_next k (A ++ (k, v) :: B) = map_begin B.
Proof. at_key. Qed.
Lemma update_at w : map_update k w (A ++ (k, v) :: B) = A ++ (k, w) :: B.
Proof. at_key. Qed.
Lemma erase_at : map_erase k (A ++ (k, v) :: B) = A ++ B.
Proof. at_key. Qed.
Lemma from_at : from k (A ++ (k, v) :: B) = (k, v) :: B.
Proof. at_key. Qed.
Lemma before_at : before k (A ++ (k, v) :: B) = A.
Proof. at_key. Qed.
End at_key.

Lemma find_None k m : map_find k m = None <-> k ∉ m.*1.
Proof.
  induction m as [|[k' v'] m IH]; simpl; [split; [intros _; apply not_elem_of_nil|done]|].
  rewrite not_elem_of_cons. case_decide; naive_solver.
Qed.

Lemma find_Some k v m : NoDup (m.*1) -> map_find k m = Some v <-> (k, v) ∈ m.
Proof.
  induction m as [|[k' v'] m IH]; simpl; intros Hnd.
  { split; [done|by intros ?%not_elem_of_nil]. }
  apply NoDup_cons in Hnd as [Hk' Hnd]. rewrite elem_of_cons. case_decide as Hd.
  - subst. split; [intros [= ->]; by left|]. intros [[= ->]|Hin]; [done|].
    destruct Hk'. change k with ((k, v).1). by apply list_elem_of_fmap_2.
  - rewrite IH by done. naive_solver.
Qed.

Lemma find_perm k m m' : m ≡ₚ m' -> NoDup (m.*1) -> map_find k m = map_find k m'.
Proof.
  intros Hp Hnd. apply option_eq. intros v. rewrite !find_Some; [by rewrite Hp| |done].
  by rewrite <- Hp.
Qed.

Lemma find_app k A B : map_find k (A ++ B) =
  match map_find k A with Some v => Some v | None => map_find k B end.
Proof. induction A as [|[k' v'] A IH]; simpl; [done|]. by case_decide. Qed.

Lemma find_update k k' w m : k ∈ m.*1 ->
  map_find k' (map_update k w m) = if decide (k' = k) then Some w else map_find k' m.
Proof.
  intros (A & v & B & -> & HA)%split_at. rewrite update_at by done.
  case_decide as Hd; [subst; by apply find_at|].
  rewrite !find_app. simpl. by rewrite !decide_False by done.
Qed.

Lemma update_keys k w m : (map_update k w m).*1 = m.*1.
Proof.
  induction m as [|[k' v'] m IH]; simpl; [done|]. case_decide; simpl; [by subst|by f_equal].
Qed.

Lemma rotate_perm it m : rotate it m ≡ₚ m.
Proof.
  destruct it as [k|]; [|done]. cbn [rotate]. rewrite Permutation_app_comm.
  assert (before k m ++ from k m = m) as ->; [|done].
  induction m as [|e m IH]; simpl; [done|]. case_decide; simpl; [done|by rewrite IH].
Qed.

Lemma rotate_next A B k v : k ∉ A.*1 -> NoDup ((A ++ (k, v) :: B).*1) ->
  rotate (map_begin B) (A ++ (k, v) :: B) = B ++ A ++ [(k, v)].
Proof.
  intros HA Hnd. destruct B as [|[k' w] B]; [done|]. simpl. unfold map_begin. simpl.
  replace (A ++ (k, v) :: (k', w) :: B) with ((A ++ [(k, v)]) ++ (k', w) :: B)
    in * by by rewrite <- app_assoc.
  assert (k' ∉ (A ++ [(k, v)]).*1).
  { rewrite fmap_app in Hnd. apply NoDup_app in Hnd as (_ & Hd & _). intros Hin.
    apply (Hd _ Hin). set_solver. }
  by rewrite from_at, before_at.
Qed.

Lemma rotate_erased A B : NoDup ((A ++ B).*1) -> rotate (map_begin B) (A ++ B) = B ++ A.
Proof.
  intros Hnd. destruct B as [|[k' w] B]; [simpl; by rewrite app_nil_r|].
  assert (k' ∉ A.*1).
  { rewrite fmap_app in Hnd. apply NoDup_app in Hnd as (_ & Hd & _). intros Hin.
    apply (Hd _ Hin). set_solver. }
  unfold map_begin. simpl. by rewrite from_at, before_at.
Qed.

Lemma valid_begin A B : valid_iter (map_begin B) (A ++ B).
Proof. destruct B as [|[k w] B]; simpl; [done|]. rewrite fmap_app. set_solver. Qed.

(** The element an iterator designates once [end()] wrapped to [begin()]. *)
Lemma iter_cases it m : valid_iter it m ->
  (m = [] /\ wrap_end it m = None) \/
  exists A k v B, m = A ++ (k, v) :: B /\ (k ∉ A.*1) /\
    wrap_end it m = Some k /\
    rotate it m = (k, v) :: B ++ A.
Proof.
  destruct it as [k|]; simpl.
  - intros (A & v & B & -> & HA)%split_at. right. exists A, k, v, B.
    by rewrite from_at, before_at.
  - intros _. destruct m as [|[k v] m]; [by left|]. right.
    exists [], k, v, m. split_and!; [done|apply not_elem_of_nil|done|by rewrite app_nil_r].
Qed.
End map.

(** ** The operations implement the ring *)

Definition queue_eta (q : BroadcastQueue) :
  q = mkQueue (broadcast_multi_ q) (m_ q) (cur_ q) (peek_ q) (peeked_ q).
Proof. by destruct q. Qed.

Lemma pop_empty q : m_ q = [] -> cur_ q = None -> pop q = Ok (None, set_cur None q).
Proof. intros Hm Hc. unfold pop. run. by rewrite Hc, Hm. Qed.

(** One [pop] at a decomposed queue. *)
Lemma pop_at q A k msg times B :
  m_ q = A ++ (k, (msg, times)) :: B -> k ∉ A.*1 ->
  wrap_end (cur_ q) (m_ q) = Some k ->
  pop q = Ok (Some msg, mkQueue (broadcast_multi_ q)
    (A ++ served (k, (msg, times)) ++ B) (map_begin B) (peek_ q) (peeked_ q)).
Proof.
  intros Hm HA Hc. unfold pop. run. rewrite Hc, Hm. unfold deref. rewrite find_at by done. run.
  rewrite next_at by done. unfold served.
  destruct (times - 1 <? 1); [by rewrite erase_at|by rewrite update_at].
Qed.

Lemma NoDup_keys_erase (A B : list entry) e : NoDup ((A ++ e :: B).*1) -> NoDup ((A ++ B).*1).
Proof.
  rewrite !fmap_app. cbn. rewrite !NoDup_app, NoDup_cons. set_solver.
Qed.

Lemma NoDup_served (A B : list entry) e :
  NoDup ((A ++ e :: B).*1) -> NoDup ((A ++ served e ++ B).*1).
Proof.
  destruct e as [k [msg times]]. unfold served. case_match; [apply NoDup_keys_erase|].
  by rewrite !fmap_app.
Qed.

Lemma pop_spec q : queue_wf q ->
  exists q', pop q = Ok ((ring_pop (ring q)).1, q') /\ ring q' = (ring_pop (ring q)).2 /\
    queue_wf q' /\ peek_ q' = peek_ q /\ peeked_ q' = peeked_ q.
Proof.
  intros [Hnd Hok Hcur Hmul].
  destruct (iter_cases _ _ Hcur) as [[Hm Hc]|(A & k & [msg times] & B & Hm & HA & Hc & Hr)].
  - exists (set_cur None q). destruct (cur_ q) as [k|] eqn:E.
    { rewrite Hm in Hcur. by apply not_elem_of_nil in Hcur. }
    rewrite pop_empty by done. unfold ring. rewrite E, Hm. cbn [rotate ring_pop fst snd].
    split_and!; [done|by cbn; rewrite Hm| |done..].
    by split.
  - rewrite (pop_at q A k msg times B Hm HA Hc). eexists. split; [unfold ring; by rewrite Hr|].
    rewrite Hm in Hnd, Hok.
    apply Forall_app in Hok as [HokA [[Hk Ht] HokB]%Forall_cons].
    split_and!; [|split|done..]; cbn [m_ cur_ broadcast_multi_ set_cur set_m].
    + unfold ring at 1. cbn [m_ cur_]. unfold ring. rewrite Hr. cbn [ring_pop snd].
      unfold served. case_match; simpl.
      * rewrite app_nil_r. apply rotate_erased. eapply NoDup_keys_erase, Hnd.
      * rewrite rotate_next; [by rewrite app_assoc|done|]. by rewrite fmap_app in *.
    + apply NoDup_served, Hnd.
    + apply Forall_app; split; [done|]. apply Forall_app; split; [|done].
      unfold served. cbn in Ht, Hk. case_match; [done|]. repeat constructor; [done|]. cbn. lia.
    + rewrite app_assoc. apply valid_begin.
    + done.
Qed.

(** [n] services of the ring: what is sent and what is left. *)
Fixpoint ring_pop_n (n : nat) (r : list entry) : list node_state * list entry :=
  match n, r with
  | S n, e :: r' =>
    let '(out, r'') := ring_pop_n n (r' ++ served e) in (msg_of e :: out, r'')
  | _, _ => ([], r)
  end.

Lemma ring_pop_n_nil n : ring_pop_n n [] = ([], []).
Proof. by destruct n. Qed.

Lemma ring_pop_n_le n r : (n <= length r)%nat ->
  ring_pop_n n r = (msg_of <$> take n r, drop n r ++ (take n r ≫= served)).
Proof.
  revert r. induction n as [|n IH]; intros r Hn; [by rewrite drop_0, app_nil_r|].
  destruct r as [|e r]; simpl in Hn; [lia|]. cbn [ring_pop_n].
  rewrite IH by (rewrite length_app; lia). rewrite take_app_le, drop_app_le by lia.
  cbn [take drop fmap list_fmap]. by rewrite bind_cons, <- app_assoc.
Qed.

Lemma pop_n_spec n q : queue_wf q ->
  exists q', pop_n n q = Ok ((ring_pop_n n (ring q)).1, q') /\
    ring q' = (ring_pop_n n (ring q)).2 /\ queue_wf q'.
Proof.
  revert q. induction n as [|n IH]; intros q Hwf; [by exists q|].
  destruct (pop_spec q Hwf) as (q1 & E & Hr & Hwf1 & _). cbn [pop_n].
  rewrite (bind_Ok _ _ _ _ _ E). destruct (ring q) as [|e r] eqn:Eq; cbn in *.
  - by exists q1.
  - destruct (IH q1 Hwf1) as (q2 & E2 & Hr2 & Hwf2). exists q2.
    rewrite (bind_Ok _ _ _ _ _ E2), <- Hr. by destruct (ring_pop_n n (ring q1)).
Qed.

Lemma set_peeked_wf n q : queue_wf q -> queue_wf (set_peeked n q).
Proof. by intros []. Qed.

Lemma apply_loop_spec n q : queue_wf q -> peeked_ q = Z.of_nat n ->
  exists q', apply_loop n q = Ok (tt, q') /\ ring q' = (ring_pop_n n (ring q)).2 /\
    queue_wf q' /\ peeked_ q' = 0.
Proof.
  revert q. induction n as [|n IH]; intros q Hwf Hn; [by exists q|].
  destruct (pop_spec q Hwf) as (q1 & E & Hr & Hwf1 & _ & Hpd).
  destruct (IH (set_peeked (peeked_ q1 - 1) q1)) as (q2 & E2 & Hr2 & Hwf2 & Hz);
    [by apply set_peeked_wf|cbn; lia|].
  exists q2. split_and!; [|rewrite Hr2|done..].
  - cbn [apply_loop]. run. rewrite (proj2 (Z.ltb_lt 0 (peeked_ q))) by lia. by rewrite E.
  - change (ring (set_peeked (peeked_ q1 - 1) q1)) with (ring q1). rewrite Hr.
    cbn [ring_pop_n]. destruct (ring q) as [|e r]; cbn; [by rewrite ring_pop_n_nil|].
    by destruct (ring_pop_n n (r ++ served e)).
Qed.

(** Peeking walks the same ring without changing it. *)
Lemma Peek_spec q : NoDup ((m_ q).*1) -> valid_iter (peek_ q) (m_ q) -> 0 <= peeked_ q ->
  exists r q', Peek q = Ok (r, q') /\ m_ q' = m_ q /\ cur_ q' = cur_ q /\
    broadcast_multi_ q' = broadcast_multi_ q /\ valid_iter (peek_ q') (m_ q) /\
    match rotate (peek_ q) (m_ q) with
    | e :: rest =>
      if Z.of_nat (length (m_ q)) <=? peeked_ q
      then r = None /\ peeked_ q' = peeked_ q
      else r = Some (msg_of e) /\ peeked_ q' = peeked_ q + 1 /\
           rotate (peek_ q') (m_ q) = rest ++ [e]
    | [] => r = None /\ peeked_ q' = peeked_ q
    end.
Proof.
  intros Hnd Hpk H0.
  destruct (iter_cases _ _ Hpk) as [[Hm Hc]|(A & k & [msg times] & B & Hm & HA & Hc & Hr)].
  - exists None, (set_peek None q). unfold Peek. run. rewrite Hc. split_and!; [done..|].
    destruct (rotate (peek_ q) (m_ q)) as [|e l] eqn:E; [done|].
    pose proof (rotate_perm (peek_ q) (m_ q)) as Hp. rewrite E, Hm in Hp.
    by apply Permutation_nil_r in Hp.
  - rewrite Hr. unfold Peek. run. rewrite Hc.
    destruct (Z.of_nat (length (m_ q)) <=? peeked_ q).
    + eexists None, _. split; [done|]. cbn. split_and!; try done.
      rewrite Hm, fmap_app. set_solver.
    + rewrite Hm. unfold deref. rewrite find_at, next_at by done. run.
      eexists _, _. split; [done|]. cbn. split_and!; try done.
      * change (A ++ (k, (msg, times)) :: B) with (A ++ [(k, (msg, times))] ++ B).
        rewrite app_assoc. apply valid_begin.
      * rewrite rotate_next; [by rewrite app_assoc|done|by rewrite <- Hm].
Qed.

Lemma peek_n_spec n q : NoDup ((m_ q).*1) -> valid_iter (peek_ q) (m_ q) -> 0 <= peeked_ q ->
  let j := Nat.min n (length (m_ q) - Z.to_nat (peeked_ q)) in
  exists q', peek_n n q = Ok (msg_of <$> take j (rotate (peek_ q) (m_ q)), q') /\
    m_ q' = m_ q /\ cur_ q' = cur_ q /\ broadcast_multi_ q' = broadcast_multi_ q /\
    peeked_ q' = peeked_ q + Z.of_nat j.
Proof.
  revert q. induction n as [|n IH]; intros q Hnd Hpk H0 j.
  { exists q. subst j. cbn. split_and!; [done..|lia]. }
  destruct (Peek_spec q Hnd Hpk H0) as (r & q1 & E & Hm & Hcu & Hmu & Hpk1 & Hr).
  pose proof (Permutation_length (rotate_perm (peek_ q) (m_ q))) as Hlen.
  cbn [peek_n]. rewrite (bind_Ok _ _ _ _ _ E). subst j.
  destruct (rotate (peek_ q) (m_ q)) as [|e l] eqn:Er; cbn [length] in Hlen.
  { destruct Hr as [-> Hp]. exists q1. rewrite <- Hlen.
    replace (Nat.min (S n) (0 - _)) with 0%nat by lia. split_and!; [done..|lia]. }
  destruct (Z.leb_spec (Z.of_nat (length (m_ q))) (peeked_ q)).
  { destruct Hr as [-> Hp]. exists q1.
    replace (Nat.min (S n) _) with 0%nat by lia. split_and!; [done..|lia]. }
  destruct Hr as (-> & Hp & Hrot).
  destruct (IH q1) as (q2 & E2 & Hm2 & Hc2 & Hmu2 & Hp2); [by rewrite Hm|by rewrite Hm|lia|].
  rewrite Hm, Hrot, Hp in *.
  replace (Nat.min (S n) (length (m_ q) - Z.to_nat (peeked_ q))) with
    (S (Nat.min n (length (m_ q) - Z.to_nat (peeked_ q + 1)))) by lia.
  exists q2. rewrite (bind_Ok _ _ _ _ _ E2). split_and!; [|congruence..|lia].
  cbn [take fmap list_fmap]. rewrite take_app_le by lia. done.
Qed.

(** ** Push *)

Lemma ceil_log10_from_spec fuel k n : 0 <= k -> n <= 10 ^ (k + Z.of_nat fuel) ->
  (k = 0 \/ 10 ^ (k - 1) < n) ->
  let r := ceil_log10_from fuel k n in
  k <= r /\ n <= 10 ^ r /\ (r = 0 \/ 10 ^ (r - 1) < n).
Proof.
  revert k. induction fuel as [|fuel IH]; intros k Hk Hn Hlow; cbn [ceil_log10_from].
  { rewrite Z.add_0_r in Hn. auto with lia. }
  destruct (Z.leb_spec n (10 ^ k)); [auto with lia|].
  destruct (IH (k + 1)) as (? & ? & ?); [lia|by replace (k + 1 + _) with (k + Z.of_nat (S fuel)) by lia| |].
  { right. by replace (k + 1 - 1) with k by lia. }
  split_and!; [lia|done..].
Qed.

(** The integer function is the ceiling of the logarithm. *)
Lemma ceil_log10_spec n : 1 <= n < 2 ^ 32 ->
  0 <= ceil_log10 n /\ n <= 10 ^ ceil_log10 n /\ (2 <= n -> 10 ^ (ceil_log10 n - 1) < n).
Proof.
  intros Hn. destruct (ceil_log10_from_spec 10 0 n) as (H0 & H1 & H2); [lia|simpl; lia|by left|].
  fold (ceil_log10 n) in *. split_and!; [done..|]. intros Hn2. destruct H2 as [H2|H2]; [|done].
  rewrite H2 in H1. simpl in H1. lia.
Qed.

Lemma ceil_log10_pos n : 2 <= n < 2 ^ 32 -> 1 <= ceil_log10 n.
Proof.
  intros Hn. destruct (ceil_log10_spec n) as (H0 & H1 & _); [lia|].
  destruct (decide (ceil_log10 n = 0)) as [E|]; [|lia]. rewrite E in H1. simpl in H1. lia.
Qed.

Lemma supersedes_stamp msg old : supersedes msg old = true <-> ~ stamp_le (stamp msg) (stamp old).
Proof. unfold supersedes, stamp_le, stamp; simpl. lia. Qed.

(** Times a message of a cluster of [node_num] nodes is sent. *)
Definition push_times (node_num : Z) : Z :=
  3 * ceil_log10 (if node_num <=? 1 then 2 else node_num).

Definition push_entry (msg : node_state) (node_num : Z) (old : option (node_state * Z)) :
    node_state * Z :=
  match old with
  | Some (o, t) => if supersedes msg o then (msg, push_times node_num) else (o, t)
  | None => (msg, push_times node_num)
  end.

Lemma push_times_pos n : 0 <= n < 2 ^ 32 -> 3 <= push_times n.
Proof.
  intros Hn. unfold push_times. pose proof (ceil_log10_pos (if n <=? 1 then 2 else n)).
  case_match; lia.
Qed.

Lemma valid_iter_keys it m m' : m.*1 ⊆ m'.*1 -> valid_iter it m -> valid_iter it m'.
Proof. destruct it; simpl; set_solver. Qed.

Lemma place_keys `{IterationOrder} m e : (place m e).*1 ≡ₚ e.1 :: m.*1.
Proof. by rewrite place_perm. Qed.

Lemma update_entries k v m : entry_ok (k, v) -> Forall entry_ok m ->
  Forall entry_ok (map_update k v m).
Proof.
  intros Hv. induction 1 as [|[k' v'] m Hk' Hm IH]; simpl; [done|].
  case_decide; constructor; auto.
Qed.

Lemma Push_spec `{IterationOrder} msg node_num q :
  queue_wf q -> 0 <= node_num < 2 ^ 32 ->
  exists q', Push msg node_num q = Ok (tt, q') /\ queue_wf q' /\
    cur_ q' = cur_ q /\ peek_ q' = peek_ q /\ peeked_ q' = peeked_ q /\
    (forall it, valid_iter it (m_ q) -> valid_iter it (m_ q')) /\
    (forall k, map_find k (m_ q') =
      if decide (k = Name_ msg) then Some (push_entry msg node_num (map_find k (m_ q)))
      else map_find k (m_ q)).
Proof.
  intros Hwf Hn. pose proof (push_times_pos _ Hn) as Hpos. destruct Hwf as [Hnd Hok Hcur Hmul].
  unfold Push. run. rewrite Hmul. fold (push_times node_num).
  destruct (map_find (Name_ msg) (m_ q)) as [[old t]|] eqn:E.
  - assert (Name_ msg ∈ (m_ q).*1) as Hin.
    { destruct (decide (Name_ msg ∈ (m_ q).*1)) as [|Hni]; [done|].
      apply find_None in Hni. congruence. }
    destruct (supersedes msg old) eqn:Es.
    + eexists. split; [done|]. cbn. split_and!; [|done..| |].
      * split; cbn; rewrite ?update_keys; [done| |eapply valid_iter_keys; [|done]; by rewrite update_keys|done].
        apply update_entries; [|done]. split; cbn; [done|lia].
      * intros it. apply valid_iter_keys. by rewrite update_keys.
      * intros k. rewrite find_update by done. case_decide as Hk; [|done]. subst.
        rewrite E. cbn. by rewrite Es.
    + eexists. split; [done|]. split_and!; [by split|done..|].
      intros k. case_decide as Hk; [|done]. subst. rewrite E. cbn. by rewrite Es.
  - apply find_None in E as Hni. eexists. split; [done|]. cbn. split_and!; [|done..| |].
    + split; cbn; [|rewrite place_perm| |done].
      * rewrite place_keys. by apply NoDup_cons.
      * constructor; [|done]. split; cbn; [done|lia].
      * eapply valid_iter_keys; [|done]. rewrite place_keys. set_solver.
    + intros it. apply valid_iter_keys. rewrite place_keys. set_solver.
    + intros k.
      assert (NoDup ((place (m_ q) (Name_ msg, (msg, push_times node_num))).*1)) as Hnd'.
      { rewrite place_keys. by apply NoDup_cons. }
      rewrite (find_perm _ _ _ (place_perm _ _)) by done. cbn.
      case_decide as Hk; [subst|by rewrite decide_False by done].
      rewrite decide_True by done. by rewrite E.
Qed.

(** ** Transmission accounting *)

Definition keyed_times (k : string) (e : entry) : Z := if decide (e.1 = k) then e.2.2 else 0.
Definition sum_by (f : entry -> Z) (r : list entry) : Z := foldr (fun e acc => f e + acc) 0 r.

(** How often a list of sent messages names node [k]. *)
Definition sent_count (k : string) (out : list node_state) : Z :=
  Z.of_nat (length (filter (fun m => Name_ m = k) out)).

Lemma sum_by_app f a b : sum_by f (a ++ b) = sum_by f a + sum_by f b.
Proof. induction a as [|e a IH]; simpl; [done|]. rewrite IH. lia. Qed.

Lemma sum_by_perm f a b : a ≡ₚ b -> sum_by f a = sum_by f b.
Proof. induction 1; simpl; lia. Qed.

Lemma sum_by_remaining k m : NoDup (m.*1) -> sum_by (keyed_times k) m = remaining k m.
Proof.
  unfold remaining, sum_by. induction m as [|[k' [msg t]] m IH]; simpl; [done|]. intros [Hk Hnd]%NoDup_cons.
  unfold keyed_times at 1. simpl. rewrite (IH Hnd). case_decide as Hd; [|by case_match].
  subst. apply find_None in Hk. rewrite Hk. lia.
Qed.

Lemma ring_pop_n_count k n r : Forall entry_ok r ->
  let '(out, r') := ring_pop_n n r in
  sent_count k out + sum_by (keyed_times k) r' = sum_by (keyed_times k) r /\ Forall entry_ok r'.
Proof.
  revert r. induction n as [|n IH]; intros r Hok; [done|].
  destruct r as [|[k' [msg t]] r]; [done|]. apply Forall_cons in Hok as [[Hk Ht] Hok].
  cbn in Hk, Ht. cbn [ring_pop_n].
  assert (Forall entry_ok (r ++ served (k', (msg, t)))) as Hok'.
  { apply Forall_app. split; [done|]. unfold served.
    destruct (Z.ltb_spec (t - 1) 1); repeat constructor; cbn; [done|lia]. }
  specialize (IH _ Hok'). destruct (ring_pop_n n _) as [out r'].
  destruct IH as [IH Hr']. split; [|done]. rewrite sum_by_app in IH.
  assert (sum_by (keyed_times k) (served (k', (msg, t))) =
    keyed_times k (k', (msg, t)) - (if decide (k' = k) then 1 else 0)) as Hs.
  { unfold served, keyed_times. destruct (Z.ltb_spec (t - 1) 1); cbn; case_decide; cbn; lia. }
  unfold sent_count. rewrite filter_cons. cbn [msg_of fst snd]. rewrite Hk.
  unfold sent_count in IH. cbn [sum_by foldr] in *. fold (sum_by (keyed_times k) r).
  case_decide; cbn [length]; lia.
Qed.

Lemma sum_times_nonneg r : Forall entry_ok r -> 0 <= sum_by (fun e => e.2.2) r.
Proof. unfold sum_by. induction 1 as [|e r [_ He] _ IH]; simpl; lia. Qed.

Lemma ring_pop_n_drain n r : Forall entry_ok r -> sum_by (fun e => e.2.2) r <= Z.of_nat n ->
  (ring_pop_n n r).2 = [].
Proof.
  revert r. induction n as [|n IH]; intros r Hok Hn.
  - destruct r as [|e r]; [done|]. apply Forall_cons in Hok as [[_ Ht] Hok].
    pose proof (sum_times_nonneg r Hok). unfold sum_by in *. simpl in Hn. lia.
  - destruct r as [|[k [msg t]] r]; [done|]. apply Forall_cons in Hok as [[Hk Ht] Hok].
    cbn [ring_pop_n]. destruct (ring_pop_n n _) as [out r'] eqn:E. cbn.
    change r' with ((out, r').2). rewrite <- E. apply IH.
    + apply Forall_app. split; [done|]. cbn in Hk, Ht. unfold served.
      destruct (Z.ltb_spec (t - 1) 1); repeat constructor; cbn; [done|lia].
    + rewrite sum_by_app. cbn in Hn, Ht. unfold served.
      destruct (Z.ltb_spec (t - 1) 1); cbn; fold (sum_by (fun e : entry => e.2.2) r) in Hn; lia.
Qed.

Lemma ring_entries q : queue_wf q -> Forall entry_ok (ring q).
Proof. intros [_ Hok _ _]. unfold ring. by rewrite rotate_perm. Qed.

Lemma ring_remaining k q : queue_wf q -> sum_by (keyed_times k) (ring q) = remaining k (m_ q).
Proof.
  intros [Hnd _ _ _]. rewrite <- sum_by_remaining by done. apply sum_by_perm, rotate_perm.
Qed.

Lemma length_ring q : length (ring q) = length (m_ q).
Proof. unfold ring. apply Permutation_length, rotate_perm. Qed.

(** A batch of peeks, and the two ways it ends. *)
Lemma peek_batch n q : queue_wf q -> quiescent q ->
  let j := Nat.min n (length (m_ q)) in
  exists q1 q2,
    peek_n n q = Ok (msg_of <$> take j (ring q), q1) /\
    ResetPeek q1 = Ok (tt, q) /\ ApplyPeek q1 = Ok (tt, q2) /\
    ring q2 = drop j (ring q) ++ (take j (ring q) ≫= served) /\ queue_wf q2 /\ quiescent q2.
Proof.
  intros Hwf [Hp0 Hpc] j. pose proof Hwf as [Hnd Hok Hcur Hmul].
  destruct (peek_n_spec n q) as (q1 & E1 & Hm1 & Hc1 & Hmu1 & Hp1); [done|by rewrite Hpc|lia|].
  rewrite Hp0, Nat.sub_0_r, Hpc in *. fold j in E1, Hp1. fold (ring q) in E1.
  assert (queue_wf q1) as Hwf1 by (split; congruence).
  assert (ring q1 = ring q) as Hr1 by (unfold ring; congruence).
  destruct (apply_loop_spec j q1 Hwf1) as (q2 & E2 & Hr2 & Hwf2 & Hz); [lia|].
  rewrite ring_pop_n_le in Hr2 by (rewrite Hr1, length_ring; lia). cbn [fst snd] in Hr2.
  exists q1, (set_peek (cur_ q2) q2). split_and!.
  - done.
  - unfold ResetPeek. run. do 2 f_equal.
    destruct q, q1; unfold set_peek, set_peeked; simpl in *; congruence.
  - unfold ApplyPeek. run. replace (Z.to_nat (peeked_ q1)) with j by lia. by rewrite E2.
  - change (ring (set_peek (cur_ q2) q2)) with (ring q2). by rewrite Hr2, Hr1.
  - by destruct Hwf2.
  - done.
Qed.

(** Total number of transmissions the queue still owes. *)
Definition owed (q : BroadcastQueue) : Z := sum_by (fun e => e.2.2) (m_ q).

(** ** Properties *)

(** C24: a batch that fits the packet. Peeking up to [n] messages and applying
    the peek returns the first [min n size] messages of the ring, each once, and
    leaves the queue that as many calls of [pop] leave: the sent messages moved
    behind the others with their counters lowered by one, or removed. *)
Theorem batch_sent (n : nat) (q : BroadcastQueue) :
  queue_wf q -> quiescent q ->
  let j := Nat.min n (length (m_ q)) in
  exists q1 q2 q3,
    peek_n n q = Ok (msg_of <$> take j (ring q), q1) /\
    ApplyPeek q1 = Ok (tt, q2) /\
    pop_n j q = Ok (msg_of <$> take j (ring q), q3) /\
    ring q2 = drop j (ring q) ++ (take j (ring q) ≫= served) /\ ring q3 = ring q2 /\
    queue_wf q2 /\ quiescent q2.
Proof.
  intros Hwf Hqu j. destruct (peek_batch n q Hwf Hqu) as (q1 & q2 & E1 & _ & E2 & Hr & Hwf2 & Hqu2).
  destruct (pop_n_spec j q Hwf) as (q3 & E3 & Hr3 & _).
  rewrite ring_pop_n_le in * by (subst j; rewrite length_ring; lia). cbn [fst snd] in *.
  exists q1, q2, q3. split_and!; try done. by rewrite Hr3, Hr.
Qed.

(** A batch that does not fit the packet. After any number of peeks,
    [ResetPeek] restores the queue exactly: nothing is lost, nothing counted. *)
Theorem batch_abandoned (n : nat) (q : BroadcastQueue) :
  queue_wf q -> quiescent q ->
  exists msgs q1, peek_n n q = Ok (msgs, q1) /\ ResetPeek q1 = Ok (tt, q).
Proof.
  intros Hwf Hqu. destruct (peek_batch n q Hwf Hqu) as (q1 & _ & E1 & E2 & _). eauto.
Qed.

(** C25: every message is sent exactly as often as its counter says. Popping
    [n] messages lowers the remaining count of each node's message by the number
    of times it was returned, and the queue is empty after as many pops as
    transmissions were owed. *)
Theorem pop_accounting (n : nat) (q : BroadcastQueue) :
  queue_wf q ->
  exists out q', pop_n n q = Ok (out, q') /\ queue_wf q' /\
    (forall k, sent_count k out + remaining k (m_ q') = remaining k (m_ q)) /\
    (owed q <= Z.of_nat n -> m_ q' = []).
Proof.
  intros Hwf. destruct (pop_n_spec n q Hwf) as (q' & E & Hr & Hwf').
  eexists _, q'. split; [exact E|]. split_and!; [done| |].
  - intros k. pose proof (ring_pop_n_count k n (ring q) (ring_entries _ Hwf)) as Hc.
    destruct (ring_pop_n n (ring q)) as [out r']. cbn in Hr |- *. subst r'.
    rewrite <- !ring_remaining by done. apply Hc.
  - intros Ho. rewrite ring_pop_n_drain in Hr.
    + pose proof (rotate_perm (cur_ q') (m_ q')) as Hp. unfold ring in Hr. rewrite Hr in Hp.
      by apply Permutation_nil_l in Hp.
    + by apply ring_entries.
    + unfold owed in Ho. unfold ring. by rewrite (sum_by_perm _ _ _ (rotate_perm _ _)).
Qed.

(** C26: [Push] keeps, for every node, the newest report. Whatever is queued
    for a node afterwards is at least as new as the pushed message and as what
    was queued; the pushed message wins (with a fresh counter of at least three
    sends) exactly when nothing was queued or it is strictly newer; messages
    about other nodes stay as they are, and the queue's invariant is kept. *)
Theorem Push_newest `{IterationOrder} (msg : node_state) (node_num : Z) (q : BroadcastQueue) :
  queue_wf q -> 0 <= node_num < 2 ^ 32 ->
  exists q' kept t, Push msg node_num q = Ok (tt, q') /\ queue_wf q' /\
    map_find (Name_ msg) (m_ q') = Some (kept, t) /\
    stamp_le (stamp msg) (stamp kept) /\
    match map_find (Name_ msg) (m_ q) with
    | None => kept = msg /\ 3 <= t
    | Some (old, t0) =>
      stamp_le (stamp old) (stamp kept) /\
      ((kept = msg /\ 3 <= t /\ ~ stamp_le (stamp msg) (stamp old)) \/
       (kept = old /\ t = t0 /\ stamp_le (stamp msg) (stamp old)))
    end /\
    (forall k, k <> Name_ msg -> map_find k (m_ q') = map_find k (m_ q)).
Proof.
  intros Hwf Hn. pose proof (push_times_pos _ Hn).
  destruct (Push_spec msg node_num q Hwf Hn) as (q' & E & Hwf' & _ & _ & _ & _ & Hf).
  pose proof (Hf (Name_ msg)) as Hk. rewrite decide_True in Hk by done.
  destruct (push_entry msg node_num (map_find (Name_ msg) (m_ q))) as [kept t] eqn:Ep.
  exists q', kept, t. split_and!; [done..| | |].
  - unfold push_entry in Ep. repeat case_match; simplify_eq; [done| |done].
    destruct (decide (stamp_le (stamp msg) (stamp kept))) as [|Hs]; [done|].
    apply supersedes_stamp in Hs. congruence.
  - unfold push_entry in Ep. destruct (map_find (Name_ msg) (m_ q)) as [[old t0]|]; [|by simplify_eq].
    destruct (supersedes msg old) eqn:Es; simplify_eq.
    + apply supersedes_stamp in Es. destruct (stamp_le_total (stamp kept) (stamp old)); naive_solver.
    + destruct (decide (stamp_le (stamp msg) (stamp kept))) as [|Hs]; [naive_solver|].
      apply supersedes_stamp in Hs. congruence.
  - intros k Hne. rewrite Hf. by rewrite decide_False.
Qed.

(** ** Example queues and witnesses *)

Definition example_msg (name : string) (dominant : Z) (state : STATE) : node_state :=
  mkNode name "10.0.0.1" "7000" dominant state "" 0.

(** Two messages, the iterators in the middle. *)
Definition example_queue : BroadcastQueue :=
  mkQueue 3 [("b", (example_msg "b" 2 STATE_DEAD, 3)); ("a", (example_msg "a" 1 STATE_ALIVE, 1))]
    (Some "a") (Some "a") 0.

Lemma example_queue_wf : queue_wf example_queue.
Proof.
  split; cbn.
  - apply (bool_decide_unpack _). by vm_compute.
  - repeat constructor; cbn; lia.
  - set_solver.
  - done.
Qed.

Lemma batch_sent_witness :
  queue_wf example_queue /\ quiescent example_queue /\
  exists q1 q2 q3,
    peek_n 10 example_queue =
      Ok ([example_msg "a" 1 STATE_ALIVE; example_msg "b" 2 STATE_DEAD], q1) /\
    ApplyPeek q1 = Ok (tt, q2) /\
    pop_n 2 example_queue =
      Ok ([example_msg "a" 1 STATE_ALIVE; example_msg "b" 2 STATE_DEAD], q3) /\
    ring q2 = [("b", (example_msg "b" 2 STATE_DEAD, 2))] /\ ring q3 = ring q2 /\
    queue_wf q2 /\ quiescent q2.
Proof.
  split; [exact example_queue_wf|split; [by split|]].
  apply (batch_sent 10 example_queue example_queue_wf). by split.
Defined.

Lemma batch_abandoned_witness :
  queue_wf example_queue /\ quiescent example_queue /\
  exists msgs q1, peek_n 1 example_queue = Ok (msgs, q1) /\ ResetPeek q1 = Ok (tt, example_queue).
Proof.
  split; [exact example_queue_wf|split; [by split|]].
  apply (batch_abandoned 1 example_queue example_queue_wf). by split.
Defined.

Lemma pop_accounting_witness :
  queue_wf example_queue /\
  exists out q', pop_n 4 example_queue = Ok (out, q') /\ queue_wf q' /\
    (forall k, sent_count k out + remaining k (m_ q') = remaining k (m_ example_queue)) /\
    (owed example_queue <= Z.of_nat 4 -> m_ q' = []).
Proof. split; [exact example_queue_wf|]. apply (pop_accounting 4 _ example_queue_wf). Defined.

Lemma Push_newest_witness :
  queue_wf example_queue /\ 0 <= 12 < 2 ^ 32 /\
  exists q' kept t,
    Push (example_msg "a" 1 STATE_SUSPECT) 12 example_queue = Ok (tt, q') /\ queue_wf q' /\
    map_find "a" (m_ q') = Some (kept, t) /\
    stamp_le (stamp (example_msg "a" 1 STATE_SUSPECT)) (stamp kept) /\
    match map_find "a" (m_ example_queue) with
    | None => kept = example_msg "a" 1 STATE_SUSPECT /\ 3 <= t
    | Some (old, t0) =>
      stamp_le (stamp old) (stamp kept) /\
      ((kept = example_msg "a" 1 STATE_SUSPECT /\ 3 <= t /\
        ~ stamp_le (stamp (example_msg "a" 1 STATE_SUSPECT)) (stamp old)) \/
       (kept = old /\ t = t0 /\
        stamp_le (stamp (example_msg "a" 1 STATE_SUSPECT)) (stamp old)))
    end /\
    (forall k, k <> "a" -> map_find k (m_ q') = map_find k (m_ example_queue)).
Proof.
  split; [exact example_queue_wf|split; [lia|]].
  apply (Push_newest (example_msg "a" 1 STATE_SUSPECT) 12 example_queue example_queue_wf). lia.
Defined.

(** A [Pop] between [ResetPeek] and [Peek] breaks the peek iterator.
    Following the comment above [Peek] (reset before popping) is not enough:
    on the queue built by two pushes, after [Pop] and [ResetPeek], the pops that
    use up the message under [peek_] erase it, [peek_] is not moved, and the next
    [Peek] dereferences an invalid iterator. *)
Theorem Peek_after_Pop_invalid :
  let a := example_msg "a" 1 STATE_ALIVE in
  let b := example_msg "b" 1 STATE_ALIVE in
  exists q q', (Push a 2 ;; Push b 12 ;; _ ← Pop; ResetPeek) queue_new = Ok (tt, q) /\
    quiescent q /\ pop_n 5 q = Ok ([a; b; a; b; a], q') /\
    m_ q' = [("b", (b, 3))] /\ Peek q' = Crash InvalidIterator.
Proof.
  intros a b.
  exists (mkQueue 3 [("b", (b, 5)); ("a", (a, 3))] (Some "a") (Some "a") 0),
    (mkQueue 3 [("b", (b, 3))] None (Some "a") 0).
  repeat split; vm_compute; reflexivity.
Qed.
