(* ===== verification/Suspicion.v ===== *)
(** * src/suspicion.hpp: a suspected node and its confirmations

    The object is a steady timer plus a set of confirmers. Its callback is the
    lambda [convict] built in [gossiper::suspectNode], which captures the
    suspected state BY REFERENCE; [sus_ref] is that reference: the value the
    object had when it was captured, and whether the object outlives the call.
    What a read yields once the object is gone is not defined by the language:
    it is the parameter [stale_node] below. *)
From S2P Require Import Prelude Node.
Local Open Scope Z_scope.

(** ** Reads the language does not define

    [stale_node n]: what reading a [node_state] whose lifetime has ended yields,
    when its last value was [n]; [None] when the read fails (the strings of the
    object have been destroyed, so following their pointers can). [stale_call]:
    whether calling the [convict_] of a [suspicion] that has been destroyed still
    reaches the lambda it held. [indeterminate]: the value of a [uint64_t] that was
    never initialised. The values have the range of their type. Theorems either
    hold for every [Residue], or say what they need: [Intact], the storage still
    holds the last value and can be read; [Unspoilt], it may fail to be read, but
    does not hold another value; or that the call goes through. *)
Class Residue := {
  stale_node : node_state -> option node_state;
  stale_typed n n' : stale_node n = Some n' ->
    in_range 64 (Dominant_ n) -> in_range 64 (Dominant_ n');
  stale_call : bool;
  indeterminate : Z;
  indeterminate_typed : in_range 64 indeterminate
}.

Class Intact (R : Residue) : Prop := intact n : stale_node n = Some n.
Class Unspoilt (R : Residue) : Prop := unspoilt n n' : stale_node n = Some n' -> n' = n.

#[export] Instance intact_unspoilt `{Intact} : Unspoilt _.
Proof. intros n n'. rewrite intact. by intros [= <-]. Qed.

Program Definition intact_memory (junk : Z) : Residue :=
  {| stale_node n := Some n; stale_call := true; indeterminate := u64 junk |}.
Next Obligation. intros. by simplify_eq/=. Qed.
Next Obligation. intros. apply wrap_range. lia. Qed.
#[export] Instance intact_memory_intact junk : Intact (intact_memory junk).
Proof. done. Qed.

(** Reading an object that may be gone: a failure of the program, if the read
    fails. *)
Definition read_stale `{Residue} (n : node_state) : outcome node_state :=
  match stale_node n with Some n' => Ok n' | None => Crash LifetimeEnded end.

Record sus_ref := mkRef {
  captured : node_state;
  outlives : bool
}.

Definition deref_node `{Residue} (r : sus_ref) : outcome node_state :=
  if outlives r then Ok (captured r) else read_stale (captured r).

Lemma deref_node_inv `{Residue} r n : deref_node r = Ok n ->
  n = captured r \/ stale_node (captured r) = Some n.
Proof.
  unfold deref_node, read_stale. destruct (outlives r); [intros [= <-]; by left|].
  destruct (stale_node _); [intros [= <-]; by right|done].
Qed.

Lemma deref_node_fault `{Residue} r f : deref_node r = Crash f -> f = LifetimeEnded.
Proof. unfold deref_node, read_stale. repeat case_match; congruence. Qed.

Lemma deref_node_intact `{Intact} r : deref_node r = Ok (captured r).
Proof. unfold deref_node, read_stale. by rewrite intact; destruct (outlives r). Qed.

(** ** The suspicion object *)

Record suspicion := mkSuspicion {
  need_confirm_ : Z;                (* uint32_t *)
  confirm_ : Z;                     (* uint32_t *)
  who_confirmed_ : gset string;
  convict_ : sus_ref;
  armed : bool                      (* a timer wait is pending *)
}.

(** [std::ceil(std::log2(node_num))] converted to [uint32_t]. For 0 the
    logarithm is minus infinity, and converting it is undefined. *)
Definition need_confirm (node_num : Z) : outcome Z :=
  if node_num =? 0 then Crash BadFloatCast else Ok (Z.log2_up node_num).

(** The constructor arms the timer. *)
Definition suspicion_new (node_num : Z) (convict : sus_ref) : outcome suspicion :=
  need ← need_confirm node_num; mret (mkSuspicion need 0 ∅ convict true).

(** [steady_timer::cancel]: a pending wait completes (with an error code the
    handler ignores), so the conviction handler is posted to run later. *)
Definition cancel (s : suspicion) : suspicion * list sus_ref :=
  if armed s
  then (mkSuspicion (need_confirm_ s) (confirm_ s) (who_confirmed_ s) (convict_ s) false,
        [convict_ s])
  else (s, []).

(** What [Confirm] does to the object: the new object, the handlers it posts,
    and whether it convicts (calls [convict_] before it returns [true]). *)
Definition Confirm (from : string) (s : suspicion) : bool * suspicion * list sus_ref :=
  let s :=
    if decide (from ∈ who_confirmed_ s) then s
    else mkSuspicion (need_confirm_ s) (u32 (confirm_ s + 1)) ({[from]} ∪ who_confirmed_ s)
           (convict_ s) (armed s) in
  if need_confirm_ s <=? confirm_ s
  then let '(s, posted) := cancel s in (true, s, posted)
  else (false, s, []).

(** The destructor. *)
Definition suspicion_destroy (s : suspicion) : list sus_ref := (cancel s).2.

(** A run of confirmations. *)
Fixpoint confirm_all (froms : list string) (s : suspicion) : suspicion :=
  match froms with
  | [] => s
  | from :: froms => confirm_all froms (Confirm from s).1.2
  end.

(** ** Lemmas *)

Definition suspicion_wf (s : suspicion) : Prop :=
  confirm_ s = u32 (Z.of_nat (size (who_confirmed_ s))).

Lemma suspicion_new_wf n r s : suspicion_new n r = Ok s -> suspicion_wf s.
Proof.
  unfold suspicion_new, need_confirm. case_match; [done|]. intros [= <-]. done.
Qed.

Lemma suspicion_new_ref n r s : suspicion_new n r = Ok s -> convict_ s = r.
Proof. unfold suspicion_new, need_confirm. case_match; [done|]. by intros [= <-]. Qed.

Lemma suspicion_new_fault n r f : suspicion_new n r = Crash f -> f = BadFloatCast.
Proof. unfold suspicion_new, need_confirm. case_match; by intros [= <-]. Qed.

Lemma Confirm_spec from s : suspicion_wf s ->
  let '(b, s', posted) := Confirm from s in
  suspicion_wf s' /\ who_confirmed_ s' = {[from]} ∪ who_confirmed_ s /\
  need_confirm_ s' = need_confirm_ s /\ convict_ s' = convict_ s /\
  b = (need_confirm_ s <=? u32 (Z.of_nat (size ({[from]} ∪ who_confirmed_ s)))) /\
  posted = (if b && armed s then [convict_ s] else []) /\
  armed s' = (armed s && negb b).
Proof.
  unfold suspicion_wf, Confirm. intros Hc.
  assert (forall s0, need_confirm_ s0 = need_confirm_ s -> convict_ s0 = convict_ s ->
    armed s0 = armed s -> confirm_ s0 = u32 (Z.of_nat (size (who_confirmed_ s0))) ->
    who_confirmed_ s0 = {[from]} ∪ who_confirmed_ s ->
    let '(b, s', posted) := (if need_confirm_ s0 <=? confirm_ s0
      then let '(s1, posted) := cancel s0 in (true, s1, posted) else (false, s0, [])) in
    suspicion_wf s' /\ who_confirmed_ s' = {[from]} ∪ who_confirmed_ s /\
    need_confirm_ s' = need_confirm_ s /\ convict_ s' = convict_ s /\
    b = (need_confirm_ s <=? u32 (Z.of_nat (size ({[from]} ∪ who_confirmed_ s)))) /\
    posted = (if b && armed s then [convict_ s] else []) /\
    armed s' = (armed s && negb b)) as Hgen.
  { intros s0 Hn Hv Ha Hc0 Hw. unfold cancel. rewrite <- Hn, <- Hw, <- Hc0, <- Ha, <- Hv.
    unfold suspicion_wf. destruct (armed s0) eqn:E, (need_confirm_ s0 <=? confirm_ s0) eqn:E';
      cbn; rewrite ?E, ?E'; split_and!; done. }
  case_decide as Hd.
  - apply Hgen; [done..|]. apply leibniz_equiv. set_solver.
  - apply Hgen; cbn; [done..| |done]. rewrite size_union by set_solver.
    rewrite size_singleton, Nat2Z.inj_add, Hc. unfold wrap. rewrite Zplus_mod_idemp_l.
    f_equal. lia.
Qed.

Lemma confirm_all_who froms s : suspicion_wf s ->
  suspicion_wf (confirm_all froms s) /\ need_confirm_ (confirm_all froms s) = need_confirm_ s /\
  who_confirmed_ (confirm_all froms s) = list_to_set froms ∪ who_confirmed_ s.
Proof.
  revert s. induction froms as [|from froms IH]; intros s Hwf.
  { split_and!; [done..|]. apply leibniz_equiv. set_solver. }
  pose proof (Confirm_spec from s Hwf) as Hs. cbn [confirm_all].
  destruct (Confirm from s) as [[b s'] posted]. destruct Hs as (Hwf' & Hw & Hn & _).
  cbn [fst snd]. destruct (IH s' Hwf') as (H1 & H2 & H3). split_and!; [done|congruence|].
  rewrite H3, Hw. apply leibniz_equiv. set_solver.
Qed.

(** C27: a suspicion convicts when enough different nodes confirmed it. From a
    fresh suspicion in a cluster of [node_num] nodes, after any confirmations, a
    further one convicts exactly if the number of DISTINCT confirmers (repeats
    from one node count once) is at least the ceiling of the binary logarithm of
    [node_num], the least [need] with [node_num <= 2 ^ need]. *)
Theorem Confirm_distinct (node_num : Z) (ref : sus_ref) (froms : list string) (from : string) :
  0 < node_num < 2 ^ 32 -> Z.of_nat (length froms) + 1 < 2 ^ 32 ->
  exists s need, suspicion_new node_num ref = Ok s /\ need_confirm node_num = Ok need /\
    node_num <= 2 ^ need /\ (1 < node_num -> 2 ^ (need - 1) < node_num) /\
    (Confirm from (confirm_all froms s)).1.1 =
      (need <=? Z.of_nat (size (list_to_set (from :: froms) : gset string))).
Proof.
  intros Hn Hl. unfold suspicion_new, need_confirm. rewrite (proj2 (Z.eqb_neq node_num 0)) by lia.
  eexists _, _. split; [done|split; [done|]].
  split; [|split].
  - destruct (decide (node_num = 1)) as [->|]; [done|]. apply Z.log2_up_spec. lia.
  - intros. rewrite Z.sub_1_r. by apply Z.log2_up_spec.
  - set (s0 := mkSuspicion _ _ _ _ _).
    destruct (confirm_all_who froms s0) as (Hwf & Hnc & Hw); [done|].
    pose proof (Confirm_spec from _ Hwf) as Hs.
    destruct (Confirm from (confirm_all froms s0)) as [[b s'] posted].
    destruct Hs as (_ & _ & _ & _ & -> & _). cbn [fst].
    rewrite Hnc, Hw. f_equal.
    replace ({[from]} ∪ (list_to_set froms ∪ who_confirmed_ s0)) with
      (list_to_set (from :: froms) : gset string) by (apply leibniz_equiv; set_solver).
    apply wrap_small. unfold in_range.
    assert (size (list_to_set (from :: froms) : gset string) <= S (length froms))%nat; [|lia].
    apply (size_list_to_set_le (from :: froms)).
Qed.

Lemma Confirm_distinct_witness :
  let ref := mkRef (mkNode "n" "h" "1" 1 STATE_SUSPECT "" 0) false in
  0 < 5 < 2 ^ 32 /\ Z.of_nat (length ["a"; "b"; "a"]) + 1 < 2 ^ 32 /\
  exists s need, suspicion_new 5 ref = Ok s /\ need_confirm 5 = Ok need /\
    5 <= 2 ^ need /\ (1 < 5 -> 2 ^ (need - 1) < 5) /\
    (Confirm "c" (confirm_all ["a"; "b"; "a"] s)).1.1 =
      (need <=? Z.of_nat (size (list_to_set ["c"; "a"; "b"; "a"] : gset string))).
Proof.
  intros ref. split; [lia|split; [simpl; lia|]].
  apply (Confirm_distinct 5 ref ["a"; "b"; "a"] "c"); simpl; lia.
Defined.
