(* ===== verification/Messages.v ===== *)
(** * The messages of src/message/message.fbs and what their codec promises

    One record per table. A string or table field that is absent reads as a null
    pointer ([None]); an absent scalar reads as its default. [MessageCodec] is the
    interface between the gossiper and the FlatBuffers builder and readers: the
    handlers are defined and verified against it. *)
From Stdlib Require Import Ascii.
From S2P Require Import Prelude Utils Bytes Node Suspicion.
Local Open Scope Z_scope.

Record Node := mkWNode { name : option string; ip : option string; port : Z }.

Record NodeState := mkWState {
  node : option Node;
  state : Z;              (* int8_t *)
  dominant : Z;           (* uint64_t *)
  ns_from : option string;
  timeStamp : Z           (* uint64_t *)
}.

Record Ping := mkPing { ping_seqNo : Z; ping_from : option string }.
Record Pong := mkPong { pong_seqNo : Z }.

(** A request to ping [target] on another's behalf; nothing sends it yet. *)
Record IndirectPing := mkIndirectPing { iping_seqNo : Z; iping_target : option Node }.

(** The [nodes] vector of a [NodeStates] table, [None] when it is absent. *)
Abbreviation NodeStates := (option (list NodeState)).

(** ** Well-formed messages: what the builder is given *)

(** A [std::string] survives the trip through [c_str()] if it holds no NUL. *)
Definition wire_string (s : string) : Prop :=
  has_char Ascii.zero s = false /\ Z.of_nat (String.length s) < 2 ^ 16.

Definition wire_opt_string (s : option string) : Prop :=
  match s with Some s => wire_string s | None => False end.

Definition Node_ok (n : Node) : Prop :=
  wire_opt_string (name n) /\ wire_opt_string (ip n) /\ in_srange 16 (port n).

Definition NodeState_ok (n : NodeState) : Prop :=
  match node n with Some n => Node_ok n | None => False end /\
  in_srange 8 (state n) /\ in_range 64 (dominant n) /\ wire_opt_string (ns_from n) /\
  in_range 64 (timeStamp n).

Definition NodeStates_ok (ns : NodeStates) : Prop :=
  match ns with
  | Some l => Forall NodeState_ok l /\ Z.of_nat (length l) < 2 ^ 12
  | None => False
  end.

Definition Ping_ok (p : Ping) : Prop := in_range 64 (ping_seqNo p) /\ wire_opt_string (ping_from p).
Definition IndirectPing_ok (p : IndirectPing) : Prop :=
  in_range 64 (iping_seqNo p) /\ match iping_target p with Some n => Node_ok n | None => False end.
Definition Pong_ok (p : Pong) : Prop := in_range 64 (pong_seqNo p).

(** The ranges of the scalar fields, all a reader of unverified bytes can
    promise. *)
Definition typed_state (n : NodeState) : Prop :=
  in_srange 8 (state n) /\ in_range 64 (dominant n) /\ in_range 64 (timeStamp n) /\
  match node n with Some n => in_srange 16 (port n) | None => True end.
Definition typed_states (ns : NodeStates) : Prop :=
  match ns with Some l => Forall typed_state l | None => True end.

(** A null pointer, of a table or a string, is dereferenced by [->]. *)
Definition deref_opt {A} (o : option A) : outcome A :=
  match o with Some a => Ok a | None => Crash NullDeref end.

(** ** The codec interface

    [encode_*]: the bytes [GetBufferPointer]/[GetSize] give after [Finish].
    [decode_* m pos]: every field the generated accessors read through
    [GetRoot(m + pos)]; [Ping_seqNo] and the like: the one field a handler reads
    where it does not read them all. Nothing is verified before the reads, so a
    read outside of [m] is possible, a [Crash]. *)
Class MessageCodec := {
  encode_Ping : Ping -> list Z;
  encode_Pong : Pong -> list Z;
  encode_NodeState : NodeState -> list Z;
  encode_NodeStates : NodeStates -> list Z;
  decode_Ping : list Z -> Z -> outcome Ping;
  decode_Pong : list Z -> Z -> outcome Pong;
  decode_NodeState : list Z -> Z -> outcome NodeState;
  decode_NodeStates : list Z -> Z -> outcome NodeStates;
  Ping_seqNo : list Z -> Z -> outcome Z;
  Ping_from : list Z -> Z -> outcome (option string);
  NodeState_name : list Z -> Z -> outcome string;     (* node()->name()->str() *)
  NodeState_state : list Z -> Z -> outcome Z;
  NodeState_dominant : list Z -> Z -> outcome Z
}.

(** Reading at the place a message was copied to gives the message back,
    whatever surrounds it. *)
Definition roundtrip {A} (ok : A -> Prop) (enc : A -> list Z) (dec : list Z -> Z -> outcome A) : Prop :=
  forall a pre post, ok a -> dec (pre ++ enc a ++ post) (Z.of_nat (length pre)) = Ok a.

Class MessageCodecOk (C : MessageCodec) : Prop := {
  Ping_roundtrip : roundtrip Ping_ok encode_Ping decode_Ping;
  Pong_roundtrip : roundtrip Pong_ok encode_Pong decode_Pong;
  NodeState_roundtrip : roundtrip NodeState_ok encode_NodeState decode_NodeState;
  NodeStates_roundtrip : roundtrip NodeStates_ok encode_NodeStates decode_NodeStates;
  encode_Pong_length p : Z.of_nat (length (encode_Pong p)) <= 32;
  encode_NodeState_nonempty ns : encode_NodeState ns <> [];
  encode_NodeStates_nonempty nss : encode_NodeStates nss <> [];
  decode_NodeState_typed m pos ns : Forall is_byte m ->
    decode_NodeState m pos = Ok ns -> typed_state ns;
  decode_NodeStates_typed m pos ns : Forall is_byte m ->
    decode_NodeStates m pos = Ok ns -> typed_states ns;
  Ping_fields m pos p : decode_Ping m pos = Ok p ->
    Ping_seqNo m pos = Ok (ping_seqNo p) /\ Ping_from m pos = Ok (ping_from p);
  NodeState_fields m pos ns : decode_NodeState m pos = Ok ns ->
    NodeState_name m pos = (n ← deref_opt (node ns); deref_opt (name n)) /\
    NodeState_state m pos = Ok (state ns) /\ NodeState_dominant m pos = Ok (dominant ns);
  NodeState_dominant_typed m pos d : Forall is_byte m ->
    NodeState_dominant m pos = Ok d -> in_range 64 d
}.

(** ** Internal states and their wire form *)

(** The field-by-field copy of [gossiper::convert] into its local [tmp]. *)
Definition convert_fields (ns : NodeState) : outcome node_state :=
  n ← deref_opt (node ns);
  nm ← deref_opt (name n);
  i ← deref_opt (ip n);
  fr ← deref_opt (ns_from ns);
  mret (mkNode nm i (to_string (port n)) (dominant ns) (STATE_of_int8 (state ns)) fr (timeStamp ns)).

(** The other overload of [convert], which nothing calls: it assigns the fields
    to a given state, all seven of them. *)
Definition convert_to (to : node_state) (from : NodeState) : outcome node_state :=
  n ← deref_opt (node from);
  nm ← deref_opt (name n);
  i ← deref_opt (ip n);
  fr ← deref_opt (ns_from from);
  mret (assign to (mkNode nm i (to_string (port n)) (dominant from) (STATE_of_int8 (state from)) fr
    (timeStamp from))).

Lemma convert_overloads to from : convert_to to from = convert_fields from.
Proof.
  unfold convert_to, convert_fields. repeat (destruct (deref_opt _); cbn; [|done]).
  by rewrite assign_eq.
Qed.

Lemma convert_fields_inv w n : convert_fields w = Ok n ->
  exists nw, node w = Some nw /\ name nw = Some (Name_ n) /\ dominant w = Dominant_ n /\
    STATE_of_int8 (state w) = State_ n.
Proof.
  unfold convert_fields, deref_opt. cbv [mbind outcome_bind mret outcome_ret].
  destruct (node w) as [nw|]; [|done]. destruct (name nw) eqn:En; [|done].
  repeat (case_match; [|done]). intros [= <-]. by exists nw.
Qed.

(** [convert] returns [std::move(tmp)] as a [node_state&&]: a reference to a
    local that is gone when the caller reads it. *)
Definition convert `{Residue} (ns : NodeState) : outcome node_state :=
  tmp ← convert_fields ns; read_stale tmp.

Lemma convert_inv `{Residue} ns n' : convert ns = Ok n' ->
  exists n, convert_fields ns = Ok n /\ stale_node n = Some n'.
Proof.
  unfold convert, read_stale. intros (n & Hn & E)%outcome_bind_Ok. exists n. split; [done|].
  by destruct (stale_node n); simplify_eq/=.
Qed.

(** What can go wrong: a null pointer in the message, or the read of the local. *)
Lemma convert_fault `{Residue} ns f : convert ns = Crash f -> f = NullDeref \/ f = LifetimeEnded.
Proof.
  unfold convert, convert_fields, deref_opt, read_stale. cbv [mbind outcome_bind mret outcome_ret].
  repeat case_match; intros; simplify_eq/=; auto.
Qed.

(** [CreateNode]/[CreateNodeState] as called with a [node_state]: [std::stoi] of
    the port, narrowed to [int16_t], and the state cast to [int8_t]. *)
Definition wire_state (n : node_state) : outcome NodeState :=
  p ← stoi (Port_ n);
  mret (mkWState (Some (mkWNode (Some (Name_ n)) (Some (IP_ n)) (i16 p)))
    (swrap 8 (STATE_val (State_ n))) (Dominant_ n) (Some (From_ n)) (Timestamp_ n)).

(** States that survive the wire: what the gossiper itself produces. *)
Definition node_state_ok (n : node_state) : Prop :=
  wire_string (Name_ n) /\ wire_string (IP_ n) /\ wire_string (From_ n) /\
  (exists p, in_srange 16 p /\ Port_ n = to_string p) /\
  in_range 64 (Dominant_ n) /\ in_range 64 (Timestamp_ n) /\
  (exists v, in_srange 8 v /\ State_ n = STATE_of_int8 v).

Lemma STATE_val_of_int8 v : STATE_val (STATE_of_int8 v) = v.
Proof. unfold STATE_of_int8. repeat case_match; simpl; lia. Qed.

(** What the types of the wire say of a record, its strings aside: its port is
    a printed [int16_t], its state the cast of an [int8_t], its dominant and its
    timestamp are [uint64_t]s. *)
Definition typed_record (n : node_state) : Prop :=
  (exists p, in_srange 16 p /\ Port_ n = to_string p) /\ in_range 64 (Dominant_ n) /\
  in_range 64 (Timestamp_ n) /\ exists v, in_srange 8 v /\ State_ n = STATE_of_int8 v.

Lemma node_state_ok_typed n : node_state_ok n -> typed_record n.
Proof. by intros (_ & _ & _ & ? & ? & ? & ?). Qed.

Lemma convert_fields_typed w n : typed_state w -> convert_fields w = Ok n -> typed_record n.
Proof.
  intros (Hs & Hd & Ht & Hp). unfold convert_fields, deref_opt.
  cbv [mbind outcome_bind mret outcome_ret]. destruct (node w) as [nw|]; [|done].
  repeat (case_match; [|done]). intros [= <-]. split_and!; cbn; eauto.
Qed.

(** Such a record can always be put into a message. *)
Lemma wire_state_total n : typed_record n -> exists w, wire_state n = Ok w.
Proof.
  intros ((p & Hp & Ep) & _). unfold wire_state. rewrite Ep, stoi_to_string_lemma; [by eexists|].
  unfold in_srange in *. lia.
Qed.

Lemma wire_state_ok n : node_state_ok n ->
  exists w, wire_state n = Ok w /\ NodeState_ok w /\ convert_fields w = Ok n.
Proof.
  intros (Hn & Hi & Hf & (p & Hp & Ep) & Hd & Ht & (v & Hv & Ev)).
  assert (in_srange 32 p) as Hp32 by (unfold in_srange in *; simpl in *; lia).
  unfold wire_state. rewrite Ep, stoi_to_string_lemma by done.
  eexists. split; [done|]. rewrite Ev, STATE_val_of_int8, !swrap_small by (done || lia).
  split; [by unfold NodeState_ok, Node_ok; cbn; split_and!|].
  unfold convert_fields. cbn. destruct n; cbn in *; by subst.
Qed.

(** A state sent to a peer arrives as it was: encoding a well-formed state
    as a [NodeState] table, copying it anywhere in a packet, reading it there and
    converting it gives the same state, if the storage of [convert]'s destroyed
    local still holds it. *)
Theorem NodeState_transport `{MessageCodecOk} (R : Residue) (n : node_state) (pre post : list Z) :
  Intact R -> node_state_ok n ->
  exists w, wire_state n = Ok w /\
    (w' ← decode_NodeState (pre ++ encode_NodeState w ++ post) (Z.of_nat (length pre)); convert w') = Ok n.
Proof.
  intros HR (w & Ew & Hok & Hc)%wire_state_ok. exists w. split; [done|].
  rewrite NodeState_roundtrip by done. cbn. unfold convert, read_stale. rewrite Hc. cbn. by rewrite HR.
Qed.
