(* ===== verification/FlatBuffers.v ===== *)
(** * thirdparty/flatbuffers/flatbuffers.h: the builder and the readers

    The part of the bundled FlatBuffers header that the messages use. The
    builder's buffer grows towards lower addresses: [buf_] lists its used bytes,
    lowest address first, and everything already in it is named by its distance
    from the END, which does not change as the buffer grows. Capacity and
    reallocation ([make_space]) are not modelled, nor the debug assertions on
    nesting. The host is little endian, as the comparison of vtable sizes in
    [EndTable] needs. *)
From Stdlib Require Import Ascii.
From S2P Require Import Prelude Utils Bytes.
Local Open Scope Z_scope.

(** ** The builder *)

Record FlatBufferBuilder := mkBuilder {
  buf_ : list Z;
  minalign_ : Z;
  offsetbuf_ : list (nat * nat);   (* FieldLoc: off, id *)
  vtables_ : list nat
}.

Definition builder_new : FlatBufferBuilder := mkBuilder [] 1 [] [].

Definition set_buf (v : list Z) (b : FlatBufferBuilder) : FlatBufferBuilder :=
  mkBuilder v (minalign_ b) (offsetbuf_ b) (vtables_ b).

Definition GetSize (b : FlatBufferBuilder) : nat := length (buf_ b).

(** [n] bytes at distance [o] from the end: [buf_.data_at(o)]. *)
Definition data_at (m : list Z) (o n : nat) : list Z := take n (drop (length m - o) m).

(** [((~buf_size) + 1) & (scalar_size - 1)]. *)
Definition PaddingBytes (buf_size : nat) (scalar_size : Z) : nat :=
  Z.to_nat (Z.land (Z.lnot (Z.of_nat buf_size) + 1) (scalar_size - 1)).

Definition fill (n : nat) (b : FlatBufferBuilder) : FlatBufferBuilder :=
  set_buf (replicate n 0 ++ buf_ b) b.
Definition PushBytes (bytes : list Z) (b : FlatBufferBuilder) : FlatBufferBuilder :=
  set_buf (bytes ++ buf_ b) b.
Definition pop_bytes (n : nat) (b : FlatBufferBuilder) : FlatBufferBuilder :=
  set_buf (drop n (buf_ b)) b.

Definition Align (elem_size : Z) (b : FlatBufferBuilder) : FlatBufferBuilder :=
  fill (PaddingBytes (GetSize b) elem_size)
    (mkBuilder (buf_ b) (if minalign_ b <? elem_size then elem_size else minalign_ b)
       (offsetbuf_ b) (vtables_ b)).

Definition PreAlign (len : nat) (alignment : Z) (b : FlatBufferBuilder) : FlatBufferBuilder :=
  fill (PaddingBytes (GetSize b + len) alignment) b.

(** A scalar of [n] bytes; a negative value is stored in two's complement. *)
Definition PushElement (n : nat) (e : Z) (b : FlatBufferBuilder) : FlatBufferBuilder :=
  PushBytes (le_split n e) (Align (Z.of_nat n) b).

Definition TrackField (field : nat) (off : nat) (b : FlatBufferBuilder) : FlatBufferBuilder :=
  mkBuilder (buf_ b) (minalign_ b) (offsetbuf_ b ++ [(off, field)]) (vtables_ b).

Definition AddElement (n field : nat) (e def : Z) (b : FlatBufferBuilder) : FlatBufferBuilder :=
  if e =? def then b
  else let b := PushElement n e b in TrackField field (GetSize b) b.

Definition ReferTo (off : nat) (b : FlatBufferBuilder) : Z * FlatBufferBuilder :=
  let b := Align 4 b in (Z.of_nat (GetSize b) - Z.of_nat off + 4, b).

Definition AddOffset (field off : nat) (b : FlatBufferBuilder) : FlatBufferBuilder :=
  if (off =? 0)%nat then b
  else let '(r, b) := ReferTo off b in AddElement 4 field r 0 b.

Definition FieldIndexToOffset (field_id : nat) : nat := ((field_id + 2) * 2)%nat.

(** [WriteScalar<voffset_t>(buf_.data() + i, v)] and the like. *)
Definition write_at (m : list Z) (i : nat) (bytes : list Z) : list Z :=
  take i m ++ bytes ++ drop (i + length bytes) m.

(** The test [vt1_size == vt2_size && !memcmp(vt2, vt1, vt1_size)] on the vtable
    at [it] and the one at the front of the buffer. *)
Definition same_vtable (m : list Z) (it : nat) : bool :=
  let vt1_size := Z.to_nat (le_combine (take 2 m)) in
  let vt2_size := Z.to_nat (le_combine (data_at m it 2)) in
  (vt1_size =? vt2_size)%nat && bool_decide (data_at m it vt1_size = take vt1_size m).

(** The vtable with its offsets: what [EndTable] has built before it looks for
    an equal one. *)
Definition push_vtable (start numfields vtableoffsetloc : nat) (b : FlatBufferBuilder) :
    FlatBufferBuilder :=
  let b := fill (numfields * 2) b in
  let b := PushElement 2 (Z.of_nat (vtableoffsetloc - start)) b in
  let b := PushElement 2 (Z.of_nat (FieldIndexToOffset numfields)) b in
  mkBuilder
    (foldl (fun m '(off, id) => write_at m id (le_split 2 (Z.of_nat (vtableoffsetloc - off))))
       (buf_ b) (offsetbuf_ b))
    (minalign_ b) [] (vtables_ b).

Definition EndTable (start numfields : nat) (b : FlatBufferBuilder) : nat * FlatBufferBuilder :=
  let b := PushElement 4 0 b in
  let vtableoffsetloc := GetSize b in
  let b := push_vtable start numfields vtableoffsetloc b in
  let '(vt_use, b) :=
    match List.find (same_vtable (buf_ b)) (vtables_ b) with
    | Some it => (it, pop_bytes (GetSize b - vtableoffsetloc) b)
    | None => (GetSize b, b)
    end in
  let b := mkBuilder (buf_ b) (minalign_ b) (offsetbuf_ b)
    (vtables_ b ++ if (vt_use =? GetSize b)%nat then [vt_use] else []) in
  (vtableoffsetloc,
   set_buf (write_at (buf_ b) (GetSize b - vtableoffsetloc)
     (le_split 4 (Z.of_nat vt_use - Z.of_nat vtableoffsetloc))) b).

(** [CreateString(str.c_str(), str.length())]. *)
Definition CreateString (s : string) (b : FlatBufferBuilder) : nat * FlatBufferBuilder :=
  let b := PreAlign (String.length s + 1) 4 b in
  let b := fill 1 b in
  let b := PushBytes (string_bytes s) b in
  let b := PushElement 4 (Z.of_nat (String.length s)) b in
  (GetSize b, b).

(** [CreateVector] of offsets; the last element is pushed first. *)
Definition push_offset (b : FlatBufferBuilder) (off : nat) : FlatBufferBuilder :=
  let '(r, b) := ReferTo off b in PushElement 4 r b.

Definition CreateVector (v : list nat) (b : FlatBufferBuilder) : nat * FlatBufferBuilder :=
  let b := PreAlign (length v * 4) 4 b in
  let b := PreAlign (length v * 4) 4 b in
  let b := foldl push_offset b (reverse v) in
  let b := PushElement 4 (Z.of_nat (length v)) b in
  (GetSize b, b).

(** The finished bytes: [GetBufferPointer], [GetSize]. *)
Definition Finish (root : nat) (b : FlatBufferBuilder) : list Z :=
  let b := PreAlign 4 (minalign_ b) b in
  let '(r, b) := ReferTo root b in
  buf_ (PushElement 4 r b).

(** ** The readers *)

Definition GetRoot (m : list Z) (pos : Z) : outcome Z := o ← read_le m pos 4; mret (pos + o).

Definition GetOptionalFieldOffset (m : list Z) (table : Z) (field : Z) : outcome Z :=
  s ← read_sle m table 4;
  vtsize ← read_le m (table - s) 2;
  if field <? vtsize then read_le m (table - s + field) 2 else mret 0.

Definition GetField (m : list Z) (table : Z) (n : nat) (field defaultval : Z) : outcome Z :=
  field_offset ← GetOptionalFieldOffset m table field;
  if field_offset =? 0 then mret defaultval else read_le m (table + field_offset) n.

Definition GetSField (m : list Z) (table : Z) (n : nat) (field defaultval : Z) : outcome Z :=
  field_offset ← GetOptionalFieldOffset m table field;
  if field_offset =? 0 then mret defaultval else read_sle m (table + field_offset) n.

(** Null, or the address pointed to. *)
Definition GetPointer (m : list Z) (table : Z) (field : Z) : outcome (option Z) :=
  field_offset ← GetOptionalFieldOffset m table field;
  if field_offset =? 0 then mret None
  else o ← read_le m (table + field_offset) 4; mret (Some (table + field_offset + o)).

(** [String::str]: the characters behind the length up to the first NUL. *)
Fixpoint c_str (m : list Z) : outcome (list Z) :=
  match m with
  | [] => Crash OutOfBounds
  | b :: m => if b =? 0 then Ok [] else s ← c_str m; Ok (b :: s)
  end.

Definition str (m : list Z) (s : Z) : outcome string :=
  if s + 4 <? 0 then Crash OutOfBounds
  else bs ← c_str (drop (Z.to_nat (s + 4)) m); mret (bytes_string bs).

Definition read_string (m : list Z) (p : option Z) : outcome (option string) :=
  match p with
  | None => mret None
  | Some p => s ← str m p; mret (Some s)
  end.

(** [Vector::Length], and [Get(i)] for a vector of tables. *)
Definition vector_Length (m : list Z) (v : Z) : outcome Z := read_le m v 4.

Definition vector_Get (m : list Z) (v : Z) (i : Z) : outcome Z :=
  o ← read_le m (v + 4 + 4 * i) 4; mret (v + 4 + 4 * i + o).

(** ** Lemmas: distances from the end *)

Section data_at.
Implicit Types m x pre post : list Z.
Local Open Scope nat_scope.

Lemma data_at_app x m o n : o <= length m -> data_at (x ++ m) o n = data_at m o n.
Proof.
  intros Ho. unfold data_at. rewrite length_app.
  replace (length x + length m - o) with (length x + (length m - o)) by lia.
  by rewrite <- drop_drop, drop_app_length.
Qed.

Lemma data_at_front x m n : n <= length x ->
  data_at (x ++ m) (length x + length m) n = take n x.
Proof.
  intros Hn. unfold data_at. rewrite length_app, Nat.sub_diag, drop_0.
  by apply take_app_le.
Qed.

Lemma data_at_mid x y m : data_at (x ++ y ++ m) (length y + length m) (length y) = y.
Proof.
  rewrite data_at_app by (rewrite length_app; lia). rewrite data_at_front by lia.
  by apply take_ge.
Qed.

Lemma length_data_at m o n : n <= o -> o <= length m -> length (data_at m o n) = n.
Proof. intros. unfold data_at. rewrite length_take, length_drop. lia. Qed.

Lemma data_at_sub m o n k j : k + j <= n -> k <= o -> o <= length m ->
  take j (drop k (data_at m o n)) = data_at m (o - k) j.
Proof.
  intros Hk Ho Hm. unfold data_at. rewrite skipn_firstn_comm, drop_drop, take_take.
  f_equal; [lia|]. f_equal. lia.
Qed.

(** The address of what lies at distance [o] from the end of [m]. *)
Definition addr pre m o : Z := (Z.of_nat (length pre + length m) - Z.of_nat o)%Z.

Lemma read_data_at pre m post o n : n <= o -> o <= length m ->
  read_at (pre ++ m ++ post) (addr pre m o) n = Ok (data_at m o n).
Proof.
  intros Hn Ho. apply read_at_Ok. rewrite !length_app. unfold addr.
  split; [lia|split; [lia|]].
  replace (Z.to_nat _) with (length pre + (length m - o)) by lia.
  rewrite <- drop_drop, drop_app_length, drop_app_le by lia.
  rewrite take_app_le by (rewrite length_drop; lia). done.
Qed.

(** A scalar stored at distance [o]. *)
Lemma read_le_data_at pre m post o n z : n <= o -> o <= length m ->
  data_at m o n = le_split n z ->
  read_le (pre ++ m ++ post) (addr pre m o) n = Ok (z mod 256 ^ Z.of_nat n)%Z.
Proof.
  intros Hn Ho Hd. unfold read_le. rewrite read_data_at, Hd by done. cbn.
  by rewrite le_combine_split.
Qed.
End data_at.

Lemma padding_aligns size k : 0 <= k ->
  let p := PaddingBytes size (2 ^ k) in
  (Z.of_nat size + Z.of_nat p) mod 2 ^ k = 0 /\ Z.of_nat p < 2 ^ k.
Proof.
  intros Hk. cbv zeta. unfold PaddingBytes.
  replace (Z.lnot (Z.of_nat size) + 1) with (- Z.of_nat size) by (unfold Z.lnot; lia).
  replace (2 ^ k - 1) with (Z.ones k) by (rewrite Z.ones_equiv; lia).
  rewrite Z.land_ones by done.
  pose proof (Z.mod_pos_bound (- Z.of_nat size) (2 ^ k) ltac:(lia)).
  rewrite Z2Nat.id by lia. split; [|lia].
  rewrite Zplus_mod_idemp_r. by rewrite Z.add_opp_diag_r.
Qed.

Lemma padding_none size k : 0 <= k -> Z.of_nat size mod 2 ^ k = 0 -> PaddingBytes size (2 ^ k) = 0%nat.
Proof.
  intros Hk Hs. unfold PaddingBytes.
  replace (Z.lnot (Z.of_nat size) + 1) with (- Z.of_nat size) by (unfold Z.lnot; lia).
  replace (2 ^ k - 1) with (Z.ones k) by (rewrite Z.ones_equiv; lia).
  rewrite Z.land_ones by done. rewrite Z_mod_zero_opp_full by done. done.
Qed.

(** Element sizes of the messages. *)
Definition scalar_size (n : nat) : Prop := n = 1%nat \/ n = 2%nat \/ n = 4%nat \/ n = 8%nat.

Lemma scalar_size_pow n : scalar_size n -> exists k, 0 <= k <= 3 /\ Z.of_nat n = 2 ^ k.
Proof. intros [-> |[-> |[-> | ->]]]; [exists 0|exists 1|exists 2|exists 3]; lia. Qed.

(** What aligning and pushing leave. *)
Definition minalign_ok (b : FlatBufferBuilder) : Prop :=
  exists k, 0 <= k <= 3 /\ minalign_ b = 2 ^ k.

Lemma PushElement_spec n e b : scalar_size n -> minalign_ok b ->
  exists pad, buf_ (PushElement n e b) = le_split n e ++ pad ++ buf_ b /\
    (length pad < 8)%nat /\ (Z.of_nat (length pad + GetSize b)) mod Z.of_nat n = 0 /\
    offsetbuf_ (PushElement n e b) = offsetbuf_ b /\
    vtables_ (PushElement n e b) = vtables_ b /\ minalign_ok (PushElement n e b).
Proof.
  intros Hn Hm. destruct (scalar_size_pow n Hn) as (k & Hk & En).
  exists (replicate (PaddingBytes (GetSize b) (Z.of_nat n)) 0). split; [done|].
  rewrite length_replicate, En.
  destruct (padding_aligns (GetSize b) k) as [Hp Hl]; [lia|].
  assert (2 ^ k <= 2 ^ 3) by (apply Z.pow_le_mono_r; lia).
  split_and!; try done.
  - lia.
  - rewrite Nat2Z.inj_add. by rewrite Z.add_comm.
  - unfold minalign_ok. cbn. rewrite En. case_match; [exists k; split; done|done].
Qed.

(** ** Tables

    What a table builder adds, field by field: a scalar with default 0, or an
    offset. *)
Inductive field_value :=
  | Scalar (n : nat) (v : Z)
  | Ref (off : nat).

Definition add (b : FlatBufferBuilder) (f : nat * field_value) : FlatBufferBuilder :=
  match f with
  | (field, Scalar n v) => AddElement n field v 0 b
  | (field, Ref off) => AddOffset field off b
  end.

(** [StartTable], the [add_*] calls in order, [EndTable]. *)
Definition table (numfields : nat) (fs : list (nat * field_value)) (b : FlatBufferBuilder) :
    nat * FlatBufferBuilder :=
  EndTable (GetSize b) numfields (foldl add b fs).

Definition present (f : field_value) : bool :=
  match f with Scalar _ v => negb (v =? 0) | Ref off => negb (off =? 0)%nat end.
Definition field_size (f : field_value) : nat := match f with Scalar n _ => n | Ref _ => 4%nat end.
(** The bytes of the field when it lies at distance [p] from the end. *)
Definition field_bytes (f : field_value) (p : nat) : list Z :=
  match f with
  | Scalar n v => le_split n v
  | Ref off => le_split 4 (Z.of_nat p - Z.of_nat off)
  end.
Definition field_ok (size : nat) (f : field_value) : Prop :=
  match f with Scalar n _ => scalar_size n | Ref off => (off <= size)%nat end.

(** A field of the table under construction, and where it lies. *)
Definition located (m : list Z) (f : nat * field_value) (loc : nat * nat) : Prop :=
  loc.2 = f.1 /\ (field_size f.2 <= loc.1 <= length m)%nat /\
  data_at m loc.1 (field_size f.2) = field_bytes f.2 loc.1 /\
  match f.2 with Scalar _ _ => True | Ref off => (off < loc.1)%nat end.

Lemma located_app x m f loc : located m f loc -> located (x ++ m) f loc.
Proof.
  intros (? & ? & Hd & Hr). split_and!; [done|lia|rewrite length_app; lia| |done].
  rewrite data_at_app by lia. done.
Qed.

Lemma add_scalar_spec n field v b : scalar_size n -> minalign_ok b -> v <> 0 ->
  exists y loc, buf_ (AddElement n field v 0 b) = y ++ buf_ b /\ (length y < 16)%nat /\
    vtables_ (AddElement n field v 0 b) = vtables_ b /\ minalign_ok (AddElement n field v 0 b) /\
    offsetbuf_ (AddElement n field v 0 b) = offsetbuf_ b ++ [(loc, field)] /\
    loc = GetSize (AddElement n field v 0 b) /\
    located (buf_ (AddElement n field v 0 b)) (field, Scalar n v) (loc, field).
Proof.
  intros Hn Hm Hv. unfold AddElement. rewrite (proj2 (Z.eqb_neq _ _)) by done.
  destruct (PushElement_spec n v b Hn Hm) as (pad & E & Hp & _ & Ho & Hvt & Hm').
  assert (n <= 8)%nat as Hn8 by (unfold scalar_size in Hn; lia).
  exists (le_split n v ++ pad), (GetSize (PushElement n v b)).
  cbn [buf_ vtables_ offsetbuf_ TrackField]. unfold GetSize.
  cbn [buf_ TrackField]. rewrite E.
  split_and!; try done; rewrite ?length_app, ?length_le_split; try lia.
  - by rewrite <- app_assoc.
  - unfold located. cbn [fst snd field_size field_bytes]. rewrite !length_app, length_le_split.
    split_and!; [done|lia|lia| |done].
    replace (n + _)%nat with (length (le_split n v) + length (pad ++ buf_ b))%nat
      by (rewrite length_le_split, length_app; lia).
    rewrite data_at_front by (rewrite length_le_split; lia).
    by rewrite take_ge by (rewrite length_le_split; lia).
Qed.

(** Padding to a four-byte boundary. *)
Lemma Align4_spec b : minalign_ok b -> let b1 := Align 4 b in
  exists pad, buf_ b1 = pad ++ buf_ b /\ (length pad < 4)%nat /\ minalign_ok b1 /\
    vtables_ b1 = vtables_ b /\ offsetbuf_ b1 = offsetbuf_ b /\ Z.of_nat (GetSize b1) mod 4 = 0.
Proof.
  intros Hm b1. exists (replicate (PaddingBytes (GetSize b) (2 ^ 2)) 0).
  destruct (padding_aligns (GetSize b) 2) as [Hp Hl]; [lia|].
  split_and!; try done; rewrite ?length_replicate; [lia| |].
  - destruct Hm as (k & Hk & E). unfold minalign_ok, b1, Align. cbn. rewrite E.
    case_match; [exists 2; split; [lia|done]|exists k; done].
  - unfold b1, Align, fill, GetSize. cbn [buf_ set_buf]. rewrite length_app, length_replicate.
    rewrite Nat2Z.inj_add, Z.add_comm. exact Hp.
Qed.

Lemma add_spec f b : field_ok (GetSize b) f.2 -> minalign_ok b ->
  exists y locs, buf_ (add b f) = y ++ buf_ b /\ (length y < 24)%nat /\
    vtables_ (add b f) = vtables_ b /\ minalign_ok (add b f) /\
    offsetbuf_ (add b f) = offsetbuf_ b ++ locs /\
    Forall (fun loc => (GetSize b <= loc.1 <= GetSize (add b f))%nat) locs /\
    Forall2 (located (buf_ (add b f))) (filter (fun f => present f.2) [f]) locs.
Proof.
  destruct f as [field [n v|off]]; cbn [add snd field_ok]; intros Hok Hm.
  - destruct (decide (v = 0)) as [->|Hv].
    + exists [], []. unfold AddElement. cbn. rewrite app_nil_r. split_and!; try done. lia.
    + destruct (add_scalar_spec n field v b Hok Hm Hv) as (y & loc & E & Hy & Hvt & Hm' & Ho & Hl & Hloc).
      exists y, [(loc, field)]. split_and!; try done; [lia| |].
      * constructor; [|constructor]. cbn [fst]. unfold GetSize in *. rewrite Hl, E, length_app. lia.
      * rewrite filter_cons_True by (cbn; by rewrite (proj2 (Z.eqb_neq _ _)) by done).
        rewrite filter_nil. constructor; [done|constructor].
  - unfold AddOffset. destruct (off =? 0)%nat eqn:Eo.
    { apply Nat.eqb_eq in Eo as ->. exists [], []. cbn. rewrite app_nil_r.
      split_and!; try done. lia. }
    apply Nat.eqb_neq in Eo. unfold ReferTo.
    set (b1 := Align 4 b). set (r := Z.of_nat (GetSize b1) - Z.of_nat off + 4).
    destruct (Align4_spec b Hm) as (pad & Eb & Hpad & Hm1 & Hvt1 & Ho1 & Hal).
    fold b1 in Eb, Hm1, Hvt1, Ho1, Hal.
    assert (GetSize b <= GetSize b1)%nat by (unfold GetSize; rewrite Eb, length_app; lia).
    destruct (add_scalar_spec 4 field r b1) as (y & loc & E & Hy & Hvt & Hm' & Ho & Hl & Hloc).
    { right. right. by left. } { done. } { subst r. lia. }
    exists (y ++ pad), [(loc, field)].
    split_and!; try done; try congruence.
    + rewrite E, Eb. by rewrite app_assoc.
    + rewrite length_app. lia.
    + constructor; [|constructor]. cbn [fst]. unfold GetSize in *.
      rewrite Hl, E, Eb, !length_app. lia.
    + rewrite filter_cons_True by (cbn; by rewrite (proj2 (Nat.eqb_neq _ _)) by done).
      rewrite filter_nil. constructor; [|constructor].
      destruct Hloc as (H1 & H2 & H3 & _). split; [done|split; [exact H2|split]].
      2: { cbn [fst snd]. rewrite Hl. unfold GetSize in *. rewrite E, length_app. cbn in H2.
           assert (length y <> 0)%nat; [|lia]. intros Hy0. apply nil_length_inv in Hy0 as ->.
           apply (f_equal length) in E. unfold AddElement in E.
           rewrite (proj2 (Z.eqb_neq r 0)) in E by (subst r; unfold GetSize; lia).
           unfold TrackField, PushElement, PushBytes, Align, fill in E. cbn [buf_ set_buf] in E.
           rewrite !length_app, length_le_split in E. simpl in E. lia. }
      cbn [snd fst field_size field_bytes] in *. rewrite H3. f_equal.
      (* the location is right behind the four bytes *)
      rewrite Hl. subst r. unfold AddElement. rewrite (proj2 (Z.eqb_neq _ _)) by lia.
      unfold PushElement, TrackField, PushBytes, Align at 1, fill, GetSize at 2. cbn [buf_ set_buf].
      change (Z.of_nat 4) with (2 ^ 2).
      rewrite (padding_none _ 2) by (done || lia).
      rewrite !length_app, length_le_split, length_replicate. unfold GetSize. lia.
Qed.

Lemma field_ok_mono n m f : (n <= m)%nat -> field_ok n f -> field_ok m f.
Proof. destruct f; simpl; [done|lia]. Qed.

Lemma adds_spec fs b : Forall (fun f => field_ok (GetSize b) f.2) fs -> minalign_ok b ->
  let b' := foldl add b fs in
  exists y locs, buf_ b' = y ++ buf_ b /\ (length y <= 24 * length fs)%nat /\
    vtables_ b' = vtables_ b /\ minalign_ok b' /\
    offsetbuf_ b' = offsetbuf_ b ++ locs /\
    Forall (fun loc => (GetSize b <= loc.1 <= GetSize b')%nat) locs /\
    Forall2 (located (buf_ b')) (filter (fun f => present f.2) fs) locs.
Proof.
  revert b. induction fs as [|f fs IH]; intros b Hok Hm.
  { exists [], []. cbn. rewrite app_nil_r. split_and!; try done. }
  apply Forall_cons in Hok as [Hf Hfs].
  destruct (add_spec f b Hf Hm) as (y1 & l1 & E1 & Hy1 & Hv1 & Hm1 & Ho1 & Hs1 & Hl1).
  destruct (IH (add b f)) as (y2 & l2 & E2 & Hy2 & Hv2 & Hm2 & Ho2 & Hs2 & Hl2); [|done|].
  { eapply Forall_impl; [exact Hfs|]. intros f' Hf'. cbn in Hf'. eapply field_ok_mono, Hf'.
    unfold GetSize. rewrite E1, length_app. lia. }
  cbn [foldl]. exists (y2 ++ y1), (l1 ++ l2). split_and!; try done; try congruence.
  - rewrite E2, E1. by rewrite app_assoc.
  - rewrite length_app. cbn [length]. lia.
  - rewrite Ho2, Ho1. by rewrite app_assoc.
  - unfold GetSize in *. rewrite E2, E1, !length_app in *. apply Forall_app.
    split; (eapply Forall_impl; [eassumption|]); intros loc Hloc; cbn in Hloc; lia.
  - change (f :: fs) with ([f] ++ fs). rewrite filter_app. apply Forall2_app; [|done].
    eapply Forall2_impl; [exact Hl1|]. intros f' loc Hloc. rewrite E2. by apply located_app.
Qed.

(** The 16-bit slot at byte [i] of a vtable. *)
Definition slot (vt : list Z) (i : nat) : list Z := take 2 (drop i vt).

Section slots.
Local Open Scope nat_scope.
Implicit Types (vt m bs : list Z) (i j : nat).

Lemma length_write_at m i bs : i + length bs <= length m -> length (write_at m i bs) = length m.
Proof. intros. unfold write_at. rewrite !length_app, length_take, length_drop. lia. Qed.

Lemma write_at_app vt m i bs : i + length bs <= length vt ->
  write_at (vt ++ m) i bs = write_at vt i bs ++ m.
Proof.
  intros. unfold write_at. rewrite take_app_le, drop_app_le by lia. by rewrite <- !app_assoc.
Qed.

Lemma slot_write_same vt i bs : length bs = 2 -> i + 2 <= length vt -> slot (write_at vt i bs) i = bs.
Proof.
  intros Hb Hi. unfold slot, write_at.
  rewrite drop_app_ge, length_take, Nat.min_l, Nat.sub_diag, drop_0 by (rewrite ?length_take; lia).
  rewrite take_app_le by lia. by apply take_ge; lia.
Qed.

Lemma slot_write_other vt i j bs : length bs = 2 -> i + 2 <= length vt ->
  j + 2 <= i \/ i + 2 <= j -> slot (write_at vt i bs) j = slot vt j.
Proof.
  intros Hb Hi Hj. unfold slot, write_at.
  destruct Hj as [Hj|Hj].
  - rewrite drop_app_le by (rewrite length_take; lia).
    rewrite take_app_le by (rewrite length_drop, length_take; lia).
    rewrite skipn_firstn_comm, take_take. f_equal. lia.
  - rewrite app_assoc, drop_app_ge by (rewrite length_app, length_take; lia).
    rewrite length_app, length_take, drop_drop. do 2 f_equal. lia.
Qed.

(** Writing the offsets of all located fields. *)
Definition write_slots (T : nat) (locs : list (nat * nat)) vt : list Z :=
  foldl (fun m '(off, id) => write_at m id (le_split 2 (Z.of_nat (T - off)))) vt locs.

Definition slot_ids (n : nat) (locs : list (nat * nat)) : Prop :=
  NoDup (locs.*2) /\ Forall (fun loc => Nat.Even loc.2 /\ loc.2 + 2 <= n) locs.

Lemma write_slots_app T locs vt m : slot_ids (length vt) locs ->
  write_slots T locs (vt ++ m) = write_slots T locs vt ++ m /\
  length (write_slots T locs vt) = length vt.
Proof.
  revert vt. induction locs as [|[off id] locs IH]; intros vt [Hnd Hall]; [done|].
  apply Forall_cons in Hall as [[_ Hid] Hall]. cbn in Hid, Hnd. apply NoDup_cons in Hnd as [_ Hnd].
  cbn [write_slots foldl].
  assert (id + length (le_split 2 (Z.of_nat (T - off))) <= length vt) as Hb
    by (rewrite length_le_split; lia).
  rewrite write_at_app by done. pose proof (length_write_at vt id _ Hb) as Hl.
  destruct (IH (write_at vt id (le_split 2 (Z.of_nat (T - off))))) as [E1 E2]; [by split; rewrite ?Hl|].
  unfold write_slots in E1, E2. rewrite E1, E2. done.
Qed.

Lemma write_slots_spec T locs vt : slot_ids (length vt) locs ->
  (forall off id, (off, id) ∈ locs ->
    slot (write_slots T locs vt) id = le_split 2 (Z.of_nat (T - off))) /\
  (forall j, Nat.Even j -> j ∉ locs.*2 -> slot (write_slots T locs vt) j = slot vt j) .
Proof.
  revert vt. induction locs as [|[off id] locs IH]; intros vt [Hnd Hall].
  { split; [by intros ?? ?%not_elem_of_nil|done]. }
  apply Forall_cons in Hall as [[He Hid] Hall]. cbn in Hid, Hnd, He.
  apply NoDup_cons in Hnd as [Hni Hnd]. cbn [write_slots foldl].
  set (bs := le_split 2 (Z.of_nat (T - off))). assert (length bs = 2) as Hb by done.
  pose proof (length_write_at vt id bs ltac:(lia)) as Hl.
  destruct (IH (write_at vt id bs)) as [H1 H2]; [by split; rewrite ?Hl|].
  unfold write_slots in H1, H2. split.
  - intros off' id' [[= -> ->]|Hin]%elem_of_cons; [|by apply H1].
    rewrite H2 by done. by apply slot_write_same.
  - intros j Hj [Hne Hjn]%not_elem_of_cons. cbn in Hne. rewrite H2 by done.
    apply slot_write_other; [done|lia|]. destruct He as [x ->], Hj as [y ->]. lia.
Qed.
End slots.

(** ** A finished table *)

Definition table_at (m : list Z) (T : nat) (fs : list (nat * field_value)) : Prop :=
  exists V vt, (4 <= T <= length m)%nat /\ (length vt <= V <= length m)%nat /\
    (4 <= length vt < 300)%nat /\
    data_at m T 4 = le_split 4 (Z.of_nat V - Z.of_nat T) /\
    data_at m V (length vt) = vt /\ slot vt 0 = le_split 2 (Z.of_nat (length vt)) /\
    forall id f, (id, f) ∈ fs -> (id + 2 <= length vt)%nat /\
      if present f
      then exists off, (off < T < off + 1000)%nat /\ located m (id, f) (off, id) /\
        slot vt id = le_split 2 (Z.of_nat (T - off))
      else slot vt id = le_split 2 0.

Lemma table_at_app x m T fs : table_at m T fs -> table_at (x ++ m) T fs.
Proof.
  intros (V & vt & ? & ? & ? & ? & ? & ? & Hfs). exists V, vt.
  rewrite length_app, !data_at_app by lia. split_and!; try done; try lia.
  intros id f Hin. destruct (Hfs id f Hin) as [? Hf]. split; [done|].
  destruct (present f); [|done]. destruct Hf as (off & ? & ? & ?).
  exists off. split_and!; try done; try lia. by apply located_app.
Qed.

Lemma PushElement_aligned n e b : scalar_size n ->
  Z.of_nat (GetSize b) mod Z.of_nat n = 0 ->
  buf_ (PushElement n e b) = le_split n e ++ buf_ b.
Proof.
  intros Hn Hs. destruct (scalar_size_pow n Hn) as (k & Hk & En). rewrite En in Hs.
  unfold PushElement, PushBytes, Align, fill. cbn [buf_ set_buf]. rewrite En.
  rewrite padding_none by (done || lia). done.
Qed.

Definition vtable0 (start nf T : nat) : list Z :=
  le_split 2 (Z.of_nat (FieldIndexToOffset nf)) ++ le_split 2 (Z.of_nat (T - start)) ++
  replicate (nf * 2) 0.

Lemma push_vtable_spec start nf b : minalign_ok b -> Z.of_nat (GetSize b) mod 4 = 0 ->
  slot_ids (length (vtable0 start nf (GetSize b))) (offsetbuf_ b) ->
  let b' := push_vtable start nf (GetSize b) b in
  buf_ b' = write_slots (GetSize b) (offsetbuf_ b) (vtable0 start nf (GetSize b)) ++ buf_ b /\
  vtables_ b' = vtables_ b /\ offsetbuf_ b' = [] /\ minalign_ok b'.
Proof.
  intros Hm Hs Hids b'. subst b'. unfold push_vtable. set (T := GetSize b) in *.
  set (b1 := fill (nf * 2) b). assert (minalign_ok b1) as Hm1 by done.
  assert (scalar_size 2) as H2 by (right; by left).
  destruct (PushElement_spec 2 (Z.of_nat (T - start)) b1 H2 Hm1) as (_ & _ & _ & _ & Eo2 & Ev2 & Hm2).
  assert (Z.of_nat (GetSize b1) mod 2 = 0) as Hs1.
  { unfold GetSize, b1, fill. cbn [buf_ set_buf]. rewrite length_app, length_replicate.
    fold (GetSize b). fold T. rewrite Nat2Z.inj_add, Nat2Z.inj_mul.
    pose proof (Z.div_mod (Z.of_nat T) 4 ltac:(lia)).
    replace (Z.of_nat nf * Z.of_nat 2 + Z.of_nat T) with
      ((Z.of_nat nf + 2 * (Z.of_nat T / 4)) * 2) by lia. by apply Z.mod_mul. }
  pose proof (PushElement_aligned 2 (Z.of_nat (T - start)) b1 H2 Hs1) as E2.
  set (b2 := PushElement 2 (Z.of_nat (T - start)) b1) in *.
  assert (Z.of_nat (GetSize b2) mod 2 = 0) as Hs2.
  { unfold GetSize. rewrite E2, length_app, length_le_split, Nat2Z.inj_add.
    fold (GetSize b1). by rewrite Zplus_mod, Hs1. }
  destruct (PushElement_spec 2 (Z.of_nat (FieldIndexToOffset nf)) b2 H2 Hm2)
    as (_ & _ & _ & _ & Eo3 & Ev3 & Hm3).
  pose proof (PushElement_aligned 2 (Z.of_nat (FieldIndexToOffset nf)) b2 H2 Hs2) as E3.
  set (b3 := PushElement 2 _ b2) in *. cbn [buf_ vtables_ offsetbuf_].
  assert (buf_ b3 = vtable0 start nf T ++ buf_ b) as Eb.
  { rewrite E3, E2. unfold b1, fill, vtable0. cbn [buf_ set_buf]. by rewrite <- !app_assoc. }
  assert (offsetbuf_ b3 = offsetbuf_ b) as Eo by (by rewrite Eo3, Eo2).
  rewrite Eo, Eb. fold (write_slots T (offsetbuf_ b) (vtable0 start nf T ++ buf_ b)).
  rewrite (proj1 (write_slots_app T _ _ _ Hids)). by split_and!.
Qed.

Lemma write_at_mid x old new m : length new = length old ->
  write_at (x ++ old ++ m) (length x) new = x ++ new ++ m.
Proof.
  intros Hl. unfold write_at. rewrite take_app_length. do 2 f_equal.
  by rewrite <- drop_drop, drop_app_length, Hl, drop_app_length.
Qed.

Definition vtables_ok (b : FlatBufferBuilder) : Prop :=
  Forall (fun it => (it <= GetSize b)%nat) (vtables_ b).

(** Field numbers of a generated table with [nf] fields. *)
Definition ids_ok (nf : nat) (fs : list (nat * field_value)) : Prop :=
  NoDup (fs.*1) /\ Forall (fun f => Nat.Even f.1 /\ (4 <= f.1 /\ f.1 + 2 <= 2 * nf + 4)%nat) fs.

Lemma located_ids m fs locs nf : ids_ok nf fs ->
  Forall2 (located m) (filter (fun f => present f.2) fs) locs ->
  locs.*2 = (filter (fun f => present f.2) fs).*1 /\ slot_ids (2 * nf + 4) locs.
Proof.
  intros [Hnd Hall] Hl.
  assert (locs.*2 = (filter (fun f => present f.2) fs).*1) as E.
  { clear Hnd Hall. induction Hl as [|f loc ? ? [Hf _] _ IH]; [done|]. cbn. by rewrite Hf, IH. }
  split; [done|]. split.
  - rewrite E. eapply sublist_NoDup; [exact Hnd|]. apply fmap_sublist, sublist_filter.
  - clear E Hnd. apply Forall_forall. intros loc Hin.
    apply list_elem_of_lookup in Hin as [i Hi].
    destruct (Forall2_lookup_r _ _ _ _ _ Hl Hi) as (f & Hf & [Ef _]).
    apply list_elem_of_lookup_2, list_elem_of_filter in Hf as [_ Hf].
    rewrite Forall_forall in Hall. destruct (Hall f Hf) as (? & ? & ?). rewrite Ef. split; [done|lia].
Qed.

Lemma slot_vtable0 start nf T i : Nat.Even i -> (4 <= i)%nat -> (i + 2 <= 2 * nf + 4)%nat ->
  slot (vtable0 start nf T) i = le_split 2 0.
Proof.
  intros He H4 Hi. unfold slot, vtable0.
  rewrite app_assoc, drop_app_ge by (rewrite length_app, !length_le_split; lia).
  rewrite length_app, !length_le_split, drop_replicate, take_replicate.
  replace (Nat.min 2 _) with 2%nat by lia. done.
Qed.

Lemma length_vtable0 start nf T : length (vtable0 start nf T) = (2 * nf + 4)%nat.
Proof. unfold vtable0. rewrite !length_app, !length_le_split, length_replicate. lia. Qed.

(** The vtable that [EndTable] builds has a slot for every field. *)
Lemma write_slots_fields start nf T m fs locs : ids_ok nf fs ->
  Forall2 (located m) (filter (fun f => present f.2) fs) locs ->
  let vt := write_slots T locs (vtable0 start nf T) in
  length vt = (2 * nf + 4)%nat /\ slot vt 0 = le_split 2 (Z.of_nat (length vt)) /\
  forall id f, (id, f) ∈ fs ->
    if present f
    then exists off, (off, id) ∈ locs /\ located m (id, f) (off, id) /\
      slot vt id = le_split 2 (Z.of_nat (T - off))
    else slot vt id = le_split 2 0.
Proof.
  intros Hids Hl vt. destruct (located_ids m fs locs nf Hids Hl) as [Eids Hslots].
  pose proof (length_vtable0 start nf T) as L0.
  assert (slot_ids (length (vtable0 start nf T)) locs) as Hs by by rewrite L0.
  destruct (write_slots_spec T locs _ Hs) as [Hin Hout].
  assert (length vt = 2 * nf + 4)%nat as Lvt.
  { subst vt. rewrite (proj2 (write_slots_app T locs _ [] Hs)). done. }
  destruct Hids as [Hnd Hall]. rewrite Forall_forall in Hall.
  split; [done|]. split.
  - subst vt. rewrite Hout.
    + rewrite Lvt. unfold slot, vtable0. rewrite drop_0, take_app_le by (rewrite length_le_split; lia).
      rewrite take_ge by (rewrite length_le_split; lia). f_equal. unfold FieldIndexToOffset. lia.
    + by exists 0%nat.
    + rewrite Eids. intros (f & Ef & Hf)%list_elem_of_fmap.
      apply list_elem_of_filter in Hf as [_ Hf]. destruct (Hall f Hf) as (_ & ? & _). lia.
  - intros id f Hf. destruct (Hall _ Hf) as (He & H4 & Hi). cbn in He, H4, Hi.
    destruct (present f) eqn:Ep.
    + assert ((id, f) ∈ filter (fun f => present f.2) fs) as Hff
        by (apply list_elem_of_filter; cbn; by rewrite Ep).
      apply list_elem_of_lookup in Hff as [i Hff].
      destruct (Forall2_lookup_l _ _ _ _ _ Hl Hff) as ([off id'] & Hloc & Hlo).
      pose proof Hlo as [Eid _]. cbn in Eid. subst id'.
      apply list_elem_of_lookup_2 in Hloc. exists off. split_and!; [done..|]. by apply Hin.
    + subst vt. rewrite Hout; [by apply slot_vtable0|done|].
      rewrite Eids. intros ([id' f'] & Ef & Hf')%list_elem_of_fmap. cbn in Ef. subst id'.
      apply list_elem_of_filter in Hf' as [Hp Hf'].
      assert (f' = f) as ->; [|cbn in Hp; by rewrite Ep in Hp].
      apply list_elem_of_lookup in Hf as [i Hf], Hf' as [j Hf'].
      assert (i = j) as ->; [|congruence].
      eapply NoDup_lookup; [exact Hnd|..]; rewrite list_lookup_fmap; [by rewrite Hf|by rewrite Hf'].
Qed.

Lemma set_buf_id b : set_buf (buf_ b) b = b.
Proof. by destruct b. Qed.

(** The vtable in use: an equal one further up, or the new one in front. *)
Lemma same_vtable_spec x vt m it : length vt = Z.to_nat (le_combine (take 2 vt)) ->
  (2 <= length vt)%nat -> (it <= length m)%nat ->
  same_vtable (vt ++ x ++ m) it = true ->
  data_at m it (length vt) = vt /\ (length vt <= it)%nat.
Proof.
  intros Hl H2 Hit. unfold same_vtable. rewrite take_app_le by lia. rewrite <- Hl.
  intros [_ Hd]%andb_true_iff. apply bool_decide_eq_true in Hd.
  rewrite take_app_length, app_assoc, data_at_app in Hd by done. split; [done|].
  apply (f_equal length) in Hd. unfold data_at in Hd. rewrite length_take, length_drop in Hd. lia.
Qed.

(** What [EndTable] keeps in front of the table: nothing if the vtable is
    found further up, and else the new one. *)
Lemma vtable_in_use vt P b1 : buf_ b1 = vt ++ le_split 4 0 ++ P ->
  length vt = Z.to_nat (le_combine (take 2 vt)) -> (2 <= length vt)%nat ->
  Forall (fun it => (it <= length P)%nat) (vtables_ b1) ->
  let T := (4 + length P)%nat in
  exists V X, (length vt <= V)%nat /\
    (match List.find (same_vtable (buf_ b1)) (vtables_ b1) with
     | Some it => (it, pop_bytes (GetSize b1 - T) b1)
     | None => (GetSize b1, b1)
     end) = (V, set_buf (X ++ le_split 4 0 ++ P) b1) /\
    (V <= length X + 4 + length P)%nat /\ (length X <= length vt)%nat /\
    forall w, length w = 4%nat -> data_at (X ++ w ++ P) V (length vt) = vt.
Proof.
  intros E1 Hs0 H2 Hvt T.
  assert (GetSize b1 = length vt + T)%nat as Hs1
    by (unfold GetSize; rewrite E1, !length_app, length_le_split; done).
  destruct (List.find _ _) as [it|] eqn:Ef.
  - apply find_some in Ef as [Hin Hsame]. apply list_elem_of_In in Hin.
    rewrite Forall_forall in Hvt. apply Hvt in Hin. rewrite E1 in Hsame.
    apply same_vtable_spec in Hsame as [Hd Hle]; [|done..].
    exists it, []. split_and!; [done| |simpl; lia|simpl; lia|].
    + unfold pop_bytes. rewrite Hs1, Nat.add_sub, E1, drop_app_length. done.
    + intros w _. cbn. rewrite data_at_app by lia. done.
  - exists (GetSize b1), vt. rewrite Hs1. split_and!; try lia.
    + rewrite <- E1. by rewrite set_buf_id.
    + intros w Hw. replace T with (length (w ++ P)) by (rewrite length_app; lia).
      rewrite data_at_front by lia. by apply take_ge.
Qed.

Lemma EndTable_spec start nf fs b : minalign_ok b -> vtables_ok b ->
  ids_ok nf fs -> (nf < 100)%nat ->
  Forall2 (located (buf_ b)) (filter (fun f => present f.2) fs) (offsetbuf_ b) ->
  Forall (fun loc => (GetSize b < loc.1 + 900)%nat) (offsetbuf_ b) ->
  let '(T, b') := EndTable start nf b in
  exists y, buf_ b' = y ++ buf_ b /\ (length y <= 16 + 2 * nf)%nat /\ (GetSize b < T)%nat /\
    table_at (buf_ b') T fs /\ minalign_ok b' /\ offsetbuf_ b' = [] /\ vtables_ok b'.
Proof.
  intros Hm Hvt Hids Hnf Hl Hnear. unfold EndTable.
  destruct (PushElement_spec 4 0 b) as (pad & E0 & Hpad & Hal & Eo0 & Ev0 & Hm0);
    [by right; right; left|done|].
  set (b0 := PushElement 4 0 b) in *. set (P := pad ++ buf_ b) in *.
  assert (GetSize b0 = 4 + length P)%nat as HT
    by (unfold GetSize; rewrite E0, length_app, length_le_split; done).
  assert (length P = length pad + GetSize b)%nat as HP by apply length_app.
  destruct (located_ids _ _ _ _ Hids Hl) as [_ Hslots].
  destruct (push_vtable_spec start nf b0) as (E1 & Ev1 & Eo1 & Hm1); [done| | |].
  { change (Z.of_nat 4) with 4 in Hal. by rewrite HT, HP, Nat2Z.inj_add, <- Zplus_mod_idemp_r, Hal. }
  { by rewrite length_vtable0, Eo0. }
  rewrite Eo0 in E1. rewrite Ev0 in Ev1.
  destruct (write_slots_fields start nf (GetSize b0) _ _ _ Hids Hl) as (Lvt & Hs0 & Hfs).
  set (vt := write_slots _ _ _) in *. set (b1 := push_vtable _ _ _ _) in *. rewrite E0 in E1.
  set (T := GetSize b0) in *.
  destruct (vtable_in_use vt P b1 E1) as (V & X & HV & EV & HVl & HX & Hvtat); [| |..].
  { unfold slot in Hs0. rewrite drop_0 in Hs0. rewrite Hs0, le_split_small by lia. lia. }
  { lia. }
  { rewrite Ev1. eapply Forall_impl; [exact Hvt|]. intros it Hit. cbn in Hit. lia. }
  rewrite <- HT in EV. fold T in EV.
  rewrite EV. cbn [buf_ set_buf minalign_ offsetbuf_ vtables_].
  set (soff := le_split 4 (Z.of_nat V - Z.of_nat T)).
  assert (length soff = 4%nat) as Hsoff by apply length_le_split.
  replace (GetSize _ - T)%nat with (length X); last first.
  { unfold GetSize. cbn [buf_]. rewrite !length_app, length_le_split. lia. }
  rewrite write_at_mid by done.
  exists (X ++ soff ++ pad). rewrite <- !app_assoc. fold P. split_and!; try done.
  - rewrite !length_app. lia.
  - lia.
  - exists V, vt. rewrite !length_app. split_and!; try lia; try done.
    + change (le_split 4 (Z.of_nat V - Z.of_nat T)) with soff.
      rewrite HT, <- Hsoff. apply data_at_mid.
    + by apply Hvtat.
    + intros id f Hin. split.
      { destruct Hids as [_ Hall]. rewrite Forall_forall in Hall.
        destruct (Hall _ Hin) as (_ & _ & ?). cbn in *. lia. }
      specialize (Hfs id f Hin). destruct (present f); [|done].
      destruct Hfs as (off & Hloc & Hlo & Hsl). exists off. split_and!; try done.
      * destruct Hlo as (_ & [_ ?] & _). cbn in *. unfold GetSize in *. lia.
      * rewrite Forall_forall in Hnear. specialize (Hnear _ Hloc). cbn in Hnear. lia.
      * unfold P. rewrite !app_assoc. by apply located_app.
  - unfold vtables_ok in *. cbn [vtables_ set_buf]. apply Forall_app. split.
    + rewrite Ev1. eapply Forall_impl; [exact Hvt|]. intros it Hit. cbn in Hit.
      unfold GetSize. cbn [buf_ set_buf]. rewrite !length_app. lia.
    + destruct (V =? _)%nat; constructor; [|constructor]. unfold GetSize. cbn [buf_ set_buf].
      rewrite !length_app. lia.
Qed.

(** ** What each builder call leaves in the buffer *)

Definition builder_ok (b : FlatBufferBuilder) : Prop :=
  minalign_ok b /\ vtables_ok b /\ offsetbuf_ b = [].

Lemma builder_new_ok : builder_ok builder_new.
Proof. split; [by exists 0|]. split; [constructor|done]. Qed.

(** Growth by at most [n] bytes, in front. *)
Definition grows (n : nat) (b b' : FlatBufferBuilder) : Prop :=
  (exists y, buf_ b' = y ++ buf_ b /\ (length y <= n)%nat) /\ builder_ok b'.

Lemma grows_size n b b' : grows n b b' -> (GetSize b <= GetSize b' <= GetSize b + n)%nat.
Proof. intros [(y & E & ?) _]. unfold GetSize. rewrite E, length_app. lia. Qed.

Lemma grows_trans n m b1 b2 b3 : grows n b1 b2 -> grows m b2 b3 -> grows (n + m) b1 b3.
Proof.
  intros [(y & Ey & ?) _] [(z & Ez & ?) Hok]. split; [|done].
  exists (z ++ y). rewrite Ez, Ey, length_app, app_assoc. split; [done|lia].
Qed.

Lemma table_spec nf fs b : builder_ok b -> ids_ok nf fs -> (nf < 100)%nat ->
  (length fs <= 10)%nat -> Forall (fun f => field_ok (GetSize b) f.2) fs ->
  let '(T, b') := table nf fs b in
  grows (24 * length fs + 16 + 2 * nf) b b' /\ (GetSize b < T)%nat /\ table_at (buf_ b') T fs.
Proof.
  intros (Hm & Hvt & Ho) Hids Hnf Hlen Hok. unfold table.
  destruct (adds_spec fs b Hok Hm) as (y & locs & E & Hy & Ev & Hm' & Eo & Hs & Hl).
  set (b1 := foldl add b fs) in *. rewrite Ho in Eo. cbn in Eo. rewrite <- Eo in Hs, Hl.
  assert (GetSize b1 = length y + GetSize b)%nat as Hsz
    by (unfold GetSize; rewrite E; apply length_app).
  pose proof (EndTable_spec (GetSize b) nf fs b1 Hm') as HE.
  destruct (EndTable (GetSize b) nf b1) as [T b'].
  destruct HE as (z & Ez & Hz & HT & Htab & Hm2 & Ho2 & Hv2); try done.
  - unfold vtables_ok. rewrite Ev. eapply Forall_impl; [exact Hvt|]. intros it Hit. cbn in *. lia.
  - eapply Forall_impl; [exact Hs|]. intros loc Hloc. cbn in *. lia.
  - split_and!; [|lia|done]. split; [|done]. exists (z ++ y).
    rewrite Ez, E, length_app, app_assoc. split; [done|lia].
Qed.

(** A string with its length and its NUL. *)
Definition string_at (m : list Z) (o : nat) (s : string) : Prop :=
  (String.length s + 5 <= o <= length m)%nat /\
  data_at m o (String.length s + 5) =
    le_split 4 (Z.of_nat (String.length s)) ++ string_bytes s ++ [0].

Lemma string_at_app x m o s : string_at m o s -> string_at (x ++ m) o s.
Proof. intros [? ?]. split; [rewrite length_app; lia|]. rewrite data_at_app by lia. done. Qed.

Lemma vtables_ok_grow b b' y : buf_ b' = y ++ buf_ b -> vtables_ b' = vtables_ b ->
  vtables_ok b -> vtables_ok b'.
Proof.
  intros E Ev Hv. unfold vtables_ok. rewrite Ev. eapply Forall_impl; [exact Hv|].
  intros it Hit. cbn in *. unfold GetSize in *. rewrite E, length_app. lia.
Qed.

Lemma CreateString_spec s b : builder_ok b ->
  let '(o, b') := CreateString s b in
  grows (String.length s + 8) b b' /\ (GetSize b < o)%nat /\ string_at (buf_ b') o s.
Proof.
  intros (Hm & Hvt & Ho). unfold CreateString.
  set (p := PaddingBytes (GetSize b + (String.length s + 1)) 4).
  destruct (padding_aligns (GetSize b + (String.length s + 1)) 2) as [Hal Hp]; [lia|].
  change (2 ^ 2) with 4 in Hal, Hp. fold p in Hal, Hp.
  set (b3 := PushBytes (string_bytes s) _).
  assert (buf_ b3 = string_bytes s ++ [0] ++ replicate p 0 ++ buf_ b) as E3 by done.
  assert (GetSize b3 = String.length s + 1 + p + GetSize b)%nat as S3.
  { unfold GetSize. rewrite E3, !length_app, length_string_bytes, length_replicate. simpl. lia. }
  assert (scalar_size 4) as H4 by (right; right; by left).
  assert (Z.of_nat (GetSize b3) mod Z.of_nat 4 = 0) as Hal3.
  { rewrite S3. change (Z.of_nat 4) with 4. rewrite <- Hal. f_equal. lia. }
  pose proof (PushElement_aligned 4 (Z.of_nat (String.length s)) b3 H4 Hal3) as E4.
  destruct (PushElement_spec 4 (Z.of_nat (String.length s)) b3 H4 Hm)
    as (_ & _ & _ & _ & Eo & Ev & Hm').
  set (b4 := PushElement 4 _ b3) in *. rewrite E3 in E4.
  set (y := le_split 4 (Z.of_nat (String.length s)) ++ string_bytes s ++ [0]) in *.
  assert (length y = String.length s + 5)%nat as Hy.
  { subst y. rewrite !length_app, length_le_split, length_string_bytes. simpl. lia. }
  assert (buf_ b4 = (y ++ replicate p 0) ++ buf_ b) as E.
  { rewrite E4. subst y. by rewrite <- !app_assoc. }
  assert (GetSize b4 = String.length s + 5 + p + GetSize b)%nat as S4.
  { unfold GetSize. rewrite E, !length_app, Hy, length_replicate. done. }
  split_and!.
  - split.
    + exists (y ++ replicate p 0). split; [exact E|]. rewrite length_app, Hy, length_replicate. lia.
    + split_and!; [done| |by rewrite Eo]. eapply vtables_ok_grow; [exact E|by rewrite Ev|done].
  - lia.
  - split; [unfold GetSize in *; lia|].
    rewrite E, <- app_assoc, <- Hy, S4, <- Hy.
    replace (length y + p + GetSize b)%nat with (length y + length (replicate p 0%Z ++ buf_ b))%nat
      by (rewrite length_app, length_replicate; unfold GetSize; lia).
    rewrite data_at_front by lia. by apply take_ge.
Qed.

Lemma PushElement4_ok e b : builder_ok b -> Z.of_nat (GetSize b) mod 4 = 0 ->
  buf_ (PushElement 4 e b) = le_split 4 e ++ buf_ b /\ builder_ok (PushElement 4 e b).
Proof.
  intros (Hm & Hv & Ho) Hal. assert (scalar_size 4) as H4 by (right; right; by left).
  pose proof (PushElement_aligned 4 e b H4 Hal) as E.
  destruct (PushElement_spec 4 e b H4 Hm) as (_ & _ & _ & _ & Eo & Ev & Hm').
  split_and!; try done; split_and!; [done| |by rewrite Eo].
  eapply vtables_ok_grow; [exact E|by rewrite Ev|done].
Qed.

Lemma push_offset_aligned b off : builder_ok b -> Z.of_nat (GetSize b) mod 4 = 0 ->
  buf_ (push_offset b off) =
    le_split 4 (Z.of_nat (GetSize b + 4) - Z.of_nat off) ++ buf_ b /\
  builder_ok (push_offset b off).
Proof.
  intros Hok Hal. unfold push_offset, ReferTo.
  assert (buf_ (Align 4 b) = buf_ b) as Eb.
  { unfold Align, fill. cbn [buf_ set_buf]. by rewrite (padding_none _ 2) by (done || lia). }
  assert (builder_ok (Align 4 b)) as Hok1.
  { destruct Hok as (Hm & Hv & Ho). split_and!; [|by unfold vtables_ok, GetSize; rewrite Eb|done].
    destruct Hm as (k & Hk & E). unfold minalign_ok, Align. cbn. rewrite E.
    case_match; [exists 2; split; [lia|done]|by exists k]. }
  assert (GetSize (Align 4 b) = GetSize b) as Es by (unfold GetSize; by rewrite Eb).
  destruct (PushElement4_ok (Z.of_nat (GetSize (Align 4 b)) - Z.of_nat off + 4) (Align 4 b)) as [E Hok2];
    [done|by rewrite Es|].
  split; [|done]. rewrite E, Es, Eb. do 2 f_equal. lia.
Qed.

Lemma push_offsets_spec l b : builder_ok b -> Z.of_nat (GetSize b) mod 4 = 0 ->
  let b' := foldl push_offset b l in
  exists y, buf_ b' = y ++ buf_ b /\ length y = (4 * length l)%nat /\ builder_ok b' /\
    forall j o, l !! j = Some o ->
      let p := (GetSize b + 4 * (j + 1))%nat in
      data_at (buf_ b') p 4 = le_split 4 (Z.of_nat p - Z.of_nat o).
Proof.
  revert b. induction l as [|off l IH]; intros b Hok Hal.
  { exists []. split_and!; try done. }
  destruct (push_offset_aligned b off Hok Hal) as [E Hok1].
  set (b1 := push_offset b off) in *.
  assert (GetSize b1 = 4 + GetSize b)%nat as Hs
    by (unfold GetSize; by rewrite E, length_app, length_le_split).
  destruct (IH b1) as (y & Ey & Hy & Hok2 & Hat); [done| |].
  { rewrite Hs, Nat2Z.inj_add, <- Zplus_mod_idemp_r, Hal. done. }
  cbn [foldl]. fold b1. exists (y ++ le_split 4 (Z.of_nat (GetSize b + 4) - Z.of_nat off)).
  split_and!; [by rewrite Ey, E, app_assoc|rewrite length_app, length_le_split; simpl; lia|done|].
  intros [|j] o Hj; cbn in Hj.
  - injection Hj as ->. set (w := le_split 4 (Z.of_nat (GetSize b + 4) - Z.of_nat o)) in *.
    assert (length w = 4)%nat as Hw by apply length_le_split.
    rewrite Ey, data_at_app by (unfold GetSize in *; lia). rewrite E.
    replace (GetSize b + 4 * (0 + 1))%nat with (length w + length (buf_ b))%nat
      by (unfold GetSize; lia).
    rewrite data_at_front by lia. rewrite take_ge by lia. subst w.
    rewrite length_le_split. do 2 f_equal. unfold GetSize. lia.
  - specialize (Hat j o Hj). cbv zeta in Hat. rewrite Hs in Hat.
    replace (GetSize b + 4 * (S j + 1))%nat with (4 + GetSize b + 4 * (j + 1))%nat by lia. done.
Qed.

Definition vector_at (m : list Z) (V : nat) (v : list nat) : Prop :=
  (4 * length v + 4 <= V <= length m)%nat /\
  data_at m V 4 = le_split 4 (Z.of_nat (length v)) /\
  forall i o, v !! i = Some o ->
    let p := (V - 4 - 4 * i)%nat in
    (o < p)%nat /\ data_at m p 4 = le_split 4 (Z.of_nat p - Z.of_nat o).

Lemma vector_at_app x m V v : vector_at m V v -> vector_at (x ++ m) V v.
Proof.
  intros (? & ? & Hv). split; [rewrite length_app; lia|]. rewrite data_at_app by lia. split; [done|].
  intros i o Hi p. destruct (Hv i o Hi) as [? Hd]. split; [done|].
  rewrite data_at_app by (subst p; lia). exact Hd.
Qed.

Lemma PreAlign_ok len b : builder_ok b -> builder_ok (PreAlign len 4 b).
Proof.
  intros (Hm & Hv & Ho). split_and!; [done| |done].
  by eapply (vtables_ok_grow b).
Qed.

Lemma CreateVector_spec v b : builder_ok b -> Forall (fun o => (o <= GetSize b)%nat) v ->
  let '(V, b') := CreateVector v b in
  grows (4 * length v + 12) b b' /\ (GetSize b < V)%nat /\ vector_at (buf_ b') V v.
Proof.
  intros Hok Hv. unfold CreateVector. set (n := (length v * 4)%nat).
  set (b1 := PreAlign n 4 b). assert (builder_ok b1) as Hok1 by by apply PreAlign_ok.
  set (b2 := PreAlign n 4 b1). assert (builder_ok b2) as Hok2 by by apply PreAlign_ok.
  destruct (padding_aligns (GetSize b + n) 2) as [Hal1 Hp1]; [lia|].
  destruct (padding_aligns (GetSize b1 + n) 2) as [Hal2 Hp2]; [lia|].
  change (2 ^ 2) with 4 in *. set (p1 := PaddingBytes (GetSize b + n) 4) in *.
  set (p2 := PaddingBytes (GetSize b1 + n) 4) in *.
  assert (buf_ b2 = (replicate p2 0 ++ replicate p1 0) ++ buf_ b) as E2
    by (rewrite <- app_assoc; done).
  assert (GetSize b1 = p1 + GetSize b)%nat as S1
    by (unfold GetSize, b1, PreAlign, fill; cbn; by rewrite length_app, length_replicate).
  assert (GetSize b2 = p2 + p1 + GetSize b)%nat as S2
    by (unfold GetSize; by rewrite E2, !length_app, !length_replicate).
  assert (Z.of_nat (GetSize b2) mod 4 = 0) as Hal.
  { rewrite S2. subst n.
    replace (Z.of_nat (p2 + p1 + GetSize b)) with
      (Z.of_nat (GetSize b1 + length v * 4) + Z.of_nat p2 + (- Z.of_nat (length v)) * 4) by lia.
    by rewrite Z_mod_plus_full. }
  destruct (push_offsets_spec (reverse v) b2 Hok2 Hal) as (y & Ey & Hy & Hok3 & Hat).
  set (b3 := foldl push_offset b2 (reverse v)) in *. rewrite length_reverse in Hy.
  assert (GetSize b3 = 4 * length v + GetSize b2)%nat as S3
    by (unfold GetSize; rewrite Ey, length_app; by rewrite Hy).
  assert (Z.of_nat (GetSize b3) mod 4 = 0) as Hal3.
  { rewrite S3. replace (Z.of_nat (4 * length v + GetSize b2)) with
      (Z.of_nat (GetSize b2) + Z.of_nat (length v) * 4) by lia. by rewrite Z_mod_plus_full. }
  destruct (PushElement4_ok (Z.of_nat (length v)) b3 Hok3 Hal3) as [E4 Hok4].
  set (b4 := PushElement 4 _ b3) in *. set (hd := le_split 4 (Z.of_nat (length v))) in *.
  assert (GetSize b4 = 4 + GetSize b3)%nat as S4
    by (unfold GetSize; rewrite E4, length_app; subst hd; by rewrite length_le_split).
  split_and!.
  - split; [|done]. exists (hd ++ y ++ replicate p2 0 ++ replicate p1 0).
    rewrite E4, Ey, E2. rewrite <- !app_assoc. split; [done|].
    subst hd. rewrite !length_app, length_le_split, !length_replicate. lia.
  - lia.
  - assert (length hd = 4)%nat as Hhd by apply length_le_split.
    split; [unfold GetSize in *; lia|split].
    + rewrite S4, E4. replace (4 + GetSize b3)%nat with (length hd + length (buf_ b3))%nat
        by (unfold GetSize; lia).
      rewrite data_at_front by lia. by rewrite take_ge by lia.
    + intros i o Hi p. pose proof (lookup_lt_Some _ _ _ Hi) as Hlt.
      assert (reverse v !! (length v - 1 - i)%nat = Some o) as Hr.
      { rewrite reverse_lookup by lia. rewrite <- Hi. f_equal. lia. }
      specialize (Hat _ _ Hr). cbv zeta in Hat.
      assert (p = GetSize b2 + 4 * (length v - 1 - i + 1))%nat as -> by (subst p; lia).
      split; [|rewrite E4, data_at_app by (unfold GetSize in *; lia); exact Hat].
      rewrite Forall_forall in Hv. specialize (Hv o (list_elem_of_lookup_2 _ _ _ Hi)). lia.
Qed.

Lemma Finish_spec root b : builder_ok b -> (root <= GetSize b)%nat ->
  exists y, Finish root b = y ++ buf_ b /\ (4 <= length y <= 18)%nat /\
    take 4 y = le_split 4 (Z.of_nat (length y + GetSize b) - Z.of_nat root).
Proof.
  intros ((k & Hk & Em) & _ & _) Hr. unfold Finish, ReferTo.
  set (p := PaddingBytes (GetSize b + 4) (minalign_ b)).
  assert (p < 8)%nat as Hp.
  { subst p. rewrite Em. destruct (padding_aligns (GetSize b + 4) k) as [_ ?]; [lia|].
    assert (2 ^ k <= 2 ^ 3) by (apply Z.pow_le_mono_r; lia). lia. }
  set (b1 := PreAlign 4 (minalign_ b) b).
  assert (buf_ b1 = replicate p 0 ++ buf_ b) as E1 by done.
  set (q := PaddingBytes (GetSize b1) 4).
  destruct (padding_aligns (GetSize b1) 2) as [Hal Hq]; [lia|]. change (2 ^ 2) with 4 in *.
  fold q in Hal, Hq. set (b2 := Align 4 b1).
  assert (buf_ b2 = replicate q 0 ++ replicate p 0 ++ buf_ b) as E2 by done.
  assert (GetSize b2 = q + p + GetSize b)%nat as S2
    by (unfold GetSize; by rewrite E2, !length_app, !length_replicate, Nat.add_assoc).
  assert (Z.of_nat (GetSize b2) mod Z.of_nat 4 = 0) as Hal2.
  { change (Z.of_nat 4) with 4. rewrite S2. rewrite <- Hal. f_equal. unfold GetSize. rewrite E1.
    rewrite length_app, length_replicate. lia. }
  set (v := Z.of_nat (GetSize b2) - Z.of_nat root + 4).
  pose proof (PushElement_aligned 4 v b2 ltac:(right; right; by left) Hal2) as E.
  exists (le_split 4 v ++ replicate q 0 ++ replicate p 0). rewrite E, E2, <- !app_assoc.
  split; [done|]. rewrite take_app_le by (rewrite length_le_split; lia).
  rewrite take_ge by (rewrite length_le_split; lia).
  rewrite !length_app, length_le_split, !length_replicate. split; [lia|]. f_equal. lia.
Qed.

(** ** Reading back, wherever the buffer lies *)

Lemma swrap_mod w z : 0 < w -> in_srange w z -> swrap w (z mod 2 ^ w) = z.
Proof.
  intros Hw Hz. unfold swrap. rewrite Zplus_mod_idemp_l.
  change (swrap w z = z). by apply swrap_small.
Qed.

Section readers.
Variables pre m post : list Z.
Hypothesis small : Z.of_nat (length m) < 2 ^ 30.
Let mem := pre ++ m ++ post.
Let a := addr pre m.

Lemma read_back o n z : (n <= o <= length m)%nat -> data_at m o n = le_split n z ->
  read_le mem (a o) n = Ok (z mod 256 ^ Z.of_nat n).
Proof. intros []. by apply read_le_data_at. Qed.

Lemma GetRoot_back y b root : m = y ++ b -> (4 <= length y)%nat -> (root <= length b)%nat ->
  take 4 y = le_split 4 (Z.of_nat (length m) - Z.of_nat root) ->
  GetRoot mem (Z.of_nat (length pre)) = Ok (a root).
Proof.
  intros Hm Hy Hr Ht. unfold GetRoot.
  assert (Z.of_nat (length pre) = a (length m)) as -> by (unfold a, addr; lia).
  rewrite (read_back _ _ (Z.of_nat (length m) - Z.of_nat root)).
  - cbn. rewrite Z.mod_small.
    + f_equal. unfold a, addr. lia.
    + assert (length m = length y + length b)%nat by (rewrite Hm; apply length_app).
      lia.
  - rewrite Hm, length_app. lia.
  - rewrite <- Ht. rewrite Hm at 1 2. rewrite length_app. by apply data_at_front.
Qed.

Lemma read_slot V vt i x : (length vt <= V <= length m)%nat -> data_at m V (length vt) = vt ->
  (i + 2 <= length vt)%nat -> slot vt i = le_split 2 x -> 0 <= x < 65536 ->
  read_le mem (a V + Z.of_nat i) 2 = Ok x.
Proof.
  intros HV Hvt Hi Hs Hx.
  assert (a V + Z.of_nat i = a (V - i)%nat) as -> by (unfold a, addr; lia).
  rewrite (read_back _ _ x); [|lia|].
  - by rewrite Z.mod_small by lia.
  - rewrite <- Hs. unfold slot. rewrite <- (data_at_sub m V (length vt) i 2) by lia. by rewrite Hvt.
Qed.

Lemma offset_back T fs id f : table_at m T fs -> (id, f) ∈ fs ->
  exists o, GetOptionalFieldOffset mem (a T) (Z.of_nat id) = Ok o /\
    if present f
    then exists off, o <> 0 /\ a T + o = a off /\ located m (id, f) (off, id)
    else o = 0.
Proof.
  intros (V & vt & HT & HV & Hlen & Hsoff & Hvt & Hs0 & Hfs) Hin.
  destruct (Hfs id f Hin) as [Hid Hf].
  unfold GetOptionalFieldOffset, read_sle.
  rewrite (read_back _ _ _ HT Hsoff). cbn.
  rewrite (swrap_mod 32) by (unfold in_srange; lia).
  assert (a T - (Z.of_nat V - Z.of_nat T) = a V) as -> by (unfold a, addr; lia).
  pose proof (read_slot V vt 0 _ HV Hvt ltac:(lia) Hs0 ltac:(lia)) as E0.
  rewrite Z.add_0_r in E0. rewrite E0. cbn.
  rewrite (proj2 (Z.ltb_lt _ _)) by lia. destruct (present f).
  - destruct Hf as (off & Hoff & Hloc & Hsl).
    exists (Z.of_nat (T - off)). split; [apply (read_slot V vt id); done || lia|].
    exists off. split_and!; [lia|unfold a, addr; lia|done].
  - exists 0. split; [apply (read_slot V vt id); done || lia|done].
Qed.

Lemma GetField_back T fs id z n v : table_at m T fs -> z = Z.of_nat id ->
  (id, Scalar n v) ∈ fs -> GetField mem (a T) n z 0 = Ok (v mod 256 ^ Z.of_nat n).
Proof.
  intros HT -> Hin. destruct (offset_back _ _ _ _ HT Hin) as (o & Eo & Hf).
  unfold GetField. rewrite Eo. cbn [mbind outcome_bind]. cbn in Hf.
  destruct (v =? 0) eqn:Ev; cbn in Hf.
  - subst o. apply Z.eqb_eq in Ev as ->. cbn. by rewrite Zmod_0_l.
  - destruct Hf as (off & Ho & Ha & (_ & [Hl1 Hl2] & Hd & _)).
    rewrite (proj2 (Z.eqb_neq _ _)), Ha by done. cbn in Hl1, Hl2, Hd.
    by apply read_back.
Qed.

Lemma GetSField_back T fs id z n v : table_at m T fs -> z = Z.of_nat id ->
  (id, Scalar n v) ∈ fs -> (0 < n)%nat -> in_srange (8 * Z.of_nat n) v ->
  GetSField mem (a T) n z 0 = Ok v.
Proof.
  intros HT -> Hin Hn Hv. destruct (offset_back _ _ _ _ HT Hin) as (o & Eo & Hf).
  unfold GetSField. rewrite Eo. cbn [mbind outcome_bind]. cbn in Hf.
  destruct (v =? 0) eqn:Ev; cbn in Hf.
  - subst o. by apply Z.eqb_eq in Ev as ->.
  - destruct Hf as (off & Ho & Ha & (_ & [Hl1 Hl2] & Hd & _)).
    rewrite (proj2 (Z.eqb_neq _ _)), Ha by done. cbn in Hl1, Hl2, Hd.
    unfold read_sle. rewrite (read_back _ _ v) by done. cbn [mbind outcome_bind].
    change 256 with (2 ^ 8). rewrite <- Z.pow_mul_r by lia.
    cbv [mret outcome_ret]. by rewrite swrap_mod by (done || lia).
Qed.

Lemma GetPointer_back T fs id z off : table_at m T fs -> z = Z.of_nat id ->
  (id, Ref off) ∈ fs -> (0 < off)%nat -> GetPointer mem (a T) z = Ok (Some (a off)).
Proof.
  intros HT -> Hin Hoff. destruct (offset_back _ _ _ _ HT Hin) as (o & Eo & Hf).
  unfold GetPointer. rewrite Eo. cbn [mbind outcome_bind]. cbn in Hf.
  rewrite (proj2 (Nat.eqb_neq _ _)) in Hf by lia. cbn in Hf.
  destruct Hf as (p & Ho & Ha & (_ & [Hl1 Hl2] & Hd & Hp)).
  rewrite (proj2 (Z.eqb_neq _ _)), Ha by done. cbn in Hl1, Hl2, Hp.
  rewrite (read_back _ _ _ (conj Hl1 Hl2) Hd). cbn.
  change (256 ^ Z.of_nat 4) with (2 ^ 32). rewrite Z.mod_small by lia.
  cbv [mret outcome_ret]. do 2 f_equal. unfold a, addr. lia.
Qed.

Lemma c_str_back s rest : has_char Ascii.zero s = false ->
  c_str (string_bytes s ++ 0 :: rest) = Ok (string_bytes s).
Proof.
  induction s as [|c s IH]; intros Hs; [done|]. cbn in Hs. apply orb_false_iff in Hs as [Hc Hs].
  cbn [string_bytes app c_str]. rewrite (proj2 (Z.eqb_neq _ _)), IH; [done|done|].
  intros E. change 0 with (Z.of_N (N_of_ascii Ascii.zero)) in E. apply N2Z.inj in E.
  apply (f_equal ascii_of_N) in E. rewrite !ascii_N_embedding in E. by subst c.
Qed.

Lemma str_back o s : string_at m o s -> has_char Ascii.zero s = false -> str mem (a o) = Ok s.
Proof.
  intros [Ho Hd] Hs. unfold str.
  assert (0 <= a o) as Ha by (unfold a, addr; lia). rewrite (proj2 (Z.ltb_ge _ _)) by lia.
  assert (drop (Z.to_nat (a o + 4)) mem =
    string_bytes s ++ 0 :: drop (String.length s + 5) (drop (length m - o) m) ++ post) as ->.
  { replace (Z.to_nat (a o + 4)) with (length pre + (length m - o) + 4)%nat
      by (unfold a, addr; lia).
    subst mem. rewrite <- drop_drop, <- drop_drop, drop_app_length, (drop_app_le m) by lia.
    rewrite <- (take_drop (String.length s + 5) (drop (length m - o) m)) at 1.
    fold (data_at m o (String.length s + 5)). rewrite Hd. rewrite <- !app_assoc.
    rewrite <- (length_le_split 4 (Z.of_nat (String.length s))) at 1.
    by rewrite drop_app_length. }
  rewrite c_str_back by done. cbn. by rewrite bytes_string_bytes.
Qed.

Lemma vector_Length_back V v : vector_at m V v -> vector_Length mem (a V) = Ok (Z.of_nat (length v)).
Proof.
  intros (HV & Hl & _). unfold vector_Length. assert (4 <= V <= length m)%nat as H4 by lia.
  rewrite (read_back _ _ _ H4 Hl).
  change (256 ^ Z.of_nat 4) with (2 ^ 32). by rewrite Z.mod_small by lia.
Qed.

Lemma vector_Get_back V v i o : vector_at m V v -> v !! i = Some o ->
  vector_Get mem (a V) (Z.of_nat i) = Ok (a o).
Proof.
  intros (HV & _ & Hv) Hi. destruct (Hv i o Hi) as [Ho Hd].
  pose proof (lookup_lt_Some _ _ _ Hi). unfold vector_Get.
  assert (a V + 4 + 4 * Z.of_nat i = a (V - 4 - 4 * i)%nat) as -> by (unfold a, addr; lia).
  assert (4 <= V - 4 - 4 * i <= length m)%nat as H4 by lia.
  rewrite (read_back _ _ _ H4 Hd). cbn [mbind outcome_bind].
  change (256 ^ Z.of_nat 4) with (2 ^ 32). rewrite Z.mod_small by lia.
  cbv [mret outcome_ret]. f_equal. unfold a, addr. lia.
Qed.
End readers.
