(* ===== verification/Codec.v ===== *)
(** * The messages on FlatBuffers

    The [Create*] functions of message_generated.h as the gossiper calls them,
    the generated accessors, and the proof that they implement the
    [MessageCodec] interface: what is built is read back, wherever the bytes were
    copied to. Where a handler reads some fields of a message only, there is a
    reader of each, so that on a corrupt buffer nothing else is looked at. *)
From Stdlib Require Import Ascii.
From S2P Require Import Prelude Utils Bytes Messages FlatBuffers.
Local Open Scope Z_scope.

Section build.
(** C++ leaves open which of two argument expressions, each a
    [CreateString], is evaluated first. *)
Variable left_first : bool.

Definition CreateOptString (s : option string) (b : FlatBufferBuilder) : nat * FlatBufferBuilder :=
  match s with Some s => CreateString s b | None => (0%nat, b) end.

Definition CreateNode (nm i : nat) (port : Z) (b : FlatBufferBuilder) : nat * FlatBufferBuilder :=
  table 3 [(6%nat, Ref i); (4%nat, Ref nm); (8%nat, Scalar 2 port)] b.

Definition CreateNodeState (n : nat) (state dominant : Z) (fr : nat) (timeStamp : Z)
    (b : FlatBufferBuilder) : nat * FlatBufferBuilder :=
  table 5 [(12%nat, Scalar 8 timeStamp); (8%nat, Scalar 8 dominant); (10%nat, Ref fr);
    (4%nat, Ref n); (6%nat, Scalar 1 state)] b.

Definition CreateNodeStates (nodes : nat) (b : FlatBufferBuilder) : nat * FlatBufferBuilder :=
  table 1 [(4%nat, Ref nodes)] b.

Definition CreatePing (seqNo : Z) (fr : nat) (b : FlatBufferBuilder) : nat * FlatBufferBuilder :=
  table 2 [(4%nat, Scalar 8 seqNo); (6%nat, Ref fr)] b.

Definition CreatePong (seqNo : Z) (b : FlatBufferBuilder) : nat * FlatBufferBuilder :=
  table 1 [(4%nat, Scalar 8 seqNo)] b.

Definition CreateIndirectPing (seqNo : Z) (target : nat) (b : FlatBufferBuilder) :
    nat * FlatBufferBuilder :=
  table 2 [(4%nat, Scalar 8 seqNo); (6%nat, Ref target)] b.

(** [CreateNode(builder, CreateString(name), CreateString(ip), port)]. *)
Definition build_Node (n : Node) (b : FlatBufferBuilder) : nat * FlatBufferBuilder :=
  if left_first then
    let '(nm, b) := CreateOptString (name n) b in
    let '(i, b) := CreateOptString (ip n) b in
    CreateNode nm i (port n) b
  else
    let '(i, b) := CreateOptString (ip n) b in
    let '(nm, b) := CreateOptString (name n) b in
    CreateNode nm i (port n) b.

Definition build_NodeState (ns : NodeState) (b : FlatBufferBuilder) : nat * FlatBufferBuilder :=
  let '(n, b) := match node ns with Some n => build_Node n b | None => (0%nat, b) end in
  let '(fr, b) := CreateOptString (ns_from ns) b in
  CreateNodeState n (state ns) (dominant ns) fr (timeStamp ns) b.

(** The loop that fills [ns_vec]. *)
Fixpoint build_all (l : list NodeState) (b : FlatBufferBuilder) : list nat * FlatBufferBuilder :=
  match l with
  | [] => ([], b)
  | ns :: l =>
    let '(o, b) := build_NodeState ns b in
    let '(os, b) := build_all l b in
    (o :: os, b)
  end.

Definition fb_encode_Ping (p : Ping) : list Z :=
  let '(fr, b) := CreateOptString (ping_from p) builder_new in
  let '(o, b) := CreatePing (ping_seqNo p) fr b in
  Finish o b.

Definition fb_encode_Pong (p : Pong) : list Z :=
  let '(o, b) := CreatePong (pong_seqNo p) builder_new in Finish o b.

Definition fb_encode_NodeState (ns : NodeState) : list Z :=
  let '(o, b) := build_NodeState ns builder_new in Finish o b.

Definition fb_encode_NodeStates (nss : NodeStates) : list Z :=
  match nss with
  | Some l =>
    let '(os, b) := build_all l builder_new in
    let '(v, b) := CreateVector os b in
    let '(o, b) := CreateNodeStates v b in
    Finish o b
  | None => let '(o, b) := CreateNodeStates 0%nat builder_new in Finish o b
  end.
End build.

(** ** The accessors *)

Definition String_field (m : list Z) (t field : Z) : outcome (option string) :=
  p ← GetPointer m t field; read_string m p.

Definition read_Node (m : list Z) (t : Z) : outcome Node :=
  nm ← String_field m t 4;
  i ← String_field m t 6;
  p ← GetSField m t 2 8 0;
  mret (mkWNode nm i p).

Definition read_NodeState (m : list Z) (t : Z) : outcome NodeState :=
  p ← GetPointer m t 4;
  n ← match p with Some p => n ← read_Node m p; mret (Some n) | None => mret None end;
  s ← GetSField m t 1 6 0;
  d ← GetField m t 8 8 0;
  fr ← String_field m t 10;
  ts ← GetField m t 8 12 0;
  mret (mkWState n s d fr ts).

(** [nodes()->Get(i)] for every [i]. *)
Definition read_NodeStates (m : list Z) (t : Z) : outcome NodeStates :=
  p ← GetPointer m t 4;
  match p with
  | None => mret None
  | Some v =>
    len ← vector_Length m v;
    l ← mapM (fun i : nat => e ← vector_Get m v (Z.of_nat i); read_NodeState m e)
          (seq 0 (Z.to_nat len));
    mret (Some l)
  end.

Definition fb_decode_Ping (m : list Z) (pos : Z) : outcome Ping :=
  t ← GetRoot m pos;
  s ← GetField m t 8 4 0;
  fr ← String_field m t 6;
  mret (mkPing s fr).

Definition fb_decode_IndirectPing (m : list Z) (pos : Z) : outcome IndirectPing :=
  t ← GetRoot m pos;
  s ← GetField m t 8 4 0;
  p ← GetPointer m t 6;
  n ← match p with Some p => n ← read_Node m p; mret (Some n) | None => mret None end;
  mret (mkIndirectPing s n).

Definition fb_decode_Pong (m : list Z) (pos : Z) : outcome Pong :=
  t ← GetRoot m pos; s ← GetField m t 8 4 0; mret (mkPong s).

Definition fb_decode_NodeState (m : list Z) (pos : Z) : outcome NodeState :=
  t ← GetRoot m pos; read_NodeState m t.

Definition fb_decode_NodeStates (m : list Z) (pos : Z) : outcome NodeStates :=
  t ← GetRoot m pos; read_NodeStates m t.

(** The single fields the handlers of pings and pongs read. *)
Definition fb_Ping_seqNo (m : list Z) (pos : Z) : outcome Z :=
  t ← GetRoot m pos; GetField m t 8 4 0.

Definition fb_Ping_from (m : list Z) (pos : Z) : outcome (option string) :=
  t ← GetRoot m pos; String_field m t 6.

Definition fb_NodeState_name (m : list Z) (pos : Z) : outcome string :=
  t ← GetRoot m pos;
  p ← GetPointer m t 4;
  n ← deref_opt p;
  nm ← String_field m n 4;
  deref_opt nm.

Definition fb_NodeState_state (m : list Z) (pos : Z) : outcome Z :=
  t ← GetRoot m pos; GetSField m t 1 6 0.

Definition fb_NodeState_dominant (m : list Z) (pos : Z) : outcome Z :=
  t ← GetRoot m pos; GetField m t 8 8 0.

Definition flatbuffers (left_first : bool) : MessageCodec := {|
  encode_Ping := fb_encode_Ping;
  encode_Pong := fb_encode_Pong;
  encode_NodeState := fb_encode_NodeState left_first;
  encode_NodeStates := fb_encode_NodeStates left_first;
  decode_Ping := fb_decode_Ping;
  decode_Pong := fb_decode_Pong;
  decode_NodeState := fb_decode_NodeState;
  decode_NodeStates := fb_decode_NodeStates;
  Ping_seqNo := fb_Ping_seqNo;
  Ping_from := fb_Ping_from;
  NodeState_name := fb_NodeState_name;
  NodeState_state := fb_NodeState_state;
  NodeState_dominant := fb_NodeState_dominant
|}.

(** A smoke test: two states of one node survive the trip. *)
Example codec_runs :
  let n := mkWState (Some (mkWNode (Some "b:2") (Some "b") 2)) 1 7 (Some "c:3") 0 in
  let m := fb_encode_NodeStates true (Some [n; n]) in
  fb_decode_NodeStates ([1; 2; 3] ++ m ++ [9]) 3 = Ok (Some [n; n]).
Proof. by vm_compute. Qed.

(** ** What is built *)

(** A table, given its strings: the offsets are existential. *)
Definition Node_at (m : list Z) (o : nat) (n : Node) : Prop :=
  exists on oi nm i, name n = Some nm /\ ip n = Some i /\ (0 < on)%nat /\ (0 < oi)%nat /\
    string_at m on nm /\ string_at m oi i /\
    table_at m o [(6%nat, Ref oi); (4%nat, Ref on); (8%nat, Scalar 2 (port n))].

Definition NodeState_at (m : list Z) (o : nat) (ns : NodeState) : Prop :=
  exists n fr on ofr, node ns = Some n /\ ns_from ns = Some fr /\ (0 < on)%nat /\ (0 < ofr)%nat /\
    Node_at m on n /\ string_at m ofr fr /\
    table_at m o [(12%nat, Scalar 8 (timeStamp ns)); (8%nat, Scalar 8 (dominant ns));
      (10%nat, Ref ofr); (4%nat, Ref on); (6%nat, Scalar 1 (state ns))].

Lemma Node_at_app x m o n : Node_at m o n -> Node_at (x ++ m) o n.
Proof.
  intros (on & oi & nm & i & ? & ? & ? & ? & ? & ? & ?). exists on, oi, nm, i.
  split_and!; eauto using string_at_app, table_at_app.
Qed.

Lemma NodeState_at_app x m o ns : NodeState_at m o ns -> NodeState_at (x ++ m) o ns.
Proof.
  intros (n & fr & on & ofr & ? & ? & ? & ? & ? & ? & ?). exists n, fr, on, ofr.
  split_and!; eauto using string_at_app, Node_at_app, table_at_app.
Qed.

(** What lies in a buffer stays where it is when the builder goes on. *)
Lemma grows_keeps n b b' (P : list Z -> Prop) : grows n b b' ->
  (forall x m, P m -> P (x ++ m)) -> P (buf_ b) -> P (buf_ b').
Proof. intros [(y & E & _) _] Happ HP. rewrite E. by apply Happ. Qed.

(** The field numbers of a generated table, decided. *)
Definition even_id (nf i : nat) : bool := Nat.even i && (4 <=? i)%nat && (i + 2 <=? 2 * nf + 4)%nat.
Lemma ids_ok_dec nf fs : bool_decide (NoDup (fs.*1)) && forallb (even_id nf) (fs.*1) = true ->
  ids_ok nf fs.
Proof.
  intros [Hnd Hall]%andb_true_iff. apply bool_decide_eq_true in Hnd. split; [done|].
  rewrite forallb_forall in Hall. apply Forall_forall. intros f Hf.
  specialize (Hall f.1 ltac:(apply list_elem_of_In, list_elem_of_fmap; eauto)).
  unfold even_id in Hall. apply andb_true_iff in Hall as [[He H4]%andb_true_iff Hi].
  apply Nat.even_spec in He. split; [done|]. apply Nat.leb_le in H4, Hi. lia.
Qed.

Ltac field_oks := repeat (apply Forall_cons; split);
  [cbn [snd field_ok]; first [lia | unfold scalar_size; lia]..|constructor].

Definition wire_length (s : option string) : nat :=
  match s with Some s => String.length s | None => 0 end.

(** Two strings, one after the other. *)
Lemma CreateString_twice s1 s2 b : builder_ok b ->
  let '(o1, b1) := CreateString s1 b in
  let '(o2, b2) := CreateString s2 b1 in
  grows (String.length s1 + String.length s2 + 16) b b2 /\ (GetSize b < o1 <= GetSize b2)%nat /\
  (GetSize b < o2 <= GetSize b2)%nat /\ string_at (buf_ b2) o1 s1 /\ string_at (buf_ b2) o2 s2.
Proof.
  intros Hok. pose proof (CreateString_spec s1 b Hok) as H1.
  destruct (CreateString s1 b) as [o1 b1]. destruct H1 as (Hg1 & Ho1 & Hs1).
  pose proof (CreateString_spec s2 b1 (proj2 Hg1)) as H2.
  destruct (CreateString s2 b1) as [o2 b2]. destruct H2 as (Hg2 & Ho2 & Hs2).
  pose proof (grows_size _ _ _ Hg1). pose proof (grows_size _ _ _ Hg2).
  pose proof (grows_keeps _ _ _ (fun m => string_at m o1 s1) Hg2 ltac:(intros; by apply string_at_app) Hs1)
    as Hs1'.
  split_and!; try done; try lia.
  - replace (_ + 16)%nat with (String.length s1 + 8 + (String.length s2 + 8))%nat by lia.
    by eapply grows_trans.
  - destruct Hs1' as [? _]. unfold GetSize. lia.
  - destruct Hs2 as [? _]. unfold GetSize. lia.
Qed.

(** The table of a node, its strings built. *)
Lemma CreateNode_spec nm i p on oi b b2 : in_srange 16 p ->
  grows (String.length nm + String.length i + 16) b b2 ->
  (GetSize b < on <= GetSize b2)%nat -> (GetSize b < oi <= GetSize b2)%nat ->
  string_at (buf_ b2) on nm -> string_at (buf_ b2) oi i ->
  let '(o, b') := CreateNode on oi p b2 in
  grows (String.length nm + String.length i + 110) b b' /\ (GetSize b < o)%nat /\
  Node_at (buf_ b') o (mkWNode (Some nm) (Some i) p).
Proof.
  intros Hp Hg Hon Hoi Hn Hi. unfold CreateNode.
  pose proof (table_spec 3 [(6%nat, Ref oi); (4%nat, Ref on); (8%nat, Scalar 2 p)] b2 (proj2 Hg))
    as Ht.
  destruct (table _ _ b2) as [o b'].
  destruct Ht as (Hg' & Ho & Htab); [by apply ids_ok_dec|lia|simpl; lia|field_oks|].
  pose proof (grows_size _ _ _ Hg). split_and!; [|lia|].
  - replace (_ + 110)%nat with
      (String.length nm + String.length i + 16 + (24 * 3 + 16 + 2 * 3))%nat by lia.
    by eapply grows_trans.
  - exists on, oi, nm, i. split_and!; try done; try lia.
    + eapply (grows_keeps _ _ _ (fun m => string_at m on nm)); [exact Hg'| |done].
      intros. by apply string_at_app.
    + eapply (grows_keeps _ _ _ (fun m => string_at m oi i)); [exact Hg'| |done].
      intros. by apply string_at_app.
Qed.

Lemma build_Node_spec lf n b : Node_ok n -> builder_ok b ->
  let '(o, b') := build_Node lf n b in
  grows (wire_length (name n) + wire_length (ip n) + 110) b b' /\ (GetSize b < o)%nat /\
  Node_at (buf_ b') o n.
Proof.
  destruct n as [[nm|] [i|] p]; unfold Node_ok; cbn; try tauto. intros (_ & _ & Hp) Hok.
  unfold build_Node. cbn [name ip port CreateOptString]. destruct lf.
  - pose proof (CreateString_twice nm i b Hok) as Htwo. destruct (CreateString nm b) as [on b1].
    destruct (CreateString i b1) as [oi b2]. destruct Htwo as (? & ? & ? & ? & ?).
    by apply CreateNode_spec.
  - pose proof (CreateString_twice i nm b Hok) as Htwo. destruct (CreateString i b) as [oi b1].
    destruct (CreateString nm b1) as [on b2]. destruct Htwo as (? & ? & ? & ? & ?).
    apply CreateNode_spec; try done. by rewrite (Nat.add_comm (String.length nm)).
Qed.

Lemma build_NodeState_spec lf ns b : NodeState_ok ns -> builder_ok b ->
  let '(o, b') := build_NodeState lf ns b in
  grows (Z.to_nat 200000) b b' /\ (GetSize b < o)%nat /\ NodeState_at (buf_ b') o ns.
Proof.
  destruct ns as [[n|] s d [fr|] ts]; unfold NodeState_ok; cbn [node state dominant ns_from timeStamp];
    try (cbn; tauto).
  intros (Hn & Hs & Hd & (_ & Hfr) & Hts) Hok. unfold build_NodeState.
  cbn [node state dominant ns_from timeStamp CreateOptString].
  pose proof (build_Node_spec lf n b Hn Hok) as H1. destruct (build_Node lf n b) as [on b1].
  destruct H1 as (Hg1 & Hon & Hnat).
  pose proof (CreateString_spec fr b1 (proj2 Hg1)) as H2. destruct (CreateString fr b1) as [ofr b2].
  destruct H2 as (Hg2 & Hofr & Hfrat).
  set (fs := [(12%nat, Scalar 8 ts); (8%nat, Scalar 8 d); (10%nat, Ref ofr); (4%nat, Ref on);
    (6%nat, Scalar 1 s)]).
  pose proof (table_spec 5 fs b2 (proj2 Hg2)) as Ht. unfold CreateNodeState. fold fs.
  pose proof (grows_size _ _ _ Hg1). pose proof (grows_size _ _ _ Hg2).
  assert (on <= GetSize b1)%nat by (destruct Hnat as (?&?&?&?&_&_&_&_&_&_&(?&?&?&_)); unfold GetSize; lia).
  assert (ofr <= GetSize b2)%nat by (destruct Hfrat as [? _]; unfold GetSize; lia).
  destruct (table 5 fs b2) as [o b'].
  destruct Ht as (Hg3 & Ho & Htab); [by apply ids_ok_dec|lia|simpl; lia|subst fs; field_oks|].
  split_and!.
  - assert ((wire_length (name n) + wire_length (ip n) + 110 + (String.length fr + 8) +
      (24 * length fs + 16 + 2 * 5)) <= Z.to_nat 200000)%nat as Hle.
    { destruct n as [[nm|] [i|] p]; unfold Node_ok, wire_opt_string, wire_string in Hn; cbn in Hn; try tauto.
      destruct Hn as ((_ & ?) & (_ & ?) & _). cbn. lia. }
    pose proof (grows_trans _ _ _ _ _ (grows_trans _ _ _ _ _ Hg1 Hg2) Hg3) as [(y & Ey & Hy) Hok'].
    split; [|done]. exists y. split; [done|]. lia.
  - lia.
  - exists n, fr, on, ofr. split_and!; try done; try lia.
    + eapply (grows_keeps _ _ _ (fun m => Node_at m on n)); [exact Hg3| |].
      { intros. by apply Node_at_app. }
      eapply (grows_keeps _ _ _ (fun m => Node_at m on n)); [exact Hg2| |done].
      intros. by apply Node_at_app.
    + eapply (grows_keeps _ _ _ (fun m => string_at m ofr fr)); [exact Hg3| |done].
      intros. by apply string_at_app.
Qed.

Lemma build_all_spec lf l b : Forall NodeState_ok l -> builder_ok b ->
  let '(os, b') := build_all lf l b in
  grows (Z.to_nat 200000 * length l) b b' /\
  Forall2 (fun ns o => (0 < o <= GetSize b')%nat /\ NodeState_at (buf_ b') o ns) l os.
Proof.
  revert b. induction l as [|ns l IH]; intros b Hl Hok; cbn [build_all].
  { split; [|constructor]. split; [exists []; split; [done|apply Nat.le_0_l]|done]. }
  apply Forall_cons in Hl as [Hns Hl].
  pose proof (build_NodeState_spec lf ns b Hns Hok) as H1.
  destruct (build_NodeState lf ns b) as [o b1]. destruct H1 as (Hg1 & Ho & Hat).
  specialize (IH b1 Hl (proj2 Hg1)). destruct (build_all lf l b1) as [os b2].
  destruct IH as [Hg2 Hos]. pose proof (grows_size _ _ _ Hg2). split.
  - cbn [length]. rewrite Nat.mul_succ_r, Nat.add_comm. by eapply grows_trans.
  - constructor; [|done].
    assert (o <= GetSize b1)%nat.
    { destruct Hat as (?&?&?&?&_&_&_&_&_&_&(?&?&?&_)). unfold GetSize. lia. }
    split; [lia|]. eapply (grows_keeps _ _ _ (fun m => NodeState_at m o ns)); [exact Hg2| |done].
    intros. by apply NodeState_at_app.
Qed.

(** ** Reading it back *)

(** The side conditions of reading a field: it is one of the table's. *)
Ltac table_side := first [done | lia | by repeat constructor].

Section back.
Variables pre m post : list Z.
Hypothesis small : Z.of_nat (length m) < 2 ^ 30.
#[local] Abbreviation mem := (pre ++ m ++ post).
#[local] Abbreviation a := (addr pre m).

Lemma String_field_back T fs id z o s : table_at m T fs -> z = Z.of_nat id ->
  (id, Ref o) ∈ fs -> (0 < o)%nat -> string_at m o s -> has_char Ascii.zero s = false ->
  String_field mem (a T) z = Ok (Some s).
Proof.
  intros HT Hz Hin Ho Hs Hc. unfold String_field.
  rewrite (GetPointer_back pre m post small T fs id z o HT Hz Hin Ho). cbn.
  by rewrite (str_back pre m post o s Hs Hc).
Qed.

Lemma GetField64_back T fs id z v : table_at m T fs -> z = Z.of_nat id ->
  (id, Scalar 8 v) ∈ fs -> in_range 64 v -> GetField mem (a T) 8 z 0 = Ok v.
Proof.
  intros HT Hz Hin Hv. rewrite (GetField_back pre m post small T fs id z 8 v HT Hz Hin).
  change (256 ^ Z.of_nat 8) with (2 ^ 64). f_equal. by apply wrap_small.
Qed.

Lemma read_Node_back o n : Node_at m o n -> Node_ok n -> read_Node mem (a o) = Ok n.
Proof.
  intros (on & oi & nm & i & En & Ei & Hon & Hoi & Hsn & Hsi & HT).
  unfold Node_ok. rewrite En, Ei. cbn. intros ([Hn _] & [Hi _] & Hp). unfold read_Node.
  rewrite (String_field_back o _ 4 4 on nm HT) by table_side. cbn [mbind outcome_bind].
  rewrite (String_field_back o _ 6 6 oi i HT) by table_side. cbn [mbind outcome_bind].
  rewrite (GetSField_back pre m post small o _ 8 8 2 (port n) HT) by table_side.
  cbn. destruct n; cbn in *; by subst.
Qed.

Lemma read_NodeState_back o ns : NodeState_at m o ns -> NodeState_ok ns ->
  read_NodeState mem (a o) = Ok ns.
Proof.
  intros (n & fr & on & ofr & En & Ef & Hon & Hofr & Hn & Hfr & HT).
  unfold NodeState_ok. rewrite En, Ef. intros (Hnok & Hs & Hd & [Hc _] & Hts).
  unfold read_NodeState.
  rewrite (GetPointer_back pre m post small o _ 4 4 on HT) by table_side.
  cbn [mbind outcome_bind]. rewrite (read_Node_back on n Hn Hnok). cbn [mbind outcome_bind mret outcome_ret].
  rewrite (GetSField_back pre m post small o _ 6 6 1 (state ns) HT) by table_side.
  cbn [mbind outcome_bind].
  rewrite (GetField64_back o _ 8 8 (dominant ns) HT) by table_side. cbn [mbind outcome_bind].
  rewrite (String_field_back o _ 10 10 ofr fr HT) by table_side. cbn [mbind outcome_bind].
  rewrite (GetField64_back o _ 12 12 (timeStamp ns) HT) by table_side.
  cbn. destruct ns; cbn in *; by subst.
Qed.

Lemma read_NodeStates_back o V os l : (0 < V)%nat ->
  table_at m o [(4%nat, Ref V)] -> vector_at m V os ->
  Forall NodeState_ok l -> Forall2 (fun ns o => (0 < o)%nat /\ NodeState_at m o ns) l os ->
  read_NodeStates mem (a o) = Ok (Some l).
Proof.
  intros HV HT Hv Hok Hl. unfold read_NodeStates.
  rewrite (GetPointer_back pre m post small o _ 4 4 V HT) by table_side.
  cbn [mbind outcome_bind]. rewrite (vector_Length_back pre m post small V os Hv).
  cbn [mbind outcome_bind]. rewrite Nat2Z.id.
  assert (mapM (fun i : nat => e ← vector_Get mem (a V) (Z.of_nat i); read_NodeState mem e)
    (seq 0 (length os)) = Ok l) as ->; [|done].
  apply mapM_Ok. apply Forall2_same_length_lookup. rewrite length_seq.
  split; [by symmetry; eapply Forall2_length|].
  intros j i ns Hj Hns. apply lookup_seq in Hj as [-> Hj]. cbn [Nat.add].
  destruct (Forall2_lookup_l _ _ _ _ _ Hl Hns) as (o' & Ho' & Hpos & Hat).
  rewrite (vector_Get_back pre m post small V os j o' Hv Ho'). cbn [mbind outcome_bind].
  apply read_NodeState_back; [done|]. eapply Forall_lookup_1; eassumption.
Qed.
End back.

(** A finished buffer, found at its root. *)
Lemma Finish_back o b pre post : builder_ok b -> (o <= GetSize b)%nat ->
  Z.of_nat (GetSize b) + 18 < 2 ^ 30 ->
  exists y, Finish o b = y ++ buf_ b /\ Z.of_nat (length (Finish o b)) < 2 ^ 30 /\
    GetRoot (pre ++ Finish o b ++ post) (Z.of_nat (length pre)) = Ok (addr pre (Finish o b) o).
Proof.
  intros Hok Ho Hs. destruct (Finish_spec o b Hok Ho) as (y & E & Hy & Ht).
  assert (length (Finish o b) = length y + GetSize b)%nat as Hl by (rewrite E; apply length_app).
  exists y. split; [done|]. assert (Z.of_nat (length (Finish o b)) < 2 ^ 30) as Hsm by lia.
  split; [done|]. apply (GetRoot_back _ _ _ Hsm y (buf_ b)); [done|lia|done|]. by rewrite Hl.
Qed.

Lemma read_byte_range m pos n z : Forall is_byte m -> read_le m pos n = Ok z ->
  0 <= z < 256 ^ Z.of_nat n.
Proof.
  unfold read_le. intros Hm. destruct (read_at m pos n) as [bs|] eqn:E; [|done]. intros [= <-].
  pose proof (read_at_length _ _ _ _ E) as <-. apply le_combine_range.
  apply read_at_Ok in E as (_ & _ & ->). by apply Forall_take, Forall_drop.
Qed.

Lemma GetField_range m t n f z : Forall is_byte m -> GetField m t n f 0 = Ok z ->
  0 <= z < 256 ^ Z.of_nat n.
Proof.
  intros Hm. unfold GetField. intros (o & _ & E)%outcome_bind_Ok.
  destruct (o =? 0); [injection E as <-; lia|by eapply read_byte_range].
Qed.

Lemma GetSField_range m t n f z : (0 < n)%nat -> GetSField m t n f 0 = Ok z ->
  in_srange (8 * Z.of_nat n) z.
Proof.
  intros Hn. unfold GetSField. intros (o & _ & E)%outcome_bind_Ok. destruct (o =? 0).
  - injection E as <-. unfold in_srange. lia.
  - unfold read_sle in E. apply outcome_bind_Ok in E as (z' & _ & [= <-]). apply swrap_range. lia.
Qed.

Lemma read_Node_typed m t n : read_Node m t = Ok n -> in_srange 16 (port n).
Proof.
  unfold read_Node. intros (nm & _ & (i & _ & (p & Hp & [= <-])%outcome_bind_Ok)%outcome_bind_Ok)
    %outcome_bind_Ok. by apply (GetSField_range _ _ 2) in Hp; [|lia].
Qed.

Lemma read_NodeState_typed m t ns : Forall is_byte m -> read_NodeState m t = Ok ns -> typed_state ns.
Proof.
  intros Hm. unfold read_NodeState.
  intros (p & _ & (n & Hn & (s & Hs & (d & Hd & (fr & _ & (ts & Hts & [= <-])%outcome_bind_Ok)
    %outcome_bind_Ok)%outcome_bind_Ok)%outcome_bind_Ok)%outcome_bind_Ok)%outcome_bind_Ok.
  apply GetField_range in Hd, Hts; [|done..]. apply (GetSField_range _ _ 1) in Hs; [|lia].
  unfold typed_state. cbn. split_and!; [done..|].
  destruct p as [p|]; [|by injection Hn as <-].
  apply outcome_bind_Ok in Hn as (n' & Hn & [= <-]). by eapply read_Node_typed.
Qed.

Lemma read_NodeStates_typed m t nss : Forall is_byte m -> read_NodeStates m t = Ok nss ->
  typed_states nss.
Proof.
  intros Hm. unfold read_NodeStates. intros ([v|] & _ & E)%outcome_bind_Ok; [|by injection E as <-].
  apply outcome_bind_Ok in E as (len & _ & (l & Hl%mapM_Ok & [= <-])%outcome_bind_Ok).
  cbn. apply Forall_forall. intros ns Hin. apply list_elem_of_lookup in Hin as [i Hi].
  destruct (Forall2_lookup_r _ _ _ _ _ Hl Hi) as (j & _ & (e & _ & Hns)%outcome_bind_Ok).
  by eapply read_NodeState_typed.
Qed.

Lemma fb_Ping_fields m pos p : fb_decode_Ping m pos = Ok p ->
  fb_Ping_seqNo m pos = Ok (ping_seqNo p) /\ fb_Ping_from m pos = Ok (ping_from p).
Proof.
  unfold fb_decode_Ping, fb_Ping_seqNo, fb_Ping_from.
  intros (t & -> & (s & Hs & (fr & Hfr & [= <-])%outcome_bind_Ok)%outcome_bind_Ok)%outcome_bind_Ok.
  done.
Qed.

Lemma fb_NodeState_fields m pos ns : fb_decode_NodeState m pos = Ok ns ->
  fb_NodeState_name m pos = (n ← deref_opt (node ns); deref_opt (name n)) /\
  fb_NodeState_state m pos = Ok (state ns) /\ fb_NodeState_dominant m pos = Ok (dominant ns).
Proof.
  unfold fb_decode_NodeState, fb_NodeState_name, fb_NodeState_state, fb_NodeState_dominant.
  intros (t & -> & E)%outcome_bind_Ok. unfold read_NodeState in E.
  apply outcome_bind_Ok in E as (p & Hp & (n & Hn & (s & Hs & (d & Hd & (fr & _ & (ts & _ &
    [= <-])%outcome_bind_Ok)%outcome_bind_Ok)%outcome_bind_Ok)%outcome_bind_Ok)%outcome_bind_Ok).
  cbn [mbind outcome_bind node state dominant]. split_and!; [|done..]. rewrite Hp.
  cbn [mbind outcome_bind]. destruct p as [p|]; [|by injection Hn as <-].
  apply outcome_bind_Ok in Hn as (n' & Hn & [= <-]). cbn. unfold read_Node in Hn.
  apply outcome_bind_Ok in Hn as (nm & -> & (i & _ & (po & _ & [= <-])%outcome_bind_Ok)%outcome_bind_Ok).
  done.
Qed.

Section instance.
Variable left_first : bool.

Lemma fb_Ping_roundtrip : roundtrip Ping_ok fb_encode_Ping fb_decode_Ping.
Proof.
  intros [s [fr|]] pre post; unfold Ping_ok; cbn [ping_seqNo ping_from]; [|cbn; tauto].
  intros (Hs & Hc & Hfr). unfold fb_encode_Ping. cbn [ping_seqNo ping_from CreateOptString].
  pose proof (CreateString_spec fr builder_new builder_new_ok) as H1.
  destruct (CreateString fr builder_new) as [ofr b1]. destruct H1 as (Hg1 & Hofr & Hat).
  pose proof (grows_size _ _ _ Hg1). change (GetSize builder_new) with 0%nat in *.
  assert (ofr <= GetSize b1)%nat by (destruct Hat as [? _]; unfold GetSize; lia).
  pose proof (table_spec 2 [(4%nat, Scalar 8 s); (6%nat, Ref ofr)] b1 (proj2 Hg1)) as Ht.
  unfold CreatePing. destruct (table _ _ b1) as [o b2].
  destruct Ht as (Hg2 & Ho & Htab); [by apply ids_ok_dec|lia|simpl; lia|field_oks|].
  pose proof (grows_size _ _ _ Hg2) as Hsz. cbn [length] in Hsz.
  destruct (Finish_back o b2 pre post) as (y & E & Hsm & Er);
    [apply Hg2|destruct Htab as (?&?&?&_); unfold GetSize; lia|lia|].
  unfold fb_decode_Ping. rewrite Er. cbn [mbind outcome_bind].
  assert (table_at (Finish o b2) o [(4%nat, Scalar 8 s); (6%nat, Ref ofr)]) as Htab'
    by (rewrite E; by apply table_at_app).
  assert (string_at (Finish o b2) ofr fr) as Hat'.
  { rewrite E. apply string_at_app.
    eapply (grows_keeps _ _ _ (fun m => string_at m ofr fr)); [exact Hg2| |done].
    intros. by apply string_at_app. }
  rewrite (GetField64_back _ _ _ Hsm o _ 4 4 s Htab') by table_side. cbn [mbind outcome_bind].
  by rewrite (String_field_back _ _ _ Hsm o _ 6 6 ofr fr Htab') by table_side.
Qed.

(** Nothing in the repository finishes an indirect ping: that is done here. *)
Lemma fb_IndirectPing_roundtrip s n pre post : IndirectPing_ok (mkIndirectPing s (Some n)) ->
  let '(on, b) := build_Node left_first n builder_new in
  let '(o, b) := CreateIndirectPing s on b in
  fb_decode_IndirectPing (pre ++ Finish o b ++ post) (Z.of_nat (length pre)) =
    Ok (mkIndirectPing s (Some n)).
Proof.
  unfold IndirectPing_ok. cbn [iping_seqNo iping_target]. intros (Hs & Hn).
  pose proof (build_Node_spec left_first n builder_new Hn builder_new_ok) as H1.
  destruct (build_Node left_first n builder_new) as [on b1]. destruct H1 as (Hg1 & Hon & Hat).
  pose proof (grows_size _ _ _ Hg1). change (GetSize builder_new) with 0%nat in *.
  assert (on <= GetSize b1)%nat
    by (destruct Hat as (?&?&?&?&_&_&_&_&_&_&(?&?&?&_)); unfold GetSize; lia).
  assert (Z.of_nat (wire_length (name n) + wire_length (ip n)) < 2 ^ 17) as Hlen.
  { destruct Hn as (Hn1 & Hn2 & _). destruct (name n), (ip n); cbn in *; try tauto. 
    destruct Hn1 as [_ ?], Hn2 as [_ ?]. lia. }
  pose proof (table_spec 2 [(4%nat, Scalar 8 s); (6%nat, Ref on)] b1 (proj2 Hg1)) as Ht.
  unfold CreateIndirectPing. destruct (table _ _ b1) as [o b2].
  destruct Ht as (Hg2 & Ho & Htab); [by apply ids_ok_dec|lia|simpl; lia|field_oks|].
  pose proof (grows_size _ _ _ Hg2) as Hsz. cbn [length] in Hsz.
  destruct (Finish_back o b2 pre post) as (y & E & Hsm & Er);
    [apply Hg2|destruct Htab as (?&?&?&_); unfold GetSize; lia|lia|].
  unfold fb_decode_IndirectPing. rewrite Er. cbn [mbind outcome_bind].
  assert (table_at (Finish o b2) o [(4%nat, Scalar 8 s); (6%nat, Ref on)]) as Htab'
    by (rewrite E; by apply table_at_app).
  assert (Node_at (Finish o b2) on n) as Hat'.
  { rewrite E. apply Node_at_app.
    eapply (grows_keeps _ _ _ (fun m => Node_at m on n)); [exact Hg2| |done].
    intros. by apply Node_at_app. }
  rewrite (GetField64_back _ _ _ Hsm o _ 4 4 s Htab') by table_side. cbn [mbind outcome_bind].
  rewrite (GetPointer_back pre _ post Hsm o _ 6 6 on Htab') by table_side. cbn [mbind outcome_bind].
  by rewrite (read_Node_back _ _ _ Hsm on n Hat' Hn).
Qed.

Lemma fb_Pong_roundtrip : roundtrip Pong_ok fb_encode_Pong fb_decode_Pong.
Proof.
  intros [s] pre post Hs. unfold Pong_ok in Hs. cbn in Hs. unfold fb_encode_Pong, CreatePong.
  cbn [pong_seqNo].
  pose proof (table_spec 1 [(4%nat, Scalar 8 s)] builder_new builder_new_ok) as Ht.
  destruct (table _ _ builder_new) as [o b].
  destruct Ht as (Hg & Ho & Htab); [by apply ids_ok_dec|lia|simpl; lia|field_oks|].
  pose proof (grows_size _ _ _ Hg) as Hsz. cbn [length] in Hsz.
  change (GetSize builder_new) with 0%nat in *.
  destruct (Finish_back o b pre post) as (y & E & Hsm & Er);
    [apply Hg|destruct Htab as (?&?&?&_); unfold GetSize; lia|lia|].
  unfold fb_decode_Pong. rewrite Er. cbn [mbind outcome_bind].
  assert (table_at (Finish o b) o [(4%nat, Scalar 8 s)]) as Htab'
    by (rewrite E; by apply table_at_app).
  by rewrite (GetField64_back _ _ _ Hsm o _ 4 4 s Htab') by table_side.
Qed.

Lemma fb_Pong_length p : Z.of_nat (length (fb_encode_Pong p)) <= 32.
Proof.
  destruct p as [s]. unfold fb_encode_Pong, CreatePong, table. cbn [foldl add pong_seqNo].
  unfold AddElement. by destruct (s =? 0).
Qed.

Lemma fb_NodeState_roundtrip :
  roundtrip NodeState_ok (fb_encode_NodeState left_first) fb_decode_NodeState.
Proof.
  intros ns pre post Hns. unfold fb_encode_NodeState.
  pose proof (build_NodeState_spec left_first ns builder_new Hns builder_new_ok) as Hb.
  destruct (build_NodeState left_first ns builder_new) as [o b]. destruct Hb as (Hg & Ho & Hat).
  pose proof (grows_size _ _ _ Hg). change (GetSize builder_new) with 0%nat in *.
  destruct (Finish_back o b pre post) as (y & E & Hsm & Er);
    [apply Hg|destruct Hat as (?&?&?&?&_&_&_&_&_&_&(?&?&?&_)); unfold GetSize; lia|lia|].
  unfold fb_decode_NodeState. rewrite Er. cbn [mbind outcome_bind].
  apply read_NodeState_back; [done| |done]. rewrite E. by apply NodeState_at_app.
Qed.

Lemma Finish_nonempty o b : Finish o b <> [].
Proof. done. Qed.

Lemma fb_NodeState_nonempty ns : fb_encode_NodeState left_first ns <> [].
Proof. unfold fb_encode_NodeState. destruct (build_NodeState _ _ _). apply Finish_nonempty. Qed.

Lemma fb_NodeStates_nonempty nss : fb_encode_NodeStates left_first nss <> [].
Proof.
  unfold fb_encode_NodeStates. destruct nss as [l|].
  - destruct (build_all _ _ _), (CreateVector _ _), (CreateNodeStates _ _). apply Finish_nonempty.
  - destruct (CreateNodeStates _ _). apply Finish_nonempty.
Qed.

Lemma fb_NodeStates_roundtrip :
  roundtrip NodeStates_ok (fb_encode_NodeStates left_first) fb_decode_NodeStates.
Proof.
  intros [l|] pre post; [|done]. intros [Hl Hlen]. unfold fb_encode_NodeStates.
  pose proof (build_all_spec left_first l builder_new Hl builder_new_ok) as Hb.
  destruct (build_all left_first l builder_new) as [os b1]. destruct Hb as (Hg1 & Hos).
  pose proof (grows_size _ _ _ Hg1) as S1. change (GetSize builder_new) with 0%nat in S1.
  pose proof (Forall2_length _ _ _ Hos) as Hlos.
  pose proof (CreateVector_spec os b1 (proj2 Hg1)) as Hv.
  destruct (CreateVector os b1) as [V b2]. destruct Hv as (Hg2 & HV & Hvat).
  { apply Forall_forall. intros o Hin. apply list_elem_of_lookup in Hin as [i Hi].
    destruct (Forall2_lookup_r _ _ _ _ _ Hos Hi) as (? & _ & ? & _). lia. }
  pose proof (grows_size _ _ _ Hg2) as S2.
  assert (V <= GetSize b2)%nat by (destruct Hvat as [? _]; unfold GetSize; lia).
  pose proof (table_spec 1 [(4%nat, Ref V)] b2 (proj2 Hg2)) as Ht. unfold CreateNodeStates.
  destruct (table _ _ b2) as [o b3].
  destruct Ht as (Hg3 & Ho & Htab); [by apply ids_ok_dec|lia|simpl; lia|field_oks|].
  pose proof (grows_size _ _ _ Hg3) as S3. cbn [length] in S3.
  destruct (Finish_back o b3 pre post) as (y & E & Hsm & Er);
    [apply Hg3|destruct Htab as (?&?&?&_); unfold GetSize; lia|nia|].
  unfold fb_decode_NodeStates. rewrite Er. cbn [mbind outcome_bind].
  apply (read_NodeStates_back _ _ _ Hsm o V os l); [lia|..|done|].
  - rewrite E. by apply table_at_app.
  - rewrite E. apply vector_at_app.
    eapply (grows_keeps _ _ _ (fun m => vector_at m V os)); [exact Hg3| |done].
    intros. by apply vector_at_app.
  - eapply Forall2_impl; [exact Hos|]. intros ns o' [[Hpos _] Hat]. split; [done|].
    rewrite E. apply NodeState_at_app.
    eapply (grows_keeps _ _ _ (fun m => NodeState_at m o' ns)); [exact Hg3| |].
    { intros. by apply NodeState_at_app. }
    eapply (grows_keeps _ _ _ (fun m => NodeState_at m o' ns)); [exact Hg2| |done].
    intros. by apply NodeState_at_app.
Qed.
End instance.

#[export] Instance flatbuffers_ok left_first : MessageCodecOk (flatbuffers left_first).
Proof.
  split.
  - apply fb_Ping_roundtrip.
  - apply fb_Pong_roundtrip.
  - apply fb_NodeState_roundtrip.
  - apply fb_NodeStates_roundtrip.
  - apply fb_Pong_length.
  - apply fb_NodeState_nonempty.
  - apply fb_NodeStates_nonempty.
  - intros m pos ns Hm. cbn. unfold fb_decode_NodeState. intros (t & _ & E)%outcome_bind_Ok.
    by eapply read_NodeState_typed.
  - intros m pos nss Hm. cbn. unfold fb_decode_NodeStates. intros (t & _ & E)%outcome_bind_Ok.
    by eapply read_NodeStates_typed.
  - apply fb_Ping_fields.
  - apply fb_NodeState_fields.
  - intros m pos d Hm. cbn. unfold fb_NodeState_dominant. intros (t & _ & E)%outcome_bind_Ok.
    by apply GetField_range in E.
Qed.

(** C16: every message survives the wire. Whatever order the compiler evaluates
    the builder's arguments in, and whatever bytes surround the message in the
    packet, the generated accessors read back the ping, pong, indirect ping, state or
    table of states that was built: field defaults that are not stored, shared vtables,
    alignment padding and forward offsets included. What is built is well formed:
    its strings are present, hold no NUL character and are shorter than 64 KiB, its
    integers have the range of their fields, a table lists fewer than 4096 states. *)
Theorem messages_roundtrip (left_first : bool) (pre post : list Z) :
  let at_ {A} (dec : list Z -> Z -> outcome A) m := dec (pre ++ m ++ post) (Z.of_nat (length pre)) in
  (forall p, Ping_ok p -> at_ fb_decode_Ping (fb_encode_Ping p) = Ok p) /\
  (forall p, Pong_ok p -> at_ fb_decode_Pong (fb_encode_Pong p) = Ok p) /\
  (forall s n, IndirectPing_ok (mkIndirectPing s (Some n)) ->
    let '(target, b) := build_Node left_first n builder_new in
    let '(o, b) := CreateIndirectPing s target b in
    at_ fb_decode_IndirectPing (Finish o b) = Ok (mkIndirectPing s (Some n))) /\
  (forall ns, NodeState_ok ns -> at_ fb_decode_NodeState (fb_encode_NodeState left_first ns) = Ok ns) /\
  (forall nss, NodeStates_ok nss -> at_ fb_decode_NodeStates (fb_encode_NodeStates left_first nss) = Ok nss).
Proof.
  split_and!; intros; by (apply fb_Ping_roundtrip || apply fb_Pong_roundtrip ||
    apply fb_IndirectPing_roundtrip ||
    apply fb_NodeState_roundtrip || apply fb_NodeStates_roundtrip).
Qed.

Definition example_wire (nm : string) (d : Z) : NodeState :=
  mkWState (Some (mkWNode (Some nm) (Some "10.0.0.7") (-3))) (-1) d (Some "peer") 77.

Lemma messages_roundtrip_witness :
  let nss := Some [example_wire "a" 5; example_wire "b" 0; example_wire "a" (2 ^ 64 - 1)] in
  fb_decode_NodeStates ([1; 2; 3] ++ fb_encode_NodeStates true nss ++ [9]) 3 = Ok nss.
Proof.
  intros nss. destruct (messages_roundtrip true [1; 2; 3] [9]) as (_ & _ & _ & _ & H).
  apply (H nss). split; [|done]. repeat constructor; done.
Defined.

(** Text after a NUL character is lost: the accessor's [str] reads a C string. *)
Example name_cut_at_nul :
  fb_decode_Ping (fb_encode_Ping (mkPing 1 (Some (String "a" (String Ascii.zero "b"))))) 0 =
  Ok (mkPing 1 (Some "a")).
Proof. by vm_compute. Qed.
