(* ===== verification/Gossiper.v ===== *)
(** * src/gossiper.hpp: the membership state machine

    The state of a [gossiper] object and every operation on it that does not
    touch the network: each is one action of the state monad, with the guards and
    the early returns of the code. The node map's [shared_ptr]s are never handed
    out ([getNodeState] copies), so the map holds values; the mutexes serialise
    the operations and are not modelled. Posting to the [io_service] and calling
    the user's handlers are recorded in the state. *)
From S2P Require Import Prelude Utils Node Broadcast Suspicion Messages.
Local Open Scope Z_scope.

(** Calls of the user's handlers. *)
Inductive event :=
  | Joined (node : string)
  | Left (node : string).

#[global] Instance event_eq_dec : EqDecision event.
Proof. solve_decision. Defined.

Record gossiper := mkGossiper {
  conf_ : config;
  seq_num_ : Z;   (* atomic uint64_t *)
  dominant_ : Z;   (* atomic uint64_t *)
  is_leaving_ : bool;
  node_map_ : gmap string node_state;
  nodes_ : list string;
  node_num_ : Z;   (* atomic uint32_t *)
  suspicions_ : gmap string suspicion;
  bc_queue_ : BroadcastQueue;
  MAX_APPENDED_MSG_ : Z;   (* int *)
  notify_join_ : bool;   (* a join handler is registered *)
  notify_leave_ : bool;   (* a leave handler is registered *)
  cursor : Z;   (* static int of roundrobinNode *)
  posted_ : list sus_ref;   (* conviction handlers queued in the io_service *)
  notified_ : list event   (* handler calls so far, oldest first *)
}.

(** Member updates. *)
Definition set_seq_num_ (v : Z) (g : gossiper) : gossiper :=
  mkGossiper (conf_ g) v (dominant_ g) (is_leaving_ g) (node_map_ g) (nodes_ g) (node_num_ g)
    (suspicions_ g) (bc_queue_ g) (MAX_APPENDED_MSG_ g) (notify_join_ g) (notify_leave_ g)
    (cursor g) (posted_ g) (notified_ g).
Definition set_dominant_ (v : Z) (g : gossiper) : gossiper :=
  mkGossiper (conf_ g) (seq_num_ g) v (is_leaving_ g) (node_map_ g) (nodes_ g) (node_num_ g)
    (suspicions_ g) (bc_queue_ g) (MAX_APPENDED_MSG_ g) (notify_join_ g) (notify_leave_ g)
    (cursor g) (posted_ g) (notified_ g).
Definition set_is_leaving_ (v : bool) (g : gossiper) : gossiper :=
  mkGossiper (conf_ g) (seq_num_ g) (dominant_ g) v (node_map_ g) (nodes_ g) (node_num_ g)
    (suspicions_ g) (bc_queue_ g) (MAX_APPENDED_MSG_ g) (notify_join_ g) (notify_leave_ g)
    (cursor g) (posted_ g) (notified_ g).
Definition set_node_map_ (v : gmap string node_state) (g : gossiper) : gossiper :=
  mkGossiper (conf_ g) (seq_num_ g) (dominant_ g) (is_leaving_ g) v (nodes_ g) (node_num_ g)
    (suspicions_ g) (bc_queue_ g) (MAX_APPENDED_MSG_ g) (notify_join_ g) (notify_leave_ g)
    (cursor g) (posted_ g) (notified_ g).
Definition set_nodes_ (v : list string) (g : gossiper) : gossiper :=
  mkGossiper (conf_ g) (seq_num_ g) (dominant_ g) (is_leaving_ g) (node_map_ g) v (node_num_ g)
    (suspicions_ g) (bc_queue_ g) (MAX_APPENDED_MSG_ g) (notify_join_ g) (notify_leave_ g)
    (cursor g) (posted_ g) (notified_ g).
Definition set_node_num_ (v : Z) (g : gossiper) : gossiper :=
  mkGossiper (conf_ g) (seq_num_ g) (dominant_ g) (is_leaving_ g) (node_map_ g) (nodes_ g) v
    (suspicions_ g) (bc_queue_ g) (MAX_APPENDED_MSG_ g) (notify_join_ g) (notify_leave_ g)
    (cursor g) (posted_ g) (notified_ g).
Definition set_suspicions_ (v : gmap string suspicion) (g : gossiper) : gossiper :=
  mkGossiper (conf_ g) (seq_num_ g) (dominant_ g) (is_leaving_ g) (node_map_ g) (nodes_ g)
    (node_num_ g) v (bc_queue_ g) (MAX_APPENDED_MSG_ g) (notify_join_ g) (notify_leave_ g)
    (cursor g) (posted_ g) (notified_ g).
Definition set_bc_queue_ (v : BroadcastQueue) (g : gossiper) : gossiper :=
  mkGossiper (conf_ g) (seq_num_ g) (dominant_ g) (is_leaving_ g) (node_map_ g) (nodes_ g)
    (node_num_ g) (suspicions_ g) v (MAX_APPENDED_MSG_ g) (notify_join_ g) (notify_leave_ g)
    (cursor g) (posted_ g) (notified_ g).
Definition set_MAX_APPENDED_MSG_ (v : Z) (g : gossiper) : gossiper :=
  mkGossiper (conf_ g) (seq_num_ g) (dominant_ g) (is_leaving_ g) (node_map_ g) (nodes_ g)
    (node_num_ g) (suspicions_ g) (bc_queue_ g) v (notify_join_ g) (notify_leave_ g) (cursor g)
    (posted_ g) (notified_ g).
Definition set_notify_join_ (v : bool) (g : gossiper) : gossiper :=
  mkGossiper (conf_ g) (seq_num_ g) (dominant_ g) (is_leaving_ g) (node_map_ g) (nodes_ g)
    (node_num_ g) (suspicions_ g) (bc_queue_ g) (MAX_APPENDED_MSG_ g) v (notify_leave_ g)
    (cursor g) (posted_ g) (notified_ g).
Definition set_notify_leave_ (v : bool) (g : gossiper) : gossiper :=
  mkGossiper (conf_ g) (seq_num_ g) (dominant_ g) (is_leaving_ g) (node_map_ g) (nodes_ g)
    (node_num_ g) (suspicions_ g) (bc_queue_ g) (MAX_APPENDED_MSG_ g) (notify_join_ g) v
    (cursor g) (posted_ g) (notified_ g).
Definition set_rr_cursor (v : Z) (g : gossiper) : gossiper :=
  mkGossiper (conf_ g) (seq_num_ g) (dominant_ g) (is_leaving_ g) (node_map_ g) (nodes_ g)
    (node_num_ g) (suspicions_ g) (bc_queue_ g) (MAX_APPENDED_MSG_ g) (notify_join_ g)
    (notify_leave_ g) v (posted_ g) (notified_ g).
Definition set_posted_ (v : list sus_ref) (g : gossiper) : gossiper :=
  mkGossiper (conf_ g) (seq_num_ g) (dominant_ g) (is_leaving_ g) (node_map_ g) (nodes_ g)
    (node_num_ g) (suspicions_ g) (bc_queue_ g) (MAX_APPENDED_MSG_ g) (notify_join_ g)
    (notify_leave_ g) (cursor g) v (notified_ g).
Definition set_notified_ (v : list event) (g : gossiper) : gossiper :=
  mkGossiper (conf_ g) (seq_num_ g) (dominant_ g) (is_leaving_ g) (node_map_ g) (nodes_ g)
    (node_num_ g) (suspicions_ g) (bc_queue_ g) (MAX_APPENDED_MSG_ g) (notify_join_ g)
    (notify_leave_ g) (cursor g) (posted_ g) v.

(** Reads of updated members. *)
Ltac members :=
  cbn [conf_ seq_num_ dominant_ is_leaving_ node_map_ nodes_ node_num_ suspicions_ bc_queue_ 
    MAX_APPENDED_MSG_ notify_join_ notify_leave_ cursor posted_ notified_ set_seq_num_ 
    set_dominant_ set_is_leaving_ set_node_map_ set_nodes_ set_node_num_ set_suspicions_ 
    set_bc_queue_ set_MAX_APPENDED_MSG_ set_notify_join_ set_notify_leave_ set_rr_cursor 
    set_posted_ set_notified_].

(** The constructor, from a configuration; the vector, maps and queue empty. *)
Definition gossiper_new (conf : config) : gossiper :=
  mkGossiper conf 0 0 false ∅ [] 0 ∅ queue_new 10 false false 0 [] [].

Definition RegisterNotifier (notify_join notify_leave : bool) : M gossiper unit :=
  modify (set_notify_join_ notify_join) ;; modify (set_notify_leave_ notify_leave).

Definition GetAliveNodes : M gossiper (list string) := g ← get; mret (nodes_ g).

(** ** Atomics, and the node table *)

(** [fetch_add(shift) + shift]: both the counter and the result wrap. *)
Definition nextDominant (shift : Z) : M gossiper Z :=
  g ← get;
  modify (set_dominant_ (u64 (dominant_ g + shift))) ;;
  mret (u64 (dominant_ g + shift)).

Definition nextSeqNum : M gossiper Z :=
  g ← get;
  modify (set_seq_num_ (u64 (seq_num_ g + 1))) ;;
  mret (u64 (seq_num_ g + 1)).

(** [node_num_.fetch_sub(1)] and [fetch_add(1)]. *)
Definition sub_node_num : M gossiper unit :=
  g ← get; modify (set_node_num_ (u32 (node_num_ g - 1))).
Definition add_node_num : M gossiper unit :=
  g ← get; modify (set_node_num_ (u32 (node_num_ g + 1))).

(** A copy of the state, or null. *)
Definition getNodeState (node_name : string) : M gossiper (option node_state) :=
  g ← get; mret (node_map_ g !! node_name).

(** [node_map_[name]] inserts a null pointer for an unknown name, and the
    assignment through it is a null dereference. *)
Definition updateNodeState (target_node_name : string) (from : node_state) : M gossiper unit :=
  g ← get;
  match node_map_ g !! target_node_name with
  | None => crash NullDeref
  | Some target =>
    modify (set_node_map_
      (<[target_node_name := set_Timestamp 0 (assign target from)]> (node_map_ g)))
  end.

Definition addNodeState (node_name : string) (state : node_state) : M gossiper unit :=
  g ← get;
  modify (set_node_map_ (<[node_name := state]> (node_map_ g))) ;;
  modify (set_nodes_ (nodes_ g ++ [node_name])) ;;
  add_node_num.

(** [std::swap(nodes_[i], nodes_[num-1]); nodes_.pop_back();] at the first [i]
    that holds the name. *)
Definition swap_pop (i : nat) (l : list string) : list string :=
  match last l with
  | None => l
  | Some x => take (length l - 1) (<[i := x]> l)
  end.

Fixpoint find_index (node_name : string) (l : list string) : option nat :=
  match l with
  | [] => None
  | x :: l => if decide (x = node_name) then Some O else S <$> find_index node_name l
  end.

Definition removeNodeState (node_name : string) : M gossiper unit :=
  g ← get;
  match find_index node_name (nodes_ g) with
  | None => mret tt
  | Some i => modify (set_nodes_ (swap_pop i (nodes_ g))) ;; sub_node_num
  end.

(** ** Suspicions *)

Definition getSuspicion (node_name : string) : M gossiper (option suspicion) :=
  g ← get; mret (suspicions_ g !! node_name).

Definition post (handlers : list sus_ref) : M gossiper unit :=
  g ← get; modify (set_posted_ (posted_ g ++ handlers)).

(** [suspicions_.erase(name)] destroys the object, whose destructor cancels. *)
Definition eraseSuspicion (node_name : string) : M gossiper unit :=
  g ← get;
  match suspicions_ g !! node_name with
  | None => mret tt
  | Some s =>
    modify (set_suspicions_ (delete node_name (suspicions_ g))) ;;
    post (suspicion_destroy s)
  end.

(** ** Broadcasting, and answering an accusation *)

Definition on_queue {A} (op : M BroadcastQueue A) : M gossiper A := fun g =>
  match op (bc_queue_ g) with
  | Ok (a, q) => Ok (a, set_bc_queue_ q g)
  | Crash f => Crash f
  end.

Section handlers.
Context `{IterationOrder} `{Residue}.

(** [bc_queue_.Push(state, node_num_)]. *)
Definition broadcast (s : node_state) : M gossiper unit :=
  g ← get; on_queue (Push s (node_num_ g)).

Definition notify (e : event) : M gossiper unit :=
  g ← get; modify (set_notified_ (notified_ g ++ [e])).

(** Our own record: [From_] is empty and [Timestamp_] never set. *)
Definition self_state (conf : config) (d : Z) : node_state :=
  mkNode (conf_Name conf) (conf_Addr conf) (to_string (conf_Port conf)) d STATE_ALIVE
    EmptyString indeterminate.

(** Object to an accusation made at [dominant]. *)
Definition fuckyou (dominant : Z) : M gossiper unit :=
  d ← nextDominant 1;
  d ← (if d <=? dominant then nextDominant (u64 (dominant - d + 1)) else mret d);
  g ← get;
  broadcast (self_state (conf_ g) d).

(** ** The three reports *)

Definition aliveNode (a : node_state) (need_bc : bool) : M gossiper unit :=
  let alive_node_name := Name_ a in
  g ← get;
  let self := bool_decide (alive_node_name = conf_Name (conf_ g)) in
  if is_leaving_ g && self then mret tt
  else
    known ← getNodeState alive_node_name;
    let state :=
      match known with
      | Some state => state
      | None => set_State STATE_DEAD (set_Dominant 0 (copy a))
      end in
    if Dominant_ a <=? Dominant_ state then mret tt
    else
      let need_notify := bool_decide (State_ state = STATE_DEAD) in
      when need_notify (addNodeState alive_node_name state) ;;
      updateNodeState alive_node_name a ;;
      eraseSuspicion alive_node_name ;;
      when need_bc (broadcast (copy a)) ;;
      when self (modify (set_dominant_ (Dominant_ a))) ;;
      g ← get;
      when (need_notify && negb self && notify_join_ g) (notify (Joined alive_node_name)).

Definition deadNode (d : node_state) : M gossiper unit :=
  let dead_node_name := Name_ d in
  known ← getNodeState dead_node_name;
  match known with
  | None => mret tt
  | Some state =>
    if Dominant_ d <? Dominant_ state then mret tt
    else
      eraseSuspicion dead_node_name ;;
      sub_node_num ;;
      g ← get;
      let self := bool_decide (dead_node_name = conf_Name (conf_ g)) in
      if bool_decide (State_ state = STATE_DEAD) then mret tt
      else if self && negb (is_leaving_ g) then fuckyou (Dominant_ d)
      else
        updateNodeState dead_node_name d ;;
        removeNodeState dead_node_name ;;
        broadcast (copy d) ;;
        g ← get;
        when (negb self && notify_leave_ g) (notify (Left dead_node_name))
  end.

(** The conviction lambda: copy the captured state, declare it dead. *)
Definition convict (r : sus_ref) : M gossiper unit :=
  d ← lift (deref_node r);
  deadNode (set_State STATE_DEAD d).

(** [suspectNode(s)]; [lives]: does the object behind the reference [s]
    outlive the call? It does when [s] is the copy bound in the ping's
    receive-timeout callback, and not when it is the loop local of
    [mergeStates]. *)
Definition suspectNode (lives : bool) (s : node_state) : M gossiper unit :=
  let suspect_node_name := Name_ s in
  known ← getNodeState suspect_node_name;
  match known with
  | None => mret tt
  | Some state =>
    if Dominant_ s <? Dominant_ state then mret tt
    else
      sus ← getSuspicion suspect_node_name;
      match sus with
      | Some sus =>
        let '(confirmed, sus, handlers) := Confirm (From_ s) sus in
        g ← get;
        modify (set_suspicions_ (<[suspect_node_name := sus]> (suspicions_ g))) ;;
        post handlers ;;
        if (confirmed : bool) then convict (convict_ sus) else broadcast (copy s)
      | None =>
        if bool_decide (State_ state <> STATE_ALIVE) then mret tt
        else
          g ← get;
          (if bool_decide (conf_Name (conf_ g) = suspect_node_name)
           then fuckyou (Dominant_ s) else broadcast (copy s)) ;;
          updateNodeState suspect_node_name s ;;
          g ← get;
          match suspicions_ g !! suspect_node_name with
          | Some _ => mret tt
          | None =>
            sus ← lift (suspicion_new (node_num_ g) (mkRef s lives));
            modify (set_suspicions_ (<[suspect_node_name := sus]> (suspicions_ g)))
          end
      end
  end.

(** The suspicion's timer expires: its handler runs [convict_]. *)
Definition on_suspicion_timer (node_name : string) : M gossiper unit :=
  sus ← getSuspicion node_name;
  match sus with
  | None => mret tt
  | Some sus =>
    if armed sus then
      g ← get;
      modify (set_suspicions_ (<[node_name := (cancel sus).1]> (suspicions_ g))) ;;
      convict (convict_ sus)
    else mret tt
  end.

(** The [io_service] runs the next handler posted by a cancelled timer; the
    handler ignores its error code and runs [convict_] all the same, although the
    suspicion was destroyed when it left the table: the call goes through an
    object whose lifetime has ended. *)
Definition run_posted : M gossiper unit :=
  g ← get;
  match posted_ g with
  | [] => mret tt
  | r :: rest =>
    modify (set_posted_ rest) ;;
    if stale_call then convict r else crash LifetimeEnded
  end.

(** ** Merging a peer's table *)

(** The [switch] on the reported state. *)
Definition mergeReport (need_bc : bool) (state : node_state) : M gossiper unit :=
  match State_ state with
  | STATE_ALIVE => aliveNode state need_bc
  | STATE_SUSPECT => suspectNode false state
  | STATE_DEAD => deadNode state
  | STATE_other _ => mret tt
  end.

Definition mergeState (need_bc : bool) (ns : NodeState) : M gossiper unit :=
  state ← lift (convert ns); mergeReport need_bc state.

Definition mergeStates (remote_states : NodeStates) (need_bc : bool) : M gossiper unit :=
  nss ← lift (deref_opt remote_states);
  for_each nss (mergeState need_bc).

(** ** Joining: the part before any network traffic *)

Definition Join_self : M gossiper unit :=
  d ← nextDominant 1;
  g ← get;
  aliveNode (self_state (conf_ g) d) false.

(** ** Round robin over the member list *)

(** [static int cursor] starts at 0. C++ evaluates [(cursor+i)%size] in [int]. *)
Definition roundrobinNode (num : Z) : M gossiper (list string) :=
  g ← get;
  let size := Z.of_nat (length (nodes_ g)) in
  if size <=? num then mret (nodes_ g)
  else
    rst ← lift (mapM (fun i : nat =>
      match nodes_ g !! Z.to_nat (Z.rem (cursor g + Z.of_nat i) size) with
      | Some x => Ok x
      | None => Crash OutOfBounds
      end) (seq 0 (Z.to_nat num)));
    modify (set_rr_cursor (Z.rem (cursor g + num) size)) ;;
    mret rst.

Definition shrinkMaxAppendedMsg : M gossiper unit :=
  g ← get;
  if MAX_APPENDED_MSG_ g =? 1 then mret tt
  else modify (set_MAX_APPENDED_MSG_ (Z.quot (MAX_APPENDED_MSG_ g) 2)).
End handlers.
