(* ===== verification/Membership.v ===== *)
(** * The membership invariant

    What holds of a gossiper between any two handlers, how its view of the
    cluster evolves, and that every report handler keeps the first and respects
    the second, whatever report it is given. *)
From S2P Require Import Prelude Utils Node Broadcast Suspicion Messages Gossiper.
Local Open Scope Z_scope.

Definition self_name (g : gossiper) : string := conf_Name (conf_ g).

Definition known_state (s : STATE) : Prop :=
  s = STATE_ALIVE \/ s = STATE_SUSPECT \/ s = STATE_DEAD.

(** ** The handler calls, replayed

    A join may only be reported for a node that is not in the reported set, a
    leave only for one that is; [None] if the log breaks this. *)
Definition replay1 (acc : option (gset string)) (e : event) : option (gset string) :=
  match acc, e with
  | Some s, Joined k => if decide (k ∈ s) then None else Some ({[k]} ∪ s)
  | Some s, Left k => if decide (k ∈ s) then Some (s ∖ {[k]}) else None
  | None, _ => None
  end.

Definition replay (log : list event) : option (gset string) := foldl replay1 (Some ∅) log.

(** The other members of the cluster, as [nodes_] lists them. *)
Definition others (g : gossiper) : gset string := list_to_set (nodes_ g) ∖ {[self_name g]}.

(** ** Invariant *)

Record inv0 (g : gossiper) : Prop := {
  inv_nodup : NoDup (nodes_ g);
  inv_names : forall k n, node_map_ g !! k = Some n -> Name_ n = k /\ known_state (State_ n);
  inv_members : forall k, k ∈ nodes_ g <->
    exists n, node_map_ g !! k = Some n /\ State_ n <> STATE_DEAD;
  inv_susp : forall k s, suspicions_ g !! k = Some s -> k ∈ nodes_ g /\ suspicion_wf s /\
    node_map_ g !! k = Some (set_Timestamp 0 (captured (convict_ s)));
  inv_queue : queue_wf (bc_queue_ g);
  inv_quiet : quiescent (bc_queue_ g);
  inv_num : in_range 32 (node_num_ g);
  inv_dom : in_range 64 (dominant_ g)
}.

(** With both handlers registered, the calls made so far add up to the
    current members. *)
Definition log_ok (g : gossiper) : Prop :=
  notify_join_ g = true -> notify_leave_ g = true -> replay (notified_ g) = Some (others g).

Definition inv (g : gossiper) : Prop := inv0 g /\ log_ok g.

(** A new gossiper, its handlers registered. *)
Lemma gossiper_new_inv conf join leave :
  inv (set_notify_leave_ leave (set_notify_join_ join (gossiper_new conf))).
Proof.
  split.
  - split; cbn; try done; try (by intros ????%lookup_empty_Some).
    + constructor.
    + intros k. split; [by intros ?%not_elem_of_nil|by intros (? & ?%lookup_empty_Some & _)].
    + split; cbn; try done. constructor.
  - intros _ _. cbn. f_equal. unfold others. cbn. apply leibniz_equiv. set_solver.
Qed.

(** ** Evolution of the view

    No known node is forgotten, and what is known of each only moves up in the
    order of stamps. A node that is not leaving stays in its own member list. A
    suspicion of another node whose timer runs and can read what it captured is
    not lost: it stays until the node's record is overruled. *)
Definition le_view (m m' : gmap string node_state) : Prop :=
  forall k n, m !! k = Some n -> exists n', m' !! k = Some n' /\ stamp_le (stamp n) (stamp n').

#[global] Instance le_view_preorder : PreOrder le_view.
Proof.
  split.
  - intros m k n Hk. by exists n.
  - intros m1 m2 m3 H12 H23 k n (n2 & H2 & Hs2)%H12.
    destruct (H23 _ _ H2) as (n3 & H3 & Hs3). exists n3. split; [done|by etrans].
Qed.

(** A newer record, or a death at the same dominant. *)
Definition overruled (n n' : node_state) : Prop :=
  Dominant_ n < Dominant_ n' \/
  (Dominant_ n = Dominant_ n' /\ STATE_val STATE_DEAD <= STATE_val (State_ n')).

Definition moved (k : string) (g g' : gossiper) : Prop :=
  forall n, node_map_ g !! k = Some n -> exists n', node_map_ g' !! k = Some n' /\ overruled n n'.

(** The timer of the suspicion of [k] runs, and will read [c]. *)
Definition watched (k : string) (c : node_state) (g : gossiper) : Prop :=
  exists sus, suspicions_ g !! k = Some sus /\ convict_ sus = mkRef c true /\ armed sus = true.

Record evolves (g g' : gossiper) : Prop := {
  ev_conf : conf_ g' = conf_ g;
  ev_leaving : is_leaving_ g' = is_leaving_ g;
  ev_join : notify_join_ g' = notify_join_ g;
  ev_leave : notify_leave_ g' = notify_leave_ g;
  ev_view : le_view (node_map_ g) (node_map_ g');
  ev_self : is_leaving_ g = false -> self_name g ∈ nodes_ g -> self_name g ∈ nodes_ g';
  ev_watch : forall k c, k <> self_name g -> watched k c g -> watched k c g' \/ moved k g g'
}.

#[global] Instance evolves_preorder : PreOrder evolves.
Proof.
  split.
  - intros g. split; try done. intros k c _ Hw. by left.
  - intros g1 g2 g3 [c1 l1 j1 v1 w1 s1 t1] [c2 l2 j2 v2 w2 s2 t2]. split; try congruence.
    + by etrans.
    + intros Hl Hs. unfold self_name in *. rewrite <- c1. apply s2; [congruence|].
      rewrite c1. by apply s1.
    + intros k c Hk Hw. destruct (t1 k c Hk Hw) as [Hw2|Hm].
      * destruct (t2 k c) as [Hw3|Hm]; [unfold self_name in *; by rewrite c1|done|by left|].
        right. intros n (n2 & H2 & Hs2)%w1. destruct (Hm n2 H2) as (n3 & H3 & Ho).
        exists n3. split; [done|]. revert Hs2 Ho. unfold stamp_le, overruled, stamp. cbn. lia.
      * right. intros n (n2 & H2 & Ho)%Hm. destruct (w2 k n2 H2) as (n3 & H3 & Hs3).
        exists n3. split; [done|]. revert Hs3 Ho. unfold stamp_le, overruled, stamp. cbn. lia.
Qed.

(** A handler is [safe E] if from the invariant it re-establishes it, only moves
    the view up, and crashes at most with a fault in [E]. *)
Definition safe {A} (E : fault -> Prop) (op : M gossiper A) : Prop :=
  forall g, inv g -> wpx E op (fun _ g' => inv g' /\ evolves g g') g.

Definition no_fault (f : fault) : Prop := False.

Lemma safe_ret {A} E (a : A) : safe E (mret a).
Proof. by intros g Hg. Qed.

Lemma safe_bind {A B} E (m : M gossiper A) (k : A -> M gossiper B) :
  safe E m -> (forall a, safe E (k a)) -> safe E (m ≫= k).
Proof.
  intros Hm Hk g Hg. apply wpx_bind. eapply wpx_mono; [by apply Hm|].
  intros a g1 [Hg1 He1]. eapply wpx_mono; [by apply Hk|].
  intros b g2 [Hg2 He2]. split; [done|by etrans].
Qed.

Lemma safe_weaken {A} (E E' : fault -> Prop) (m : M gossiper A) :
  (forall f, E f -> E' f) -> safe E m -> safe E' m.
Proof. intros HE Hm g Hg. eapply wpx_weaken; [exact HE|by apply Hm]. Qed.

Lemma safe_for_each {A} E (l : list A) (body : A -> M gossiper unit) :
  (forall a, a ∈ l -> safe E (body a)) -> safe E (for_each l body).
Proof.
  intros Hb g Hg. apply (wpx_for_each E l body (fun g' => inv g' /\ evolves g g')); [|by split].
  intros a g' Ha [Hg' He']. eapply wpx_mono; [by apply Hb|].
  intros _ g'' [Hg'' He'']. split; [done|by etrans].
Qed.

(** ** Lemmas on the log and the member list *)

Lemma replay_app log e : replay (log ++ [e]) = replay1 (replay log) e.
Proof. unfold replay. by rewrite foldl_app. Qed.

Lemma find_index_spec k l : k ∈ l -> exists i l1 l2,
  find_index k l = Some i /\ l = l1 ++ k :: l2 /\ length l1 = i.
Proof.
  induction l as [|x l IH]; [by intros ?%not_elem_of_nil|]. intros Hk. simpl.
  case_decide as Hx; [subst; by exists O, [], l|].
  destruct IH as (i & l1 & l2 & -> & -> & <-); [set_solver|].
  by exists (S (length l1)), (x :: l1), l2.
Qed.

Lemma find_index_None k l : k ∉ l -> find_index k l = None.
Proof.
  induction l as [|x l IH]; [done|]. intros [Hx Hl]%not_elem_of_cons. simpl.
  rewrite decide_False by done. by rewrite IH.
Qed.

Lemma swap_pop_perm l1 k l2 :
  k :: swap_pop (length l1) (l1 ++ k :: l2) ≡ₚ l1 ++ k :: l2.
Proof.
  unfold swap_pop. destruct l2 as [|y l2 _] using rev_ind.
  - rewrite last_snoc, list_insert_id by (by apply list_lookup_middle).
    rewrite length_app. cbn [length]. rewrite Nat.add_sub, take_app_length.
    by rewrite Permutation_app_comm.
  - replace (l1 ++ k :: l2 ++ [y]) with ((l1 ++ k :: l2) ++ [y]) by by rewrite <- app_assoc.
    rewrite last_snoc. rewrite insert_app_l by (rewrite length_app; simpl; lia).
    rewrite insert_app_r_alt, Nat.sub_diag by lia. cbn [list_insert insert].
    rewrite length_app. cbn [length]. rewrite Nat.add_sub.
    rewrite take_app_le, take_ge by (rewrite ?length_app; simpl; rewrite ?length_app; simpl; lia).
    rewrite <- (app_assoc l1), (Permutation_middle l1 (y :: l2) k).
    simpl. by rewrite <- !Permutation_cons_append.
Qed.

(** ** Effects of the primitives *)

Lemma le_view_insert m k n n' : m !! k = Some n -> stamp_le (stamp n) (stamp n') ->
  le_view m (<[k := n']> m).
Proof.
  intros Hk Hs k' n0 Hk'. destruct (decide (k = k')) as [<-|Hne].
  - exists n'. rewrite lookup_insert_eq. split; [done|congruence].
  - exists n0. by rewrite lookup_insert_ne.
Qed.

Lemma le_view_insert_new m k n : m !! k = None -> le_view m (<[k := n]> m).
Proof.
  intros Hk k' n' Hk'. exists n'. rewrite lookup_insert_ne by congruence. by split.
Qed.

Lemma updateNodeState_run k (s n : node_state) g : node_map_ g !! k = Some n ->
  updateNodeState k s g =
    Ok (tt, set_node_map_ (<[k := set_Timestamp 0 s]> (node_map_ g)) g).
Proof. intros Hk. unfold updateNodeState. run. by rewrite Hk, assign_eq. Qed.

(** The handlers the [io_service] gets when the suspicion of [k] is destroyed. *)
Definition cancelled (g : gossiper) (k : string) : list sus_ref :=
  match suspicions_ g !! k with Some s => suspicion_destroy s | None => [] end.

Lemma eraseSuspicion_run k g :
  eraseSuspicion k g = Ok (tt, set_posted_ (posted_ g ++ cancelled g k)
    (set_suspicions_ (delete k (suspicions_ g)) g)).
Proof.
  unfold eraseSuspicion, cancelled. run. destruct (suspicions_ g !! k) as [s|] eqn:E; [done|].
  rewrite delete_id, app_nil_r by done. by destruct g.
Qed.

Lemma addNodeState_run k s g : addNodeState k s g =
  Ok (tt, set_node_num_ (u32 (node_num_ g + 1)) (set_nodes_ (nodes_ g ++ [k])
    (set_node_map_ (<[k := s]> (node_map_ g)) g))).
Proof. done. Qed.

Lemma removeNodeState_run k g : k ∈ nodes_ g -> exists l,
  removeNodeState k g = Ok (tt, set_node_num_ (u32 (node_num_ g - 1)) (set_nodes_ l g)) /\
  k :: l ≡ₚ nodes_ g.
Proof.
  intros Hk. destruct (find_index_spec _ _ Hk) as (i & l1 & l2 & Hi & Hl & <-).
  exists (swap_pop (length l1) (nodes_ g)). unfold removeNodeState. run. rewrite Hi.
  split; [done|]. rewrite Hl. apply swap_pop_perm.
Qed.

(** Operations on the broadcast queue that keep its invariant. *)
Definition queue_ok (q : BroadcastQueue) : Prop := queue_wf q /\ quiescent q.

Section with_order.
Context `{IterationOrder} `{Residue}.

Lemma broadcast_run s g : queue_ok (bc_queue_ g) -> in_range 32 (node_num_ g) ->
  exists q, broadcast s g = Ok (tt, set_bc_queue_ q g) /\ queue_ok q /\
    (forall k, map_find k (m_ q) =
      if decide (k = Name_ s)
      then Some (push_entry s (node_num_ g) (map_find k (m_ (bc_queue_ g))))
      else map_find k (m_ (bc_queue_ g))).
Proof.
  intros [Hq [Hp0 Hpc]] Hn.
  destruct (Push_spec s (node_num_ g) _ Hq Hn) as (q & E & Hwf & Hc & Hp & Hd & _ & Hf).
  exists q. unfold broadcast, on_queue. run. rewrite E. split; [done|].
  split; [|done]. split; [done|]. split; congruence.
Qed.

(** The dominant an objection to [dominant] carries. *)
Definition objection (own dominant : Z) : Z :=
  let d := u64 (own + 1) in
  if d <=? dominant then u64 (d + u64 (dominant - d + 1)) else d.

Lemma fuckyou_run dominant g : queue_ok (bc_queue_ g) -> in_range 32 (node_num_ g) ->
  let d := objection (dominant_ g) dominant in
  exists q, fuckyou dominant g = Ok (tt, set_bc_queue_ q (set_dominant_ d g)) /\ queue_ok q /\
    (forall k, map_find k (m_ q) =
      if decide (k = self_name g)
      then Some (push_entry (self_state (conf_ g) d) (node_num_ g)
                   (map_find k (m_ (bc_queue_ g))))
      else map_find k (m_ (bc_queue_ g))).
Proof.
  intros Hq Hn d.
  destruct (broadcast_run (self_state (conf_ g) d) (set_dominant_ d g)) as (q & E & Hok & Hf);
    [done..|].
  exists q. split; [|by split].
  unfold fuckyou, nextDominant. run. subst d. unfold objection in *.
  destruct (u64 (dominant_ g + 1) <=? dominant); exact E.
Qed.

Lemma objection_range own dominant : in_range 64 (objection own dominant).
Proof. unfold objection. case_match; apply wrap_range; lia. Qed.

(** Unless the accusation has the largest 64-bit dominant, the objection is
    strictly above it. *)
Lemma objection_above own dominant : in_range 64 own -> 0 <= dominant < 2 ^ 64 - 1 ->
  dominant < objection own dominant.
Proof.
  intros Ho Hd. unfold objection. set (d := u64 (own + 1)).
  assert (in_range 64 d) as Hr by (apply wrap_range; lia). unfold in_range in Hr.
  destruct (Z.leb_spec d dominant); [|done].
  rewrite (wrap_small 64 (dominant - d + 1)) by (unfold in_range; lia).
  rewrite wrap_small by (unfold in_range; lia). lia.
Qed.

Lemma objection_above_all own dominant : in_range 64 own -> dominant < 2 ^ 64 - 1 ->
  dominant < objection own dominant.
Proof.
  intros Ho Hd. destruct (Z.le_gt_cases 0 dominant); [by apply objection_above|].
  eapply Z.lt_le_trans; [|apply objection_range]. lia.
Qed.

Lemma objection_wraps own : in_range 64 own -> own <> 2 ^ 64 - 1 ->
  objection own (2 ^ 64 - 1) = 0.
Proof.
  intros Ho Hne. unfold in_range in Ho. unfold objection.
  rewrite (wrap_small 64 (own + 1)) by (unfold in_range; lia).
  rewrite (proj2 (Z.leb_le _ _)) by lia.
  rewrite (wrap_small 64 (2 ^ 64 - 1 - (own + 1) + 1)) by (unfold in_range; lia).
  unfold wrap. replace (own + 1 + _) with (1 * 2 ^ 64) by lia. by apply Z.mod_mul.
Qed.
End with_order.

(** ** Keeping the invariant *)

(** Changes that touch neither the table nor the member list. *)
Lemma inv0_frame g g' : inv0 g ->
  node_map_ g' = node_map_ g -> nodes_ g' = nodes_ g ->
  (suspicions_ g' = suspicions_ g \/ exists k, suspicions_ g' = delete k (suspicions_ g)) ->
  queue_ok (bc_queue_ g') -> in_range 32 (node_num_ g') -> in_range 64 (dominant_ g') ->
  inv0 g'.
Proof.
  intros Hg Hm Hns Hs [Hq1 Hq2] Hnum Hdom.
  pose proof Hg as []. split; try done; try congruence.
  - by rewrite Hm.
  - intros k. by rewrite Hns, Hm.
  - intros k s. rewrite Hns, Hm. destruct Hs as [->|[k' ->]]; [by apply inv_susp0|].
    intros [_ Hk]%lookup_delete_Some. by apply inv_susp0.
Qed.

Lemma inv0_suspicion g k s : inv0 g -> k ∈ nodes_ g -> suspicion_wf s ->
  node_map_ g !! k = Some (set_Timestamp 0 (captured (convict_ s))) ->
  inv0 (set_suspicions_ (<[k := s]> (suspicions_ g)) g).
Proof.
  intros Hg Hk Hs Hc. pose proof Hg as []. split; try done. members.
  intros k' s' [[<- <-]|[_ Hk']]%lookup_insert_Some; [done|by apply inv_susp0].
Qed.

(** A running suspicion changes; handlers are posted. *)
Lemma inv_suspicion_change g k sus sus' p : inv g -> suspicions_ g !! k = Some sus ->
  suspicion_wf sus' -> convict_ sus' = convict_ sus ->
  inv (set_posted_ p (set_suspicions_ (<[k := sus']> (suspicions_ g)) g)).
Proof.
  intros [Hg Hl] Hk Hwf Hc. destruct (inv_susp _ Hg _ _ Hk) as (Hin & _ & Hcap).
  split; [|done].
  eapply (inv0_frame (set_suspicions_ (<[k := sus']> (suspicions_ g)) g)); try done; members;
    [|by left|by destruct Hg..].
  apply inv0_suspicion; try done. by rewrite Hc.
Qed.

(** A member's record is replaced by another one that is not dead. *)
Lemma inv0_update g k n n' : inv0 g -> node_map_ g !! k = Some n ->
  State_ n <> STATE_DEAD -> Name_ n' = k -> known_state (State_ n') -> State_ n' <> STATE_DEAD ->
  inv0 (set_suspicions_ (delete k (suspicions_ g)) (set_node_map_ (<[k := n']> (node_map_ g)) g)).
Proof.
  intros Hg Hk Hs Hn Hks Hd. pose proof Hg as []. split; try done; cbn.
  - intros k' n0. destruct (decide (k = k')) as [<-|Hne];
      [rewrite lookup_insert_eq; intros [= <-]; done|rewrite lookup_insert_ne by done; eauto].
  - intros k'. rewrite inv_members0. destruct (decide (k = k')) as [<-|Hne].
    + rewrite lookup_insert_eq. naive_solver.
    + by rewrite lookup_insert_ne.
  - intros k' s [Hne Hk']%lookup_delete_Some. rewrite lookup_insert_ne by done. eauto.
Qed.

(** A node that is not a member becomes one. *)
Lemma inv0_enter g g' k n : inv0 g -> k ∉ nodes_ g -> Name_ n = k -> State_ n = STATE_ALIVE ->
  node_map_ g' = <[k := n]> (node_map_ g) -> nodes_ g' = nodes_ g ++ [k] ->
  suspicions_ g' = delete k (suspicions_ g) -> bc_queue_ g' = bc_queue_ g ->
  in_range 32 (node_num_ g') -> dominant_ g' = dominant_ g ->
  inv0 g'.
Proof.
  intros Hg Hk Hn Hs Hm Hns Hsu Hq Hnum Hdom. pose proof Hg as [].
  split; rewrite ?Hm, ?Hns, ?Hsu, ?Hq, ?Hdom; try done.
  - apply NoDup_app. split; [done|split; [|apply NoDup_singleton]]. set_solver.
  - intros k' n0. destruct (decide (k = k')) as [<-|Hne].
    + rewrite lookup_insert_eq. intros [= <-]. split; [done|]. left. done.
    + rewrite lookup_insert_ne by done. eauto.
  - intros k'. rewrite elem_of_app, list_elem_of_singleton, inv_members0.
    destruct (decide (k = k')) as [<-|Hne].
    + rewrite lookup_insert_eq. split; [|by right]. intros _. exists n. by rewrite Hs.
    + rewrite lookup_insert_ne by done. naive_solver.
  - intros k' s [Hne Hk']%lookup_delete_Some. apply inv_susp0 in Hk' as (? & ? & ?).
    rewrite lookup_insert_ne by done. set_solver.
Qed.

(** A member dies. *)
Lemma inv0_leave g g' k n l : inv0 g -> k :: l ≡ₚ nodes_ g -> Name_ n = k ->
  State_ n = STATE_DEAD ->
  node_map_ g' = <[k := n]> (node_map_ g) -> nodes_ g' = l ->
  suspicions_ g' = delete k (suspicions_ g) -> queue_ok (bc_queue_ g') ->
  in_range 32 (node_num_ g') -> in_range 64 (dominant_ g') ->
  inv0 g'.
Proof.
  intros Hg Hl Hn Hs Hm Hns Hsu [Hq1 Hq2] Hnum Hdom. pose proof Hg as [].
  assert (NoDup (k :: l)) as [Hkl Hnd]%NoDup_cons by by rewrite Hl.
  assert (forall k', k' ∈ nodes_ g <-> k' = k \/ k' ∈ l) as Hin
    by (intros k'; rewrite <- Hl; apply elem_of_cons).
  split; rewrite ?Hm, ?Hns, ?Hsu; try done.
  - intros k' n0. destruct (decide (k = k')) as [<-|Hne].
    + rewrite lookup_insert_eq. intros [= <-]. split; [done|]. right. by right.
    + rewrite lookup_insert_ne by done. eauto.
  - intros k'. destruct (decide (k = k')) as [<-|Hne].
    + rewrite lookup_insert_eq. naive_solver.
    + rewrite lookup_insert_ne, <- inv_members0, Hin by done. naive_solver.
  - intros k' s [Hne Hk']%lookup_delete_Some. rewrite lookup_insert_ne by done.
    apply inv_susp0 in Hk' as ([->|?]%Hin & ? & ?); done.
Qed.

Lemma evolves_frame g g' :
  conf_ g' = conf_ g -> is_leaving_ g' = is_leaving_ g ->
  notify_join_ g' = notify_join_ g -> notify_leave_ g' = notify_leave_ g ->
  le_view (node_map_ g) (node_map_ g') -> nodes_ g ⊆ nodes_ g' ->
  (forall k c, k <> self_name g -> watched k c g -> watched k c g' \/ moved k g g') -> evolves g g'.
Proof. intros ????? Hn Hw. split; try done. intros _ Hs. by apply Hn. Qed.

Lemma evolves_same g g' :
  conf_ g' = conf_ g -> is_leaving_ g' = is_leaving_ g ->
  notify_join_ g' = notify_join_ g -> notify_leave_ g' = notify_leave_ g ->
  node_map_ g' = node_map_ g -> nodes_ g' = nodes_ g -> suspicions_ g' = suspicions_ g -> evolves g g'.
Proof.
  intros ???? Hm Hn Hs. apply evolves_frame; try done; [by rewrite Hm|by rewrite Hn|].
  intros k c _ Hw. left. unfold watched in *. by rewrite Hs.
Qed.

(** The record of [k] is replaced and its suspicion dropped. *)
Lemma watch_drop g g' k n : suspicions_ g' = delete k (suspicions_ g) ->
  node_map_ g' !! k = Some n ->
  (forall n0, node_map_ g !! k = Some n0 -> State_ n0 <> STATE_DEAD -> overruled n0 n) -> inv0 g ->
  forall j c, watched j c g -> watched j c g' \/ moved j g g'.
Proof.
  intros Hs Hm Ho Hg j c (sus & Hj & Hc & Ha). destruct (decide (j = k)) as [->|Hne].
  - right. destruct (inv_susp _ Hg _ _ Hj) as (Hin & _). apply (inv_members _ Hg) in Hin as (n0 & Hn0 & Hnd).
    intros n1 Hn1. exists n. split; [done|]. apply Ho; [done|]. by simplify_eq.
  - left. exists sus. by rewrite Hs, lookup_delete_ne.
Qed.

(** A suspicion that nobody watches is dropped. *)
Lemma watch_forget g g' k : suspicions_ g' = delete k (suspicions_ g) ->
  k = self_name g \/ suspicions_ g !! k = None ->
  forall j c, j <> self_name g -> watched j c g -> watched j c g'.
Proof.
  intros Hs Hk j c Hj (sus & Hsus & Hw). exists sus. rewrite Hs, lookup_delete_ne; [done|].
  intros ->. destruct Hk; congruence.
Qed.

(** A suspicion is set, other than one that is watched. *)
Lemma watch_insert g g' k sus : suspicions_ g' = <[k := sus]> (suspicions_ g) ->
  (forall sus0, suspicions_ g !! k = Some sus0 -> convict_ sus = convict_ sus0 /\ armed sus = armed sus0) ->
  forall j c, watched j c g -> watched j c g'.
Proof.
  intros Hs Hk j c (sus0 & Hj & Hc & Ha). unfold watched. rewrite Hs.
  destruct (decide (j = k)) as [->|Hne].
  - destruct (Hk _ Hj) as [Hc' Ha']. exists sus. rewrite lookup_insert_eq. by rewrite Hc', Ha'.
  - exists sus0. by rewrite lookup_insert_ne.
Qed.

Lemma log_ok_frame g g' : log_ok g -> conf_ g' = conf_ g -> nodes_ g' ≡ₚ nodes_ g ->
  notified_ g' = notified_ g -> notify_join_ g' = notify_join_ g ->
  notify_leave_ g' = notify_leave_ g -> log_ok g'.
Proof.
  intros Hg Hc Hn Hl Hj Hv. unfold log_ok, others, self_name in *. rewrite Hc, Hl, Hj, Hv.
  intros H1 H2. rewrite (Hg H1 H2). f_equal. apply leibniz_equiv. by rewrite Hn.
Qed.

(** The calls that announce a join and a leave keep the log in step. *)
Lemma log_ok_join g g' k : log_ok g -> conf_ g' = conf_ g -> k ∉ nodes_ g ->
  nodes_ g' = nodes_ g ++ [k] -> notify_join_ g' = notify_join_ g ->
  notify_leave_ g' = notify_leave_ g ->
  notified_ g' = notified_ g ++
    (if negb (bool_decide (k = self_name g)) && notify_join_ g then [Joined k] else []) ->
  log_ok g'.
Proof.
  intros Hg Hc Hk Hn Hj Hv Hl. unfold log_ok, others, self_name in *. rewrite Hc, Hn, Hj, Hv, Hl.
  intros H1 H2. rewrite H1, andb_true_r. case_bool_decide as Hs; cbn.
  - rewrite app_nil_r, (Hg H1 H2). f_equal. apply leibniz_equiv. set_solver.
  - rewrite replay_app, (Hg H1 H2). cbn. rewrite decide_False by set_solver.
    f_equal. apply leibniz_equiv. set_solver.
Qed.

Lemma log_ok_leave g g' k l : log_ok g -> conf_ g' = conf_ g -> NoDup (nodes_ g) ->
  k :: l ≡ₚ nodes_ g -> nodes_ g' = l -> notify_join_ g' = notify_join_ g ->
  notify_leave_ g' = notify_leave_ g ->
  notified_ g' = notified_ g ++
    (if negb (bool_decide (k = self_name g)) && notify_leave_ g then [Left k] else []) ->
  log_ok g'.
Proof.
  intros Hg Hc Hnd Hk Hn Hj Hv Hl. unfold log_ok, others, self_name in *.
  rewrite Hc, Hn, Hj, Hv, Hl. intros H1 H2. rewrite H2, andb_true_r.
  assert (NoDup (k :: l)) as [Hkl _]%NoDup_cons by by rewrite Hk.
  assert ((list_to_set (nodes_ g) : gset string) = {[k]} ∪ list_to_set l) as E.
  { apply leibniz_equiv. by rewrite <- Hk. }
  specialize (Hg H1 H2). rewrite E in Hg. case_bool_decide as Hs; cbn.
  - rewrite app_nil_r, Hg. f_equal. apply leibniz_equiv. set_solver.
  - rewrite replay_app, Hg. cbn. rewrite decide_True by set_solver.
    f_equal. apply leibniz_equiv. set_solver.
Qed.

Lemma inv0_queue_ok g : inv0 g -> queue_ok (bc_queue_ g).
Proof. by intros []. Qed.

#[export] Hint Resolve inv0_queue_ok inv_num inv_dom : gossip.
#[export] Hint Extern 1 (in_range _ (wrap _ _)) => apply wrap_range; lia : gossip.

(** ** The report handlers *)

Section handlers.
Context `{IterationOrder} `{Residue}.

(** The guards of [aliveNode] let a report through when we are not leaving
    (or it is about another node) and its dominant is above the known one;
    an unknown node counts as known with dominant 0. *)
Definition known_dominant (g : gossiper) (k : string) : Z :=
  match node_map_ g !! k with Some n => Dominant_ n | None => 0 end.

Definition alive_accepts (g : gossiper) (a : node_state) : bool :=
  negb (is_leaving_ g && bool_decide (Name_ a = self_name g))
  && (known_dominant g (Name_ a) <? Dominant_ a).

Lemma broadcast_when b s g : inv0 g -> exists q,
  when b (broadcast s) g = Ok (tt, set_bc_queue_ q g) /\ queue_ok q /\
  forall k, map_find k (m_ q) =
    if b && bool_decide (k = Name_ s)
    then Some (push_entry s (node_num_ g) (map_find k (m_ (bc_queue_ g))))
    else map_find k (m_ (bc_queue_ g)).
Proof.
  intros Hg. destruct b.
  - destruct (broadcast_run s g) as (q & E & Hq & Hf); [eauto with gossip..|].
    exists q. split_and!; [done..|]. intros k. rewrite Hf. by repeat case_decide.
  - exists (bc_queue_ g). split_and!; [by destruct g|eauto with gossip|done].
Qed.

(** What an accepted report does to the table and the member list. *)
Lemma alive_enter_run a g : inv0 g -> State_ a = STATE_ALIVE ->
  known_dominant g (Name_ a) < Dominant_ a ->
  let k := Name_ a in
  let new := bool_decide (k ∉ nodes_ g) in
  let state := match node_map_ g !! k with
    | Some state => state
    | None => set_State STATE_DEAD (set_Dominant 0 (copy a)) end in
  bool_decide (State_ state = STATE_DEAD) = new /\
  exists g1, (forall rest : M gossiper unit,
      (when new (addNodeState k state) ;; updateNodeState k a ;; eraseSuspicion k ;; rest) g
      = rest g1) /\
    inv0 g1 /\ conf_ g1 = conf_ g /\ is_leaving_ g1 = is_leaving_ g /\
    notify_join_ g1 = notify_join_ g /\ notify_leave_ g1 = notify_leave_ g /\
    notified_ g1 = notified_ g /\
    node_map_ g1 = <[k := set_Timestamp 0 a]> (node_map_ g) /\
    nodes_ g1 = nodes_ g ++ (if new then [k] else []) /\
    suspicions_ g1 = delete k (suspicions_ g) /\ bc_queue_ g1 = bc_queue_ g /\
    dominant_ g1 = dominant_ g /\ posted_ g1 = posted_ g ++ cancelled g k /\
    node_num_ g1 = (if new then u32 (node_num_ g + 1) else node_num_ g) /\
    le_view (node_map_ g) (node_map_ g1).
Proof.
  intros Hg Ha Hd k new state. unfold known_dominant in Hd. fold k in Hd.
  pose proof (inv_members _ Hg k) as Hmem.
  assert (Hnew : bool_decide (State_ state = STATE_DEAD) = new).
  { subst new state. apply bool_decide_ext. rewrite Hmem.
    destruct (node_map_ g !! k) as [n|] eqn:Ek; cbn; [|naive_solver].
    destruct (decide (State_ n = STATE_DEAD)); naive_solver. }
  split; [done|]. clear Hnew. subst new. destruct (decide (k ∈ nodes_ g)) as [Hin|Hk]; last first.
  - rewrite bool_decide_eq_true_2 by done.
    eexists. split.
    { intros rest. cbn [when]. step (addNodeState_run k state g).
      erewrite bind_Ok by (apply (updateNodeState_run k a state), lookup_insert_eq).
      erewrite bind_Ok by apply eraseSuspicion_run. done. }
    members.
    rewrite insert_insert_eq. split; [|split_and!; try done].
    + eapply (inv0_enter g _ k (set_Timestamp 0 a)); try done; members;
        eauto with gossip.
    + destruct (node_map_ g !! k) as [n|] eqn:Ek.
      * eapply le_view_insert; [done|]. left. done.
      * by apply le_view_insert_new.
  - rewrite bool_decide_eq_false_2 by tauto.
    apply Hmem in Hin as (n & Ek & Hs). rewrite Ek in Hd.
    eexists. split.
    { intros rest. cbn [when]. step. step (updateNodeState_run k a n g Ek).
      erewrite bind_Ok by apply eraseSuspicion_run. done. }
    members. rewrite app_nil_r. split; [|split_and!; try done].
    + eapply inv0_frame; [apply (inv0_update g k n (set_Timestamp 0 a)); try done|..];
        try done; members; eauto with gossip; [by left|by cbn; rewrite Ha].
    + eapply le_view_insert; [done|]. left. done.
Qed.

(** What an accepted report changes. *)
Definition alive_effect (g g' : gossiper) (a : node_state) (need_bc : bool) : Prop :=
  let k := Name_ a in
  let new := bool_decide (k ∉ nodes_ g) in
  let self := bool_decide (k = self_name g) in
  node_map_ g' = <[k := set_Timestamp 0 a]> (node_map_ g) /\
  nodes_ g' = nodes_ g ++ (if new then [k] else []) /\
  node_num_ g' = (if new then u32 (node_num_ g + 1) else node_num_ g) /\
  suspicions_ g' = delete k (suspicions_ g) /\ posted_ g' = posted_ g ++ cancelled g k /\
  dominant_ g' = (if self then Dominant_ a else dominant_ g) /\
  (forall j, map_find j (m_ (bc_queue_ g')) =
    if need_bc && bool_decide (j = k)
    then Some (push_entry a (node_num_ g') (map_find j (m_ (bc_queue_ g))))
    else map_find j (m_ (bc_queue_ g))) /\
  notified_ g' = notified_ g ++ (if new && negb self && notify_join_ g then [Joined k] else []).

Lemma aliveNode_spec a need_bc g : inv g -> State_ a = STATE_ALIVE ->
  in_range 64 (Dominant_ a) ->
  let k := Name_ a in
  exists g', aliveNode a need_bc g = Ok (tt, g') /\ inv g' /\ evolves g g' /\
    if alive_accepts g a then alive_effect g g' a need_bc else g' = g.
Proof.
  intros [Hg Hlog] Ha Hr k. unfold aliveNode. step. fold (self_name g). fold k.
  unfold alive_accepts. fold k. destruct (is_leaving_ g && bool_decide (k = self_name g)) eqn:El.
  { exists g. by split_and!. }
  cbn [negb andb].
  step (eq_refl : getNodeState k g = Ok (node_map_ g !! k, g)). cbv zeta.
  assert (Dominant_ (match node_map_ g !! k with Some state => state
    | None => set_State STATE_DEAD (set_Dominant 0 (copy a)) end) = known_dominant g k) as ->.
  { unfold known_dominant. by destruct (node_map_ g !! k). }
  rewrite Z.leb_antisym. destruct (Z.ltb_spec (known_dominant g k) (Dominant_ a)) as [Hd|Hd];
    cbn [negb]; [|by exists g; split_and!].
  destruct (alive_enter_run a g Hg Ha Hd) as (Hb & g1 & E1 & Hg1 & Hc1 & Hl1 & Hj1 & Hv1 & Hn1 &
    Hm1 & Hns1 & Hsu1 & Hq1 & Hd1 & Hpo1 & Hnn1 & Hview).
  fold k in Hb, E1, Hm1, Hns1, Hsu1. rewrite Hb. clear Hb. set (new := bool_decide (k ∉ nodes_ g)) in *.
  set (self := bool_decide (k = self_name g)) in *.
  rewrite E1.
  destruct (broadcast_when need_bc (copy a) g1 Hg1) as (q & Eq & Hq & Hf). step Eq.
  set (g2 := if self then set_dominant_ (Dominant_ a) (set_bc_queue_ q g1) else set_bc_queue_ q g1).
  assert (when self (modify (set_dominant_ (Dominant_ a))) (set_bc_queue_ q g1) = Ok (tt, g2)) as E2
    by (subst g2; by destruct self).
  step E2. step.
  assert (conf_ g2 = conf_ g /\ is_leaving_ g2 = is_leaving_ g /\ notify_join_ g2 = notify_join_ g /\
    notify_leave_ g2 = notify_leave_ g /\ notified_ g2 = notified_ g /\
    node_map_ g2 = node_map_ g1 /\ nodes_ g2 = nodes_ g1 /\ suspicions_ g2 = suspicions_ g1 /\
    node_num_ g2 = node_num_ g1 /\ posted_ g2 = posted_ g1 /\ bc_queue_ g2 = q /\
    dominant_ g2 = (if self then Dominant_ a else dominant_ g1) /\
    inv0 g2) as (Hc2 & Hl2 & Hj2 & Hv2 & Hn2 & Hm2 & Hns2 & Hsu2 & Hnn2 & Hpo2 & Hq2 & Hd2 & Hg2).
  { subst g2. destruct self; members; split_and!; try done;
      (eapply (inv0_frame g1); try done; members; eauto with gossip). }
  clearbody g2. clear Eq E2.
  set (b := new && negb self && notify_join_ g2).
  exists (set_notified_ (notified_ g2 ++ if b then [Joined k] else []) g2).
  split_and!.
  - destruct b; cbn [when]; [done|]. rewrite app_nil_r. by destruct g2.
  - split; [eapply (inv0_frame g2); try done; members; eauto with gossip|].
    subst b new. destruct (decide (k ∈ nodes_ g)) as [Hin|Hk].
    + rewrite bool_decide_eq_false_2 in * by tauto. cbn [andb] in *. rewrite app_nil_r in *.
      eapply (log_ok_frame g); try done; members; try congruence.
      by rewrite Hns2, Hns1.
    + rewrite bool_decide_eq_true_2 in * by done. cbn [andb] in *.
      eapply (log_ok_join g _ k); try done; members; try congruence.
      by rewrite Hn2, Hj2.
  - apply evolves_frame; members; try congruence.
    + by rewrite Hm2.
    + rewrite Hns2, Hns1. set_solver.
    + intros j c _. apply (watch_drop _ _ k (set_Timestamp 0 a)); members; [by rewrite Hsu2| | |done].
      * by rewrite Hm2, Hm1, lookup_insert_eq.
      * intros n0 Hn0 _. left. unfold known_dominant in Hd. by rewrite Hn0 in Hd.
  - unfold alive_effect. fold k. fold new self. members. subst b.
    rewrite Hm2, Hns2, Hsu2, Hnn2, Hq2, Hd2, Hn2, Hj2, Hd1, Hnn1, Hpo2, Hpo1. split_and!; try done.
    intros j. by rewrite Hf, copy_eq, Hq1, Hnn1.
Qed.

Lemma aliveNode_safe a need_bc : State_ a = STATE_ALIVE -> in_range 64 (Dominant_ a) ->
  safe no_fault (aliveNode a need_bc).
Proof.
  intros Ha Hr g Hg. destruct (aliveNode_spec a need_bc g Hg Ha Hr) as (g' & E & Hg' & He & _).
  unfold wpx. by rewrite E.
Qed.

(** The four ways [deadNode] ends. *)
Definition dead_effect (g g' : gossiper) (d : node_state) : Prop :=
  let k := Name_ d in
  match node_map_ g !! k with
  | None => g' = g
  | Some n =>
    if Dominant_ d <? Dominant_ n then g' = g
    else
      suspicions_ g' = delete k (suspicions_ g) /\ posted_ g' = posted_ g ++ cancelled g k /\
      if bool_decide (State_ n = STATE_DEAD) then
        node_map_ g' = node_map_ g /\ nodes_ g' = nodes_ g /\ notified_ g' = notified_ g /\
        bc_queue_ g' = bc_queue_ g /\ dominant_ g' = dominant_ g /\
        node_num_ g' = u32 (node_num_ g - 1)
      else if bool_decide (k = self_name g) && negb (is_leaving_ g) then
        node_map_ g' = node_map_ g /\ nodes_ g' = nodes_ g /\ notified_ g' = notified_ g /\
        dominant_ g' = objection (dominant_ g) (Dominant_ d) /\
        node_num_ g' = u32 (node_num_ g - 1) /\
        map_find k (m_ (bc_queue_ g')) =
          Some (push_entry (self_state (conf_ g) (objection (dominant_ g) (Dominant_ d)))
            (u32 (node_num_ g - 1)) (map_find k (m_ (bc_queue_ g))))
      else
        node_map_ g' = <[k := set_Timestamp 0 d]> (node_map_ g) /\
        k :: nodes_ g' ≡ₚ nodes_ g /\
        node_num_ g' = u32 (u32 (node_num_ g - 1) - 1) /\ dominant_ g' = dominant_ g /\
        map_find k (m_ (bc_queue_ g')) =
          Some (push_entry d (u32 (u32 (node_num_ g - 1) - 1)) (map_find k (m_ (bc_queue_ g)))) /\
        notified_ g' = notified_ g ++
          (if negb (bool_decide (k = self_name g)) && notify_leave_ g then [Left k] else [])
  end.

Lemma deadNode_spec d g : inv g -> State_ d = STATE_DEAD ->
  exists g', deadNode d g = Ok (tt, g') /\ inv g' /\ evolves g g' /\ dead_effect g g' d.
Proof.
  intros [Hg Hlog] Hd. set (k := Name_ d). unfold deadNode, dead_effect. fold k.
  step (eq_refl : getNodeState k g = Ok (node_map_ g !! k, g)).
  destruct (node_map_ g !! k) as [n|] eqn:Ek; [|by exists g; split_and!].
  destruct (Z.ltb_spec (Dominant_ d) (Dominant_ n)) as [Hlt|Hge]; [by exists g; split_and!|].
  step (eraseSuspicion_run k g). set (p := posted_ g ++ cancelled g k).
  set (g1 := set_node_num_ (u32 (node_num_ g - 1))
    (set_posted_ p (set_suspicions_ (delete k (suspicions_ g)) g))).
  step (eq_refl : sub_node_num _ = Ok (tt, g1)). step.
  assert (inv0 g1) as Hg1.
  { eapply (inv0_frame g); try done; subst g1; members; eauto with gossip. }
  assert (self_name g1 = self_name g) as Es by done. fold (self_name g1). rewrite Es.
  change (is_leaving_ g1) with (is_leaving_ g).
  destruct (inv_names _ Hg _ _ Ek) as [Hname Hknown].
  case_bool_decide as Hdead; [|destruct (bool_decide (k = self_name g) && negb (is_leaving_ g)) eqn:Eself].
  - exists g1. split_and!; try done. apply evolves_frame; try done. intros j c Hj Hw. left.
    eapply (watch_forget g _ k); [done| |done..]. right. apply eq_None_not_Some. intros [sus Hsus].
    destruct (inv_susp _ Hg _ _ Hsus) as ((n0 & ? & ?)%(inv_members _ Hg) & _). congruence.
  - destruct (fuckyou_run (Dominant_ d) g1) as (q & Eq & Hq & Hf); [eauto with gossip..|].
    rewrite Eq. eexists. split; [done|]. subst g1. members. split_and!; try done.
    + split; [|by eapply (log_ok_frame g)].
      eapply (inv0_frame g); try done; members; eauto with gossip.
      apply objection_range.
    + apply evolves_frame; try done. intros j c Hj Hw. left.
      eapply (watch_forget g _ k); [done| |done..]. left.
      apply andb_true_iff in Eself as [Eself _]. by apply bool_decide_eq_true in Eself.
    + specialize (Hf k). rewrite decide_True in Hf; [exact Hf|].
      apply andb_true_iff in Eself as [Eself _]. by apply bool_decide_eq_true in Eself.
  - step (updateNodeState_run k d n g1 Ek).
    set (g2 := set_node_map_ _ g1).
    assert (k ∈ nodes_ g) as Hin by (apply (inv_members _ Hg); eauto).
    destruct (removeNodeState_run k g2 Hin) as (l & El & Hl). step El.
    set (g3 := set_node_num_ _ _).
    assert (inv0 g3) as Hg3.
    { eapply (inv0_leave g _ k (set_Timestamp 0 d) l); try done; subst g3 g2 g1; members;
        eauto with gossip. }
    destruct (broadcast_run (copy d) g3) as (q & Eq & Hq & Hf); [eauto with gossip..|].
    step Eq. step. set (b := bool_decide (k = self_name g)) in *.
    exists (set_notified_ (notified_ g ++ if negb b && notify_leave_ g then [Left k] else [])
      (set_bc_queue_ q g3)).
    split_and!; try done.
    + change (notify_leave_ (set_bc_queue_ q g3)) with (notify_leave_ g).
      destruct (negb b && notify_leave_ g); cbn [when]; [done|]. by rewrite app_nil_r.
    + split; [eapply (inv0_frame g3); try done; members; eauto with gossip|].
      eapply (log_ok_leave g _ k l); try done. by destruct Hg.
    + split; try done.
      * subst g3 g2 g1. members. eapply le_view_insert; [done|].
        unfold stamp_le, stamp, set_Timestamp; cbn [fst snd Dominant_ State_]. rewrite Hd.
        destruct Hknown as [-> |[-> | ->]]; cbn [STATE_val]; lia.
      * intros Hlv Hs. subst b. rewrite Hlv, andb_true_r in Eself.
        apply bool_decide_eq_false in Eself. members. change (nodes_ g2) with (nodes_ g) in Hl.
        rewrite <- Hl in Hs. apply elem_of_cons in Hs as [Hs|Hs]; [|done]. by destruct Eself.
      * intros j c _. apply (watch_drop _ _ k (set_Timestamp 0 d)); try done.
        { subst g3 g2 g1. members. apply lookup_insert_eq. }
        intros n0 Hn0 _. simplify_eq. unfold overruled. cbn. rewrite Hd. cbn. lia.
    + specialize (Hf k). rewrite decide_True, copy_eq in Hf by done. exact Hf.
Qed.

Lemma deadNode_safe d : State_ d = STATE_DEAD -> safe no_fault (deadNode d).
Proof.
  intros Hd g Hg. destruct (deadNode_spec d g Hg Hd) as (g' & E & Hg' & He & _).
  unfold wpx. by rewrite E.
Qed.

(** Reading a state that is gone fails, where such a read can fail at all. *)
Definition stale_fault (f : fault) : Prop :=
  f = LifetimeEnded /\ exists n, stale_node n = None.

Lemma read_stale_fault n f : read_stale n = Crash f -> stale_fault f.
Proof. unfold read_stale. destruct (stale_node n) eqn:E; [done|]. intros [= <-]. split; eauto. Qed.

Lemma deref_stale_fault r f : deref_node r = Crash f -> stale_fault f.
Proof. unfold deref_node. destruct (outlives r); [done|]. apply read_stale_fault. Qed.

Lemma lift_bind_safe {A B} E (o : outcome A) (k : A -> M gossiper B) :
  (forall f, o = Crash f -> E f) -> (forall a, o = Ok a -> safe E (k a)) ->
  safe E (lift o ≫= k).
Proof.
  intros Hf Hk g Hg. unfold wpx, lift, mbind, M_bind. destruct o as [a|f]; [|by apply Hf].
  by apply Hk.
Qed.

Lemma convict_safe r : safe stale_fault (convict r).
Proof.
  apply lift_bind_safe; [apply deref_stale_fault|]. intros d _.
  by apply (safe_weaken no_fault), deadNode_safe.
Qed.

Lemma safe_from {A} E (op : M gossiper A) g g1 : safe E op -> inv g1 -> evolves g g1 ->
  wpx E op (fun _ g' => inv g' /\ evolves g g') g1.
Proof.
  intros Hop Hg1 He. eapply wpx_mono; [by apply Hop|]. intros _ g' [Hg' He'].
  split; [done|by etrans].
Qed.

(** The faults of the membership handlers: the logarithm of a zero member
    count, and convicting by a state that is gone. *)
Definition report_fault (f : fault) : Prop := f = BadFloatCast \/ stale_fault f.

Lemma broadcast_safe s : safe no_fault (broadcast s).
Proof.
  intros g [Hg Hl]. destruct (broadcast_run s g) as (q & E & Hq & _); [eauto with gossip..|].
  unfold wpx. rewrite E. split; [|by apply evolves_same].
  split; [|by eapply (log_ok_frame g)].
  eapply (inv0_frame g); try done; members; eauto with gossip.
Qed.

(** A conviction, of a suspicion whose timer has been stopped for it. *)
Lemma convict_stopped_safe g k sus sus' p : inv g -> suspicions_ g !! k = Some sus ->
  suspicion_wf sus' -> convict_ sus' = convict_ sus ->
  wpx stale_fault (convict (convict_ sus')) (fun _ g' => inv g' /\ evolves g g')
    (set_posted_ p (set_suspicions_ (<[k := sus']> (suspicions_ g)) g)).
Proof.
  intros Hg Hs Hwf Hc. set (g1 := set_posted_ _ _).
  pose proof (inv_suspicion_change g k sus sus' p Hg Hs Hwf Hc) as Hg1. fold g1 in Hg1.
  destruct (inv_susp _ (proj1 Hg) _ _ Hs) as (Hin & _ & Hcap).
  unfold convict, lift, wpx, mbind, M_bind.
  destruct (deref_node (convict_ sus')) as [d|f] eqn:Er; [|by eapply deref_stale_fault].
  destruct (deadNode_spec (set_State STATE_DEAD d) g1 Hg1)
    as (g' & E & Hg' & [] & He); [done|].
  rewrite E. split; [done|]. split; try done.
  intros j c Hj (sus0 & Hj0 & Hc0 & Ha0). destruct (decide (j = k)) as [->|Hne].
  2: { apply (ev_watch0 j c Hj). exists sus0. subst g1. members. by rewrite lookup_insert_ne. }
  right. rewrite Hs in Hj0. injection Hj0 as <-. rewrite Hc, Hc0 in *. injection Er as <-. cbn in Hcap, He.
  destruct (inv_names _ (proj1 Hg) _ _ Hcap) as [Hname _]. cbn in Hname.
  intros n Hn. rewrite Hcap in Hn. injection Hn as <-. unfold dead_effect in He. cbn in He.
  rewrite Hname, Hcap in He. cbn in He. rewrite Z.ltb_irrefl in He.
  apply (inv_members _ (proj1 Hg)) in Hin as (n & Hn & Hnd). rewrite Hcap in Hn. injection Hn as <-.
  cbn in Hnd. unfold self_name in He. rewrite (bool_decide_eq_false_2 (State_ c = _)) in He by done.
  rewrite (bool_decide_eq_false_2 (k = _)) in He by done. cbn [andb] in He.
  destruct He as (_ & _ & Hm & _). rewrite Hm, lookup_insert_eq. eexists. split; [done|].
  unfold overruled. cbn. lia.
Qed.

(** A confirmation of a running suspicion. *)
Lemma suspect_confirm_safe s k sus g : inv g -> suspicions_ g !! k = Some sus ->
  wpx stale_fault
    (let '(confirmed, sus, handlers) := Confirm (From_ s) sus in
     g ← get;
     modify (set_suspicions_ (<[k := sus]> (suspicions_ g))) ;;
     post handlers ;;
     if (confirmed : bool) then convict (convict_ sus) else broadcast (copy s))
    (fun _ g' => inv g' /\ evolves g g') g.
Proof.
  intros [Hg Hl] Hk. destruct (inv_susp _ Hg _ _ Hk) as (Hin & Hwf & Hcap).
  pose proof (Confirm_spec (From_ s) sus Hwf) as Hc.
  destruct (Confirm (From_ s) sus) as [[b sus'] posted].
  destruct Hc as (Hwf' & _ & _ & Hcv & _ & _ & Ha).
  eapply wpx_step; [reflexivity|]. eapply wpx_step; [reflexivity|].
  eapply wpx_step; [reflexivity|]. destruct b; [by apply (convict_stopped_safe g k sus)|].
  apply safe_from; [by apply (safe_weaken no_fault), broadcast_safe|by apply (inv_suspicion_change g k sus)|].
  apply evolves_frame; try done. intros j c _ Hw. left.
  eapply (watch_insert g _ k sus'); [done| |done]. intros sus0 Hk0. simplify_eq.
  by rewrite Hcv, Ha, andb_true_r.
Qed.

(** The answer to, or the forwarding of, a first accusation. *)
Lemma suspect_answer_run s g : queue_ok (bc_queue_ g) -> in_range 32 (node_num_ g) ->
  in_range 64 (dominant_ g) ->
  exists q d, queue_ok q /\ in_range 64 d /\
    (if bool_decide (conf_Name (conf_ g) = Name_ s)
     then fuckyou (Dominant_ s) else broadcast (copy s)) g =
    Ok (tt, set_bc_queue_ q (set_dominant_ d g)) /\
    d = (if bool_decide (self_name g = Name_ s)
         then objection (dominant_ g) (Dominant_ s) else dominant_ g) /\
    (forall k, map_find k (m_ q) =
      if decide (k = Name_ s)
      then Some (push_entry (if bool_decide (self_name g = Name_ s)
             then self_state (conf_ g) d else s) (node_num_ g) (map_find k (m_ (bc_queue_ g))))
      else map_find k (m_ (bc_queue_ g))).
Proof.
  intros Hq Hn Hd. fold (self_name g). case_bool_decide as Hs.
  - destruct (fuckyou_run (Dominant_ s) g Hq Hn) as (q & E & Hq' & Hf).
    exists q, (objection (dominant_ g) (Dominant_ s)). rewrite E.
    split_and!; try done; [apply objection_range|]. intros k. by rewrite Hf, Hs.
  - destruct (broadcast_run (copy s) g Hq Hn) as (q & E & Hq' & Hf).
    exists q, (dominant_ g). rewrite E. split_and!; try done. 
    intros k. by rewrite Hf, copy_eq.
Qed.

(** A first accusation of a live member. *)
Lemma suspect_start_run lives s n g : inv g -> node_map_ g !! Name_ s = Some n ->
  Dominant_ n <= Dominant_ s -> State_ n = STATE_ALIVE -> suspicions_ g !! Name_ s = None ->
  exists q d, queue_ok q /\ in_range 64 d /\
    d = (if bool_decide (self_name g = Name_ s)
         then objection (dominant_ g) (Dominant_ s) else dominant_ g) /\
    (forall k, map_find k (m_ q) =
      if decide (k = Name_ s)
      then Some (push_entry (if bool_decide (self_name g = Name_ s)
             then self_state (conf_ g) d else s) (node_num_ g) (map_find k (m_ (bc_queue_ g))))
      else map_find k (m_ (bc_queue_ g))) /\
    let g1 := set_node_map_ (<[Name_ s := set_Timestamp 0 s]> (node_map_ g))
      (set_bc_queue_ q (set_dominant_ d g)) in
    suspectNode lives s g =
      match suspicion_new (node_num_ g) (mkRef s lives) with
      | Ok sus => Ok (tt, set_suspicions_ (<[Name_ s := sus]> (suspicions_ g)) g1)
      | Crash f => Crash f
      end.
Proof.
  intros [Hg _] Hk Hd Ha Hs. set (k := Name_ s) in *.
  destruct (suspect_answer_run s g) as (q & d & Hq & Hr & E & Hdd & Hf); [eauto with gossip..|].
  exists q, d. split_and!; try done. intros g1. unfold suspectNode. fold k.
  step (eq_refl : getNodeState k g = Ok (node_map_ g !! k, g)). rewrite Hk.
  rewrite (proj2 (Z.ltb_ge _ _)) by done.
  step (eq_refl : getSuspicion k g = Ok (suspicions_ g !! k, g)). rewrite Hs, Ha.
  rewrite bool_decide_eq_false_2 by tauto. step. step E.
  step (updateNodeState_run k s n (set_bc_queue_ q (set_dominant_ d g)) Hk). step.
  change (suspicions_ (set_node_map_ _ _)) with (suspicions_ g). rewrite Hs.
  change (node_num_ (set_node_map_ _ _)) with (node_num_ g).
  by destruct (suspicion_new (node_num_ g) (mkRef s lives)) as [sus|f].
Qed.

Lemma suspectNode_safe lives s : known_state (State_ s) -> State_ s <> STATE_DEAD ->
  safe report_fault (suspectNode lives s).
Proof.
  intros Hks Hnd g Hg. pose proof Hg as [Hg0 Hl0].
  destruct (node_map_ g !! Name_ s) as [n|] eqn:Ek; last first.
  { unfold wpx, suspectNode. run. unfold getNodeState. run. by rewrite Ek. }
  destruct (Z.ltb_spec (Dominant_ s) (Dominant_ n)) as [Hlt|Hge].
  { unfold wpx, suspectNode, getNodeState. run. rewrite Ek.
    by rewrite (proj2 (Z.ltb_lt _ _)) by done. }
  destruct (suspicions_ g !! Name_ s) as [sus|] eqn:Es.
  { unfold suspectNode. eapply wpx_step; [reflexivity|]. cbv beta. rewrite Ek.
    rewrite (proj2 (Z.ltb_ge _ _)) by done. eapply wpx_step; [reflexivity|].
    cbv beta. rewrite Es. eapply wpx_weaken; [|by apply suspect_confirm_safe]. by right. }
  destruct (decide (State_ n = STATE_ALIVE)) as [Ha|Ha]; last first.
  { unfold wpx, suspectNode, getNodeState, getSuspicion. run. rewrite Ek.
    rewrite (proj2 (Z.ltb_ge _ _)) by done. rewrite Es.
    by rewrite bool_decide_eq_true_2 by done. }
  destruct (suspect_start_run lives s n g Hg Ek Hge Ha Es) as (q & d & Hq & Hr & _ & _ & E).
  unfold wpx. cbv zeta in E. rewrite E.
  destruct (suspicion_new _ _) as [sus|f] eqn:En; last first.
  { left. by apply suspicion_new_fault in En. }
  assert (Name_ s ∈ nodes_ g) as Hin.
  { apply (inv_members _ Hg0). exists n. by rewrite Ha. }
  split; [split; [|by eapply (log_ok_frame g)]|].
  - set (g1 := set_node_map_ _ _).
    apply (inv0_suspicion g1); [|done|by eapply suspicion_new_wf|].
    + subst g1. eapply inv0_frame;
        [apply (inv0_update g (Name_ s) n (set_Timestamp 0 s)); try done; by rewrite Ha|..];
        try done; members; eauto with gossip. left. by rewrite delete_id.
    + rewrite (suspicion_new_ref _ _ _ En). apply lookup_insert_eq.
  - apply evolves_frame; try done.
    { members. eapply le_view_insert; [done|].
      unfold stamp_le, stamp, set_Timestamp; cbn [fst snd Dominant_ State_]. rewrite Ha.
      destruct Hks as [-> |[-> | ->]]; cbn [STATE_val]; lia. }
    intros j c _ Hw. left. eapply (watch_insert g _ (Name_ s) sus); [done| |done]. by rewrite Es.
Qed.

(** ** The handlers built on the reports *)

(** What an unverified message can do: miss a field. *)
Definition merge_fault (f : fault) : Prop := f = NullDeref \/ report_fault f.

Lemma deref_opt_fault {A} (o : option A) f : deref_opt o = Crash f -> f = NullDeref.
Proof. destruct o; [done|]. by intros [= <-]. Qed.

Lemma convert_fields_fault ns f : convert_fields ns = Crash f -> f = NullDeref.
Proof.
  unfold convert_fields, deref_opt. cbv [mbind outcome_bind mret outcome_ret].
  repeat case_match; naive_solver.
Qed.

Lemma convert_fields_dominant ns n : convert_fields ns = Ok n -> Dominant_ n = dominant ns.
Proof.
  unfold convert_fields, deref_opt. cbv [mbind outcome_bind mret outcome_ret].
  repeat case_match; naive_solver.
Qed.

(** What a message says: a property of the records its states convert to. *)
Definition wire_holds (P : node_state -> Prop) (w : NodeState) : Prop :=
  forall n, convert_fields w = Ok n -> P n.
Definition wires_hold (P : node_state -> Prop) (nss : NodeStates) : Prop :=
  match nss with Some l => Forall (wire_holds P) l | None => True end.

Lemma wires_hold_mono (P Q : node_state -> Prop) nss : (forall n, P n -> Q n) ->
  wires_hold P nss -> wires_hold Q nss.
Proof.
  intros HPQ. destruct nss as [l|]; [|done]. intros Hl. eapply Forall_impl; [exact Hl|].
  intros w Hw n Hn. by apply HPQ, Hw.
Qed.

Definition in_time (n : node_state) : Prop := in_range 64 (Dominant_ n).

Lemma typed_in_time nss : typed_states nss -> wires_hold in_time nss.
Proof.
  destruct nss as [l|]; [|done]. intros Hl. eapply Forall_impl; [exact Hl|].
  intros w Hw n E. unfold in_time.
  rewrite (convert_fields_dominant _ _ E). apply Hw.
Qed.

Lemma convert_in_time w n : wire_holds in_time w -> convert w = Ok n -> in_time n.
Proof.
  intros Hw (m & E & Es)%convert_inv. by apply (stale_typed _ _ Es), Hw.
Qed.

Lemma mergeReport_safe need_bc n : in_range 64 (Dominant_ n) ->
  safe report_fault (mergeReport need_bc n).
Proof.
  intros Hd. unfold mergeReport. destruct (State_ n) eqn:Es.
  - apply (safe_weaken no_fault); [done|]. by apply aliveNode_safe.
  - apply suspectNode_safe; rewrite Es; [by right; left|done].
  - apply (safe_weaken no_fault); [done|]. by apply deadNode_safe.
  - apply safe_ret.
Qed.

Lemma mergeState_safe need_bc ns : wire_holds in_time ns -> safe merge_fault (mergeState need_bc ns).
Proof.
  intros Ht. apply lift_bind_safe.
  - intros f. unfold convert. cbv [mbind outcome_bind].
    destruct (convert_fields ns) eqn:E.
    + intros Hf. by right; right; apply read_stale_fault in Hf.
    + intros [= <-]. left. by eapply convert_fields_fault.
  - intros n E. apply (safe_weaken report_fault); [by right|].
    by apply mergeReport_safe, (convert_in_time ns).
Qed.

Lemma mergeStates_safe need_bc nss : wires_hold in_time nss -> safe merge_fault (mergeStates nss need_bc).
Proof.
  intros Ht. apply lift_bind_safe.
  - intros f E. left. by eapply deref_opt_fault.
  - intros l E. apply safe_for_each. intros ns Hin. apply mergeState_safe.
    destruct nss as [l'|]; [|done]. injection E as <-. by eapply Forall_forall in Ht.
Qed.

(** Operations that change neither the table, the suspicions nor the log. *)
Lemma safe_modify E (f : gossiper -> gossiper) :
  (forall g, inv0 g -> inv0 (f g)) ->
  (forall g, conf_ (f g) = conf_ g /\ is_leaving_ (f g) = is_leaving_ g /\
    notify_join_ (f g) = notify_join_ g /\ notify_leave_ (f g) = notify_leave_ g /\
    node_map_ (f g) = node_map_ g /\ nodes_ (f g) = nodes_ g /\
    suspicions_ (f g) = suspicions_ g /\ notified_ (f g) = notified_ g) ->
  safe E (modify f).
Proof.
  intros Hi Hf g [Hg Hl]. destruct (Hf g) as (Hc & Hlv & Hj & Hv & Hm & Hn & Hs & Hlog).
  unfold wpx. run. split; [split; [by apply Hi|eapply (log_ok_frame g); by rewrite ?Hn]|].
  by apply evolves_same.
Qed.

Lemma get_safe E : safe E get.
Proof. intros g Hg. unfold wpx. run. done. Qed.

Lemma run_posted_safe : safe (fun f => f = LifetimeEnded) run_posted.
Proof.
  apply safe_bind; [apply get_safe|]. intros g. destruct (posted_ g) as [|r rest]; [apply safe_ret|].
  apply safe_bind; [|intros _; destruct stale_call;
    [apply (safe_weaken stale_fault); [by intros f []|apply convict_safe]|by intros g' Hg']].
  apply safe_modify; [|done]. intros g' Hg'.
  eapply (inv0_frame g'); try done; members; eauto with gossip.
Qed.

Lemma on_suspicion_timer_safe k : safe stale_fault (on_suspicion_timer k).
Proof.
  intros g Hg. pose proof Hg as [Hg0 Hl]. unfold on_suspicion_timer.
  eapply wpx_step; [reflexivity|]. destruct (suspicions_ g !! k) as [s|] eqn:Es; [|by split].
  destruct (inv_susp _ Hg0 _ _ Es) as (Hin & Hwf & Hcap).
  destruct (armed s) eqn:Ea; [|by split]. eapply wpx_step; [reflexivity|].
  eapply wpx_step; [reflexivity|]. replace (convict_ s) with (convict_ (cancel s).1)
    by (unfold cancel; by rewrite Ea).
  apply (convict_stopped_safe g k s _ (posted_ g)); try done; unfold cancel; by rewrite Ea.
Qed.

Lemma nextDominant_safe shift : safe no_fault (nextDominant shift).
Proof.
  intros g [Hg Hl]. unfold wpx, nextDominant. run. split.
  - split; [|by eapply (log_ok_frame g)].
    eapply (inv0_frame g); try done; members; eauto with gossip.
  - by apply evolves_same.
Qed.

Lemma nextDominant_range shift g a g' : nextDominant shift g = Ok (a, g') -> in_range 64 a.
Proof. unfold nextDominant. run. intros [= <- _]. apply wrap_range; lia. Qed.

Lemma Join_self_safe : safe no_fault Join_self.
Proof.
  intros g Hg. apply wpx_bind. pose proof (nextDominant_safe 1 g Hg) as Hn.
  destruct (nextDominant 1 g) as [[d g1]|] eqn:E; unfold wpx in *; rewrite E in *; [|done].
  destruct Hn as [Hg1 He]. apply nextDominant_range in E.
  apply (safe_from _ (g0 ← get; aliveNode (self_state (conf_ g0) d) false) g g1); [|done..].
  apply safe_bind; [apply get_safe|]. intros g0. by apply aliveNode_safe.
Qed.
End handlers.
