(* ===== verification/Reports.v ===== *)
(** * What a report does

    The properties of the three report handlers, of objections, of suspicions
    and their convictions, each on every gossiper that satisfies the membership
    invariant. *)
From S2P Require Import Prelude Utils Node Broadcast Suspicion Messages Gossiper Membership.
Local Open Scope Z_scope.

(** ** A concrete cluster, for the witnesses *)

Definition state_after {A} (op : M gossiper A) (g : gossiper) : gossiper :=
  match op g with Ok (_, g') => g' | Crash _ => g end.

Lemma state_after_inv {A} E (op : M gossiper A) g : safe E op -> inv g -> inv (state_after op g).
Proof.
  intros Hop Hg. specialize (Hop g Hg). unfold wpx, state_after in *.
  destruct (op g) as [[a g']|]; [apply Hop|done].
Qed.

Definition example_conf : config := mkConfig "a:1" "a" 1 1000 0 500 500 1000 0.
Definition report (name addr port : string) (d : Z) (s : STATE) (from : string) : node_state :=
  mkNode name addr port d s from 0.

#[local] Instance example_memory : Residue := intact_memory 0.

(** [a:1] joined and learned of [b:2] and [c:3]. *)
Definition example_start : gossiper :=
  set_notify_leave_ true (set_notify_join_ true (gossiper_new example_conf)).
Definition example_cluster : gossiper :=
  state_after (Join_self ;; aliveNode (report "b:2" "b" "2" 5 STATE_ALIVE "") true ;;
    aliveNode (report "c:3" "c" "3" 4 STATE_ALIVE "") true) example_start.

Lemma example_cluster_inv : inv example_cluster.
Proof.
  apply (state_after_inv no_fault); [|apply gossiper_new_inv].
  apply safe_bind; [apply Join_self_safe|]. intros _.
  apply safe_bind; [by apply aliveNode_safe|]. intros _. by apply aliveNode_safe.
Qed.

Section reports.
Context `{IterationOrder} `{Residue}.

(** ** The handlers, branch by branch *)

(** C18: an alive report is accepted exactly if it is newer than what is known
    (an unknown node counts as known at dominant 0) and is not about ourselves
    while we are leaving. Accepting it makes the report the node's record,
    clears its suspicion (whose cancelled timer still posts its handler), adds
    the node and counts and announces it if it was not a member, and queues the
    report if asked to; a refused report changes nothing. *)
Theorem aliveNode_report (a : node_state) (need_bc : bool) (g : gossiper) :
  inv g -> State_ a = STATE_ALIVE -> in_range 64 (Dominant_ a) ->
  exists g', aliveNode a need_bc g = Ok (tt, g') /\
    if alive_accepts g a then alive_effect g g' a need_bc else g' = g.
Proof.
  intros Hg Ha Hr. destruct (aliveNode_spec a need_bc g Hg Ha Hr) as (g' & E & _ & _ & He).
  by exists g'.
Qed.

(** C19: a dead report about an unknown node or older than what is known
    changes nothing; any other drops the node's suspicion and lowers the count,
    then: about a node already dead it changes nothing else, not even to the
    report's higher dominant; about ourselves it is answered by an objection;
    and otherwise the record becomes the report, the node leaves the member
    list (which lowers the count a second time), the report is queued and the
    leave announced. *)
Theorem deadNode_report (d : node_state) (g : gossiper) :
  inv g -> State_ d = STATE_DEAD ->
  exists g', deadNode d g = Ok (tt, g') /\ dead_effect g g' d.
Proof.
  intros Hg Hd. destruct (deadNode_spec d g Hg Hd) as (g' & E & _ & _ & He). by exists g'.
Qed.

(** C20: the first suspicion of a live node. The record becomes the report, a
    suspicion starts that needs the ceiling of the binary logarithm of the
    node count, with an armed timer, and the accusation is queued; about
    ourselves an objection is queued instead, yet our own record becomes the
    accusation all the same. With a node count of zero the number of needed
    confirmations is a conversion of minus infinity, which is undefined. *)
Theorem suspectNode_start (lives : bool) (s n : node_state) (g : gossiper) :
  inv g -> node_map_ g !! Name_ s = Some n -> State_ n = STATE_ALIVE ->
  Dominant_ n <= Dominant_ s -> suspicions_ g !! Name_ s = None ->
  if node_num_ g =? 0 then suspectNode lives s g = Crash BadFloatCast
  else (exists g', suspectNode lives s g = Ok (tt, g') /\
    node_map_ g' = <[Name_ s := set_Timestamp 0 s]> (node_map_ g) /\ nodes_ g' = nodes_ g /\
    suspicions_ g' = <[Name_ s :=
      mkSuspicion (Z.log2_up (node_num_ g)) 0 ∅ (mkRef s lives) true]> (suspicions_ g) /\
    map_find (Name_ s) (m_ (bc_queue_ g')) =
      Some (push_entry
        (if bool_decide (self_name g = Name_ s)
         then self_state (conf_ g) (objection (dominant_ g) (Dominant_ s)) else s)
        (node_num_ g) (map_find (Name_ s) (m_ (bc_queue_ g))))).
Proof.
  intros Hg Hk Ha Hd Hs.
  destruct (suspect_start_run lives s n g Hg Hk Hd Ha Hs) as (q & d & _ & _ & Hdd & Hf & E).
  cbv zeta in E. rewrite E. unfold suspicion_new, need_confirm.
  destruct (node_num_ g =? 0) eqn:En; [done|]. cbn.
  eexists. split; [done|]. members. split_and!; try done.
  rewrite Hf, decide_True by done. rewrite Hdd. by case_bool_decide.
Qed.

(** ** Convictions *)

(** The reference a conviction reads is good: the object outlives the call,
    or its storage is intact. *)
Definition readable (r : sus_ref) : Prop := deref_node r = Ok (captured r).

Lemma convict_readable r g : readable r ->
  convict r g = deadNode (set_State STATE_DEAD (captured r)) g.
Proof. intros Hr. unfold convict, lift. run. by rewrite Hr. Qed.

Lemma convict_unreadable r f g : deref_node r = Crash f -> convict r g = Crash f.
Proof. intros Hr. unfold convict, lift. run. by rewrite Hr. Qed.

(** What a conviction changes: the node is dead at the dominant it was
    suspected at, gone from the member list, and its leave is announced. *)
Definition convicted (g g' : gossiper) (k : string) (n : node_state) : Prop :=
  node_map_ g' = <[k := set_State STATE_DEAD n]> (node_map_ g) /\
  (k ∉ nodes_ g') /\ (forall j, j <> k -> (j ∈ nodes_ g' <-> j ∈ nodes_ g)) /\
  suspicions_ g' = delete k (suspicions_ g) /\
  notified_ g' = notified_ g ++ (if notify_leave_ g then [Left k] else []).

Lemma convict_run g k n sus : inv g -> suspicions_ g !! k = Some sus ->
  node_map_ g !! k = Some n -> readable (convict_ sus) -> k <> self_name g ->
  exists g', convict (convict_ sus) g = Ok (tt, g') /\ convicted g g' k n.
Proof.
  intros Hg Hs Hk Hr Hself. pose proof Hg as [Hg0 _].
  destruct (inv_susp _ Hg0 _ _ Hs) as (Hin & _ & Hcap). rewrite Hk in Hcap.
  injection Hcap as Hn. set (c := captured (convict_ sus)) in *.
  destruct (inv_names _ Hg0 _ _ Hk) as [Hname _].
  assert (Name_ c = k) as Hc by by rewrite <- Hname, Hn.
  destruct (deadNode_spec (set_State STATE_DEAD c) g Hg) as (g' & E & [Hg' _] & _ & He); [done|].
  exists g'. rewrite convict_readable by done. fold c. split; [exact E|].
  unfold dead_effect in He. cbn [Name_ set_State Dominant_] in He. rewrite Hc, Hk in He.
  rewrite (proj2 (Z.ltb_ge _ _)) in He by (rewrite Hn; cbn; lia).
  assert (State_ n <> STATE_DEAD) as Hnd.
  { apply (inv_members _ Hg0) in Hin as (n' & Hn' & ?). congruence. }
  rewrite !bool_decide_eq_false_2 in He by done. cbn [andb negb] in He.
  destruct He as (Hsu & _ & Hm & Hp & _ & _ & _ & Hl).
  split_and!; [| | |done|done].
  - rewrite Hm. f_equal. by rewrite Hn.
  - intros Hin'. assert (NoDup (k :: nodes_ g')) as Hnd' by (rewrite Hp; apply (inv_nodup _ Hg0)).
    by apply NoDup_cons in Hnd' as [? _].
  - intros j Hj. rewrite <- Hp. set_solver.
Qed.

(** A conviction of ourselves, of whom a record is a member's: we object. *)
Definition objected (g g' : gossiper) (k : string) (n : node_state) : Prop :=
  node_map_ g' = node_map_ g /\ nodes_ g' = nodes_ g /\
  suspicions_ g' = delete k (suspicions_ g) /\ notified_ g' = notified_ g /\
  map_find k (m_ (bc_queue_ g')) =
    Some (push_entry (self_state (conf_ g) (objection (dominant_ g) (Dominant_ n)))
      (u32 (node_num_ g - 1)) (map_find k (m_ (bc_queue_ g)))).

Lemma convict_self_run g k n sus : inv g -> suspicions_ g !! k = Some sus ->
  node_map_ g !! k = Some n -> readable (convict_ sus) -> k = self_name g -> is_leaving_ g = false ->
  exists g', convict (convict_ sus) g = Ok (tt, g') /\ objected g g' k n.
Proof.
  intros Hg Hs Hk Hr Hself Hl. pose proof Hg as [Hg0 _].
  destruct (inv_susp _ Hg0 _ _ Hs) as (Hin & _ & Hcap). rewrite Hk in Hcap.
  injection Hcap as Hn. set (c := captured (convict_ sus)) in *.
  destruct (inv_names _ Hg0 _ _ Hk) as [Hname _].
  assert (Name_ c = k) as Hc by by rewrite <- Hname, Hn.
  destruct (deadNode_spec (set_State STATE_DEAD c) g Hg) as (g' & E & _ & _ & He); [done|].
  exists g'. rewrite convict_readable by done. fold c. split; [exact E|].
  unfold dead_effect in He. cbn [Name_ set_State Dominant_] in He. rewrite Hc, Hk in He.
  rewrite (proj2 (Z.ltb_ge _ _)) in He by (rewrite Hn; cbn; lia).
  assert (State_ n <> STATE_DEAD) as Hnd.
  { apply (inv_members _ Hg0) in Hin as (n' & Hn' & ?). congruence. }
  rewrite bool_decide_eq_false_2, (bool_decide_eq_true_2 (k = self_name g)), Hl in He by done.
  cbn [andb negb] in He. destruct He as (Hsu & _ & Hm & Hnn & Hno & _ & _ & Hq).
  split_and!; try done. rewrite Hq. by rewrite Hn.
Qed.

(** A suspicion whose timer expires before it is refuted ends in a
    conviction: the suspected node is dead, out of the member list, and its
    leave is announced, provided the state captured by reference can still be
    read. *)
Theorem suspicion_timer_convicts (g : gossiper) (k : string) (n : node_state) (sus : suspicion) :
  inv g -> suspicions_ g !! k = Some sus -> armed sus = true -> node_map_ g !! k = Some n ->
  readable (convict_ sus) -> k <> self_name g ->
  exists g', on_suspicion_timer k g = Ok (tt, g') /\ convicted g g' k n.
Proof.
  intros Hg Hs Ha Hk Hr Hself. destruct (inv_susp _ (proj1 Hg) _ _ Hs) as (Hin & Hwf & Hcap).
  unfold on_suspicion_timer. step (eq_refl : getSuspicion k g = Ok (suspicions_ g !! k, g)).
  rewrite Hs, Ha. step. step.
  set (sus' := (cancel sus).1). assert (convict_ sus' = convict_ sus) as Hc.
  { subst sus'. unfold cancel. by rewrite Ha. }
  assert (inv (set_suspicions_ (<[k := sus']> (suspicions_ g)) g)) as Hg1.
  { apply (inv_suspicion_change g k sus _ (posted_ g)); [done..| |done].
    subst sus'. unfold cancel. by rewrite Ha. }
  rewrite <- Hc in Hr |- *.
  destruct (convict_run _ k n sus' Hg1) as (g' & E & Hm & Hn & Hj & Hsu & Hl); try done.
  { apply lookup_insert_eq. }
  exists g'. split; [exact E|]. split_and!; try done.
  rewrite Hsu. apply delete_insert_eq.
Qed.

(** A confirmation, up to the conviction or the broadcast it ends in. *)
Lemma suspect_confirm_run lives s n sus g : inv g -> suspicions_ g !! Name_ s = Some sus ->
  node_map_ g !! Name_ s = Some n -> Dominant_ n <= Dominant_ s ->
  let who := {[From_ s]} ∪ who_confirmed_ sus in
  exists sus' p,
    let g1 := set_posted_ p (set_suspicions_ (<[Name_ s := sus']> (suspicions_ g)) g) in
    suspectNode lives s g =
      (if need_confirm_ sus <=? u32 (Z.of_nat (size who))
       then convict (convict_ sus') else broadcast (copy s)) g1 /\
    convict_ sus' = convict_ sus /\ who_confirmed_ sus' = who /\
    need_confirm_ sus' = need_confirm_ sus /\ inv g1.
Proof.
  intros Hg Hs Hk Hd who. destruct (inv_susp _ (proj1 Hg) _ _ Hs) as (Hin & Hwf & Hcap).
  pose proof (Confirm_spec (From_ s) sus Hwf) as Hc.
  destruct (Confirm (From_ s) sus) as [[b sus'] posted] eqn:Ec.
  destruct Hc as (Hwf' & Hw & Hn & Hcv & Hb & _). fold who in Hw, Hb. rewrite <- Hb.
  exists sus', (posted_ g ++ posted). split.
  - unfold suspectNode. step (eq_refl : getNodeState (Name_ s) g = Ok (node_map_ g !! Name_ s, g)).
    rewrite Hk, (proj2 (Z.ltb_ge _ _)) by done.
    step (eq_refl : getSuspicion (Name_ s) g = Ok (suspicions_ g !! Name_ s, g)). rewrite Hs, Ec.
    step. step. step. by destruct b.
  - split_and!; [done..|]. by apply (inv_suspicion_change g (Name_ s) sus).
Qed.

(** C21: a further accusation of a suspected node is a confirmation by its
    sender. One older than the record is ignored. Otherwise, while the different
    confirmers, this one included, are fewer than needed, the sender is
    remembered, the table and the members stay and the accusation is passed on.
    Once they are enough, the captured state is read: if that fails (it was
    captured by reference and may be gone), so does the handler; if it is still
    what was captured, the node is convicted, or we object if it is ourselves
    and we are not leaving. *)
Theorem suspectNode_confirm (lives : bool) (s n : node_state) (sus : suspicion) (g : gossiper) :
  let k := Name_ s in
  inv g -> suspicions_ g !! k = Some sus -> node_map_ g !! k = Some n ->
  let who := {[From_ s]} ∪ who_confirmed_ sus in
  if Dominant_ s <? Dominant_ n then suspectNode lives s g = Ok (tt, g)
  else if need_confirm_ sus <=? u32 (Z.of_nat (size who)) then
    (forall f, deref_node (convict_ sus) = Crash f -> suspectNode lives s g = Crash f) /\
    (readable (convict_ sus) -> k <> self_name g ->
      exists g', suspectNode lives s g = Ok (tt, g') /\ convicted g g' k n) /\
    (readable (convict_ sus) -> k = self_name g -> is_leaving_ g = false ->
      exists g', suspectNode lives s g = Ok (tt, g') /\ objected g g' k n)
  else exists g', suspectNode lives s g = Ok (tt, g') /\
    node_map_ g' = node_map_ g /\ nodes_ g' = nodes_ g /\ notified_ g' = notified_ g /\
    (exists sus', suspicions_ g' = <[k := sus']> (suspicions_ g) /\
      who_confirmed_ sus' = who /\ need_confirm_ sus' = need_confirm_ sus) /\
    map_find k (m_ (bc_queue_ g')) =
      Some (push_entry s (node_num_ g) (map_find k (m_ (bc_queue_ g)))).
Proof.
  intros k Hg Hs Hk who. destruct (Z.ltb_spec (Dominant_ s) (Dominant_ n)) as [Hd|Hd].
  { unfold suspectNode, getNodeState. run. fold k. rewrite Hk. by rewrite (proj2 (Z.ltb_lt _ _)). }
  destruct (suspect_confirm_run lives s n sus g Hg Hs Hk Hd) as (sus' & p & E & Hcv & Hw & Hn & Hg1).
  fold k who in E, Hw, Hg1. rewrite E. clear E. set (g1 := set_posted_ _ _) in *.
  destruct (need_confirm_ sus <=? _).
  - assert (suspicions_ g1 !! k = Some sus') as Hs1 by apply lookup_insert_eq.
    rewrite <- Hcv. split_and!.
    + intros f Hf. by apply convict_unreadable.
    + intros Hr Hself. destruct (convict_run g1 k n sus' Hg1) as (g' & E & Hm & Hni & Hj & Hsu & Hl);
        try done.
      exists g'. split; [exact E|]. split_and!; try done. rewrite Hsu. apply delete_insert_eq.
    + intros Hr Hself Hl. destruct (convict_self_run g1 k n sus' Hg1) as (g' & E & Hm & Hni & Hsu & Hl' & Hq);
        try done.
      exists g'. split; [exact E|]. split_and!; try done. rewrite Hsu. apply delete_insert_eq.
  - destruct (broadcast_run (copy s) g1) as (q & E & _ & Hf); [by apply inv0_queue_ok, Hg1|apply Hg1|].
    exists (set_bc_queue_ q g1). split; [exact E|]. members. split_and!; try done.
    + by exists sus'.
    + rewrite Hf, copy_eq, decide_True by done. done.
Qed.

(** C22: a refutation outlives the conviction it cancels. Clearing the
    suspicion of a refuted node cancels the timer, whose handler then runs all
    the same, on a destroyed suspicion; if the call still goes through and the
    captured state can be read, it finds the newer record and changes nothing
    but the list of posted handlers. *)
Theorem refutation_stands (a : node_state) (sus : suspicion) (need_bc : bool) (g : gossiper) :
  inv g -> State_ a = STATE_ALIVE -> in_range 64 (Dominant_ a) ->
  alive_accepts g a = true -> suspicions_ g !! Name_ a = Some sus -> armed sus = true ->
  posted_ g = [] -> readable (convict_ sus) -> stale_call = true ->
  exists g', aliveNode a need_bc g = Ok (tt, g') /\ posted_ g' = [convict_ sus] /\
    run_posted g' = Ok (tt, set_posted_ [] g').
Proof.
  intros Hg Ha Hr Hacc Hs Harm Hp Hread Hcall.
  destruct (aliveNode_spec a need_bc g Hg Ha Hr) as (g' & E & _ & _ & He).
  rewrite Hacc in He. destruct He as (Hm & _ & _ & _ & Hpo & _).
  unfold cancelled in Hpo. rewrite Hp, Hs in Hpo. unfold suspicion_destroy, cancel in Hpo.
  rewrite Harm in Hpo. cbn in Hpo.
  exists g'. split_and!; [done..|]. unfold run_posted. step. rewrite Hpo. step. rewrite Hcall.
  destruct (inv_susp _ (proj1 Hg) _ _ Hs) as (_ & _ & Hcap).
  destruct (inv_names _ (proj1 Hg) _ _ Hcap) as [Hname _]. cbn in Hname.
  rewrite convict_readable by done. unfold deadNode, getNodeState. run. members.
  cbn [Name_ set_State]. rewrite Hname, Hm, lookup_insert_eq. cbn [Dominant_ set_Timestamp set_State].
  rewrite (proj2 (Z.ltb_lt _ _)); [done|].
  unfold alive_accepts, known_dominant in Hacc. rewrite Hcap in Hacc.
  apply andb_true_iff in Hacc as [_ Hlt]. apply Z.ltb_lt in Hlt. exact Hlt.
Qed.

(** A false death is refuted. A dead report about ourselves leaves table
    and members alone and queues an objection, whose dominant is above the
    report's unless that is the largest 64-bit value. Any gossiper at which the
    report, or anything at most as new, is what is known of us accepts the
    objection: we are its member again, alive, and no longer suspected. *)
Theorem death_refuted (d : node_state) (g : gossiper) :
  inv g -> State_ d = STATE_DEAD -> Name_ d = self_name g -> is_leaving_ g = false ->
  self_name g ∈ nodes_ g -> known_dominant g (Name_ d) <= Dominant_ d < 2 ^ 64 - 1 ->
  exists g1, deadNode d g = Ok (tt, g1) /\ node_map_ g1 = node_map_ g /\ nodes_ g1 = nodes_ g /\
    let o := self_state (conf_ g) (objection (dominant_ g) (Dominant_ d)) in
    map_find (self_name g) (m_ (bc_queue_ g1)) =
      Some (push_entry o (u32 (node_num_ g - 1)) (map_find (self_name g) (m_ (bc_queue_ g)))) /\
    Dominant_ d < Dominant_ o /\
    forall h need_bc, inv h -> self_name h <> self_name g ->
      known_dominant h (self_name g) <= Dominant_ d ->
      exists h', aliveNode o need_bc h = Ok (tt, h') /\
        node_map_ h' !! self_name g = Some (set_Timestamp 0 o) /\ self_name g ∈ nodes_ h' /\
        suspicions_ h' !! self_name g = None.
Proof.
  intros Hg Hd Hs Hl Hin [Hge Hlt]. pose proof Hg as [Hg0 _].
  destruct (deadNode_spec d g Hg Hd) as (g1 & E & _ & _ & He).
  exists g1. unfold dead_effect in He. unfold known_dominant in Hge. rewrite Hs in He, Hge.
  apply (inv_members _ Hg0) in Hin as (n & Hn & Hnd). rewrite Hn in He, Hge.
  rewrite (proj2 (Z.ltb_ge _ _)) in He by done.
  rewrite bool_decide_eq_false_2, bool_decide_eq_true_2, Hl in He by done. cbn [andb negb] in He.
  destruct He as (_ & _ & Hm & Hns & _ & _ & _ & Hq). split_and!; try done. intros o.
  assert (0 <= dominant_ g < 2 ^ 64) as Hdom by apply Hg0.
  assert (Dominant_ d < Dominant_ o) as Hob by by apply objection_above_all.
  split_and!; [exact Hq|done|].
  intros h need_bc Hh Hne Hk.
  destruct (aliveNode_spec o need_bc h Hh) as (h' & E' & [Hh' _] & _ & He); [done|apply objection_range|].
  exists h'. split; [done|]. unfold alive_accepts in He.
  assert (Name_ o = self_name g) as Ho by done. rewrite Ho in He.
  rewrite (bool_decide_eq_false_2 (self_name g = self_name h)), andb_false_r in He by done.
  rewrite (proj2 (Z.ltb_lt _ _)) in He by lia. cbn [negb andb] in He.
  destruct He as (Hm' & _ & _ & Hsu & _). rewrite Ho in Hm', Hsu.
  rewrite Hm', Hsu, lookup_insert_eq, lookup_delete_eq. split_and!; try done.
  apply (inv_members _ Hh'). rewrite Hm', lookup_insert_eq. by eexists.
Qed.

(** C32: a death reported at the largest dominant cannot be refuted: our
    objection wraps around to dominant 0, which no gossiper that accepts only
    newer reports ever takes. *)
Theorem death_irrefutable (d : node_state) (g : gossiper) :
  inv g -> State_ d = STATE_DEAD -> Name_ d = self_name g -> is_leaving_ g = false ->
  self_name g ∈ nodes_ g -> known_dominant g (Name_ d) <= Dominant_ d ->
  Dominant_ d = 2 ^ 64 - 1 -> dominant_ g <> 2 ^ 64 - 1 ->
  exists g1, deadNode d g = Ok (tt, g1) /\ dominant_ g1 = 0 /\
    forall h need_bc, 0 <= known_dominant h (self_name g) ->
      aliveNode (self_state (conf_ g) (dominant_ g1)) need_bc h = Ok (tt, h).
Proof.
  intros Hg Hd Hs Hl Hin Hge Hmax Hne. pose proof Hg as [Hg0 _].
  destruct (deadNode_spec d g Hg Hd) as (g1 & E & _ & _ & He).
  exists g1. unfold dead_effect in He. unfold known_dominant in Hge. rewrite Hs in He, Hge.
  apply (inv_members _ Hg0) in Hin as (n & Hn & Hnd). rewrite Hn in He, Hge.
  rewrite (proj2 (Z.ltb_ge _ _)) in He by done.
  rewrite bool_decide_eq_false_2, bool_decide_eq_true_2, Hl in He by done. cbn [andb negb] in He.
  destruct He as (_ & _ & _ & _ & _ & Hdom & _).
  rewrite Hmax, objection_wraps in Hdom by (done || apply Hg0).
  split_and!; [done..|]. intros h need_bc Hk. rewrite Hdom. unfold aliveNode. step.
  destruct (is_leaving_ h && _); [done|].
  change (Name_ (self_state (conf_ g) 0)) with (self_name g). unfold known_dominant in Hk.
  step (eq_refl : getNodeState (self_name g) h = Ok (node_map_ h !! self_name g, h)).
  cbn [Dominant_ self_state].
  rewrite (proj2 (Z.leb_le _ _)); [done|]. by destruct (node_map_ h !! self_name g).
Qed.

(** A dead node's record is not brought up to date. A newer dead report
    about a node already known dead leaves the old dominant in place, so that an
    alive report from before that death brings the node back. *)
Theorem dead_report_lost (n d a : node_state) (need_bc : bool) (g : gossiper) :
  inv g -> node_map_ g !! Name_ d = Some n -> State_ n = STATE_DEAD -> State_ d = STATE_DEAD ->
  State_ a = STATE_ALIVE -> Name_ a = Name_ d -> Name_ d <> self_name g ->
  in_range 64 (Dominant_ a) -> Dominant_ n < Dominant_ a <= Dominant_ d ->
  exists g1 g2, deadNode d g = Ok (tt, g1) /\ node_map_ g1 = node_map_ g /\
    aliveNode a need_bc g1 = Ok (tt, g2) /\
    node_map_ g2 !! Name_ d = Some (set_Timestamp 0 a) /\ Name_ d ∈ nodes_ g2.
Proof.
  intros Hg Hn Hnd Hd Ha Hna Hne Hr [Hlt Hle].
  destruct (deadNode_spec d g Hg Hd) as (g1 & E & Hg1 & Hev & He). unfold dead_effect in He.
  rewrite Hn in He. rewrite (proj2 (Z.ltb_ge _ _)) in He by lia.
  rewrite bool_decide_eq_true_2 in He by done. destruct He as (_ & _ & Hm & _).
  destruct (aliveNode_spec a need_bc g1 Hg1 Ha Hr) as (g2 & E2 & [Hg2 _] & _ & He).
  unfold alive_accepts, known_dominant in He. rewrite Hna, Hm, Hn in He.
  assert (self_name g1 = self_name g) as Hsn by (unfold self_name; by rewrite (ev_conf _ _ Hev)).
  rewrite Hsn, (bool_decide_eq_false_2 (Name_ d = _)), andb_false_r in He by done.
  rewrite (proj2 (Z.ltb_lt _ _)) in He by done. destruct He as (Hm2 & _).
  rewrite Hna in Hm2. exists g1, g2. split_and!; [done..| |].
  - by rewrite Hm2, lookup_insert_eq.
  - apply (inv_members _ Hg2). rewrite Hm2, lookup_insert_eq. eexists. split; [done|].
    cbn. by rewrite Ha.
Qed.

(** C31: a node that joins and dies leaves the count one too low: its death is
    subtracted twice, once before anything is known about it and once with its
    removal from the list, whose members are back to what they were. *)
Theorem death_counted_twice (a d : node_state) (need_bc : bool) (g : gossiper) :
  inv g -> State_ a = STATE_ALIVE -> in_range 64 (Dominant_ a) -> alive_accepts g a = true ->
  Name_ a ∉ nodes_ g -> Name_ a <> self_name g -> State_ d = STATE_DEAD -> Name_ d = Name_ a ->
  Dominant_ a <= Dominant_ d ->
  exists g1 g2, aliveNode a need_bc g = Ok (tt, g1) /\ deadNode d g1 = Ok (tt, g2) /\
    nodes_ g2 ≡ₚ nodes_ g /\ node_num_ g2 = u32 (node_num_ g - 1).
Proof.
  intros Hg Ha Hr Hacc Hk Hne Hd Hn Hle.
  destruct (aliveNode_spec a need_bc g Hg Ha Hr) as (g1 & E1 & Hg1 & Hev & He).
  rewrite Hacc in He. unfold alive_effect in He. rewrite bool_decide_eq_true_2 in He by done.
  destruct He as (Hm & Hns & Hnum & _).
  destruct (deadNode_spec d g1 Hg1 Hd) as (g2 & E2 & _ & _ & He). unfold dead_effect in He.
  rewrite Hn, Hm, lookup_insert_eq in He. cbn [Dominant_ set_Timestamp State_] in He.
  rewrite (proj2 (Z.ltb_ge _ _)) in He by done. rewrite bool_decide_eq_false_2 in He by (by rewrite Ha).
  assert (self_name g1 = self_name g) as Hsn by (unfold self_name; by rewrite (ev_conf _ _ Hev)).
  rewrite Hsn, (bool_decide_eq_false_2 (Name_ a = _)) in He by done.
  destruct He as (_ & _ & _ & Hp & Hnum2 & _).
  exists g1, g2. split_and!; try done.
  - apply (Permutation_cons_inv (a := Name_ a)). rewrite Hp, Hns. by rewrite Permutation_app_comm.
  - rewrite Hnum2, Hnum. apply wrap_up_down.
Qed.

(** ** Alive reports in any order *)

(** What the table becomes, report by report. *)
Definition absorb (m : gmap string node_state) (a : node_state) : gmap string node_state :=
  if (match m !! Name_ a with Some n => Dominant_ n | None => 0 end) <? Dominant_ a
  then <[Name_ a := set_Timestamp 0 a]> m else m.

(** Reports of one node at one dominant say the same. *)
Definition agreeing (l : list node_state) : Prop :=
  forall a b, a ∈ l -> b ∈ l -> Name_ a = Name_ b -> Dominant_ a = Dominant_ b ->
  set_Timestamp 0 a = set_Timestamp 0 b.

Lemma absorb_comm m a b :
  (Name_ a = Name_ b -> Dominant_ a = Dominant_ b -> set_Timestamp 0 a = set_Timestamp 0 b) ->
  absorb (absorb m a) b = absorb (absorb m b) a.
Proof.
  intros Hab. unfold absorb. destruct (decide (Name_ a = Name_ b)) as [E|Hne].
  - rewrite E in *. set (d := match m !! Name_ b with Some n => Dominant_ n | None => 0 end).
    assert (forall a' b', Name_ b' = Name_ a' ->
      (match (<[Name_ a' := set_Timestamp 0 a']> m) !! Name_ b' with
       | Some n => Dominant_ n | None => 0 end) = Dominant_ a') as Hl.
    { intros a' b' ->. by rewrite lookup_insert_eq. }
    specialize (Hl a b (eq_sym E)) as Hla. rewrite E in Hla. specialize (Hl b b eq_refl) as Hlb.
    destruct (Z.ltb_spec d (Dominant_ a)), (Z.ltb_spec d (Dominant_ b)); fold d; rewrite ?Hla, ?Hlb;
      repeat match goal with |- context [?x <? ?y] => destruct (Z.ltb_spec x y) end;
      rewrite ?insert_insert_eq; try done; try lia.
    rewrite Hab by (done || lia). done.
  - assert (forall a' b', Name_ a' <> Name_ b' ->
      (<[Name_ a' := set_Timestamp 0 a']> m) !! Name_ b' = m !! Name_ b') as Hl
      by (intros; by apply lookup_insert_ne).
    set (da := match m !! Name_ a with Some n => Dominant_ n | None => 0 end).
    set (db := match m !! Name_ b with Some n => Dominant_ n | None => 0 end).
    destruct (da <? Dominant_ a) eqn:Ea, (db <? Dominant_ b) eqn:Eb;
      rewrite ?Hl by done; fold da db; rewrite ?Ea, ?Eb; try done.
    by apply insert_insert_ne.
Qed.

Lemma absorb_perm l l' m : l ≡ₚ l' -> agreeing l -> foldl absorb m l = foldl absorb m l'.
Proof.
  intros Hl. revert m. induction Hl as [|x l l' Hl IH|x y l|l1 l2 l3 H12 IH1 H23 IH2];
    intros m Hag; cbn; try done.
  - apply IH. intros a b Ha Hb. apply Hag; by right.
  - f_equal. apply absorb_comm. intros. apply Hag; set_solver.
  - rewrite IH1 by done. apply IH2. intros a b. rewrite <- H12. apply Hag.
Qed.

Lemma aliveNodes_run l need_bc g : inv g -> is_leaving_ g = false ->
  Forall (fun a => State_ a = STATE_ALIVE /\ in_range 64 (Dominant_ a)) l ->
  exists g', for_each l (fun a => aliveNode a need_bc) g = Ok (tt, g') /\ inv g' /\
    node_map_ g' = foldl absorb (node_map_ g) l.
Proof.
  intros Hg Hlv Hl. revert g Hg Hlv. induction Hl as [|a l [Ha Hr] Hl IH]; intros g Hg Hlv.
  { by exists g. }
  destruct (aliveNode_spec a need_bc g Hg Ha Hr) as (g1 & E & Hg1 & Hev & He).
  destruct (IH g1 Hg1) as (g' & E' & Hg' & Hm'); [by rewrite (ev_leaving _ _ Hev)|].
  exists g'. split_and!; [|done|].
  - cbn [for_each]. by rewrite (bind_Ok _ _ _ _ _ E).
  - rewrite Hm'. cbn. f_equal. unfold alive_accepts, known_dominant in He. rewrite Hlv in He.
    cbn [andb negb] in He. unfold absorb.
    destruct (_ <? _); [by destruct He|by rewrite He].
Qed.

(** C17: the order in which agreeing alive reports arrive does not matter. Two
    gossipers with the same table, neither of them leaving, that receive the same
    alive reports in different orders end with the same table and the same members,
    provided the reports agree ([agreeing]): any two of them about the same node at
    the same dominant are equal. (Of two that differ at one dominant the first to
    arrive wins.) *)
Theorem alive_reports_converge (l l' : list node_state) (need_bc : bool) (g h : gossiper) :
  inv g -> inv h -> is_leaving_ g = false -> is_leaving_ h = false ->
  node_map_ h = node_map_ g -> l ≡ₚ l' -> agreeing l ->
  Forall (fun a => State_ a = STATE_ALIVE /\ in_range 64 (Dominant_ a)) l ->
  exists g' h', for_each l (fun a => aliveNode a need_bc) g = Ok (tt, g') /\
    for_each l' (fun a => aliveNode a need_bc) h = Ok (tt, h') /\
    node_map_ h' = node_map_ g' /\ nodes_ h' ≡ₚ nodes_ g'.
Proof.
  intros Hg Hh Hlg Hlh Hm Hl Hag Hall.
  destruct (aliveNodes_run l need_bc g Hg Hlg Hall) as (g' & Eg & [Hg' _] & Hmg).
  destruct (aliveNodes_run l' need_bc h Hh Hlh) as (h' & Eh & [Hh' _] & Hmh);
    [by rewrite <- Hl|].
  exists g', h'. rewrite Hmg, Hmh, Hm. split_and!; [done..| |].
  - symmetry. by apply absorb_perm.
  - apply NoDup_Permutation; [apply Hh'|apply Hg'|]. intros k.
    rewrite (inv_members _ Hh'), (inv_members _ Hg'), Hmg, Hmh, Hm.
    by rewrite (absorb_perm l l').
Qed.

(** ** What may go wrong *)

Lemma suspectNode_crash lives s g f : inv g -> known_state (State_ s) -> State_ s <> STATE_DEAD ->
  suspectNode lives s g = Crash f ->
  (f = BadFloatCast /\ node_num_ g = 0 /\ suspicions_ g !! Name_ s = None) \/
  (f = LifetimeEnded /\ exists sus, suspicions_ g !! Name_ s = Some sus /\
    need_confirm_ sus <= u32 (Z.of_nat (size ({[From_ s]} ∪ who_confirmed_ sus))) /\
    deref_node (convict_ sus) = Crash LifetimeEnded).
Proof.
  intros Hg Hks Hnd E. destruct (node_map_ g !! Name_ s) as [n|] eqn:Ek.
  2: { revert E. unfold suspectNode, getNodeState. run. by rewrite Ek. }
  destruct (Z.ltb_spec (Dominant_ s) (Dominant_ n)) as [Hlt|Hge].
  { revert E. unfold suspectNode, getNodeState. run. rewrite Ek.
    by rewrite (proj2 (Z.ltb_lt _ _)) by done. }
  destruct (suspicions_ g !! Name_ s) as [sus|] eqn:Es.
  - right. destruct (suspect_confirm_run lives s n sus g Hg Es Ek Hge) as (sus' & p & E' & Hcv & _ & _ & Hg1).
    rewrite E' in E. destruct (Z.leb_spec (need_confirm_ sus)
      (u32 (Z.of_nat (size ({[From_ s]} ∪ who_confirmed_ sus))))) as [Hn|]; last first.
    { destruct (broadcast_run (copy s) _ (inv0_queue_ok _ (proj1 Hg1)) (inv_num _ (proj1 Hg1)))
        as (? & Eb & _). by rewrite Eb in E. }
    unfold convict, lift in E. run in E. rewrite Hcv in E.
    destruct (deref_node (convict_ sus)) as [d|f'] eqn:Er.
    + destruct (deadNode_spec (set_State STATE_DEAD d) _ Hg1) as (? & Ed & _); [done|].
      by rewrite Ed in E.
    + pose proof (deref_node_fault _ _ Er) as ->. injection E as <-. eauto.
  - left. destruct (decide (State_ n = STATE_ALIVE)) as [Ha|Ha]; last first.
    { revert E. unfold suspectNode, getNodeState, getSuspicion. run. rewrite Ek.
      rewrite (proj2 (Z.ltb_ge _ _)) by done. rewrite Es.
      by rewrite bool_decide_eq_true_2 by done. }
    destruct (suspect_start_run lives s n g Hg Ek Hge Ha Es) as (q & d & _ & _ & _ & _ & E').
    cbv zeta in E'. rewrite E' in E. unfold suspicion_new, need_confirm in E.
    destruct (node_num_ g =? 0) eqn:En; [|done]. injection E as <-. by apply Z.eqb_eq in En.
Qed.

(** C23: merging a report fails in two ways only, both of a suspicion. From any
    state that satisfies the invariant, a report of any state, with any dominant a
    message can carry, is merged without fault and keeps the invariant, unless it
    is a first suspicion that arrives while the node count is zero (the number of
    confirmations needed is then the ceiling of minus infinity), or the last
    confirmation a suspicion needs whose captured state is gone and cannot be
    read. (Reading the report out of the message comes before; [convert_fault] is
    what can fail there.) *)
Theorem merge_faults (need_bc : bool) (n : node_state) (g : gossiper) :
  inv g -> in_range 64 (Dominant_ n) ->
  (exists g', mergeReport need_bc n g = Ok (tt, g') /\ inv g') \/
  (mergeReport need_bc n g = Crash BadFloatCast /\ State_ n = STATE_SUSPECT /\
    node_num_ g = 0 /\ suspicions_ g !! Name_ n = None) \/
  (mergeReport need_bc n g = Crash LifetimeEnded /\ State_ n = STATE_SUSPECT /\
    exists sus, suspicions_ g !! Name_ n = Some sus /\
      need_confirm_ sus <= u32 (Z.of_nat (size ({[From_ n]} ∪ who_confirmed_ sus))) /\
      deref_node (convict_ sus) = Crash LifetimeEnded).
Proof.
  intros Hg Hd. pose proof (mergeReport_safe need_bc n Hd g Hg) as Hs. unfold wpx in Hs.
  destruct (mergeReport need_bc n g) as [[[] g']|f] eqn:E.
  { left. exists g'. by destruct Hs. }
  right. clear Hs. unfold mergeReport in E. destruct (State_ n) eqn:Es.
  - destruct (aliveNode_spec n need_bc g Hg Es Hd) as (g' & E' & _). by rewrite E in E'.
  - destruct (suspectNode_crash false n g f) as [(-> & ? & ?)|(-> & ?)];
      [done|rewrite Es; by right; left|by rewrite Es|done|by left|by right].
  - destruct (deadNode_spec n g Hg Es) as (g' & E' & _). by rewrite E in E'.
  - done.
Qed.
End reports.

(** ** Witnesses: the theorems at concrete clusters *)

Definition b_dead : node_state := report "b:2" "b" "2" 6 STATE_DEAD "c:3".
Definition b_suspect (from : string) : node_state := report "b:2" "b" "2" 5 STATE_SUSPECT from.
Definition b_record : node_state := report "b:2" "b" "2" 5 STATE_ALIVE "".
Definition d_alive : node_state := report "d:4" "d" "4" 3 STATE_ALIVE "".

Lemma aliveNode_report_witness :
  exists g', aliveNode d_alive true example_cluster = Ok (tt, g') /\
    if alive_accepts example_cluster d_alive
    then alive_effect example_cluster g' d_alive true else g' = example_cluster.
Proof. apply (aliveNode_report d_alive true); [apply example_cluster_inv|done|done]. Defined.

Lemma deadNode_report_witness :
  exists g', deadNode b_dead example_cluster = Ok (tt, g') /\
    dead_effect example_cluster g' b_dead.
Proof. apply (deadNode_report b_dead); [apply example_cluster_inv|done]. Defined.

Lemma suspectNode_start_witness :
  exists g', suspectNode true (b_suspect "c:3") example_cluster = Ok (tt, g') /\
    suspicions_ g' !! "b:2" = Some (mkSuspicion 2 0 ∅ (mkRef (b_suspect "c:3") true) true).
Proof.
  destruct (suspectNode_start true (b_suspect "c:3") b_record example_cluster)
    as (g' & E & _ & _ & Hs & _);
    [apply example_cluster_inv|evaluate..|].
  exists g'. split; [exact E|]. rewrite Hs. evaluate.
Defined.

(** [b:2] is suspected, by [c:3]; then confirmed once, by [c:3]. *)
Definition example_suspected : gossiper :=
  state_after (suspectNode true (b_suspect "c:3")) example_cluster.
Definition example_confirmed : gossiper :=
  state_after (suspectNode true (b_suspect "c:3")) example_suspected.

Lemma b_suspect_safe from : safe report_fault (suspectNode true (b_suspect from)).
Proof. apply suspectNode_safe; [by right; left|done]. Qed.

Lemma example_suspected_inv : inv example_suspected.
Proof. apply (state_after_inv report_fault); [apply b_suspect_safe|apply example_cluster_inv]. Qed.

Lemma example_confirmed_inv : inv example_confirmed.
Proof. apply (state_after_inv report_fault); [apply b_suspect_safe|apply example_suspected_inv]. Qed.

Definition b_suspicion : suspicion := mkSuspicion 2 0 ∅ (mkRef (b_suspect "c:3") true) true.
Definition b_confirmed : suspicion := mkSuspicion 2 1 {["c:3"]} (mkRef (b_suspect "c:3") true) true.
Definition b_suspect_record : node_state := b_suspect "c:3".

Lemma suspicion_timer_convicts_witness :
  exists g', on_suspicion_timer "b:2" example_suspected = Ok (tt, g') /\
    convicted example_suspected g' "b:2" b_suspect_record.
Proof.
  apply (suspicion_timer_convicts example_suspected "b:2" b_suspect_record b_suspicion);
    [apply example_suspected_inv|evaluate..].
Defined.

Lemma suspectNode_confirm_witness :
  exists g', suspectNode true (b_suspect "d:4") example_confirmed = Ok (tt, g') /\
    convicted example_confirmed g' "b:2" b_suspect_record.
Proof.
  pose proof (suspectNode_confirm true (b_suspect "d:4") b_suspect_record b_confirmed
    example_confirmed example_confirmed_inv ltac:(evaluate) ltac:(evaluate)) as Hc. cbv zeta in Hc.
  rewrite (eq_refl : (Dominant_ (b_suspect "d:4") <? Dominant_ b_suspect_record) = false) in Hc.
  assert ((need_confirm_ b_confirmed <=? u32 (Z.of_nat (size
    ({[From_ (b_suspect "d:4")]} ∪ who_confirmed_ b_confirmed)))) = true) as He by by vm_compute.
  rewrite He in Hc. destruct Hc as (_ & Hc & _). apply Hc; evaluate.
Defined.

Lemma merge_faults_witness :
  (exists g', mergeReport true (b_suspect "c:3") example_cluster = Ok (tt, g') /\ inv g') \/
  (mergeReport true (b_suspect "c:3") example_cluster = Crash BadFloatCast /\
    State_ (b_suspect "c:3") = STATE_SUSPECT /\ node_num_ example_cluster = 0 /\
    suspicions_ example_cluster !! "b:2" = None) \/
  (mergeReport true (b_suspect "c:3") example_cluster = Crash LifetimeEnded /\
    State_ (b_suspect "c:3") = STATE_SUSPECT /\
    exists sus, suspicions_ example_cluster !! "b:2" = Some sus /\
      need_confirm_ sus <= u32 (Z.of_nat (size ({["c:3"]} ∪ who_confirmed_ sus))) /\
      deref_node (convict_ sus) = Crash LifetimeEnded).
Proof. apply (merge_faults true (b_suspect "c:3")); [apply example_cluster_inv|done]. Defined.

Definition b_refutation : node_state := report "b:2" "b" "2" 6 STATE_ALIVE "".

Lemma refutation_stands_witness :
  exists g', aliveNode b_refutation true example_suspected = Ok (tt, g') /\
    posted_ g' = [mkRef (b_suspect "c:3") true] /\
    run_posted g' = Ok (tt, set_posted_ [] g').
Proof.
  apply (refutation_stands b_refutation b_suspicion true example_suspected);
    [apply example_suspected_inv|evaluate..].
Defined.

Definition a_dead (d : Z) : node_state := report "a:1" "a" "1" d STATE_DEAD "b:2".

Lemma death_refuted_witness :
  let o := self_state example_conf (objection 1 9) in
  Dominant_ o = 10 /\
  forall h need_bc, inv h -> self_name h <> "a:1" -> known_dominant h "a:1" <= 9 ->
    exists h', aliveNode o need_bc h = Ok (tt, h') /\
      node_map_ h' !! "a:1" = Some (set_Timestamp 0 o) /\ "a:1" ∈ nodes_ h' /\
      suspicions_ h' !! "a:1" = None.
Proof.
  destruct (death_refuted (a_dead 9) example_cluster) as (g1 & _ & _ & _ & _ & _ & Hh);
    [apply example_cluster_inv|evaluate..|].
  split; [by vm_compute|]. exact Hh.
Defined.

Lemma death_irrefutable_witness :
  exists g1, deadNode (a_dead (2 ^ 64 - 1)) example_cluster = Ok (tt, g1) /\ dominant_ g1 = 0.
Proof.
  destruct (death_irrefutable (a_dead (2 ^ 64 - 1)) example_cluster) as (g1 & E & Hd & _);
    [apply example_cluster_inv|evaluate..|].
  exists g1. split; [exact E|exact Hd].
Defined.

(** [b:2] died at dominant 6. *)
Definition example_b_dead : gossiper := state_after (deadNode b_dead) example_cluster.

Lemma example_b_dead_inv : inv example_b_dead.
Proof. apply (state_after_inv no_fault); [by apply deadNode_safe|apply example_cluster_inv]. Qed.

Lemma dead_report_lost_witness :
  let d := report "b:2" "b" "2" 9 STATE_DEAD "c:3" in
  let a := report "b:2" "b" "2" 8 STATE_ALIVE "" in
  exists g1 g2, deadNode d example_b_dead = Ok (tt, g1) /\
    node_map_ g1 = node_map_ example_b_dead /\ aliveNode a true g1 = Ok (tt, g2) /\
    node_map_ g2 !! "b:2" = Some a /\ "b:2" ∈ nodes_ g2.
Proof.
  apply (dead_report_lost b_dead (report "b:2" "b" "2" 9 STATE_DEAD "c:3")
    (report "b:2" "b" "2" 8 STATE_ALIVE "") true example_b_dead);
    [apply example_b_dead_inv|evaluate..|split; evaluate|split; evaluate].
Defined.

Lemma death_counted_twice_witness :
  exists g1 g2, aliveNode d_alive true example_cluster = Ok (tt, g1) /\
    deadNode (report "d:4" "d" "4" 3 STATE_DEAD "b:2") g1 = Ok (tt, g2) /\
    nodes_ g2 ≡ₚ nodes_ example_cluster /\ node_num_ example_cluster = 3 /\ node_num_ g2 = 2.
Proof.
  destruct (death_counted_twice d_alive (report "d:4" "d" "4" 3 STATE_DEAD "b:2") true
    example_cluster) as (g1 & g2 & E1 & E2 & Hp & Hn);
    [apply example_cluster_inv|evaluate|split; evaluate|evaluate..|].
  exists g1, g2. split; [exact E1|]. split; [exact E2|]. split; [exact Hp|].
  split; [evaluate|]. rewrite Hn. evaluate.
Defined.

Lemma alive_reports_converge_witness :
  let l := [report "d:4" "d" "4" 3 STATE_ALIVE ""; report "b:2" "b" "2" 7 STATE_ALIVE "";
    report "d:4" "d" "4" 5 STATE_ALIVE ""] in
  exists g' h', for_each l (fun a => aliveNode a true) example_cluster = Ok (tt, g') /\
    for_each (rev l) (fun a => aliveNode a true) example_cluster = Ok (tt, h') /\
    node_map_ h' = node_map_ g' /\ nodes_ h' ≡ₚ nodes_ g'.
Proof.
  set (l := [_; _; _]).
  apply (alive_reports_converge l (rev l) true example_cluster example_cluster);
    [apply example_cluster_inv..|by vm_compute|by vm_compute|done| | |].
  - apply Permutation_rev.
  - intros a b Ha Hb. subst l. set_solver.
  - subst l. repeat constructor; done.
Defined.

(** ** Two ways the code fails *)

(** The node count does reach zero. A gossiper joins, learns of one other
    node, and that node dies: the double subtraction leaves a count of zero with
    one member, ourselves, and the next suspicion of us is undefined behaviour. *)
Theorem count_reaches_zero :
  let b_dies := report "b:2" "b" "2" 5 STATE_DEAD "" in
  let a_suspected := report "a:1" "a" "1" 1 STATE_SUSPECT "c:3" in
  let g := state_after (Join_self ;; mergeReport true b_record ;; mergeReport true b_dies)
             example_start in
  node_num_ g = 0 /\ nodes_ g = ["a:1"] /\
  mergeReport true a_suspected g = Crash BadFloatCast.
Proof. by vm_compute. Qed.

(** Memory in which a dead object's storage has been reused: its dominant reads
    as the largest one. *)
Program Definition reused_memory : Residue :=
  {| stale_node n := Some (set_Dominant (2 ^ 64 - 1) n); stale_call := true; indeterminate := 0 |}.
Next Obligation. intros n n' [= <-] _. split; simpl; lia. Qed.
Next Obligation. done. Qed.

(** A conviction reads an object that is gone. The suspicion made by
    [mergeStates] refers to a local of its loop. The suspected node refutes it in
    time, but the cancelled timer's handler runs all the same, and if the
    local's storage has been reused it can declare the refuted node dead at a
    dominant nobody reported, after which no refutation is ever accepted. *)
Theorem stale_conviction_kills :
  let memory := reused_memory in
  let suspected := report "b:2" "b" "2" 5 STATE_SUSPECT "c:3" in
  let refuted := report "b:2" "b" "2" 6 STATE_ALIVE "" in
  let g := state_after (mergeReport (H0 := memory) true suspected ;;
                        mergeReport (H0 := memory) true refuted) example_cluster in
  "b:2" ∈ nodes_ g /\
  exists g', (run_posted (H0 := memory) g) = Ok (tt, g') /\ "b:2" ∉ nodes_ g' /\
    known_dominant g' "b:2" = 2 ^ 64 - 1.
Proof.
  cbv zeta. split; [by apply (bool_decide_unpack _); vm_compute|].
  eexists. split; [by vm_compute|]. split; [by apply (bool_decide_unpack _); vm_compute|].
  by vm_compute.
Qed.
