(* ===== verification/Protocol.v ===== *)
(** * src/gossiper.hpp: probing, gossiping, the packet and session handlers

    What the gossiper puts into packets and does with those it receives. A buffer
    the code fills is threaded as the list of its bytes; the UDP server answers in
    the buffer it received into, so [handlePacket] works on one buffer. The
    FlatBuffers builder and readers are the [MessageCodec] interface. *)
From Stdlib Require Import Ascii.
From S2P Require Import Prelude Utils Bytes Header Node Broadcast Suspicion Messages Gossiper.
Local Open Scope Z_scope.

(** [node_map_] is iterated in an order the standard leaves open. *)
Class TableOrder := {
  iteration : gmap string node_state -> list (string * node_state);
  iteration_perm m : iteration m ≡ₚ map_to_list m
}.
#[export] Program Instance by_key : TableOrder := {| iteration m := map_to_list m |}.
Next Obligation. done. Qed.

(** What reading freed heap memory yields, given its last contents. *)
Class FreedHeap := {
  freed : list Z -> list Z;
  freed_length m : length (freed m) = length m
}.
Class IntactHeap (F : FreedHeap) : Prop := intact_heap m : freed m = m.
Program Definition intact_freed : FreedHeap := {| freed m := m |}.
Next Obligation. done. Qed.
#[export] Instance intact_freed_intact : IntactHeap intact_freed.
Proof. done. Qed.

(** The bytes of stack left for the arrays [buff] and [resp] of [syncState], whose
    lengths the code computes at run time. *)
Class StackRoom := stack_room : Z.

(** Make room for an array, [used] bytes being taken by the others. *)
Definition stack_array {S} `{StackRoom} (used size : Z) : M S unit :=
  if used + size <=? stack_room then mret tt else crash StackOverflow.

Lemma stack_array_run {S} `{StackRoom} used size (s : S) : used + size <= stack_room ->
  stack_array used size s = Ok (tt, s).
Proof. intros Hr. unfold stack_array. by rewrite (proj2 (Z.leb_le _ _)). Qed.

(** A started probe: what [probeNode] hands to the UDP client. *)
Record probe_op := mkProbe {
  p_seq : Z;
  p_host : string;
  p_port : Z;               (* short *)
  p_buff : list Z;          (* the send buffer *)
  p_size : Z;               (* the number of bytes to send, -1: none *)
  p_timeout : Z;
  p_node : node_state       (* the copy bound in the receive-timeout callback *)
}.

(** The routines [alive] starts. *)
Inductive routine := ProbeRoutine | GossipRoutine.

Section protocol.
Context (host : endian) `{IterationOrder} `{Residue} `{TableOrder} `{FreedHeap} `{StackRoom}
  `{MessageCodec}.

Definition len (l : list Z) : Z := Z.of_nat (length l).

(** ** Sending *)

(** The loop of [appendGossipMsg]: at most [n] peeks, each message converted
    as soon as it is peeked. *)
Fixpoint peek_states (n : nat) : M gossiper (list NodeState) :=
  match n with
  | O => mret []
  | S n =>
    node ← on_queue Peek;
    match node with
    | None => mret []
    | Some node =>
      ns ← lift (wire_state node);
      ns_vec ← peek_states n;
      mret (ns :: ns_vec)
    end
  end.

(** Writes at [buff + pos]; the number of bytes appended and the buffer. *)
Definition appendGossipMsg (buff : list Z) (pos buff_size : Z) : M gossiper (Z * list Z) :=
  g ← get;
  ns_vec ← peek_states (Z.to_nat (MAX_APPENDED_MSG_ g));
  let default_mgs_num := MAX_APPENDED_MSG_ g - Z.of_nat (length ns_vec) in
  if default_mgs_num =? MAX_APPENDED_MSG_ g then mret (0, buff)
  else
    let body := encode_NodeStates (Some ns_vec) in
    if buff_size <? len body then
      on_queue ResetPeek ;;
      shrinkMaxAppendedMsg ;;
      mret (0, buff)
    else
      on_queue ApplyPeek ;;
      buff ← lift (memcpy buff pos body);
      mret (len body, buff).

Definition generatePing (seqNo : Z) (send_buff : list Z) (send_buff_size : Z) :
    M gossiper (Z * list Z) :=
  g ← get;
  let buff := encode_Ping (mkPing seqNo (Some (conf_Name (conf_ g)))) in
  let size := len buff in
  send_buff ← lift (EncodeHeader host send_buff (mkHeader TYPE_PING (u32 size)));
  if send_buff_size <? HEADER_SIZE + size then mret (-1, send_buff)
  else
    send_buff ← lift (memcpy send_buff HEADER_SIZE buff);
    '(appended, send_buff) ← appendGossipMsg send_buff (HEADER_SIZE + size)
       (send_buff_size - size - HEADER_SIZE);
    mret (HEADER_SIZE + size + appended, send_buff).

(** [send_buff]: the uninitialised stack buffer of [mtu] bytes. *)
Definition mtu : Z := 1460.

Definition probeNode (send_buff : list Z) (n : node_state) : M gossiper probe_op :=
  p ← lift (stoi (Port_ n));
  let port := i16 p in
  seq_num ← nextSeqNum;
  '(size, send_buff) ← generatePing seq_num send_buff mtu;
  g ← get;
  mret (mkProbe seq_num (IP_ n) port send_buff size (Probe_timeout_ (conf_ g)) (copy n)).

Definition probe (send_buff : list Z) : M gossiper (option probe_op) :=
  candi ← roundrobinNode 1;
  match candi with
  | [] => crash OutOfBounds
  | k :: _ =>
    n ← getNodeState k;
    match n with
    | None => crash NullDeref
    | Some n =>
      g ← get;
      if bool_decide (State_ n = STATE_ALIVE) && negb (bool_decide (Name_ n = conf_Name (conf_ g)))
      then p ← probeNode send_buff n; mret (Some p)
      else mret None
    end
  end.

(** The receive-timeout callback of a probe. *)
Definition on_probe_timeout (p : probe_op) : M gossiper unit := suspectNode true (p_node p).

(** The receive callback: [resp] is the client's buffer, [size] the number of
    bytes received. A wrong sequence number is logged and otherwise ignored. *)
Definition on_pong (seq_num : Z) (resp : list Z) (size : Z) : M gossiper unit :=
  h ← lift (DecodeHeader host resp);
  if negb (Type_ h =? TYPE_PONG) then mret tt
  else
    pong ← lift (decode_Pong resp HEADER_SIZE);
    if u32 (HEADER_SIZE + Body_length_ h) <? size then
      let alert := HEADER_SIZE + Body_length_ h in
      nm ← lift (NodeState_name resp alert);
      st ← lift (NodeState_state resp alert);
      g ← get;
      when (bool_decide (nm = conf_Name (conf_ g))
            && bool_decide (STATE_of_int8 st = STATE_DEAD))
        (d ← lift (NodeState_dominant resp alert); fuckyou d)
    else mret tt.

(** ** Receiving datagrams *)

Definition appendDeadAlert (n : node_state) (buff : list Z) (pos buff_size : Z) :
    outcome (Z * list Z) :=
  ns ← wire_state n;
  let body := encode_NodeState ns in
  if buff_size <? len body then mret (0, buff)
  else buff ← memcpy buff pos body; mret (len body, buff).

(** The second half of the ping case of [handlePacket]: the pong, and the alert
    when the sender, whose record was [ns], is dead here. *)
Definition answerPing (ns : option node_state) (seqNo : Z) (data : list Z) (resp_size : Z) :
    outcome (Z * list Z) :=
  let ack := encode_Pong (mkPong seqNo) in
  if resp_size <? HEADER_SIZE + len ack then Ok (-1, data)
  else
    data ← EncodeHeader host data (mkHeader TYPE_PONG (u32 (len ack)));
    data ← memcpy data HEADER_SIZE ack;
    let rst := len ack + HEADER_SIZE in
    match ns with
    | Some n =>
      if bool_decide (State_ n = STATE_DEAD) then
        '(append_size, data) ← appendDeadAlert n data rst (resp_size - rst);
        mret (rst + append_size, data)
      else mret (rst, data)
    | None => mret (rst, data)
    end.

(** [data]: the buffer received into and answered from; [size] bytes were
    received. The result is the length of the answer and the buffer. *)
Definition handlePacket (data : list Z) (size resp_size : Z) : M gossiper (Z * list Z) :=
  h ← lift (DecodeHeader host data);
  if Type_ h =? TYPE_PING then
    from ← lift (Ping_from data HEADER_SIZE);
    from ← lift (deref_opt from);
    ns ← getNodeState from;
    when (u32 (Body_length_ h + HEADER_SIZE) <? size)
      (gossipMsg ← lift (decode_NodeStates data (HEADER_SIZE + Body_length_ h));
       mergeStates gossipMsg true) ;;
    seqNo ← lift (Ping_seqNo data HEADER_SIZE);
    lift (answerPing ns seqNo data resp_size)
  else mret (0, data).

(** ** The state exchange over TCP *)

Definition encodeLocalState : M gossiper (list Z) :=
  g ← get;
  ns_vec ← lift (mapM (fun p => wire_state p.2) (iteration (node_map_ g)));
  mret (encode_NodeStates (Some ns_vec)).

Definition handleHeader (buff : list Z) (size : Z) (header : Header) : outcome Header :=
  if negb (size =? HEADER_SIZE) then Ok header else DecodeHeader host buff.

(** The last part of [handleBody]: [body] lies in a builder that is gone. The
    size the caller asked about is compared without the header. *)
Definition respond (type : Z) (body resp_buff : list Z) (resp_size : Z) :
    outcome (Z * list Z) :=
  let result := len body in
  if resp_size <? result then Ok (u64 (2 ^ 64 - 1 + HEADER_SIZE), resp_buff)
  else
    resp_buff ← EncodeHeader host resp_buff (mkHeader type (u32 result));
    resp_buff ← memcpy resp_buff HEADER_SIZE (freed body);
    Ok (u64 (result + HEADER_SIZE), resp_buff).

(** For the other types [result], [body] and [header] are never set. *)
Definition handleBody (type : Z) (buff : list Z) (size : Z) (resp_buff : list Z)
    (resp_size : Z) : M gossiper (Z * list Z) :=
  if type =? TYPE_PING then
    seqNo ← lift (Ping_seqNo buff 0);
    lift (respond TYPE_PONG (encode_Pong (mkPong seqNo)) resp_buff resp_size)
  else if type =? TYPE_SYNCSTATE then
    remote_states ← lift (decode_NodeStates buff 0);
    mergeStates remote_states true ;;
    body ← encodeLocalState;
    lift (respond TYPE_SYNCSTATE body resp_buff resp_size)
  else crash Uninitialised.

(** The blocking client as the gossiper sees it: there is no connection
    ([None]), or the request is written and the peer sends a stream of bytes
    ([None] inside: the write failed); [ReadFull] takes exactly the bytes asked
    for or throws. *)
Definition ReadFull (size : Z) (stream : list Z) : option (list Z * list Z) :=
  if len stream <? size then None
  else Some (take (Z.to_nat size) stream, drop (Z.to_nat size) stream).

Definition peer_stream := option (list Z -> option (list Z)).

(** [syncState] from the client's [Write] on: [buff] is the request. The answer's
    length, which the peer chooses, is that of the second array on the stack. *)
Definition syncRequest (peer : list Z -> option (list Z)) (buff : list Z) : M gossiper bool :=
  match peer buff with
  | None => mret false
  | Some stream =>
    match ReadFull HEADER_SIZE stream with
    | None => mret false
    | Some (hdr, stream) =>
      h ← lift (DecodeHeader host hdr);
      stack_array (len buff) (Body_length_ h) ;;
      match ReadFull (Body_length_ h) stream with
      | None => mret false
      | Some (resp, _) =>
        remote_states ← lift (decode_NodeStates resp 0);
        mergeStates remote_states false ;;
        mret true
      end
    end
  end.

(** [false]: a [system_error] was thrown. *)
Definition syncState (peer : peer_stream) : M gossiper bool :=
  match peer with
  | None => mret false
  | Some peer =>
    body ← encodeLocalState;
    let size := len body in
    stack_array 0 (HEADER_SIZE + size) ;;
    buff ← lift (EncodeHeader host (replicate (Z.to_nat (HEADER_SIZE + size)) 0)
                   (mkHeader TYPE_SYNCSTATE (u32 size)));
    buff ← lift (memcpy buff HEADER_SIZE body);
    syncRequest peer buff
  end.

(** ** Joining *)

(** [alive]: the two tickers and the runner. *)
Definition alive : M gossiper (list (Z * routine)) :=
  g ← get;
  mret [(Probe_interval_ (conf_ g), ProbeRoutine); (Gossip_interval_ (conf_ g), GossipRoutine)].

(** The routines started: none if the peer string is refused. [peer] maps a
    host and a port to what the network does. *)
Definition Join (network : string -> string -> peer_stream) (peer : string) :
    M gossiper (list (Z * routine)) :=
  match Split peer ":" with
  | Some [phost; pport] =>
    Join_self ;;
    g ← get;
    when (negb (bool_decide (phost = conf_Addr (conf_ g)))
          || negb (bool_decide (to_string (conf_Port (conf_ g)) = pport)))
      (_ ← syncState (network phost pport); mret tt) ;;
    alive
  | _ => mret []
  end.

(** The line it prints. *)
Definition printNodeState : M gossiper string :=
  g ← get;
  mret (foldl (fun out it => out +:+ it.1 +:+ " ") "node states: " (iteration (node_map_ g)))%string.

(** [gossip] and [indirectPing] have empty bodies. *)
Definition gossip : M gossiper unit := mret tt.
Definition indirectPing : M gossiper unit := mret tt.
End protocol.
