(* ===== verification/Dynamics.v ===== *)
(** * Every handler, and every state the program can reach

    The handlers of Protocol.v keep the membership invariant; the step relation
    interleaves them with the conviction timers and the user's calls, and the
    invariant and the monotonicity of the view hold along every run. *)
From stdpp Require Import relations.
From S2P Require Import Prelude Utils Bytes Header Node Broadcast Suspicion Messages Gossiper.
From S2P Require Import Membership Protocol.
Local Open Scope Z_scope.

Definition any_fault (f : fault) : Prop := True.

Section handlers.
Context (host : endian) `{IterationOrder} `{Residue} `{TableOrder} `{FreedHeap} `{StackRoom}
  `{!MessageCodec} `{!MessageCodecOk _}.

(** ** The appended batch *)

(** The messages the next packet takes from the queue. *)
Definition batch (g : gossiper) : list node_state :=
  let q := bc_queue_ g in
  msg_of <$> take (Nat.min (Z.to_nat (MAX_APPENDED_MSG_ g)) (length (m_ q))) (ring q).

Lemma peek_states_run n g msgs q : peek_n n (bc_queue_ g) = Ok (msgs, q) ->
  peek_states n g = (ws ← mapM wire_state msgs; Ok (ws, set_bc_queue_ q g)).
Proof.
  revert g msgs q. induction n as [|n IH]; intros g msgs q; cbn [peek_n peek_states].
  { intros [= <- <-]. by destruct g. }
  unfold on_queue. run. destruct (Peek (bc_queue_ g)) as [[[m|] q1]|]; [| |done]; last first.
  { by intros [= <- <-]. }
  destruct (peek_n n q1) as [[rest q2]|] eqn:E; [|done]. intros [= <- <-]. cbn.
  destruct (wire_state m) as [w|]; [|done]. cbn.
  rewrite (IH (set_bc_queue_ q1 g) rest q2 E). by destruct (mapM wire_state rest).
Qed.

Lemma peek_n_empty n q : m_ q = [] -> queue_wf q -> quiescent q -> peek_n n q = Ok ([], q).
Proof.
  intros Hm Hwf [Hp0 Hpc]. destruct n as [|n]; [done|]. cbn [peek_n].
  assert (cur_ q = None) as Hc.
  { pose proof (wf_cur _ Hwf) as Hv. rewrite Hm in Hv. destruct (cur_ q); [|done].
    by apply not_elem_of_nil in Hv. }
  destruct q; simpl in *; subst. done.
Qed.

(** With nothing queued nothing is appended; otherwise the batch is appended
    and counted if it fits, and else stays queued and the batch size shrinks. *)
Lemma appendGossipMsg_spec buff pos buff_size g : queue_ok (bc_queue_ g) ->
  let j := Nat.min (Z.to_nat (MAX_APPENDED_MSG_ g)) (length (m_ (bc_queue_ g))) in
  exists q, queue_ok q /\
    ring q = drop j (ring (bc_queue_ g)) ++ (take j (ring (bc_queue_ g)) ≫= served) /\
    appendGossipMsg buff pos buff_size g =
      (ws ← mapM wire_state (batch g);
       match ws with
       | [] => Ok ((0, buff), g)
       | _ =>
         let body := encode_NodeStates (Some ws) in
         if buff_size <? len body
         then (shrinkMaxAppendedMsg ;; mret (0, buff)) g
         else buff ← memcpy buff pos body; Ok ((len body, buff), set_bc_queue_ q g)
       end).
Proof.
  intros [Hwf Hqu] j.
  destruct (peek_batch (Z.to_nat (MAX_APPENDED_MSG_ g)) (bc_queue_ g) Hwf Hqu)
    as (q1 & q2 & E1 & Er & Ea & Hr & Hwf2 & Hqu2).
  fold j in E1, Hr. exists q2. split; [done|]. split; [done|].
  unfold appendGossipMsg. step. unfold batch. fold j.
  pose proof (peek_states_run _ _ _ _ E1) as Ep.
  cbv [mbind M_bind outcome_bind] in Ep |- *. rewrite Ep.
  destruct (mapM wire_state _) as [ws|f] eqn:Ew; [|done].
  destruct ws as [|w ws].
  - cbn [length]. rewrite Z.sub_0_r, Z.eqb_refl. cbv [mret M_ret]. do 2 f_equal.
    apply mapM_Ok, Forall2_nil_inv_r, fmap_nil_inv in Ew.
    assert (q1 = bc_queue_ g) as ->; [|by destruct g].
    assert (length (take j (ring (bc_queue_ g))) = 0%nat) as Hj by by rewrite Ew.
    rewrite length_take, length_ring in Hj.
    destruct (Z.to_nat (MAX_APPENDED_MSG_ g)) as [|n] eqn:En; [by injection E1|].
    rewrite peek_n_empty in E1; [by injection E1| |done..].
    apply length_zero_iff_nil. lia.
  - rewrite (proj2 (Z.eqb_neq _ _)) by (cbn [length]; lia).
    destruct (buff_size <? _).
    + unfold on_queue. run. cbn. rewrite Er. by destruct g.
    + unfold on_queue. run. cbn. rewrite Ea. cbn. by destruct (memcpy _ _ _).
Qed.
(** ** The handlers keep the invariant *)

Lemma queue_change g q : inv g -> queue_ok q ->
  inv (set_bc_queue_ q g) /\ evolves g (set_bc_queue_ q g).
Proof.
  intros [Hg Hl] Hq. split; [split; [|by eapply (log_ok_frame g)]|by apply evolves_same].
  eapply (inv0_frame g); try done; members; eauto with gossip.
Qed.

Lemma shrink_safe : safe any_fault shrinkMaxAppendedMsg.
Proof.
  intros g [Hg Hl]. unfold wpx, shrinkMaxAppendedMsg. run. destruct (_ =? 1); [done|].
  split; [split; [|by eapply (log_ok_frame g)]|by apply evolves_same].
  eapply (inv0_frame g); try done; members; eauto with gossip.
Qed.

Lemma appendGossipMsg_safe buff pos buff_size :
  safe any_fault (appendGossipMsg buff pos buff_size).
Proof.
  intros g Hg.
  destruct (appendGossipMsg_spec buff pos buff_size g) as (q & Hq & _ & E);
    [apply inv0_queue_ok, Hg|].
  unfold wpx. rewrite E. destruct (mapM wire_state (batch g)) as [[|w ws]|]; cbn; [done| |done].
  destruct (buff_size <? _).
  - pose proof (shrink_safe g Hg) as Hs. unfold wpx in Hs. run.
    by destruct (shrinkMaxAppendedMsg g) as [[[] g']|].
  - destruct (memcpy _ _ _); cbn; [by apply queue_change|done].
Qed.

Lemma lift_safe {A} (o : outcome A) : safe any_fault (lift o).
Proof. intros g Hg. unfold wpx, lift. by destruct o. Qed.

Lemma crash_safe {A} f : safe (A := A) any_fault (crash f).
Proof. by intros g Hg. Qed.

Lemma stack_array_safe `{StackRoom} used size : safe any_fault (stack_array used size).
Proof. unfold stack_array. destruct (_ <=? _); [apply safe_ret|apply crash_safe]. Qed.

Lemma nextSeqNum_safe : safe any_fault nextSeqNum.
Proof.
  intros g [Hg Hl]. unfold wpx, nextSeqNum. run.
  split; [split; [|by eapply (log_ok_frame g)]|by apply evolves_same].
  eapply (inv0_frame g); try done; members; eauto with gossip.
Qed.

Lemma roundrobinNode_safe num : safe any_fault (roundrobinNode num).
Proof.
  intros g [Hg Hl]. unfold wpx, roundrobinNode. run. destruct (_ <=? num); [done|].
  destruct (mapM _ _); [|done].
  split; [split; [|by eapply (log_ok_frame g)]|by apply evolves_same].
  eapply (inv0_frame g); try done; members; eauto with gossip.
Qed.

Lemma getNodeState_safe k : safe any_fault (getNodeState k).
Proof. intros g Hg. unfold wpx, getNodeState. run. done. Qed.

Lemma fuckyou_safe dominant : safe any_fault (fuckyou dominant).
Proof.
  intros g [Hg Hl]. destruct (fuckyou_run dominant g) as (q & E & Hq & _); [eauto with gossip..|].
  unfold wpx. rewrite E.
  split; [split; [|by eapply (log_ok_frame g)]|by apply evolves_same].
  eapply (inv0_frame g); try done; members; eauto with gossip. apply objection_range.
Qed.

(** Bytes, decoded, say something in range. *)
Lemma bytes_in_time m pos nss : Forall is_byte m -> decode_NodeStates m pos = Ok nss ->
  wires_hold in_time nss.
Proof. intros Hm E. by eapply typed_in_time, decode_NodeStates_typed. Qed.

Lemma merge_decoded_safe {B} m pos need_bc (k : M gossiper B) :
  (forall nss, decode_NodeStates m pos = Ok nss -> wires_hold in_time nss) -> safe any_fault k ->
  safe any_fault (nss ← lift (decode_NodeStates m pos); mergeStates nss need_bc ;; k).
Proof.
  intros Hm Hk. apply lift_bind_safe; [done|]. intros nss E. apply safe_bind; [|by intros _].
  apply (safe_weaken merge_fault); [done|]. by apply mergeStates_safe, Hm.
Qed.

(** What the messages a handler reads say: the gossip in a datagram, if there is
    room for any behind the ping; the table in a stream. *)
Definition gossip_holds (P : node_state -> Prop) (data : list Z) (size : Z) : Prop :=
  forall h nss, DecodeHeader host data = Ok h -> Type_ h = TYPE_PING ->
    u32 (Body_length_ h + HEADER_SIZE) < size ->
    decode_NodeStates data (HEADER_SIZE + Body_length_ h) = Ok nss -> wires_hold P nss.

Definition table_holds (P : node_state -> Prop) (buff : list Z) : Prop :=
  forall nss, decode_NodeStates buff 0 = Ok nss -> wires_hold P nss.

Definition stream_holds (P : node_state -> Prop) (stream : list Z) : Prop :=
  forall h, DecodeHeader host (take (Z.to_nat HEADER_SIZE) stream) = Ok h ->
    table_holds P (take (Z.to_nat (Body_length_ h)) (drop (Z.to_nat HEADER_SIZE) stream)).

Definition peer_holds (P : node_state -> Prop) (peer : peer_stream) : Prop :=
  forall answer request stream, peer = Some answer -> answer request = Some stream ->
    stream_holds P stream.
End handlers.

#[export] Hint Resolve safe_ret get_safe lift_safe crash_safe stack_array_safe getNodeState_safe nextSeqNum_safe
  roundrobinNode_safe appendGossipMsg_safe fuckyou_safe : gossip.

(** Sequencing, and the two branches of a conditional. *)
Ltac safe_step :=
  match goal with
  | |- safe _ (_ ≫= _) => apply safe_bind; [|intros ?]
  | |- safe _ (if ?b then _ else _) => destruct b
  | |- safe _ (when ?b _) => destruct b; cbn [when]
  | |- safe _ (match ?x with _ => _ end) => destruct x
  | |- safe _ (let '_ := ?x in _) => destruct x
  end.
Ltac safe_solve := repeat (first [ solve [eauto with gossip] | safe_step | progress cbv zeta]).

Section packets.
Context (host : endian) `{IterationOrder} `{Residue} `{TableOrder} `{FreedHeap} `{StackRoom}
  `{!MessageCodec} `{!MessageCodecOk _}.

Lemma generatePing_safe seqNo send_buff size :
  safe any_fault (generatePing host seqNo send_buff size).
Proof. unfold generatePing. safe_solve. Qed.

Lemma probe_safe send_buff : safe any_fault (probe host send_buff).
Proof. unfold probe, probeNode. pose proof generatePing_safe. safe_solve. Qed.

Lemma on_pong_safe seq resp size : safe any_fault (on_pong host seq resp size).
Proof. unfold on_pong. safe_solve. Qed.

Lemma handlePacket_safe_if data size resp_size : gossip_holds host in_time data size ->
  safe any_fault (handlePacket host data size resp_size).
Proof.
  intros Hd. unfold handlePacket. apply lift_bind_safe; [done|]. intros h Eh.
  destruct (Z.eqb_spec (Type_ h) TYPE_PING) as [Ht|]; [|apply safe_ret].
  do 3 (apply safe_bind; [eauto with gossip|]; intros ?).
  apply safe_bind; [|intros _; safe_solve].
  destruct (Z.ltb_spec (u32 (Body_length_ h + HEADER_SIZE)) size); cbn [when]; [|apply safe_ret].
  apply lift_bind_safe; [done|]. intros nss E. apply (safe_weaken merge_fault); [done|].
  by eapply mergeStates_safe, Hd.
Qed.

Lemma handlePacket_safe data size resp_size : Forall is_byte data ->
  safe any_fault (handlePacket host data size resp_size).
Proof. intros Hd. apply handlePacket_safe_if. intros h nss _ _ _. by apply bytes_in_time. Qed.

Lemma encodeLocalState_safe : safe any_fault encodeLocalState.
Proof. unfold encodeLocalState. safe_solve. Qed.

Lemma handleBody_safe_if type buff size resp_buff resp_size : table_holds in_time buff ->
  safe any_fault (handleBody host type buff size resp_buff resp_size).
Proof.
  intros Hb. unfold handleBody. pose proof encodeLocalState_safe as He.
  destruct (_ =? TYPE_PING); [safe_solve|]. destruct (_ =? TYPE_SYNCSTATE); [|apply crash_safe].
  apply merge_decoded_safe; [done|]. safe_solve.
Qed.

Lemma handleBody_safe type buff size resp_buff resp_size : Forall is_byte buff ->
  safe any_fault (handleBody host type buff size resp_buff resp_size).
Proof. intros Hb. apply handleBody_safe_if. intros nss. by apply bytes_in_time. Qed.

Lemma syncState_safe_if peer : peer_holds host in_time peer -> safe any_fault (syncState host peer).
Proof.
  intros Hp. unfold syncState. destruct peer as [peer|]; [|eauto with gossip].
  apply safe_bind; [apply encodeLocalState_safe|]. intros body.
  cbv zeta. apply safe_bind; [eauto with gossip|]. intros [].
  apply safe_bind; [eauto with gossip|]. intros b1.
  apply safe_bind; [eauto with gossip|]. intros b2. unfold syncRequest.
  destruct (peer b2) as [stream|] eqn:E; [|eauto with gossip]. apply (Hp peer b2 _ eq_refl) in E.
  unfold ReadFull. destruct (_ <? HEADER_SIZE); [eauto with gossip|]. cbv beta iota.
  apply lift_bind_safe; [done|]. intros h Eh. apply safe_bind; [eauto with gossip|]. intros [].
  destruct (_ <? _); [eauto with gossip|].
  cbv beta iota. apply merge_decoded_safe; [by apply E|eauto with gossip].
Qed.

(** Whatever a peer sends is bytes. *)
Definition peer_ok (peer : peer_stream) : Prop :=
  forall answer request stream, peer = Some answer -> answer request = Some stream ->
  Forall is_byte stream.

Lemma peer_in_time peer : peer_ok peer -> peer_holds host in_time peer.
Proof.
  intros Hp answer request stream Ea Es h _ nss. apply bytes_in_time.
  by eapply Forall_take, Forall_drop, Hp.
Qed.

Lemma syncState_safe peer : peer_ok peer -> safe any_fault (syncState host peer).
Proof. intros Hp. by apply syncState_safe_if, peer_in_time. Qed.

Lemma Join_safe_if network peer : (forall h p, peer_holds host in_time (network h p)) ->
  safe any_fault (Join host network peer).
Proof.
  intros Hn. unfold Join, alive.
  assert (safe any_fault Join_self) by by (apply (safe_weaken no_fault); [|apply Join_self_safe]).
  assert (forall h p, safe any_fault (syncState host (network h p))) by eauto using syncState_safe_if.
  destruct (Split peer ":") as [[|? [|? [|]]]|]; safe_solve.
Qed.

Lemma Join_safe network peer : (forall h p, peer_ok (network h p)) ->
  safe any_fault (Join host network peer).
Proof. intros Hn. apply Join_safe_if. intros h p. by apply peer_in_time. Qed.

(** ** Runs

  The state of the program: the gossiper and the probes whose callbacks may
  still be called. Handlers run one at a time. *)
Record system := mkSystem { gos : gossiper; probes : list probe_op }.

Definition initial (conf : config) (join leave : bool) (s : system) : Prop :=
  RegisterNotifier join leave (gossiper_new conf) = Ok (tt, gos s) /\ probes s = [].

Inductive step : system -> system -> Prop :=
  | step_join network peer g ps rts g' :
      (forall h p, peer_ok (network h p)) ->
      Join host network peer g = Ok (rts, g') -> step (mkSystem g ps) (mkSystem g' ps)
  | step_probe buff g ps p g' :
      probe host buff g = Ok (p, g') ->
      step (mkSystem g ps) (mkSystem g' (option_list p ++ ps))
  | step_probe_timeout p g ps g' :
      p ∈ ps -> on_probe_timeout p g = Ok (tt, g') -> step (mkSystem g ps) (mkSystem g' ps)
  | step_pong p resp size g ps g' :
      p ∈ ps -> on_pong host (p_seq p) resp size g = Ok (tt, g') ->
      step (mkSystem g ps) (mkSystem g' ps)
  | step_packet data size resp_size g ps r g' :
      Forall is_byte data -> handlePacket host data size resp_size g = Ok (r, g') ->
      step (mkSystem g ps) (mkSystem g' ps)
  | step_session type buff size resp resp_size g ps r g' :
      Forall is_byte buff -> handleBody host type buff size resp resp_size g = Ok (r, g') ->
      step (mkSystem g ps) (mkSystem g' ps)
  | step_suspicion_timer k g ps g' :
      on_suspicion_timer k g = Ok (tt, g') -> step (mkSystem g ps) (mkSystem g' ps)
  | step_posted g ps g' :
      run_posted g = Ok (tt, g') -> step (mkSystem g ps) (mkSystem g' ps).

Definition reachable (conf : config) (join leave : bool) (s : system) : Prop :=
  exists s0, initial conf join leave s0 /\ rtc step s0 s.

Definition system_inv (s : system) : Prop :=
  inv (gos s) /\ Forall (fun p => State_ (p_node p) = STATE_ALIVE) (probes s).

Lemma probe_alive buff g p g' : probe host buff g = Ok (Some p, g') ->
  State_ (p_node p) = STATE_ALIVE.
Proof.
  unfold probe, probeNode. run. intros E.
  repeat (case_match; simplify_eq). cbn in *.
  match goal with Hb : (_ && _) = true |- _ => apply andb_true_iff in Hb as [Hb _] end.
  by match goal with Hb : bool_decide _ = true |- _ => apply bool_decide_eq_true in Hb end.
Qed.

Lemma safe_keeps {A} (op : M gossiper A) g a g' E : safe E op -> inv g -> op g = Ok (a, g') ->
  inv g' /\ evolves g g'.
Proof. intros Hop Hg Ho. specialize (Hop g Hg). unfold wpx in Hop. by rewrite Ho in Hop. Qed.

Lemma step_inv s s' : step s s' -> system_inv s -> system_inv s' /\ evolves (gos s) (gos s').
Proof.
  intros Hs [Hg Hps].
  assert (forall A (op : M gossiper A) a g' E, safe E op -> op (gos s) = Ok (a, g') ->
    gos s' = g' -> probes s' = probes s -> system_inv s' /\ evolves (gos s) (gos s')) as Hop.
  { intros A op a g' E Hop Ho <- Hp. destruct (safe_keeps op (gos s) a (gos s') E Hop Hg Ho).
    split; [split; [done|by rewrite Hp]|done]. }
  destruct Hs as [|buff g ps p g' Hp|p g ps g' Hin| | | | |]; cbn [gos probes] in *.
  - eapply Hop; [|done..]. by apply Join_safe.
  - destruct (safe_keeps _ _ _ _ _ (probe_safe buff) Hg Hp) as [Hg' He].
    split; [split; [done|]|done]. cbn. destruct p as [p|]; [|done].
    constructor; [by eapply probe_alive|done].
  - eapply Hop; [|done..]. eapply suspectNode_safe.
    + left. by eapply Forall_forall in Hps.
    + assert (State_ (p_node p) = STATE_ALIVE) as -> by by eapply Forall_forall in Hps.
      done.
  - eapply Hop; [|done..]. by apply on_pong_safe.
  - eapply Hop; [|done..]. by apply handlePacket_safe.
  - eapply Hop; [|done..]. by apply handleBody_safe.
  - eapply Hop; [|done..]. by apply on_suspicion_timer_safe.
  - eapply Hop; [|done..]. by apply run_posted_safe.
Qed.

Lemma steps_inv s s' : rtc step s s' -> system_inv s ->
  system_inv s' /\ evolves (gos s) (gos s').
Proof.
  induction 1 as [s|s1 s2 s3 H12 _ IH]; intros Hs; [done|].
  destruct (step_inv _ _ H12 Hs) as [Hs2 He]. destruct (IH Hs2) as [Hs3 He3].
  split; [done|by etrans].
Qed.

Lemma initial_inv conf join leave s : initial conf join leave s -> system_inv s.
Proof.
  destruct s as [g ps]. unfold initial, RegisterNotifier. run. intros [[= <-] Hps].
  split; [apply gossiper_new_inv|cbn in *; by rewrite Hps].
Qed.
End packets.
