(* ===== verification/Records.v ===== *)
(** * A property of every record a gossiper holds

    Records enter a gossiper from its configuration, from a peer's message and
    from nowhere else; the handlers copy them, reset their timestamp, and declare
    them dead. A property that survives this ([RecordProperty]) therefore holds
    of every record in the table, in the queue, behind a suspicion and in a posted
    handler ([holds]), if it holds of what the peers send. Each operation keeps
    it, whatever else its state is. *)
From S2P Require Import Prelude Utils Bytes Header Node Broadcast Suspicion Messages Gossiper.
From S2P Require Import Membership Protocol Dynamics.
Local Open Scope Z_scope.

(** ** Actions that keep an invariant and return typed results *)

Section keeps.
Context {S : Type} (I : S -> Prop).

Definition keeps {A} (R : A -> Prop) (op : M S A) : Prop :=
  forall s, I s -> wlp op (fun a s' => R a /\ I s') s.

Lemma keeps_ret {A} (R : A -> Prop) (a : A) : R a -> keeps R (mret a).
Proof. by intros Ha s Hs. Qed.

Lemma keeps_crash {A} (R : A -> Prop) f : keeps R (crash f).
Proof. by intros s Hs. Qed.

Lemma keeps_get : keeps I get.
Proof. by intros s Hs. Qed.

Lemma keeps_lift {A} (R : A -> Prop) (o : outcome A) : (forall a, o = Ok a -> R a) ->
  keeps R (lift o).
Proof. intros Ho s Hs. unfold wpx, lift. destruct o as [a|]; [|done]. split; [by apply Ho|done]. Qed.

Lemma keeps_bind {A B} (P : A -> Prop) (R : B -> Prop) (m : M S A) (k : A -> M S B) :
  keeps P m -> (forall a, P a -> keeps R (k a)) -> keeps R (m ≫= k).
Proof.
  intros Hm Hk s Hs. apply wpx_bind. eapply wpx_mono; [by apply Hm|].
  intros a s' [Ha Hs']. by apply Hk.
Qed.

Lemma keeps_mono {A} (P R : A -> Prop) (m : M S A) :
  keeps P m -> (forall a, P a -> R a) -> keeps R m.
Proof.
  intros Hm HR s Hs. eapply wpx_mono; [by apply Hm|]. intros a s' [Ha Hs']. auto.
Qed.

Lemma keeps_modify (f : S -> S) : (forall s, I s -> I (f s)) -> keeps (fun _ => True) (modify f).
Proof. intros Hf s Hs. split; [done|by apply Hf]. Qed.

Lemma keeps_for_each {A} (l : list A) (body : A -> M S unit) :
  (forall a, a ∈ l -> keeps (fun _ => True) (body a)) -> keeps (fun _ => True) (for_each l body).
Proof.
  induction l as [|a l IH]; intros Hb; [by apply keeps_ret|].
  eapply keeps_bind; [apply Hb; by left|]. intros _ _. apply IH. intros. apply Hb. by right.
Qed.
End keeps.

(** Nothing is asked of the result. *)
Definition any {A} (a : A) : Prop := True.
Definition opt {A} (P : A -> Prop) (o : option A) : Prop :=
  match o with Some a => P a | None => True end.

(** ** The queue's map *)

Lemma map_find_in k v m : map_find k m = Some v -> (k, v) ∈ m.
Proof.
  induction m as [|[k' v'] m IH]; simpl; [done|].
  case_decide; [intros [= ->]; subst; by left|right; auto].
Qed.

Section map.
Implicit Type P : entry -> Prop.

Lemma Forall_erase P k m : Forall P m -> Forall P (map_erase k m).
Proof. induction 1 as [|[k' v'] m Hx Hm IH]; simpl; [done|]. case_decide; [done|by constructor]. Qed.

Lemma Forall_update P k v m : P (k, v) -> Forall P m -> Forall P (map_update k v m).
Proof.
  intros Hv. induction 1 as [|[k' v'] m Hx Hm IH]; simpl; [done|]. case_decide; by constructor.
Qed.
End map.

(** ** The interface of a property *)

Class RecordProperty `{!Residue} (P : node_state -> Prop) : Prop := {
  rp_range n : P n -> in_range 64 (Dominant_ n);
  rp_timestamp n : P n -> P (set_Timestamp 0 n);
  rp_dominant n : P n -> P (set_Dominant 0 n);
  rp_dead n : P n -> P (set_State STATE_DEAD n);
  rp_stale n n' : stale_node n = Some n' -> P n -> P n'
}.

Section records.
Context `{!Residue} (P : node_state -> Prop) `{HP : !RecordProperty P}.

(** ** The queue *)

Definition queue_holds (q : BroadcastQueue) : Prop :=
  Forall (fun e => P (msg_of e)) (m_ q).

Lemma deref_holds k q m : queue_holds q -> m = m_ q ->
  keeps queue_holds (fun v => P v.1) (deref k m).
Proof.
  intros Hq -> q' Hq'. unfold deref. destruct (map_find k (m_ q)) as [v|] eqn:E; [|done].
  split; [|done]. apply map_find_in in E. eapply Forall_forall in Hq; [|exact E]. exact Hq.
Qed.

Lemma pop_holds : keeps queue_holds (opt P) pop.
Proof.
  unfold pop. eapply keeps_bind; [apply keeps_get|]. intros q Hq.
  eapply keeps_bind; [by apply keeps_modify|]. intros _ _.
  destruct (wrap_end _ _) as [k|]; [|by apply keeps_ret].
  eapply keeps_bind; [by eapply deref_holds|]. intros [rst times] Hr. cbn in Hr.
  eapply (keeps_bind _ any).
  - destruct (_ <? 1); apply keeps_modify; intros q' Hq'; unfold queue_holds; cbn;
      [by apply Forall_erase|by apply Forall_update].
  - intros _ _. eapply keeps_bind; [by apply keeps_modify|]. intros _ _. by apply keeps_ret.
Qed.

Lemma Peek_holds : keeps queue_holds (opt P) Peek.
Proof.
  unfold Peek. eapply keeps_bind; [apply keeps_get|]. intros q Hq.
  eapply keeps_bind; [by apply keeps_modify|]. intros _ _.
  destruct (wrap_end _ _) as [k|]; [|by apply keeps_ret].
  destruct (_ <=? _); [by apply keeps_ret|].
  eapply keeps_bind; [by apply keeps_modify|]. intros _ _.
  eapply keeps_bind; [by eapply deref_holds|]. intros [rst times] Hr.
  eapply keeps_bind; [by apply keeps_modify|]. intros _ _. by apply keeps_ret.
Qed.

Lemma ResetPeek_holds : keeps queue_holds any ResetPeek.
Proof.
  unfold ResetPeek. eapply keeps_bind; [apply keeps_get|]. intros q Hq.
  eapply keeps_bind; [by apply keeps_modify|]. intros _ _. by apply keeps_modify.
Qed.

Lemma apply_loop_holds n : keeps queue_holds any (apply_loop n).
Proof.
  induction n as [|n IH]; [by apply keeps_ret|]. cbn [apply_loop].
  eapply keeps_bind; [apply keeps_get|]. intros q Hq. destruct (0 <? _); [|by apply keeps_ret].
  eapply keeps_bind; [apply pop_holds|]. intros _ _.
  eapply keeps_bind; [apply keeps_get|]. intros q' Hq'.
  eapply keeps_bind; [by apply keeps_modify|]. by intros _ _.
Qed.

Lemma ApplyPeek_holds : keeps queue_holds any ApplyPeek.
Proof.
  unfold ApplyPeek. eapply keeps_bind; [apply keeps_get|]. intros q Hq.
  eapply keeps_bind; [apply apply_loop_holds|]. intros _ _.
  eapply keeps_bind; [apply keeps_get|]. intros q' Hq'. by apply keeps_modify.
Qed.

Lemma Push_holds `{IterationOrder} msg num : P msg -> keeps queue_holds any (Push msg num).
Proof.
  intros Hm. unfold Push. eapply keeps_bind; [apply keeps_get|]. intros q Hq.
  destruct (map_find _ _) as [[old t]|].
  - destruct (supersedes msg old); [|by apply keeps_ret]. apply keeps_modify. intros q' _.
    unfold queue_holds. cbn. by apply Forall_update.
  - apply keeps_modify. intros q' _. unfold queue_holds. cbn. rewrite place_perm. by constructor.
Qed.

(** ** The gossiper *)

Record holds (g : gossiper) : Prop := {
  rh_table : map_Forall (fun _ n => P n) (node_map_ g);
  rh_queue : queue_holds (bc_queue_ g);
  rh_susp : map_Forall (fun _ s => P (captured (convict_ s))) (suspicions_ g);
  rh_posted : Forall (fun r => P (captured r)) (posted_ g);
  rh_self : forall d, in_range 64 d -> P (self_state (conf_ g) d);
  rh_dom : in_range 64 (dominant_ g);
  rh_seq : in_range 64 (seq_num_ g);
  rh_batch : 1 <= MAX_APPENDED_MSG_ g <= 10;
  rh_cursor : 0 <= cursor g
}.

Lemma gossiper_new_holds conf join leave :
  (forall d, in_range 64 d -> P (self_state conf d)) ->
  holds (set_notify_leave_ leave (set_notify_join_ join (gossiper_new conf))).
Proof.
  intros Hp. split; cbn; try done; try (by intros ????%lookup_empty_Some); try constructor; lia.
Qed.

(** What is sent of the queue. *)
Lemma batch_holds g : holds g -> Forall P (batch g).
Proof.
  intros Hg. unfold batch. apply Forall_fmap, Forall_take. unfold ring. rewrite rotate_perm.
  apply (rh_queue _ Hg).
Qed.

Lemma timestamp_holds n : P n -> P (set_Timestamp 0 n).
Proof. apply rp_timestamp. Qed.
Lemma dominant_holds n : P n -> P (set_Dominant 0 n).
Proof. apply rp_dominant. Qed.
Lemma dead_holds n : P n -> P (set_State STATE_DEAD n).
Proof. apply rp_dead. Qed.
Lemma deref_node_holds r n : P (captured r) -> deref_node r = Ok n -> P n.
Proof. intros Hr [-> |Hs]%deref_node_inv; [done|by eapply rp_stale]. Qed.
Lemma copy_holds n : P n -> P (copy n).
Proof. by rewrite copy_eq. Qed.
Lemma assign_holds n m : P m -> P (assign n m).
Proof. by rewrite assign_eq. Qed.

Create HintDb records.
#[local] Hint Resolve timestamp_holds dominant_holds dead_holds copy_holds assign_holds
  rh_self rh_dom : records.
#[local] Hint Extern 1 (in_range _ (wrap _ _)) => apply wrap_range; lia : records.

(** One member at a time. *)
Lemma holds_modify (f : gossiper -> gossiper) : (forall g, holds g -> holds (f g)) ->
  keeps holds any (modify f).
Proof. apply keeps_modify. Qed.

Lemma keep_table v : map_Forall (fun _ n => P n) v ->
  keeps holds any (modify (set_node_map_ v)).
Proof. intros Hv. apply holds_modify. by intros g []. Qed.

Lemma keep_suspicions v : map_Forall (fun _ s => P (captured (convict_ s))) v ->
  keeps holds any (modify (set_suspicions_ v)).
Proof. intros Hv. apply holds_modify. by intros g []. Qed.

Lemma keep_posted v : Forall (fun r => P (captured r)) v ->
  keeps holds any (modify (set_posted_ v)).
Proof. intros Hv. apply holds_modify. by intros g []. Qed.

Lemma keep_dominant v : in_range 64 v -> keeps holds any (modify (set_dominant_ v)).
Proof. intros Hv. apply holds_modify. by intros g []. Qed.

Lemma keep_seq v : in_range 64 v -> keeps holds any (modify (set_seq_num_ v)).
Proof. intros Hv. apply holds_modify. by intros g []. Qed.

Lemma keep_nodes v : keeps holds any (modify (set_nodes_ v)).
Proof. apply holds_modify. by intros g []. Qed.

Lemma keep_num v : keeps holds any (modify (set_node_num_ v)).
Proof. apply holds_modify. by intros g []. Qed.

Lemma keep_notified v : keeps holds any (modify (set_notified_ v)).
Proof. apply holds_modify. by intros g []. Qed.

#[local] Hint Resolve keep_table keep_suspicions keep_posted keep_dominant keep_seq keep_nodes
  keep_num keep_notified : records.

Lemma on_queue_holds {A} (R : A -> Prop) (op : M BroadcastQueue A) :
  keeps queue_holds R op -> keeps holds R (on_queue op).
Proof.
  intros Hop g Hg. specialize (Hop _ (rh_queue _ Hg)). unfold wpx, on_queue in *.
  destruct (op (bc_queue_ g)) as [[a q]|]; [|done]. destruct Hop as [Ha Hq].
  split; [done|]. by destruct Hg.
Qed.

(** Sequencing, with what the first action is known to return. *)
Ltac keeps_solve :=
  repeat (first
    [ solve [eauto with records]
    | match goal with
      | |- keeps _ _ (mret _) => apply keeps_ret
      | |- keeps _ _ (crash _) => apply keeps_crash
      | |- keeps _ _ (get ≫= _) => eapply keeps_bind; [apply keeps_get|intros ? ?]
      | |- keeps _ _ (_ ≫= _) => eapply keeps_bind; [solve [eauto with records]|intros ? ?]
      | |- keeps _ _ (when _ _ ≫= _) => eapply (keeps_bind _ any); [|intros ? ?]
      | |- keeps _ _ ((if _ then _ else _) ≫= _) => eapply (keeps_bind _ any); [|intros ? ?]
      | |- keeps _ _ (if ?b then _ else _) => destruct b
      | |- keeps _ _ (when ?b _) => destruct b; cbn [when]
      | |- keeps _ _ (match ?x with _ => _ end) => destruct x eqn:?
      | |- any _ => exact I
      end
    | progress cbv zeta ]).

Section handlers.
Context `{IterationOrder}.

Lemma getNodeState_holds k : keeps holds (opt P) (getNodeState k).
Proof.
  intros g Hg. split; [|done]. destruct (node_map_ g !! k) as [n|] eqn:E; [|done].
  by apply (rh_table _ Hg) in E.
Qed.

Lemma getSuspicion_holds k :
  keeps holds (opt (fun s => P (captured (convict_ s)))) (getSuspicion k).
Proof.
  intros g Hg. split; [|done]. destruct (suspicions_ g !! k) as [n|] eqn:E; [|done].
  by apply (rh_susp _ Hg) in E.
Qed.

Lemma nextDominant_holds shift : keeps holds (in_range 64) (nextDominant shift).
Proof. unfold nextDominant. keeps_solve. Qed.

Lemma nextSeqNum_holds : keeps holds (in_range 64) nextSeqNum.
Proof. unfold nextSeqNum. keeps_solve. Qed.

Lemma sub_node_num_holds : keeps holds any sub_node_num.
Proof. unfold sub_node_num. keeps_solve. Qed.

Lemma add_node_num_holds : keeps holds any add_node_num.
Proof. unfold add_node_num. keeps_solve. Qed.

Hint Resolve getNodeState_holds getSuspicion_holds nextDominant_holds nextSeqNum_holds
  sub_node_num_holds add_node_num_holds : records.

Lemma table_insert_holds k n g : holds g -> P n ->
  map_Forall (fun _ n => P n) (<[k := n]> (node_map_ g)).
Proof. intros Hg Hn. apply map_Forall_insert_2; [done|apply Hg]. Qed.
Hint Resolve table_insert_holds : records.

Lemma updateNodeState_holds k n : P n -> keeps holds any (updateNodeState k n).
Proof. intros Hn. unfold updateNodeState. keeps_solve. Qed.

Lemma addNodeState_holds k n : P n -> keeps holds any (addNodeState k n).
Proof. intros Hn. unfold addNodeState. keeps_solve. Qed.

Lemma removeNodeState_holds k : keeps holds any (removeNodeState k).
Proof. unfold removeNodeState. keeps_solve. Qed.

Lemma post_holds rs : Forall (fun r => P (captured r)) rs -> keeps holds any (post rs).
Proof.
  intros Hr. unfold post. eapply keeps_bind; [apply keeps_get|]. intros g Hg.
  apply keep_posted, Forall_app. split; [apply Hg|done].
Qed.
Hint Resolve updateNodeState_holds addNodeState_holds removeNodeState_holds post_holds : records.

Lemma cancel_holds s : P (captured (convict_ s)) ->
  P (captured (convict_ (cancel s).1)) /\
  Forall (fun r => P (captured r)) (cancel s).2.
Proof. intros Hs. unfold cancel. destruct (armed s); cbn; auto. Qed.

Lemma eraseSuspicion_holds k : keeps holds any (eraseSuspicion k).
Proof.
  unfold eraseSuspicion. eapply keeps_bind; [apply keeps_get|]. intros g Hg.
  destruct (suspicions_ g !! k) as [s|] eqn:E; [|by apply keeps_ret].
  eapply keeps_bind; [apply keep_suspicions, map_Forall_delete, Hg|]. intros _ _.
  apply post_holds, cancel_holds. by apply (rh_susp _ Hg) in E.
Qed.

Lemma broadcast_holds s : P s -> keeps holds any (broadcast s).
Proof.
  intros Hs. unfold broadcast. eapply keeps_bind; [apply keeps_get|]. intros g Hg.
  by apply on_queue_holds, Push_holds.
Qed.

Lemma notify_holds e : keeps holds any (notify e).
Proof. unfold notify. keeps_solve. Qed.

Hint Resolve eraseSuspicion_holds broadcast_holds notify_holds : records.

Lemma fuckyou_holds dominant : keeps holds any (fuckyou dominant).
Proof.
  unfold fuckyou. eapply keeps_bind; [eauto with records|]. intros d Hd.
  eapply (keeps_bind _ (in_range 64)); [keeps_solve|]. intros d' Hd'. keeps_solve.
Qed.
Hint Resolve fuckyou_holds : records.

Lemma aliveNode_holds a need_bc : P a -> keeps holds any (aliveNode a need_bc).
Proof.
  intros Ha. unfold aliveNode. eapply keeps_bind; [apply keeps_get|]. intros g Hg.
  destruct (_ && _); [by apply keeps_ret|].
  eapply keeps_bind; [eauto with records|]. intros known Hk. cbv zeta.
  set (state := match known with Some state => state | None => _ end).
  assert (P state) by (subst state; destruct known; eauto with records).
  assert (in_range 64 (Dominant_ a)) by by apply rp_range. keeps_solve.
Qed.

Lemma deadNode_holds d : P d -> keeps holds any (deadNode d).
Proof. intros Hd. unfold deadNode. keeps_solve. Qed.
Hint Resolve aliveNode_holds deadNode_holds : records.

Lemma convict_holds r : P (captured r) -> keeps holds any (convict r).
Proof.
  intros Hr. unfold convict. eapply (keeps_bind _ P); [|eauto with records].
  apply keeps_lift. intros n. by apply deref_node_holds.
Qed.
Hint Resolve convict_holds : records.

Lemma Confirm_holds from s : P (captured (convict_ s)) ->
  let '(_, s', rs) := Confirm from s in
  P (captured (convict_ s')) /\ Forall (fun r => P (captured r)) rs.
Proof.
  intros Hs. unfold Confirm. set (s1 := if decide _ then _ else _).
  assert (P (captured (convict_ s1))) as H1 by (subst s1; by case_decide).
  pose proof (cancel_holds s1 H1). destruct (_ <=? _); [|by split].
  by destruct (cancel s1).
Qed.

Lemma suspicions_insert_holds k s g : holds g -> P (captured (convict_ s)) ->
  map_Forall (fun _ s => P (captured (convict_ s))) (<[k := s]> (suspicions_ g)).
Proof. intros Hg Hs. apply map_Forall_insert_2; [done|apply Hg]. Qed.
Hint Resolve suspicions_insert_holds : records.

Lemma suspectNode_holds lives s : P s -> keeps holds any (suspectNode lives s).
Proof.
  intros Hs. unfold suspectNode. eapply keeps_bind; [eauto with records|]. intros [n|] Hn;
    [|by apply keeps_ret].
  destruct (_ <? _); [by apply keeps_ret|].
  eapply keeps_bind; [eauto with records|]. intros [sus|] Hsus.
  - pose proof (Confirm_holds (From_ s) sus Hsus) as Hc.
    destruct (Confirm (From_ s) sus) as [[b sus'] rs]. destruct Hc as [Hc Hrs]. keeps_solve.
  - destruct (bool_decide _); [by apply keeps_ret|].
    eapply keeps_bind; [apply keeps_get|]. intros g Hg.
    eapply (keeps_bind _ any); [keeps_solve|]. intros _ _.
    eapply keeps_bind; [eauto with records|]. intros _ _.
    eapply keeps_bind; [apply keeps_get|]. intros g' Hg'.
    destruct (suspicions_ g' !! _); [by apply keeps_ret|].
    eapply (keeps_bind _ (fun sus => P (captured (convict_ sus)))); [|keeps_solve].
    apply keeps_lift. intros sus ->%suspicion_new_ref. done.
Qed.
Hint Resolve suspectNode_holds : records.

Lemma mergeState_holds need_bc w : wire_holds P w -> keeps holds any (mergeState need_bc w).
Proof.
  intros Hw. unfold mergeState. eapply (keeps_bind _ P).
  - apply keeps_lift. intros n (m & Hm & Hs)%convert_inv. by eapply rp_stale, Hw.
  - intros n Hn. unfold mergeReport. keeps_solve.
Qed.

Lemma mergeStates_holds need_bc nss : wires_hold P nss -> keeps holds any (mergeStates nss need_bc).
Proof.
  intros Hn. unfold mergeStates. eapply (keeps_bind _ (Forall (wire_holds P))).
  - apply keeps_lift. destruct nss as [l|]; [|done]. by intros ? [= <-].
  - intros l Hl. apply keeps_for_each. intros w Hw. apply mergeState_holds.
    by eapply Forall_forall in Hl.
Qed.

Lemma on_suspicion_timer_holds k : keeps holds any (on_suspicion_timer k).
Proof.
  unfold on_suspicion_timer. eapply keeps_bind; [eauto with records|]. intros [sus|] Hsus;
    [|by apply keeps_ret].
  destruct (armed sus); [|by apply keeps_ret]. pose proof (cancel_holds _ Hsus) as [Hc _].
  keeps_solve.
Qed.

Lemma run_posted_holds : keeps holds any run_posted.
Proof.
  unfold run_posted. eapply keeps_bind; [apply keeps_get|]. intros g Hg.
  pose proof (rh_posted _ Hg) as Hp. destruct (posted_ g) as [|r rest]; [by apply keeps_ret|].
  apply Forall_cons in Hp as [Hr Hrest]. keeps_solve.
Qed.

Lemma Join_self_holds : keeps holds any Join_self.
Proof. unfold Join_self. keeps_solve. Qed.

Lemma shrink_holds : keeps holds any shrinkMaxAppendedMsg.
Proof.
  unfold shrinkMaxAppendedMsg. eapply keeps_bind; [apply keeps_get|]. intros g Hg.
  destruct (Z.eqb_spec (MAX_APPENDED_MSG_ g) 1); [by apply keeps_ret|].
  pose proof (rh_batch _ Hg). apply holds_modify. intros g' []. split; try done. cbn.
  rewrite Z.quot_div_nonneg by lia.
  pose proof (Z.div_le_lower_bound (MAX_APPENDED_MSG_ g) 2 1).
  pose proof (Z.div_le_upper_bound (MAX_APPENDED_MSG_ g) 2 10). lia.
Qed.

Lemma roundrobin_holds num : 0 <= num -> keeps holds any (roundrobinNode num).
Proof.
  intros Hn. unfold roundrobinNode. eapply keeps_bind; [apply keeps_get|]. intros g Hg.
  destruct (Z.leb_spec (Z.of_nat (length (nodes_ g))) num); [by apply keeps_ret|].
  eapply (keeps_bind _ any); [by apply keeps_lift|]. intros rst _.
  eapply (keeps_bind _ any); [|by intros _ _; apply keeps_ret].
  pose proof (rh_cursor _ Hg). apply holds_modify. intros g' []. split; try done. cbn.
  apply Z.rem_nonneg; lia.
Qed.

Lemma peek_states_holds n : keeps holds any (peek_states n).
Proof.
  induction n as [|n IH]; [by apply keeps_ret|]. cbn [peek_states].
  eapply keeps_bind; [apply on_queue_holds, Peek_holds|]. intros [m|] _; [|by apply keeps_ret].
  eapply (keeps_bind _ any); [by apply keeps_lift|]. intros w _.
  eapply keeps_bind; [apply IH|]. intros ws _. by apply keeps_ret.
Qed.
End handlers.

#[local] Hint Resolve getNodeState_holds nextSeqNum_holds fuckyou_holds suspectNode_holds
  mergeStates_holds Join_self_holds shrink_holds roundrobin_holds peek_states_holds
  on_suspicion_timer_holds run_posted_holds on_queue_holds ResetPeek_holds ApplyPeek_holds : records.

Section packets.
Context (host : endian) `{IterationOrder} `{TableOrder} `{FreedHeap} `{StackRoom} `{!MessageCodec}.

Lemma lift_any {A} (o : outcome A) : keeps holds any (lift o).
Proof. by apply keeps_lift. Qed.
Hint Resolve lift_any : records.

Lemma stack_array_holds used size : keeps holds any (stack_array used size).
Proof. unfold stack_array. destruct (_ <=? _); [by apply keeps_ret|apply keeps_crash]. Qed.

Lemma appendGossipMsg_holds buff pos size : keeps holds any (appendGossipMsg buff pos size).
Proof. unfold appendGossipMsg. keeps_solve. Qed.
Hint Resolve appendGossipMsg_holds : records.

Lemma generatePing_holds seq buff size : keeps holds any (generatePing host seq buff size).
Proof. unfold generatePing. keeps_solve. Qed.
Hint Resolve generatePing_holds : records.

Lemma probe_holds buff : keeps holds (opt (fun p => P (p_node p))) (probe host buff).
Proof.
  unfold probe. eapply keeps_bind; [by apply roundrobin_holds|]. intros [|k ks] _; [apply keeps_crash|].
  eapply keeps_bind; [apply getNodeState_holds|]. intros [n|] Hn; [|apply keeps_crash].
  eapply keeps_bind; [apply keeps_get|]. intros g Hg. destruct (_ && _); [|by apply keeps_ret].
  eapply (keeps_bind _ (fun p => P (p_node p))); [|intros p Hp; by apply keeps_ret].
  unfold probeNode. eapply keeps_bind; [apply lift_any|]. intros port _. cbv zeta.
  eapply keeps_bind; [eauto with records|]. intros seq _.
  eapply keeps_bind; [eauto with records|]. intros [size b] _.
  eapply keeps_bind; [apply keeps_get|]. intros g' _. apply keeps_ret. by apply copy_holds.
Qed.

Lemma on_pong_holds seq resp size : keeps holds any (on_pong host seq resp size).
Proof. unfold on_pong. keeps_solve. Qed.

(** Reports read from bytes are merged. *)
Lemma merge_decoded_holds {B} m pos need_bc (k : M gossiper B) :
  (forall nss, decode_NodeStates m pos = Ok nss -> wires_hold P nss) -> keeps holds any k ->
  keeps holds any (nss ← lift (decode_NodeStates m pos); mergeStates nss need_bc ;; k).
Proof.
  intros Hm Hk. eapply (keeps_bind _ (wires_hold P)); [by apply keeps_lift|].
  intros nss Hn. eapply keeps_bind; [by apply mergeStates_holds|]. by intros _ _.
Qed.

Lemma handlePacket_holds data size resp_size : gossip_holds host P data size ->
  keeps holds any (handlePacket host data size resp_size).
Proof.
  intros Hd. unfold handlePacket.
  eapply (keeps_bind _ (fun h => DecodeHeader host data = Ok h)); [by apply keeps_lift|].
  intros h Hh. destruct (Z.eqb_spec (Type_ h) TYPE_PING) as [Ht|]; [|by apply keeps_ret].
  eapply keeps_bind; [apply lift_any|]. intros ping _.
  eapply keeps_bind; [apply lift_any|]. intros from _.
  eapply keeps_bind; [eauto with records|]. intros ns _.
  eapply (keeps_bind _ any);
    [|intros _ _; eapply keeps_bind; [apply lift_any|]; intros seqNo _; apply lift_any].
  destruct (Z.ltb_spec (u32 (Body_length_ h + HEADER_SIZE)) size); cbn [when]; [|by apply keeps_ret].
  eapply (keeps_bind _ (wires_hold P)); [|eauto with records].
  apply keeps_lift. intros nss. by apply Hd.
Qed.

Lemma encodeLocalState_holds : keeps holds any encodeLocalState.
Proof. unfold encodeLocalState. keeps_solve. Qed.
Hint Resolve encodeLocalState_holds : records.

Lemma handleBody_holds type buff size resp resp_size :
  table_holds P buff ->
  keeps holds any (handleBody host type buff size resp resp_size).
Proof.
  intros Hb. unfold handleBody. destruct (_ =? TYPE_PING); [keeps_solve|].
  destruct (_ =? TYPE_SYNCSTATE); [|apply keeps_crash].
  apply merge_decoded_holds; [done|]. keeps_solve.
Qed.

Lemma syncState_holds peer : peer_holds host P peer -> keeps holds any (syncState host peer).
Proof.
  intros Hp. unfold syncState. destruct peer as [peer|]; [|by apply keeps_ret].
  eapply keeps_bind; [apply encodeLocalState_holds|]. intros body _. cbv zeta.
  eapply keeps_bind; [apply stack_array_holds|]. intros _ _.
  eapply keeps_bind; [apply lift_any|]. intros b1 _.
  eapply keeps_bind; [apply lift_any|]. intros b2 _. unfold syncRequest, ReadFull.
  destruct (peer b2) as [stream|] eqn:E; [|by apply keeps_ret]. apply (Hp peer b2 _ eq_refl) in E.
  destruct (_ <? HEADER_SIZE); [by apply keeps_ret|]. cbv beta iota.
  eapply (keeps_bind _ (fun h => DecodeHeader host (take (Z.to_nat HEADER_SIZE) stream) = Ok h));
    [by apply keeps_lift|].
  intros h Hh. eapply keeps_bind; [apply stack_array_holds|]. intros _ _.
  destruct (_ <? _); [by apply keeps_ret|]. cbv beta iota.
  apply merge_decoded_holds; [by apply E|by apply keeps_ret].
Qed.

Lemma Join_holds network peer : (forall h p, peer_holds host P (network h p)) ->
  keeps holds any (Join host network peer).
Proof.
  intros Hn. unfold Join, alive.
  assert (forall h p, keeps holds any (syncState host (network h p))) by eauto using syncState_holds.
  destruct (Split peer ":") as [[|? [|? [|]]]|]; keeps_solve.
Qed.
End packets.
End records.

Lemma keeps_elim {A S} (I : S -> Prop) (R : A -> Prop) (op : M S A) g a g' :
  keeps I R op -> I g -> op g = Ok (a, g') -> R a /\ I g'.
Proof. intros Hop Hg E. specialize (Hop g Hg). unfold wpx in Hop. by rewrite E in Hop. Qed.
