(* ===== verification/Exchange.v ===== *)
(** * Two gossipers talking

    What one gossiper sends is what another receives: the ping with its gossip,
    the pong with its alert, the exchange of tables. The codec is the
    [MessageCodec] interface; the buffers are the code's. *)
From Stdlib Require Import Ascii.
From S2P Require Import Prelude Utils Bytes Header Node Broadcast Suspicion Messages Gossiper.
From S2P Require Import Membership Protocol Dynamics.
Local Open Scope Z_scope.

Section exchange.
Context `{IterationOrder} `{!MessageCodec} `{!MessageCodecOk _}.

(** A packet: header, body, and what is appended. *)
Definition packet (type : Z) (body rest : list Z) : list Z :=
  header_bytes (mkHeader type (len body)) ++ body ++ rest.

Lemma length_packet type body rest :
  length (packet type body rest) = (8 + length body + length rest)%nat.
Proof. unfold packet. rewrite !length_app, length_header_bytes. lia. Qed.

Lemma decode_at {A} (dec : list Z -> Z -> outcome A) (enc : A -> list Z) ok a type rest :
  roundtrip ok enc dec -> ok a -> dec (packet type (enc a) rest) HEADER_SIZE = Ok a.
Proof.
  intros Hr Ha. unfold packet.
  pose proof (Hr a (header_bytes (mkHeader type (len (enc a)))) rest Ha) as E.
  rewrite length_header_bytes in E. exact E.
Qed.

Lemma decode_appended {A} (dec : list Z -> Z -> outcome A) (enc : A -> list Z) ok a type body rest :
  roundtrip ok enc dec -> ok a ->
  dec (packet type body (enc a ++ rest)) (HEADER_SIZE + len body) = Ok a.
Proof.
  intros Hr Ha. unfold packet.
  pose proof (Hr a (header_bytes (mkHeader type (len body)) ++ body) rest Ha) as E.
  rewrite <- app_assoc, length_app, length_header_bytes, Nat2Z.inj_add in E. exact E.
Qed.

Lemma DecodeHeader_packet host type body rest : in_range 32 type -> len body < 2 ^ 32 ->
  DecodeHeader host (packet type body rest) = Ok (mkHeader type (len body)).
Proof.
  intros Ht Hl. apply DecodeHeader_bytes. split; [done|]. unfold in_range, len in *. cbn. lia.
Qed.

(** Header and body written into a buffer with room for them. *)
Lemma encode_packet host type body buff : in_range 32 type -> len body < 2 ^ 32 ->
  HEADER_SIZE + len body <= len buff ->
  (buff ← EncodeHeader host buff (mkHeader type (u32 (len body))); memcpy buff HEADER_SIZE body) =
  Ok (packet type body (drop (8 + length body) buff)).
Proof.
  unfold HEADER_SIZE, len. intros Ht Hl Hlen.
  rewrite wrap_small by (unfold in_range; lia).
  rewrite EncodeHeader_Ok; [|split; [done|unfold in_range; cbn; lia]|unfold HEADER_SIZE; lia].
  cbn [mbind outcome_bind]. set (h := mkHeader type _).
  replace (4 + 4) with (Z.of_nat (length (header_bytes h))) by by rewrite length_header_bytes.
  rewrite memcpy_app by (rewrite length_drop; lia). unfold packet. by rewrite drop_drop.
Qed.

(** Copying behind a packet. *)
Lemma append_packet type body rest src : (length src <= length rest)%nat ->
  memcpy (packet type body rest) (HEADER_SIZE + len body) src =
  Ok (packet type body (src ++ drop (length src) rest)).
Proof.
  intros Hl. unfold packet. rewrite app_assoc.
  replace (HEADER_SIZE + len body) with
    (Z.of_nat (length (header_bytes (mkHeader type (len body)) ++ body)))
    by (unfold len, HEADER_SIZE; rewrite length_app, length_header_bytes; lia).
  rewrite memcpy_app by done. by rewrite <- app_assoc.
Qed.

(** The first bytes of a packet, its body among them. *)
Lemma take_packet type body rest k : 0 <= k ->
  take (Z.to_nat (HEADER_SIZE + len body + k)) (packet type body rest) =
  packet type body (take (Z.to_nat k) rest).
Proof.
  intros Hk. unfold packet, len, HEADER_SIZE. rewrite app_assoc, take_app_ge;
    rewrite length_app, length_header_bytes; [|lia].
  rewrite <- app_assoc. do 3 f_equal. lia.
Qed.

(** ** The ping *)

Definition ping_body (g : gossiper) (seq : Z) : list Z :=
  encode_Ping (mkPing seq (Some (self_name g))).

Lemma ping_ok g seq : in_range 64 seq -> wire_string (self_name g) ->
  Ping_ok (mkPing seq (Some (self_name g))).
Proof. done. Qed.

(** [generatePing] up to the batch. *)
Lemma generatePing_run host seq buff g : len buff = mtu ->
  HEADER_SIZE + len (ping_body g seq) <= mtu ->
  generatePing host seq buff mtu g =
    ('(appended, buff) ← appendGossipMsg
        (packet TYPE_PING (ping_body g seq) (drop (8 + length (ping_body g seq)) buff))
        (HEADER_SIZE + len (ping_body g seq)) (mtu - len (ping_body g seq) - HEADER_SIZE);
     mret (HEADER_SIZE + len (ping_body g seq) + appended, buff)) g.
Proof.
  intros Hb Hfit. unfold generatePing. step. fold (self_name g). fold (ping_body g seq).
  set (body := ping_body g seq) in *. cbv zeta.
  pose proof (encode_packet host TYPE_PING body buff ltac:(done)) as E.
  unfold mtu, HEADER_SIZE in *. specialize (E ltac:(lia) ltac:(lia)).
  destruct (EncodeHeader host buff _) as [b1|] eqn:E1; [|done]. cbn [mbind outcome_bind] in E.
  step (eq_refl : lift (Ok b1) g = Ok (b1, g)).
  rewrite (proj2 (Z.ltb_ge _ _)) by lia.
  fold HEADER_SIZE in E |- *.
  erewrite bind_Ok; [|unfold lift; rewrite E; reflexivity]. done.
Qed.

(** A ping whose body does not fit is not sent. *)
Lemma generatePing_no_room host seq buff g : len buff = mtu ->
  mtu < HEADER_SIZE + len (ping_body g seq) -> exists sent,
  generatePing host seq buff mtu g = Ok ((-1, sent), g) /\ len sent = mtu.
Proof.
  intros Hb Hbig. unfold generatePing. step. fold (self_name g). fold (ping_body g seq). cbv zeta.
  erewrite bind_Ok; [|unfold lift; rewrite EncodeHeader_Ok; [reflexivity| |]].
  - rewrite (proj2 (Z.ltb_lt _ _)) by done. eexists. split; [reflexivity|].
    unfold len, mtu in *. rewrite length_app, length_header_bytes, length_drop. lia.
  - split; [done|]. apply wrap_range. lia.
  - unfold len, mtu, HEADER_SIZE in *. lia.
Qed.

(** What every sent ping looks like. *)
Lemma generatePing_layout host seq buff g size buff' g' : inv g -> len buff = mtu ->
  HEADER_SIZE + len (ping_body g seq) <= mtu ->
  generatePing host seq buff mtu g = Ok ((size, buff'), g') ->
  exists rest, buff' = packet TYPE_PING (ping_body g seq) rest /\ len buff' = mtu /\
    HEADER_SIZE + len (ping_body g seq) <= size <= mtu /\ conf_ g' = conf_ g.
Proof.
  intros Hg Hb Hfit. rewrite generatePing_run by done.
  set (body := ping_body g seq) in *. set (rest := drop _ buff).
  assert (len (packet TYPE_PING body rest) = mtu) as Hlen.
  { unfold len, mtu, HEADER_SIZE in *. rewrite length_packet. subst rest. rewrite length_drop. lia. }
  destruct (appendGossipMsg_spec (packet TYPE_PING body rest) (HEADER_SIZE + len body)
    (mtu - len body - HEADER_SIZE) g) as (q & _ & _ & E); [apply inv0_queue_ok, Hg|].
  unfold mbind at 1, M_bind. rewrite E. destruct (mapM wire_state (batch g)) as [ws|]; [|done].
  cbn [mbind outcome_bind]. destruct ws as [|w ws].
  - intros [= <- <- <-]. exists rest. split_and!; try done; unfold len in *; lia.
  - destruct (Z.ltb_spec (mtu - len body - HEADER_SIZE) (len (encode_NodeStates (Some (w :: ws))))).
    + unfold shrinkMaxAppendedMsg. run.
      destruct (_ =? 1); intros [= <- <- <-]; exists rest; split_and!; try done; unfold len in *; lia.
    + set (b := encode_NodeStates _) in *.
      rewrite append_packet; [|unfold len, mtu, HEADER_SIZE in *; rewrite length_packet in Hlen; lia].
      cbn [mbind outcome_bind]. intros [= <- <- <-]. eexists. split; [done|].
      unfold len, mtu, HEADER_SIZE in *. rewrite !length_packet in *.
      rewrite length_app, length_drop. split_and!; try done; lia.
Qed.

(** ** The receiver *)

(** Receiving a packet of [size] bytes into a buffer with old contents. *)
Definition received (size : Z) (sent old : list Z) : list Z :=
  take (Z.to_nat size) sent ++ drop (Z.to_nat size) old.

(** A received packet is a packet, of which the tail is what was appended and
    then old bytes. *)
Lemma received_packet type body rest size old : len old = len (packet type body rest) ->
  HEADER_SIZE + len body <= size <= len old ->
  received size (packet type body rest) old =
    packet type body (take (Z.to_nat size - 8 - length body) rest ++ drop (Z.to_nat size) old).
Proof.
  unfold len, HEADER_SIZE, received. intros Ho Hs. rewrite length_packet in Ho.
  unfold packet. rewrite app_assoc.
  rewrite (take_app_ge _ rest) by (rewrite length_app, length_header_bytes; lia).
  rewrite length_app, length_header_bytes, <- !app_assoc.
  replace (Z.to_nat size - (8 + length body))%nat with (Z.to_nat size - 8 - length body)%nat by lia.
  done.
Qed.

Context `{Residue}.

(** The ping case of [handlePacket], on a packet. *)
Lemma handlePacket_run host p from rest size resp_size h : Ping_ok p -> ping_from p = Some from ->
  len (encode_Ping p) + 8 < 2 ^ 32 ->
  let data := packet TYPE_PING (encode_Ping p) rest in
  handlePacket host data size resp_size h =
    (when (HEADER_SIZE + len (encode_Ping p) <? size)
       (gossipMsg ← lift (decode_NodeStates data (HEADER_SIZE + len (encode_Ping p)));
        mergeStates gossipMsg true) ;;
     lift (answerPing host (node_map_ h !! from) (ping_seqNo p) data resp_size)) h.
Proof.
  intros Hp Hf Hl data. unfold handlePacket.
  assert (DecodeHeader host data = Ok (mkHeader TYPE_PING (len (encode_Ping p)))) as E
    by (apply DecodeHeader_packet; [done|lia]).
  erewrite bind_Ok; [|unfold lift; rewrite E; reflexivity]. cbn [Type_ Body_length_].
  rewrite Z.eqb_refl.
  destruct (Ping_fields data HEADER_SIZE p) as [Eseq Efrom];
    [unfold data; by rewrite (decode_at _ _ _ _ _ _ Ping_roundtrip Hp)|].
  rewrite Efrom, Hf, Eseq. step (eq_refl : lift (Ok (Some from)) h = Ok (Some from, h)). step (eq_refl : lift (deref_opt (Some from)) h = Ok (from, h)).
  step (eq_refl : getNodeState from h = Ok (node_map_ h !! from, h)).
  rewrite (wrap_small 32) by (unfold in_range, len, HEADER_SIZE in *; lia).
  by rewrite Z.add_comm.
Qed.

Definition pong_body (seq : Z) : list Z := encode_Pong (mkPong seq).

(** The alert behind a pong: there is none unless the pinging node is dead
    here and the alert fits. *)
Definition alert_body (ns : option node_state) (w : NodeState) : list Z :=
  match ns with
  | Some n => if bool_decide (State_ n = STATE_DEAD) then encode_NodeState w else []
  | None => []
  end.

Lemma answerPing_run host ns w seq data :
  HEADER_SIZE + len (pong_body seq) <= len data < 2 ^ 32 ->
  (forall n, ns = Some n -> State_ n = STATE_DEAD -> wire_state n = Ok w) ->
  HEADER_SIZE + len (pong_body seq) + len (alert_body ns w) <= len data ->
  exists rest, answerPing host ns seq data (len data) =
    Ok (HEADER_SIZE + len (pong_body seq) + len (alert_body ns w),
        packet TYPE_PONG (pong_body seq) (alert_body ns w ++ rest)).
Proof.
  intros Hlen Hw Hfit. unfold answerPing. fold (pong_body seq).
  set (ack := pong_body seq) in *. cbv zeta.
  rewrite (proj2 (Z.ltb_ge _ _)) by lia.
  pose proof (encode_packet host TYPE_PONG ack data ltac:(done) ltac:(unfold HEADER_SIZE in *; lia) ltac:(lia)) as E.
  destruct (EncodeHeader host data _) as [b1|]; [|done]. cbn [mbind outcome_bind] in E |- *.
  rewrite E. cbn [mbind outcome_bind]. set (rest := drop _ data).
  assert (forall ws, ws = ([] : list Z) ->
    exists r, Ok (len ack + HEADER_SIZE, packet TYPE_PONG ack rest) =
      Ok (HEADER_SIZE + len ack + len ws, packet TYPE_PONG ack (ws ++ r))) as Hnone.
  { intros ws ->. exists rest. cbn. do 2 f_equal. unfold len. simpl. lia. }
  destruct ns as [n|]; [|by apply Hnone]. cbn [alert_body] in *.
  destruct (bool_decide (State_ n = STATE_DEAD)) eqn:Ed; [|by apply Hnone].
  apply bool_decide_eq_true in Ed. unfold appendDeadAlert. rewrite (Hw n eq_refl Ed).
  cbn [mbind outcome_bind]. set (al := encode_NodeState w) in *.
  rewrite (proj2 (Z.ltb_ge _ _)) by lia. rewrite (Z.add_comm (len ack)).
  rewrite append_packet.
  - cbn [mbind outcome_bind]. eexists. reflexivity.
  - subst rest. rewrite length_drop. unfold len, HEADER_SIZE in *. lia.
Qed.

(** ** The pong *)

Lemma on_pong_run host seq0 seq ns w rest g : Pong_ok (mkPong seq) ->
  len (pong_body seq) + 8 < 2 ^ 32 ->
  (forall n, ns = Some n -> State_ n = STATE_DEAD -> NodeState_ok w /\
    exists nm, node w = Some nm /\ name nm = Some (self_name g) /\
    STATE_of_int8 (state w) = STATE_DEAD) ->
  (forall n, ns = Some n -> State_ n = STATE_DEAD -> encode_NodeState w <> []) ->
  on_pong host seq0 (packet TYPE_PONG (pong_body seq) (alert_body ns w ++ rest))
    (HEADER_SIZE + len (pong_body seq) + len (alert_body ns w)) g =
  (match ns with
   | Some n => if bool_decide (State_ n = STATE_DEAD) then fuckyou (dominant w) g else Ok (tt, g)
   | None => Ok (tt, g)
   end).
Proof.
  intros Hp Hl Hw Hne. unfold on_pong. set (data := packet _ _ _).
  assert (DecodeHeader host data = Ok (mkHeader TYPE_PONG (len (pong_body seq)))) as E
    by (apply DecodeHeader_packet; [done|lia]).
  erewrite bind_Ok; [|unfold lift; rewrite E; reflexivity]. cbn [Type_ Body_length_].
  rewrite Z.eqb_refl. cbn [negb].
  erewrite bind_Ok; [|unfold lift, data, pong_body; rewrite (decode_at _ _ _ _ _ _ Pong_roundtrip Hp); reflexivity].
  rewrite (wrap_small 32) by (unfold in_range, len, HEADER_SIZE in *; lia).
  assert (alert_body ns w = [] -> (HEADER_SIZE + len (pong_body seq) <?
    HEADER_SIZE + len (pong_body seq) + len (alert_body ns w)) = false) as Hno.
  { intros ->. apply Z.ltb_ge. unfold len. simpl. lia. }
  destruct ns as [n|]; [|by rewrite Hno]. cbn [alert_body] in *.
  destruct (bool_decide (State_ n = STATE_DEAD)) eqn:Ed; [|by rewrite Hno].
  apply bool_decide_eq_true in Ed.
  destruct (Hw n eq_refl Ed) as (Hok & nm & En & Enm & Es). specialize (Hne n eq_refl Ed).
  rewrite (proj2 (Z.ltb_lt _ _)); last first.
  { unfold len. destruct (encode_NodeState w); [done|]. simpl. lia. }
  destruct (NodeState_fields data (HEADER_SIZE + len (pong_body seq)) w) as (Fn & Fs & Fd);
    [unfold data; by rewrite (decode_appended _ _ _ _ _ _ _ NodeState_roundtrip Hok)|].
  cbv zeta. rewrite Fn, Fs, Fd, En. cbn [deref_opt mbind outcome_bind]. rewrite Enm.
  step. step. step. fold (self_name g).
  rewrite Es, !bool_decide_eq_true_2 by done. done.
Qed.

(** What the code converts a well-formed state to, and back. *)
Lemma wire_report n : node_state_ok n -> exists w, wire_state n = Ok w /\ NodeState_ok w /\
  convert_fields w = Ok n.
Proof. apply wire_state_ok. Qed.

Lemma wire_reports l : Forall node_state_ok l ->
  exists ws, mapM wire_state l = Ok ws /\ Forall NodeState_ok ws /\
    Forall2 (fun n w => convert_fields w = Ok n) l ws.
Proof.
  induction 1 as [|n l Hn _ (ws & E & Hok & Hc)]; [by exists []|].
  destruct (wire_report n Hn) as (w & Ew & Hw & Hcw). exists (w :: ws).
  cbn [mapM]. rewrite Ew. cbn [mbind outcome_bind]. rewrite E.
  split; [done|]. by split; constructor.
Qed.

Lemma mergeStates_reports need_bc l ws h : Intact _ -> Forall2 (fun n w => convert_fields w = Ok n) l ws ->
  mergeStates (Some ws) need_bc h = for_each l (mergeReport need_bc) h.
Proof.
  intros HI Hl. unfold mergeStates. step (eq_refl : lift (deref_opt (Some ws)) h = Ok (ws, h)).
  revert h. induction Hl as [|n w l ws Hn _ IH]; intros h; [done|]. cbn [for_each].
  assert (mergeState need_bc w h = mergeReport need_bc n h) as E.
  { unfold mergeState. erewrite bind_Ok; [reflexivity|]. unfold lift, convert, read_stale. rewrite Hn.
    cbn. by rewrite HI. }
  unfold mbind, M_bind. rewrite E. destruct (mergeReport need_bc n h) as [[[] h']|]; [apply IH|done].
Qed.

(** The record the receiver has of the pinging node, if it is dead, can be
    sent and fits behind the pong. *)
Definition alert_fits (ns : option node_state) (seq : Z) : Prop :=
  forall n, ns = Some n -> State_ n = STATE_DEAD -> node_state_ok n /\
    forall w, wire_state n = Ok w ->
    HEADER_SIZE + len (pong_body seq) + len (encode_NodeState w) <= mtu.

Lemma answer_to_ping host client ns seq data g : len data = mtu -> in_range 64 seq ->
  alert_fits ns seq -> (forall n, ns = Some n -> Name_ n = self_name g) ->
  exists rst data', answerPing host ns seq data mtu = Ok (rst, data') /\ 0 < rst <= mtu /\
    DecodeHeader client data' = Ok (mkHeader TYPE_PONG (len (pong_body seq))) /\
    decode_Pong data' HEADER_SIZE = Ok (mkPong seq) /\
    on_pong client seq data' rst g =
      match ns with
      | Some n => if bool_decide (State_ n = STATE_DEAD) then fuckyou (Dominant_ n) g else Ok (tt, g)
      | None => Ok (tt, g)
      end.
Proof.
  intros Hd Hs Hfit Hname. pose proof (encode_Pong_length (mkPong seq)) as Hpl.
  fold (pong_body seq) in Hpl. fold (len (pong_body seq)) in Hpl.
  assert (exists w, (forall n, ns = Some n -> State_ n = STATE_DEAD -> wire_state n = Ok w /\
    NodeState_ok w /\ convert_fields w = Ok n)) as [w Hw].
  { destruct ns as [n|]; [|by exists (mkWState None 0 0 None 0)].
    destruct (decide (State_ n = STATE_DEAD)) as [Hdead|Hnd].
    - destruct (Hfit n eq_refl Hdead) as [Hok _]. destruct (wire_report n Hok) as (w & ? & ? & ?).
      exists w. by intros ? [= <-].
    - exists (mkWState None 0 0 None 0). by intros ? [= <-]. }
  assert (HEADER_SIZE + len (pong_body seq) + len (alert_body ns w) <= mtu) as Hroom.
  { destruct ns as [n|]; cbn [alert_body]; [|unfold len, HEADER_SIZE, mtu in *; simpl; lia].
    case_bool_decide as Hdead; [|unfold len, HEADER_SIZE, mtu in *; simpl; lia].
    apply (Hfit n eq_refl Hdead). by destruct (Hw n eq_refl Hdead). }
  destruct (answerPing_run host ns w seq data) as (rest & E).
  { rewrite Hd. unfold mtu, HEADER_SIZE in *. lia. }
  { intros n Hn Hdead. by destruct (Hw n Hn Hdead). }
  { by rewrite Hd. }
  rewrite Hd in E. eexists _, _. split; [exact E|].
  assert (Pong_ok (mkPong seq)) as Hpok by done.
  split_and!.
  - unfold len, HEADER_SIZE. lia.
  - done.
  - apply DecodeHeader_packet; [done|lia].
  - unfold pong_body. by apply (decode_at _ _ _ _ _ _ Pong_roundtrip).
  - rewrite on_pong_run; [|done|lia| |].
    + destruct ns as [n|]; [|done]. case_bool_decide as Hdead; [|done].
      destruct (Hw n eq_refl Hdead) as (_ & _ & Hc).
      by destruct (convert_fields_inv _ _ Hc) as (_ & _ & _ & -> & _).
    + intros n Hn Hdead. destruct (Hw n Hn Hdead) as (_ & Hok & Hc). split; [done|].
      destruct (convert_fields_inv _ _ Hc) as (nw & En & Enm & _ & Es).
      exists nw. rewrite (Hname n Hn) in Enm. by rewrite Es.
    + intros n Hn Hdead. apply encode_NodeState_nonempty.
Qed.

(** What [handlePacket] answers to a ping is the answer to its sender and
    sequence number, given in a full buffer. *)
Lemma ping_handled client server seq buff old size rst sent data g g1 h h1 :
  inv g -> len buff = mtu -> len old = mtu -> in_range 64 seq -> wire_string (self_name g) ->
  HEADER_SIZE + len (ping_body g seq) <= mtu ->
  generatePing client seq buff mtu g = Ok ((size, sent), g1) ->
  handlePacket server (received size sent old) size mtu h = Ok ((rst, data), h1) ->
  exists pk, len pk = mtu /\
    answerPing server (node_map_ h !! self_name g) seq pk mtu = Ok (rst, data).
Proof.
  intros Hg Hb Ho Hseq Hname Hfit Hgen Hpkt.
  destruct (generatePing_layout client seq buff g size sent g1 Hg Hb Hfit Hgen)
    as (rest & -> & Hlen & Hsize & _).
  rewrite received_packet in Hpkt by (congruence || by rewrite ?Ho).
  set (p := mkPing seq (Some (self_name g))).
  change (ping_body g seq) with (encode_Ping p) in *.
  rewrite (handlePacket_run server p (self_name g)) in Hpkt; [|done|done|unfold mtu, HEADER_SIZE in *; lia].
  unfold mbind at 1, M_bind in Hpkt. destruct (when _ _ h) as [[[] h']|]; [|done].
  set (pk := packet TYPE_PING (encode_Ping p) _) in *. exists pk. split.
  - unfold pk, len, mtu, HEADER_SIZE in *. rewrite length_packet in *.
    rewrite length_app, length_take, length_drop. lia.
  - unfold lift in Hpkt. cbn [ping_seqNo p] in Hpkt.
    by destruct (answerPing _ _ _ _ _) as [r|]; [injection Hpkt as -> _|].
Qed.

(** ** Properties *)

(** C6: a ping is answered. Whatever gossip a ping carries, a receiver that
    survives merging it answers with a pong that the pinging node decodes to
    its own sequence number; and on receiving it the pinging node does nothing,
    unless the receiver held it dead when the ping came: then the pong carries
    that record and the node objects to its death, with a dominant above the
    record's unless that is the largest 64-bit value. Both satisfy the membership
    invariant, the pinging node's name can be sent and fits the packet, and the
    record, if dead, can be sent and fits behind the pong ([alert_fits]). The hosts
    may differ in byte order. *)
Theorem ping_answered (client server : endian) (seq : Z) (buff old : list Z) (size rst : Z)
    (sent data : list Z) (g g1 g2 h h1 : gossiper) :
  inv g -> inv h -> inv g2 -> len buff = mtu -> len old = mtu -> in_range 64 seq ->
  wire_string (self_name g) -> HEADER_SIZE + len (ping_body g seq) <= mtu ->
  alert_fits (node_map_ h !! self_name g) seq -> self_name g2 = self_name g ->
  generatePing client seq buff mtu g = Ok ((size, sent), g1) ->
  handlePacket server (received size sent old) size mtu h = Ok ((rst, data), h1) ->
  0 < rst <= mtu /\
  DecodeHeader client data = Ok (mkHeader TYPE_PONG (len (pong_body seq))) /\
  decode_Pong data HEADER_SIZE = Ok (mkPong seq) /\
  match node_map_ h !! self_name g with
  | Some n =>
    if bool_decide (State_ n = STATE_DEAD) then
      let d := objection (dominant_ g2) (Dominant_ n) in
      (Dominant_ n < 2 ^ 64 - 1 -> Dominant_ n < d) /\
      exists q, on_pong client seq data rst g2 = Ok (tt, set_bc_queue_ q (set_dominant_ d g2)) /\
        map_find (self_name g) (m_ q) =
          Some (push_entry (self_state (conf_ g2) d) (node_num_ g2)
            (map_find (self_name g) (m_ (bc_queue_ g2))))
    else on_pong client seq data rst g2 = Ok (tt, g2)
  | None => on_pong client seq data rst g2 = Ok (tt, g2)
  end.
Proof.
  intros Hg Hh Hi2 Hb Ho Hseq Hname Hfit Halert Hg2 Hgen Hpkt.
  destruct (ping_handled client server seq buff old size rst sent data g g1 h h1) as (pk & Hpk & E);
    try done.
  destruct (answer_to_ping server client (node_map_ h !! self_name g) seq pk g2 Hpk Hseq Halert)
    as (rst' & data' & E' & Hr1 & Hr2 & Hr3 & Hr4).
  { intros n Hn. rewrite Hg2. by destruct (inv_names _ (proj1 Hh) _ _ Hn). }
  rewrite E in E'. injection E' as <- <-. do 3 (split; [done|]).
  destruct (node_map_ h !! self_name g) as [n|] eqn:En; [|done].
  destruct (bool_decide (State_ n = STATE_DEAD)); [|done]. rewrite Hr4. cbv zeta. split.
  - apply objection_above_all, Hi2.
  - destruct (fuckyou_run (Dominant_ n) g2) as (q & Ef & _ & Hq);
      [by apply inv0_queue_ok, Hi2|apply Hi2|].
    exists q. split; [exact Ef|]. rewrite <- Hg2. by rewrite Hq, decide_True by done.
Qed.

(** The batch as it goes over the wire. *)
Definition batch_body (g : gossiper) (ws : list NodeState) : list Z :=
  encode_NodeStates (Some ws).

Lemma batch_short g : MAX_APPENDED_MSG_ g <= 10 -> (length (batch g) <= 10)%nat.
Proof. intros Hm. unfold batch. rewrite length_fmap, length_take. lia. Qed.

(** The batch on the wire, and what it converts back to. *)
Lemma wire_batch g ws : MAX_APPENDED_MSG_ g <= 10 -> Forall node_state_ok (batch g) ->
  mapM wire_state (batch g) = Ok ws ->
  NodeStates_ok (Some ws) /\ Forall2 (fun n w => convert_fields w = Ok n) (batch g) ws.
Proof.
  intros Hmax Hok Hws. destruct (wire_reports _ Hok) as (ws' & Hws' & Hwok & Hconv).
  assert (ws' = ws) as -> by congruence. split; [split; [done|]|done].
  pose proof (batch_short g Hmax). rewrite <- (Forall2_length _ _ _ Hconv). lia.
Qed.

(** The packet a ping with a fitting batch is. *)
Definition gossip_packet (g : gossiper) (seq : Z) (ws : list NodeState) (rest : list Z) : list Z :=
  packet TYPE_PING (ping_body g seq) (batch_body g ws ++ rest).

Definition gossip_size (g : gossiper) (seq : Z) (ws : list NodeState) : Z :=
  HEADER_SIZE + len (ping_body g seq) + len (batch_body g ws).

Lemma gossip_sent host seq buff g ws : inv g -> len buff = mtu -> ws <> [] ->
  mapM wire_state (batch g) = Ok ws -> gossip_size g seq ws <= mtu ->
  exists rest q, generatePing host seq buff mtu g =
      Ok ((gossip_size g seq ws, gossip_packet g seq ws rest), set_bc_queue_ q g) /\
    len (gossip_packet g seq ws rest) = mtu /\ queue_ok q /\
    ring q = drop (length (batch g)) (ring (bc_queue_ g))
      ++ (take (length (batch g)) (ring (bc_queue_ g)) ≫= served) /\
    msg_of <$> take (length (batch g)) (ring (bc_queue_ g)) = batch g.
Proof.
  unfold gossip_size, gossip_packet, batch_body. intros Hg Hb Hne Hws Hfit.
  rewrite (generatePing_run host seq buff g Hb) by (unfold len in *; lia).
  set (body := ping_body g seq) in *. set (rest := drop _ buff).
  destruct (appendGossipMsg_spec (packet TYPE_PING body rest) (HEADER_SIZE + len body)
    (mtu - len body - HEADER_SIZE) g) as (q & Hq & Hr & E); [apply inv0_queue_ok, Hg|].
  rewrite Hws in E. cbn [mbind outcome_bind] in E. destruct ws as [|w0 ws0]; [done|].
  set (ws := w0 :: ws0) in *. set (gb := encode_NodeStates (Some ws)) in *.
  rewrite (proj2 (Z.ltb_ge _ _)) in E by lia.
  assert (length rest = 1460 - (8 + length body))%nat as Hrest.
  { subst rest. rewrite length_drop. unfold len, mtu in Hb. lia. }
  rewrite append_packet in E by (unfold len, mtu, HEADER_SIZE in *; lia).
  cbn [mbind outcome_bind] in E.
  assert (length (batch g) = Nat.min (Z.to_nat (MAX_APPENDED_MSG_ g)) (length (m_ (bc_queue_ g)))) as Hj.
  { unfold batch. rewrite length_fmap, length_take, length_ring. lia. }
  exists (drop (length gb) rest), q. split; [unfold mbind at 1, M_bind; by rewrite E|].
  split; [|by rewrite Hj]. unfold len, mtu, HEADER_SIZE in *.
  rewrite length_packet, length_app, length_drop. lia.
Qed.

Lemma gossip_received host seq g ws l rest old h : Intact _ -> in_range 64 seq ->
  wire_string (self_name g) -> NodeStates_ok (Some ws) ->
  Forall2 (fun n w => convert_fields w = Ok n) l ws -> gossip_size g seq ws <= mtu ->
  len (gossip_packet g seq ws rest) = mtu -> len old = mtu ->
  let data := received (gossip_size g seq ws) (gossip_packet g seq ws rest) old in
  handlePacket host data (gossip_size g seq ws) mtu h =
    (for_each l (mergeReport true) ;;
     lift (answerPing host (node_map_ h !! self_name g) seq data mtu)) h.
Proof.
  unfold gossip_size, gossip_packet, batch_body.
  intros HI Hseq Hname Hnss Hconv Hfit Hsent Ho. cbv zeta.
  set (body := ping_body g seq) in *. set (gb := encode_NodeStates (Some ws)) in *.
  set (size := HEADER_SIZE + len body + len gb) in *.
  assert (0 < len gb) as Hgb.
  { assert (gb <> []) as Hne by apply encode_NodeStates_nonempty.
    clearbody gb. unfold len. destruct gb; [done|simpl; lia]. }
  assert (received size (packet TYPE_PING body (gb ++ rest)) old =
    packet TYPE_PING body (gb ++ drop (Z.to_nat size) old)) as ->.
  { rewrite received_packet; [|by rewrite Ho|unfold size, len in *; lia].
    do 2 f_equal. unfold size, len, HEADER_SIZE. rewrite take_app_le by lia. apply take_ge. lia. }
  set (p := mkPing seq (Some (self_name g))). change body with (encode_Ping p).
  rewrite (handlePacket_run host p (self_name g)); [|done|done|].
  2: { change (encode_Ping p) with body. unfold size, mtu, HEADER_SIZE, len in *. lia. }
  change (encode_Ping p) with body. cbn [ping_seqNo p].
  rewrite (proj2 (Z.ltb_lt _ _)) by (unfold size; lia). cbn [when].
  unfold mbind at 1 3, M_bind. rewrite (bind_Ok _ _ _ (Some ws) h).
  2: { unfold lift, gb. by rewrite (decode_appended _ _ _ _ _ _ _ NodeStates_roundtrip Hnss). }
  by rewrite (mergeStates_reports true l ws h HI Hconv).
Qed.

(** C7: gossip is delivered. If the queue's next batch (of at most the ten reports
    the batch size starts at, each fit for the wire: its strings short and without
    NUL, its port a printed [int16_t], its counters in range) fits the packet behind
    a ping in our name, which can be sent too, the ping carries it, the batch is counted as sent once, and any receiver of that
    datagram merges exactly those reports, in order, before it answers. This is for
    [Intact] memory: each report reaches the receiver through a reference to a local
    of [convert] that is gone, and its storage is assumed to be readable and to hold
    the report still. *)
Theorem gossip_delivered (client server : endian) (seq : Z) (buff : list Z) (g : gossiper)
    (ws : list NodeState) :
  Intact _ -> inv g -> len buff = mtu -> in_range 64 seq -> wire_string (self_name g) ->
  MAX_APPENDED_MSG_ g <= 10 -> batch g <> [] -> Forall node_state_ok (batch g) ->
  mapM wire_state (batch g) = Ok ws ->
  HEADER_SIZE + len (ping_body g seq) + len (batch_body g ws) <= mtu ->
  let j := length (batch g) in
  let r := ring (bc_queue_ g) in
  exists size sent q, generatePing client seq buff mtu g = Ok ((size, sent), set_bc_queue_ q g) /\
    queue_ok q /\ ring q = drop j r ++ (take j r ≫= served) /\ msg_of <$> take j r = batch g /\
    forall h old, len old = mtu ->
      handlePacket server (received size sent old) size mtu h =
        (for_each (batch g) (mergeReport true) ;;
         lift (answerPing server (node_map_ h !! self_name g) seq (received size sent old) mtu)) h.
Proof.
  intros HI Hg Hb Hseq Hname Hmax Hne Hok Hws Hfit j r.
  destruct (wire_batch g ws Hmax Hok Hws) as [Hnss Hconv].
  destruct (gossip_sent client seq buff g ws Hg Hb) as (rest & q & E & Hl & Hq & Hr & Hm); [|done..|].
  { intros ->. apply Forall2_nil_inv_r in Hconv. done. }
  exists (gossip_size g seq ws), (gossip_packet g seq ws rest), q. split_and!; [done..|].
  intros h old Ho. by apply gossip_received.
Qed.

(** A batch that does not fit is not lost, and may never leave. The ping
    goes out without it, the queue stays as it is, and the batch size is
    halved; at batch size one nothing changes at all, so that a first message
    too large for a packet blocks the gossip of every later ping. *)
Theorem oversize_batch (host : endian) (seq : Z) (buff : list Z) (g : gossiper)
    (ws : list NodeState) :
  inv g -> len buff = mtu -> HEADER_SIZE + len (ping_body g seq) <= mtu -> ws <> [] ->
  mapM wire_state (batch g) = Ok ws ->
  mtu < HEADER_SIZE + len (ping_body g seq) + len (batch_body g ws) ->
  exists sent, generatePing host seq buff mtu g =
    Ok ((HEADER_SIZE + len (ping_body g seq), sent),
        if MAX_APPENDED_MSG_ g =? 1 then g
        else set_MAX_APPENDED_MSG_ (Z.quot (MAX_APPENDED_MSG_ g) 2) g).
Proof.
  intros Hg Hb Hfit Hne Hws Hbig. rewrite (generatePing_run host seq buff g Hb Hfit).
  set (body := ping_body g seq) in *. set (rest := drop _ buff).
  destruct (appendGossipMsg_spec (packet TYPE_PING body rest) (HEADER_SIZE + len body)
    (mtu - len body - HEADER_SIZE) g) as (q & _ & _ & E); [apply inv0_queue_ok, Hg|].
  rewrite Hws in E. cbn [mbind outcome_bind] in E. destruct ws as [|w ws]; [done|].
  unfold batch_body in Hbig. rewrite (proj2 (Z.ltb_lt _ _)) in E by lia.
  exists (packet TYPE_PING body rest). unfold mbind at 1, M_bind. rewrite E.
  unfold shrinkMaxAppendedMsg. run. by destruct (_ =? 1); cbn; rewrite Z.add_0_r.
Qed.
End exchange.
