(* ===== verification/Session.v ===== *)
(** * src/network/tcp/runner.hpp: a session of the TCP server, and joining

    [Session] reads one request into [in_buff_], has it handled, and writes one
    response from [out_buff_]. The second completion handler captures the local
    [header] of [doReadBody] by reference, and runs after that call returned:
    what it reads there is a parameter. *)
From Stdlib Require Import Ascii.
From S2P Require Import Prelude Utils Bytes Header Node Broadcast Suspicion Messages Gossiper.
From S2P Require Import Membership Protocol Dynamics Exchange.
Local Open Scope Z_scope.

(** What reading the destroyed [header] yields, given its last value. *)
Class StaleHeader := { stale_header : Header -> Header }.
Class IntactHeader (S : StaleHeader) : Prop := intact_header h : stale_header h = h.
Definition intact_stack : StaleHeader := {| stale_header h := h |}.
#[export] Instance intact_stack_intact : IntactHeader intact_stack.
Proof. done. Qed.

Definition buff_size_ : Z := 65536.

Section session.
Context (host : endian) `{IterationOrder} `{Residue} `{TableOrder} `{FreedHeap} `{StackRoom} `{StaleHeader}
  `{!MessageCodec}.

(** [stream]: the bytes the client sends before it stops. [None]: a read did
    not complete, the session just ends. [asio::buffer] of an array member and a
    size takes the smaller of the size and the array: of a body longer than the
    buffer only the buffer's length is read, and of a longer response written. *)
Definition buffer_size (size : Z) : nat := Z.to_nat (Z.min size buff_size_).

Definition doWriteResponse (out_buff : list Z) (length : Z) : outcome (list Z) :=
  read_at out_buff 0 (buffer_size length).

Definition doReadBody (uninit : Header) (in_buff out_buff stream : list Z) :
    M gossiper (option (list Z)) :=
  header ← lift (handleHeader host in_buff HEADER_SIZE uninit);
  match ReadFull (Z.of_nat (buffer_size (Body_length_ header))) stream with
  | None => mret None
  | Some (body, _) =>
    in_buff ← lift (memcpy in_buff 0 body);
    let header := stale_header header in
    '(resp_length, out_buff) ← handleBody host (Type_ header) in_buff (Body_length_ header)
       out_buff buff_size_;
    resp ← lift (doWriteResponse out_buff (u32 resp_length));
    mret (Some resp)
  end.

Definition doReadHeader (uninit : Header) (in_buff out_buff stream : list Z) :
    M gossiper (option (list Z)) :=
  match ReadFull HEADER_SIZE stream with
  | None => mret None
  | Some (hdr, stream) =>
    in_buff ← lift (memcpy in_buff 0 hdr);
    doReadBody uninit in_buff out_buff stream
  end.

(** [Go]. *)
Definition Session_Go : Header -> list Z -> list Z -> list Z -> M gossiper (option (list Z)) :=
  doReadHeader.

(** The session as the joining side sees it: its request in, a stream out. *)
Definition session_stream (uninit : Header) (in_buff out_buff : list Z) (h : gossiper) :
    peer_stream := Some (fun request =>
  match Session_Go uninit in_buff out_buff request h with
  | Ok (Some resp, _) => Some resp
  | _ => None
  end).
End session.

(** ** The exchange of tables *)

Section sync.
Context `{IterationOrder} `{Residue} `{TableOrder} `{FreedHeap} `{StackRoom} `{StaleHeader}
  `{!MessageCodec} `{!MessageCodecOk _}.

(** The table in the order it is encoded. *)
Definition reports (g : gossiper) : list node_state := (iteration (node_map_ g)).*2.

Lemma encodeLocalState_run g : Forall node_state_ok (reports g) ->
  exists ws, encodeLocalState g = Ok (encode_NodeStates (Some ws), g) /\ Forall NodeState_ok ws /\
    Forall2 (fun n w => convert_fields w = Ok n) (reports g) ws.
Proof.
  intros Hok. destruct (wire_reports _ Hok) as (ws & E & Hws & Hc). exists ws. split; [|done].
  unfold encodeLocalState. step.
  assert (mapM (fun p : string * node_state => wire_state p.2) (iteration (node_map_ g)) = Ok ws) as Em.
  { apply mapM_Ok. apply mapM_Ok in E. unfold reports in E. by apply Forall2_fmap_l in E. }
  by erewrite bind_Ok by (unfold lift; rewrite Em; reflexivity).
Qed.

Lemma respond_run host type body resp_buff : IntactHeap _ -> in_range 32 type ->
  HEADER_SIZE + len body <= len resp_buff -> len resp_buff = buff_size_ ->
  exists rest, respond host type body resp_buff buff_size_ =
    Ok (HEADER_SIZE + len body, packet type body rest).
Proof.
  intros HF Ht Hl Hb. unfold respond. cbv zeta. unfold buff_size_, HEADER_SIZE in *.
  rewrite (proj2 (Z.ltb_ge _ _)) by lia.
  pose proof (encode_packet host type body resp_buff Ht) as E. unfold HEADER_SIZE in E.
  specialize (E ltac:(lia) ltac:(lia)). rewrite HF.
  destruct (EncodeHeader host resp_buff _) as [b|]; [|done]. cbn [mbind outcome_bind] in E |- *.
  rewrite E. cbn [mbind outcome_bind]. eexists. rewrite wrap_small; [|unfold in_range, len in *; lia].
  by rewrite Z.add_comm.
Qed.

(** Reading a packet from a stream. *)
Lemma ReadFull_header type body rest :
  ReadFull HEADER_SIZE (packet type body rest) =
    Some (header_bytes (mkHeader type (len body)), body ++ rest).
Proof.
  unfold ReadFull, len at 1. rewrite length_packet. rewrite (proj2 (Z.ltb_ge _ _)) by (unfold HEADER_SIZE; lia).
  unfold packet. change (Z.to_nat HEADER_SIZE) with 8%nat.
  rewrite <- (length_header_bytes (mkHeader type (len body))).
  by rewrite take_app_length, drop_app_length.
Qed.

Lemma ReadFull_body body rest : ReadFull (len body) (body ++ rest) = Some (body, rest).
Proof.
  unfold ReadFull, len. rewrite length_app. rewrite (proj2 (Z.ltb_ge _ _)) by lia.
  by rewrite Nat2Z.id, take_app_length, drop_app_length.
Qed.

(** A session that receives a table, up to its handler. *)
Definition body_buffer (body in_buff : list Z) : list Z :=
  body ++ drop (length body) (header_bytes (mkHeader TYPE_SYNCSTATE (len body)) ++ drop 8 in_buff).

Lemma Session_reads host uninit in_buff out_buff body h : IntactHeader _ ->
  len in_buff = buff_size_ -> len body <= buff_size_ ->
  Session_Go host uninit in_buff out_buff (packet TYPE_SYNCSTATE body []) h =
    ('(resp_length, out_buff) ← handleBody host TYPE_SYNCSTATE (body_buffer body in_buff) (len body)
        out_buff buff_size_;
     resp ← lift (doWriteResponse out_buff (u32 resp_length));
     mret (Some resp)) h.
Proof.
  intros HS Hin Hfit. unfold buff_size_ in *. unfold Session_Go, doReadHeader. rewrite ReadFull_header.
  rewrite memcpy_0 by (rewrite length_header_bytes; unfold len in *; lia).
  step. rewrite length_header_bytes.
  unfold doReadBody. set (hdr := mkHeader TYPE_SYNCSTATE (len body)).
  assert (header_ok hdr) as Hhdr by (split; [done|unfold in_range, hdr, len in *; cbn; lia]).
  erewrite bind_Ok.
  2: { unfold lift, handleHeader. rewrite Z.eqb_refl. cbn [negb].
       rewrite DecodeHeader_bytes by done. reflexivity. }
  cbn [Body_length_ hdr]. unfold buffer_size at 1. rewrite Z.min_l, Z2Nat.id by (unfold len, buff_size_ in *; lia).
  rewrite ReadFull_body.
  rewrite memcpy_0 by (rewrite length_app, length_header_bytes, length_drop; unfold len in *; lia).
  step. rewrite HS. cbn [Type_ Body_length_]. reflexivity.
Qed.

Lemma decode_body_buffer ws in_buff : NodeStates_ok (Some ws) ->
  decode_NodeStates (body_buffer (encode_NodeStates (Some ws)) in_buff) 0 = Ok (Some ws).
Proof.
  intros Hws. unfold body_buffer. set (rest := drop _ _).
  pose proof (NodeStates_roundtrip (Some ws) [] rest Hws) as Hrt.
  by rewrite app_nil_l in Hrt.
Qed.

(** The response, when the packet is in the buffer. *)
Lemma doWriteResponse_packet type body rest : HEADER_SIZE + len body <= buff_size_ ->
  doWriteResponse (packet type body rest) (u32 (HEADER_SIZE + len body)) = Ok (packet type body []).
Proof.
  intros Hfit. unfold doWriteResponse, buffer_size, buff_size_ in *.
  rewrite (wrap_small 32) by (unfold in_range, HEADER_SIZE, len in *; lia).
  rewrite Z.min_l by done.
  pose proof (read_at_mid [] (packet type body []) rest (Z.to_nat (HEADER_SIZE + len body))) as Hr.
  rewrite app_nil_l in Hr. change (Z.of_nat (length (@nil Z))) with 0 in Hr.
  assert (packet type body rest = packet type body [] ++ rest) as ->.
  { unfold packet. rewrite app_nil_r. by rewrite <- app_assoc. }
  rewrite Hr; [done|]. rewrite length_packet. unfold len, HEADER_SIZE. simpl. lia.
Qed.

(** A session that receives a table: it merges the table, then answers with
    its own. *)
Lemma Session_run host uninit in_buff out_buff l ws h h' :
  Intact _ -> IntactHeap _ -> IntactHeader _ ->
  len in_buff = buff_size_ -> len out_buff = buff_size_ ->
  NodeStates_ok (Some ws) -> Forall2 (fun n w => convert_fields w = Ok n) l ws ->
  len (encode_NodeStates (Some ws)) <= buff_size_ ->
  for_each l (mergeReport true) h = Ok (tt, h') ->
  Forall node_state_ok (reports h') ->
  (forall ws', Forall2 (fun n w => convert_fields w = Ok n) (reports h') ws' ->
    encodeLocalState h' = Ok (encode_NodeStates (Some ws'), h') ->
    HEADER_SIZE + len (encode_NodeStates (Some ws')) <= buff_size_) ->
  exists ws', Session_Go host uninit in_buff out_buff
      (packet TYPE_SYNCSTATE (encode_NodeStates (Some ws)) []) h =
    Ok (Some (packet TYPE_SYNCSTATE (encode_NodeStates (Some ws')) []), h') /\
    Forall NodeState_ok ws' /\ Forall2 (fun n w => convert_fields w = Ok n) (reports h') ws' /\
    HEADER_SIZE + len (encode_NodeStates (Some ws')) <= buff_size_.
Proof.
  intros HI HF HS Hin Hout Hws Hc Hfit Hm Hok Hfit'. unfold buff_size_ in *.
  destruct (encodeLocalState_run h' Hok) as (ws' & Eenc & Hwok' & Hc').
  specialize (Hfit' ws' Hc' Eenc). exists ws'. split; [|done].
  rewrite Session_reads by done.
  destruct (respond_run host TYPE_SYNCSTATE (encode_NodeStates (Some ws')) out_buff HF)
    as (rest & Er); [done|unfold buff_size_; lia|done|].
  set (body := encode_NodeStates (Some ws)) in *.
  assert (handleBody host TYPE_SYNCSTATE (body_buffer body in_buff) (len body) out_buff buff_size_ h =
    Ok ((HEADER_SIZE + len (encode_NodeStates (Some ws')),
         packet TYPE_SYNCSTATE (encode_NodeStates (Some ws')) rest), h')) as Eb.
  { unfold handleBody. change (TYPE_SYNCSTATE =? TYPE_PING) with false.
    change (TYPE_SYNCSTATE =? TYPE_SYNCSTATE) with true. cbv iota.
    erewrite bind_Ok by (unfold lift, body; rewrite decode_body_buffer by done; reflexivity).
    rewrite <- (mergeStates_reports true l ws h HI Hc) in Hm.
    step Hm. step Eenc. unfold lift. by rewrite Er. }
  step Eb. unfold lift. by rewrite doWriteResponse_packet by done.
Qed.

(** Joining exchanges tables. The joining node sends its table to a
    member's TCP server; the server merges it, gossiping what is new, and
    answers with its own table, which the joining node merges silently; the
    hosts may differ in byte order. The client's and the server's tables need
    to fit the session's buffers, the client's stack has room for both, and the
    three objects the code reads after they are gone are intact. *)
Theorem sync_exchanges_tables (client server : endian) (uninit : Header)
    (in_buff out_buff : list Z) (g h h' : gossiper) :
  Intact _ -> IntactHeap _ -> IntactHeader _ -> 2 * buff_size_ <= stack_room ->
  len in_buff = buff_size_ -> len out_buff = buff_size_ ->
  Forall node_state_ok (reports g) -> Z.of_nat (length (reports g)) < 2 ^ 12 ->
  (forall ws, encodeLocalState g = Ok (encode_NodeStates (Some ws), g) ->
    len (encode_NodeStates (Some ws)) <= buff_size_) ->
  for_each (reports g) (mergeReport true) h = Ok (tt, h') ->
  Forall node_state_ok (reports h') -> Z.of_nat (length (reports h')) < 2 ^ 12 ->
  (forall ws, encodeLocalState h' = Ok (encode_NodeStates (Some ws), h') ->
    HEADER_SIZE + len (encode_NodeStates (Some ws)) <= buff_size_) ->
  (exists resp, Session_Go server uninit in_buff out_buff
     (packet TYPE_SYNCSTATE (match encodeLocalState g with Ok (b, _) => b | _ => [] end) []) h
     = Ok (Some resp, h')) /\
  syncState client (session_stream server uninit in_buff out_buff h) g =
    (for_each (reports h') (mergeReport false) ;; mret true) g.
Proof.
  intros HI HF HS Hroom Hin Hout Hg Hgl Hgf Hm Hh Hhl Hhf.
  destruct (encodeLocalState_run g Hg) as (ws & Eg & Hws & Hc). specialize (Hgf ws Eg).
  destruct (Session_run server uninit in_buff out_buff (reports g) ws h h' HI HF HS Hin Hout)
    as (ws' & Es & Hws' & Hc' & Hfit'); try done.
  { split; [done|]. rewrite <- (Forall2_length _ _ _ Hc). lia. }
  { intros ws' _. apply Hhf. }
  split; [rewrite Eg; by eexists|].
  set (body := encode_NodeStates (Some ws)) in *. set (body' := encode_NodeStates (Some ws')) in *.
  unfold syncState, session_stream. step Eg. cbv zeta. fold body.
  rewrite (bind_Ok (stack_array _ _) _ g tt g)
    by (apply stack_array_run; unfold buff_size_, HEADER_SIZE in *; lia).
  pose proof (encode_packet client TYPE_SYNCSTATE body
    (replicate (Z.to_nat (HEADER_SIZE + len body)) 0) ltac:(done)) as E.
  unfold buff_size_, HEADER_SIZE in *.
  specialize (E ltac:(lia) ltac:(unfold len; rewrite length_replicate; lia)).
  rewrite drop_ge in E by (rewrite length_replicate; unfold len; lia).
  destruct (EncodeHeader client _ _) as [b1|]; [|done]. cbn [mbind outcome_bind] in E.
  step (eq_refl : lift (Ok b1) g = Ok (b1, g)).
  erewrite bind_Ok by (unfold lift, HEADER_SIZE; rewrite E; reflexivity).
  unfold syncRequest. rewrite Es. fold body'.
  fold HEADER_SIZE. rewrite ReadFull_header.
  assert (header_ok (mkHeader TYPE_SYNCSTATE (len body'))) as Hhdr
    by (split; [done|unfold in_range, len in *; cbn; lia]).
  erewrite bind_Ok.
  2: { unfold lift. rewrite <- (app_nil_r (header_bytes _)). rewrite DecodeHeader_bytes by done.
       reflexivity. }
  cbn [Body_length_]. rewrite (bind_Ok (stack_array _ _) _ g tt g).
  2: { apply stack_array_run. unfold len at 1. rewrite length_packet. unfold len in *. simpl. lia. }
  rewrite ReadFull_body.
  assert (NodeStates_ok (Some ws')) as Hnss
    by (split; [done|rewrite <- (Forall2_length _ _ _ Hc'); lia]).
  pose proof (NodeStates_roundtrip (Some ws') [] [] Hnss) as Hrt. fold body' in Hrt.
  rewrite app_nil_l, app_nil_r in Hrt. change (Z.of_nat (length (@nil Z))) with 0 in Hrt.
  erewrite bind_Ok by (unfold lift; rewrite Hrt; reflexivity).
  pose proof (mergeStates_reports false (reports h') ws' g HI Hc') as Em.
  unfold mbind, M_bind. by rewrite Em.
Qed.
End sync.
