(* ===== verification/Runs.v ===== *)
(** * Properties of whole runs

    What holds in every state the program reaches, from its start through any
    sequence of joins, probes, datagrams, sessions, timers and posted handlers,
    whatever the network delivers; and what may go wrong. *)
From stdpp Require Import relations.
From S2P Require Import Prelude Utils Bytes Header Node Broadcast Suspicion Messages Codec Gossiper.
From S2P Require Import Membership Reports Protocol Dynamics Session.
Local Open Scope Z_scope.

Section runs.
Context (host : endian) `{IterationOrder} `{Residue} `{TableOrder} `{FreedHeap} `{StackRoom}
  `{!MessageCodec} `{!MessageCodecOk _}.

Lemma reachable_inv conf join leave s : reachable host conf join leave s ->
  system_inv s /\ is_leaving_ (gos s) = false /\ conf_ (gos s) = conf /\
  notify_join_ (gos s) = join /\ notify_leave_ (gos s) = leave.
Proof.
  intros (s0 & Hi & Hs). pose proof (initial_inv conf join leave s0 Hi) as Hinv.
  destruct (steps_inv host s0 s Hs Hinv) as [Hinv' He]. split; [done|].
  destruct s0 as [g ps]. unfold initial, RegisterNotifier in Hi. run in Hi.
  destruct Hi as [Hi _]. cbn [gos] in *. injection Hi as <-.
  by rewrite (ev_leaving _ _ He), (ev_conf _ _ He), (ev_join _ _ He), (ev_leave _ _ He).
Qed.

(** C1: the member list is the table's living. In every reachable state
    [nodes_] has no duplicates and holds exactly the nodes whose record is not
    dead, every record is filed under its own name and in one of the three
    states, and only members are suspected, each at the dominant of its record. *)
Theorem reachable_members (conf : config) (join leave : bool) (s : system) :
  reachable host conf join leave s ->
  let g := gos s in
  NoDup (nodes_ g) /\
  (forall k, k ∈ nodes_ g <-> exists n, node_map_ g !! k = Some n /\ State_ n <> STATE_DEAD) /\
  (forall k n, node_map_ g !! k = Some n -> Name_ n = k /\ known_state (State_ n)) /\
  (forall k sus, suspicions_ g !! k = Some sus -> k ∈ nodes_ g /\
    exists n, node_map_ g !! k = Some n /\ Dominant_ n = Dominant_ (captured (convict_ sus))).
Proof.
  intros Hr g. destruct (reachable_inv _ _ _ _ Hr) as ([[Hg _] _] & _).
  split_and!; [apply Hg..|]. intros k sus Hk.
  destruct (inv_susp _ Hg _ _ Hk) as (Hin & _ & Hn). split; [done|]. by eexists.
Qed.

(** C3: the handlers see the membership. With both handlers registered, the
    joins and leaves reported so far never report a join of a node already in,
    nor a leave of one that is not, and add up to the current member list
    without ourselves. *)
Theorem reachable_notifications (conf : config) (s : system) :
  reachable host conf true true s ->
  replay (notified_ (gos s)) = Some (others (gos s)).
Proof.
  intros Hr. destruct (reachable_inv _ _ _ _ Hr) as ([[_ Hl] _] & _ & _ & Hj & Hv).
  by apply Hl.
Qed.

(** C2: knowledge only grows. Along every run a known node stays known, and
    its record only moves up: to a higher dominant, or at the same dominant from
    alive to suspect to dead. *)
Theorem view_monotone (conf : config) (join leave : bool) (s s' : system) (k : string)
    (n : node_state) :
  reachable host conf join leave s -> rtc (step host) s s' ->
  node_map_ (gos s) !! k = Some n ->
  exists n', node_map_ (gos s') !! k = Some n' /\ stamp_le (stamp n) (stamp n').
Proof.
  intros Hr Hs Hk. destruct (reachable_inv _ _ _ _ Hr) as (Hinv & _).
  destruct (steps_inv host s s' Hs Hinv) as [_ He]. by apply (ev_view _ _ He).
Qed.

Lemma Join_self_joins conf join leave :
  let g := set_notify_leave_ leave (set_notify_join_ join (gossiper_new conf)) in
  exists g', Join_self g = Ok (tt, g') /\ inv g' /\ evolves g g' /\ conf_Name conf ∈ nodes_ g' /\
    node_map_ g' = {[conf_Name conf := set_Timestamp 0 (self_state conf 1)]}.
Proof.
  intros g. pose proof (gossiper_new_inv conf join leave) as Hg. fold g in Hg.
  pose proof (Join_self_safe g Hg) as Hs. unfold wpx in Hs.
  destruct (Join_self g) as [[[] g']|] eqn:E; [|done]. destruct Hs as [Hg' He].
  exists g'. split; [done|]. split; [done|]. split; [done|]. rewrite (inv_members _ (proj1 Hg')).
  unfold Join_self, nextDominant in E. run in E. cbn [dominant_ g gossiper_new] in E.
  destruct (aliveNode_spec (self_state conf 1) false (set_dominant_ 1 g)) as (g2 & E2 & _ & _ & Hal).
  { pose proof (nextDominant_safe 1 g Hg) as Hn. unfold wpx in Hn. apply Hn. }
  { done. } { done. }
  change (aliveNode (self_state conf 1) false (set_dominant_ 1 g) = Ok (tt, g')) in E.
  rewrite E in E2. injection E2 as <-.
  unfold alive_accepts in Hal. cbn in Hal. destruct Hal as (Hm & _). rewrite Hm.
  split; [|done]. exists (set_Timestamp 0 (self_state conf 1)). split; [apply lookup_insert_eq|done].
Qed.

(** C4: who joined is a member of its own list, and stays one. After a [Join]
    with a well-formed peer, on every later run, no report, accusation or
    conviction ever takes a gossiper out of its own member list. *)
Theorem joined_stays_member (conf : config) (join leave : bool) (network : string -> string -> peer_stream)
    (peer : string) (s0 s : system) (rts : list (Z * routine)) (g1 : gossiper) :
  initial conf join leave s0 -> (forall h p, peer_ok (network h p)) ->
  Join host network peer (gos s0) = Ok (rts, g1) -> rts <> [] ->
  rtc (step host) (mkSystem g1 []) s -> conf_Name conf ∈ nodes_ (gos s).
Proof.
  intros Hi Hn Hj Hrts Hs. destruct s0 as [g0 ps]. unfold initial, RegisterNotifier in Hi.
  run in Hi. destruct Hi as [Hi _]. cbn [gos] in *. injection Hi as Hi.
  destruct (Join_self_joins conf join leave) as (g' & Ej & Hg' & He' & Hin & _).
  rewrite <- Hi in *. unfold Join in Hj.
  assert (forall k, (Join_self ≫= k) (set_notify_leave_ leave (set_notify_join_ join (gossiper_new conf)))
    = Ok (rts, g1) -> (forall u, safe any_fault (k u)) ->
    inv g1 /\ is_leaving_ g1 = false /\ conf_Name conf ∈ nodes_ g1 /\ self_name g1 = conf_Name conf) as Hk.
  { intros k Ek Hsafe. rewrite (bind_Ok _ _ _ _ _ Ej) in Ek.
    pose proof (Hsafe tt g' Hg') as Hw. unfold wpx in Hw. rewrite Ek in Hw. destruct Hw as [Hg1 He1].
    assert (self_name g' = conf_Name conf) as Hsn by (unfold self_name; by rewrite (ev_conf _ _ He')).
    assert (is_leaving_ g' = false) as Hlv by by rewrite (ev_leaving _ _ He').
    split_and!; [done|by rewrite (ev_leaving _ _ He1)| |].
    - rewrite <- Hsn. apply (ev_self _ _ He1); [done|by rewrite Hsn].
    - unfold self_name. rewrite (ev_conf _ _ He1). exact Hsn. }
  assert (inv g1 /\ is_leaving_ g1 = false /\ conf_Name conf ∈ nodes_ g1 /\ self_name g1 = conf_Name conf)
    as (Hg1 & Hlv & Hin1 & Hsn1).
  { destruct (Split peer ":") as [[|phost [|pport [|]]]|]; try (injection Hj as <- _; done).
    apply (Hk _ Hj). intros []. unfold alive.
    assert (safe any_fault (syncState host (network phost pport))) by by apply syncState_safe.
    safe_solve. }
  destruct (steps_inv host _ _ Hs) as [_ He]; [by split|]. cbn [gos] in He.
  rewrite <- Hsn1. apply (ev_self _ _ He); [done|by rewrite Hsn1].
Qed.
End runs.
