(* ===== verification/Typed.v ===== *)
(** * What is stored has the types of the wire

    Every record in the node table, in the broadcast queue, behind a suspicion or
    in a posted handler has a port that is a printed [int16_t], a state cast from
    an [int8_t] and 64-bit counters: it came from the configuration or through
    the generated accessors. So the conversions that throw ([std::stoi] of a
    port) never do on the gossiper's own records, and no operation that sends
    them fails. *)
From S2P Require Import Prelude Utils Bytes Header Node Broadcast Suspicion Messages Gossiper.
From S2P Require Import Membership Records Reports Protocol Dynamics Exchange Session Runs.
Local Open Scope Z_scope.

(** Dangling reads, of typed records, yield records of the right types. *)
Class TypedResidue (R : Residue) : Prop :=
  stale_record n n' : stale_node n = Some n' -> typed_record n -> typed_record n'.

#[export] Instance unspoilt_typed `{!Residue} `{HU : !Unspoilt _} : TypedResidue _.
Proof. by intros n n' ->%HU. Qed.

#[export] Instance typed_property `{!Residue} `{!TypedResidue _} : RecordProperty typed_record.
Proof.
  split.
  - by intros n (_ & ? & _).
  - by intros n (? & ? & ? & ?).
  - by intros n (? & ? & ? & ?).
  - intros n (? & ? & ? & ?). split_and!; try done. by exists 2.
  - apply stale_record.
Qed.

Lemma self_state_typed `{!Residue} conf d : in_srange 16 (conf_Port conf) -> in_range 64 d ->
  typed_record (self_state conf d).
Proof.
  intros Hp Hd. split_and!; cbn; [by eexists|done|apply indeterminate_typed|by exists 0].
Qed.

(** Whatever bytes are read, what they say is typed. *)
Lemma decoded_typed `{!MessageCodec} `{!MessageCodecOk _} m pos nss : Forall is_byte m ->
  decode_NodeStates m pos = Ok nss -> wires_hold typed_record nss.
Proof.
  intros Hm E. apply decode_NodeStates_typed in E; [|done]. destruct nss as [l|]; [|done].
  eapply Forall_impl; [exact E|]. intros w Hw n. by apply convert_fields_typed.
Qed.

Abbreviation typed := (holds typed_record).

Section runs.
Context (host : endian) `{IterationOrder} `{!Residue} `{!TypedResidue _} `{TableOrder} `{FreedHeap} `{StackRoom}
  `{!MessageCodec} `{!MessageCodecOk _}.

Lemma peer_typed peer : peer_ok peer -> peer_holds host typed_record peer.
Proof.
  intros Hp answer request stream Hans Hstr h _ nss. apply decoded_typed.
  by eapply Forall_take, Forall_drop, Hp.
Qed.

(** ** Runs *)

Definition system_typed (s : system) : Prop :=
  typed (gos s) /\ Forall (fun p => typed_record (p_node p)) (probes s).

Lemma step_typed s s' : step host s s' -> system_typed s -> system_typed s'.
Proof.
  intros Hs [Hg Hps].
  assert (forall A (op : M gossiper A) a g', keeps typed any op -> op (gos s) = Ok (a, g') ->
    gos s' = g' -> probes s' = probes s -> system_typed s') as Hop.
  { intros A op a g' Hop Ho <- Hp. split; [|by rewrite Hp]. by eapply keeps_elim in Ho as [_ Ho]. }
  destruct Hs as [|buff g ps p g' Hp|p g ps g' Hin| | | | |]; cbn [gos probes] in *.
  - eapply Hop; [|done..]. apply (Join_holds typed_record). intros h p. by apply peer_typed.
  - destruct (keeps_elim _ _ _ _ _ _ (probe_holds typed_record _ buff) Hg Hp) as [Hpt Hg']. split; [done|].
    destruct p as [p|]; [by constructor|done].
  - eapply Hop; [|done..]. apply (suspectNode_holds typed_record). by eapply Forall_forall in Hps.
  - eapply Hop; [|done..]. apply (on_pong_holds typed_record).
  - eapply Hop; [|done..]. apply (handlePacket_holds typed_record). intros h nss _ _ _. by apply decoded_typed.
  - eapply Hop; [|done..]. apply (handleBody_holds typed_record). intros nss. by apply decoded_typed.
  - eapply Hop; [|done..]. apply (on_suspicion_timer_holds typed_record).
  - eapply Hop; [|done..]. apply (run_posted_holds typed_record).
Qed.
End runs.

(** ** Sending *)

Section sending.
Context (host : endian) `{IterationOrder} `{!MessageCodec} `{!MessageCodecOk _}.

Lemma wire_states_total l : Forall typed_record l -> exists ws, mapM wire_state l = Ok ws.
Proof.
  induction 1 as [|n l Hn _ (ws & E)]; [by exists []|].
  destruct (wire_state_total n Hn) as [w Ew]. exists (w :: ws).
  cbn [mapM]. rewrite Ew. cbn. by rewrite E.
Qed.

(** [generatePing] with a packet buffer: it ends normally, in the buffer. *)
Lemma generatePing_total `{!Residue} seq buff g : inv g -> typed g -> len buff = mtu ->
  exists size sent g', generatePing host seq buff mtu g = Ok ((size, sent), g') /\
    len sent = mtu /\ (size = -1 \/ HEADER_SIZE <= size <= mtu).
Proof.
  intros Hg Ht Hb. set (body := ping_body g seq).
  destruct (Z.ltb_spec mtu (HEADER_SIZE + len body)) as [Hbig|Hfit].
  - destruct (generatePing_no_room host seq buff g Hb Hbig) as (sent & E & Hl).
    exists (-1), sent, g. split_and!; [done..|by left].
  - assert (exists r, generatePing host seq buff mtu g = Ok r) as [[[size sent] g'] E].
    { rewrite (generatePing_run host seq buff g Hb Hfit). fold body. set (rest := drop _ buff).
      destruct (appendGossipMsg_spec (packet TYPE_PING body rest) (HEADER_SIZE + len body)
        (mtu - len body - HEADER_SIZE) g) as (q & _ & _ & E); [apply inv0_queue_ok, Hg|].
      destruct (wire_states_total _ (batch_holds typed_record g Ht)) as [ws Ews]. rewrite Ews in E.
      unfold mbind at 1, M_bind. rewrite E. cbn [mbind outcome_bind]. destruct ws as [|w ws]; [by eexists|].
      destruct (Z.ltb_spec (mtu - len body - HEADER_SIZE) (len (encode_NodeStates (Some (w :: ws))))).
      - unfold shrinkMaxAppendedMsg. run. destruct (_ =? 1); by eexists.
      - rewrite append_packet; [by eexists|]. subst rest. rewrite length_drop.
        unfold len, mtu, HEADER_SIZE in *. lia. }
    destruct (generatePing_layout host seq buff g size sent g' Hg Hb Hfit E) as (_ & _ & Hl & Hs & _).
    exists size, sent, g'. split_and!; [done..|]. right. unfold len in *. lia.
Qed.

(** The answer to a ping, in a packet buffer: always produced. *)
Lemma answerPing_total ns seq data : opt typed_record ns -> len data = mtu ->
  exists rst data', answerPing host ns seq data mtu = Ok (rst, data') /\ 0 < rst <= mtu.
Proof.
  intros Hns Hd. unfold answerPing. pose proof (encode_Pong_length (mkPong seq)) as Hpl.
  set (ack := encode_Pong (mkPong seq)) in *. fold (len ack) in Hpl. cbv zeta.
  assert (0 <= len ack) by (unfold len; lia).
  rewrite (proj2 (Z.ltb_ge _ _)) by (unfold mtu, HEADER_SIZE; lia).
  pose proof (encode_packet host TYPE_PONG ack data ltac:(done) ltac:(lia)) as E.
  unfold mtu, HEADER_SIZE in *. specialize (E ltac:(lia)). fold HEADER_SIZE in E |- *.
  destruct (EncodeHeader host data _) as [b1|]; [|done]. cbn [mbind outcome_bind] in E |- *.
  rewrite E. cbn [mbind outcome_bind]. set (rest := drop _ data).
  assert (exists rst data', Ok (len ack + HEADER_SIZE, packet TYPE_PONG ack rest) = Ok (rst, data') /\
    0 < rst <= 1460) by (eexists _, _; split; [done|unfold HEADER_SIZE; lia]).
  destruct ns as [n|]; [|done]. destruct (bool_decide _); [|done].
  destruct (wire_state_total n Hns) as [w Ew]. unfold appendDeadAlert. rewrite Ew.
  cbn [mbind outcome_bind]. destruct (Z.ltb_spec (1460 - (len ack + HEADER_SIZE)) (len (encode_NodeState w))).
  - cbn. rewrite Z.add_0_r. done.
  - rewrite (Z.add_comm (len ack)), append_packet.
    + eexists _, _. split; [done|]. unfold len, HEADER_SIZE in *. lia.
    + subst rest. rewrite length_drop. unfold len, HEADER_SIZE in *. lia.
Qed.

Lemma roundrobin_total `{!Residue} g : typed g -> nodes_ g <> [] ->
  exists k ks g', roundrobinNode 1 g = Ok (k :: ks, g') /\ k ∈ nodes_ g.
Proof.
  intros Hg Hne. pose proof (rh_cursor _ _ Hg). unfold roundrobinNode. step.
  destruct (Z.leb_spec (Z.of_nat (length (nodes_ g))) 1) as [|Hl].
  { destruct (nodes_ g) as [|k ks] eqn:E; [done|]. exists k, ks, g.
    split; [done|by left]. }
  change (seq 0 (Z.to_nat 1)) with [0%nat]. cbn [mapM].
  set (i := Z.to_nat (Z.rem (cursor g + Z.of_nat 0) _)).
  destruct (lookup_lt_is_Some_2 (nodes_ g) i) as [k Hk].
  { subst i. pose proof (Z.rem_bound_pos (cursor g + Z.of_nat 0) (Z.of_nat (length (nodes_ g)))). lia. }
  rewrite Hk. eexists k, [], _. split; [reflexivity|]. by eapply list_elem_of_lookup_2.
Qed.

Lemma encodeLocalState_total `{!Residue} `{TableOrder} g : typed g ->
  exists body, encodeLocalState g = Ok (body, g).
Proof.
  intros Hg. unfold encodeLocalState. step.
  destruct (wire_states_total ((iteration (node_map_ g)).*2)) as [ws E].
  { rewrite iteration_perm. apply Forall_fmap, Forall_forall. intros [k n] Hin%elem_of_map_to_list.
    by apply (rh_table _ _ Hg) in Hin. }
  apply mapM_Ok, Forall2_fmap_l, mapM_Ok in E. eexists. erewrite bind_Ok; [reflexivity|].
  unfold lift. cbn in E. unfold compose in E. by rewrite E.
Qed.
End sending.

(** ** Properties *)

Section typed.
Context (host : endian) `{IterationOrder} `{!Residue} `{!TypedResidue _} `{TableOrder} `{FreedHeap} `{StackRoom}
  `{!MessageCodec} `{!MessageCodecOk _}.

Lemma config_new_port junk addr conf : config_new junk addr = Ok conf -> in_srange 16 (conf_Port conf).
Proof.
  unfold config_new. repeat case_match; try done. intros [= <-]. apply swrap_range. lia.
Qed.

Lemma reachable_typed_inv junk addr conf join leave s : config_new junk addr = Ok conf ->
  reachable host conf join leave s -> system_typed s.
Proof.
  intros Hc (s0 & [Hi Hp] & Hs).
  assert (system_typed s0) as Hs0.
  { unfold RegisterNotifier in Hi. run in Hi. destruct s0 as [g ps]. cbn in *. injection Hi as <-.
    split; [|by rewrite Hp]. apply gossiper_new_holds. intros d.
    apply self_state_typed. by eapply config_new_port. }
  clear Hi Hp. induction Hs as [|s1 s2 s3 H12 _ IH]; [done|]. by eapply IH, step_typed.
Qed.

Lemma probe_total buff g : inv g -> typed g -> nodes_ g <> [] -> len buff = mtu ->
  exists p g', probe host buff g = Ok (p, g').
Proof.
  intros Hi Hg Hne Hb. destruct (roundrobin_total g Hg Hne) as (k & ks & g1 & E & Hk).
  destruct (safe_keeps _ _ _ _ _ (roundrobinNode_safe 1) Hi E) as [Hi1 He1].
  destruct (keeps_elim _ _ _ _ _ _ (roundrobin_holds _ 1 ltac:(lia)) Hg E) as [_ Hg1].
  apply (inv_members _ (proj1 Hi)) in Hk as (n & Hn & _).
  destruct (ev_view _ _ He1 _ _ Hn) as (n1 & Hn1 & _). unfold probe. step E.
  step (eq_refl : getNodeState k g1 = Ok (node_map_ g1 !! k, g1)). rewrite Hn1. step.
  destruct (_ && _); [|by eexists _, _].
  assert (exists q g', probeNode host buff n1 g1 = Ok (q, g')) as (q & g' & Eq);
    [|step Eq; by eexists _, _].
  unfold probeNode.
  destruct (rh_table _ _ Hg1 _ _ Hn1) as ((p & Hpr & Ep) & _).
  assert (stoi (Port_ n1) = Ok p) as Es.
  { rewrite Ep. apply stoi_to_string_lemma. unfold in_srange in *. lia. }
  rewrite Es. step (eq_refl : lift (Ok p) g1 = Ok (p, g1)). cbv zeta.
  set (seq := u64 (seq_num_ g1 + 1)).
  assert (nextSeqNum g1 = Ok (seq, set_seq_num_ seq g1)) as E2 by done.
  destruct (safe_keeps _ _ _ _ _ nextSeqNum_safe Hi1 E2) as [Hi2 _].
  destruct (keeps_elim _ _ _ _ _ _ (nextSeqNum_holds _) Hg1 E2) as [_ Hg2].
  destruct (generatePing_total host seq buff _ Hi2 Hg2 Hb) as (size & sent & g3 & E3 & _).
  unfold mbind, M_bind. rewrite E2, E3. by eexists _, _.
Qed.

End typed.

Section properties.
Context (host : endian) `{IterationOrder} `{!Residue} `{!Unspoilt _} `{TableOrder} `{FreedHeap} `{StackRoom}
  `{!MessageCodec} `{!MessageCodecOk _}.

(** C13: what is stored is typed. In every state reachable from a constructed
    configuration, whatever bytes came in, each record in the table, in the
    queue, behind a suspicion, in a posted conviction or behind a running probe
    has a printed [int16_t] for its port, a cast [int8_t] for its state and
    64-bit dominant and timestamp; the counters have the range of their types,
    and the batch size is between 1 and 10. The one hypothesis on memory is
    [Unspoilt]: the record the code reads after its lifetime may fail to be read,
    but if it is read it is what was last stored there, of whatever type that
    was. *)
Theorem reachable_typed (junk : Z) (addr : string) (conf : config) (join leave : bool) (s : system) :
  config_new junk addr = Ok conf -> reachable host conf join leave s ->
  let g := gos s in
  (forall k n, node_map_ g !! k = Some n -> typed_record n) /\
  (forall e, e ∈ m_ (bc_queue_ g) -> typed_record (msg_of e)) /\
  (forall k sus, suspicions_ g !! k = Some sus -> typed_record (captured (convict_ sus))) /\
  (forall r, r ∈ posted_ g -> typed_record (captured r)) /\
  (forall p, p ∈ probes s -> typed_record (p_node p)) /\
  in_srange 16 (conf_Port (conf_ g)) /\ in_range 64 (dominant_ g) /\ in_range 64 (seq_num_ g) /\
  in_range 32 (node_num_ g) /\ 1 <= MAX_APPENDED_MSG_ g <= 10.
Proof.
  intros Hc Hr g. destruct (reachable_typed_inv host _ _ _ _ _ _ Hc Hr) as [Hg Hp].
  destruct (reachable_inv _ _ _ _ _ Hr) as ([[Hi _] _] & _ & Hconf & _).
  split_and!; try apply Hg; try apply Hi.
  - intros e. apply (proj1 (Forall_forall _ _) (rh_queue _ _ Hg)).
  - apply (proj1 (Forall_forall _ _) (rh_posted _ _ Hg)).
  - by apply Forall_forall.
  - unfold g. rewrite Hconf. by eapply config_new_port.
  - exact (rh_seq _ _ Hg).
Qed.

(** C12: sending never fails. In every reachable state, encoding the table for
    a session, filling a packet with a ping and its gossip, answering a ping of
    any node, and, once the gossiper has members, starting a probe end
    normally: no port is rejected, no buffer overrun, no index out of range. A
    packet is never longer than the buffer, and -1 stands for a ping that does
    not fit. The one hypothesis on memory is [Unspoilt]: on the way to that state
    every record read after its lifetime, if the read did not fail, was what was
    last stored there. *)
Theorem sending_never_fails (junk : Z) (addr : string) (conf : config) (join leave : bool) (s : system)
    (buff : list Z) :
  config_new junk addr = Ok conf -> reachable host conf join leave s -> len buff = mtu ->
  let g := gos s in
  (exists body, encodeLocalState g = Ok (body, g)) /\
  (forall seq, exists size sent g', generatePing host seq buff mtu g = Ok ((size, sent), g') /\
    len sent = mtu /\ (size = -1 \/ HEADER_SIZE <= size <= mtu)) /\
  (forall k seq, exists rst answer,
    answerPing host (node_map_ g !! k) seq buff mtu = Ok (rst, answer) /\ 0 < rst <= mtu) /\
  (nodes_ g <> [] -> exists p g', probe host buff g = Ok (p, g')).
Proof.
  intros Hc Hr Hb g. destruct (reachable_typed_inv host _ _ _ _ _ _ Hc Hr) as [Hg Hp].
  destruct (reachable_inv _ _ _ _ _ Hr) as ([Hi _] & _). fold g in Hg, Hi. split_and!.
  - exact (encodeLocalState_total g Hg).
  - intros seq. exact (generatePing_total host seq buff g Hi Hg Hb).
  - intros k seq. apply answerPing_total; try done.
    destruct (node_map_ g !! k) as [n|] eqn:E; [|done]. by apply (rh_table _ _ Hg) in E.
  - intros Hne. by apply (probe_total host).
Qed.
End properties.
