(* ===== verification/Healing.v ===== *)
(** * A false death heals

    How a node that another one holds dead gets back into its table: the other's
    answer to its next ping carries the death, it queues an objection, and a
    later ping delivers the objection among its gossip. The reports beside it in
    the batch are about other nodes and do not disturb what is known of it. *)
From S2P Require Import Prelude Utils Bytes Header Node Broadcast Suspicion Messages Gossiper.
From S2P Require Import Membership Reports Protocol Dynamics Exchange.
Local Open Scope Z_scope.

Section healing.
Context `{IterationOrder} `{!Residue} `{HI : !Intact _}.

(** ** A report changes the record of the node it names, and of no other *)

Lemma dead_frame g g' d k : dead_effect g g' d -> Name_ d <> k ->
  node_map_ g' !! k = node_map_ g !! k.
Proof.
  unfold dead_effect. intros He Hk. destruct (node_map_ g !! Name_ d); [|by rewrite He].
  case_match; [by rewrite He|]. destruct He as (_ & _ & He).
  repeat case_match; destruct He as [-> _]; by rewrite ?lookup_insert_ne.
Qed.

Lemma deadNode_frame d k g g' : inv g -> State_ d = STATE_DEAD -> Name_ d <> k ->
  deadNode d g = Ok (tt, g') -> node_map_ g' !! k = node_map_ g !! k.
Proof.
  intros Hg Hd Hk E. destruct (deadNode_spec d g Hg Hd) as (g1 & E1 & _ & _ & He).
  rewrite E in E1. injection E1 as <-. by eapply dead_frame.
Qed.

Lemma aliveNode_frame a need_bc k g g' : inv g -> State_ a = STATE_ALIVE ->
  in_range 64 (Dominant_ a) -> Name_ a <> k ->
  aliveNode a need_bc g = Ok (tt, g') -> node_map_ g' !! k = node_map_ g !! k.
Proof.
  intros Hg Ha Hr Hk E. destruct (aliveNode_spec a need_bc g Hg Ha Hr) as (g1 & E1 & _ & _ & He).
  rewrite E in E1. injection E1 as <-. destruct (alive_accepts g a); [|by rewrite He].
  destruct He as [-> _]. by rewrite lookup_insert_ne.
Qed.

Lemma broadcast_frame s g g' : inv g -> broadcast s g = Ok (tt, g') -> node_map_ g' = node_map_ g.
Proof.
  intros [Hg _] E. destruct (broadcast_run s g) as (q & E1 & _); [eauto with gossip..|].
  rewrite E in E1. by injection E1 as ->.
Qed.

Lemma suspectNode_frame lives s k g g' : inv g -> Name_ s <> k ->
  suspectNode lives s g = Ok (tt, g') -> node_map_ g' !! k = node_map_ g !! k.
Proof.
  intros Hg Hk. destruct (node_map_ g !! Name_ s) as [n|] eqn:En; last first.
  { unfold suspectNode, getNodeState. run. rewrite En. by intros [= <-]. }
  destruct (Z.ltb_spec (Dominant_ s) (Dominant_ n)) as [Hlt|Hge].
  { unfold suspectNode, getNodeState. run. rewrite En, (proj2 (Z.ltb_lt _ _)) by done.
    by intros [= <-]. }
  destruct (suspicions_ g !! Name_ s) as [sus|] eqn:Es.
  - destruct (inv_susp _ (proj1 Hg) _ _ Es) as (_ & Hwf & Hcap).
    destruct (inv_names _ (proj1 Hg) _ _ Hcap) as [Hcn _]. cbn in Hcn.
    unfold suspectNode. step (eq_refl : getNodeState (Name_ s) g = Ok (node_map_ g !! Name_ s, g)).
    rewrite En, (proj2 (Z.ltb_ge _ _)) by done.
    step (eq_refl : getSuspicion (Name_ s) g = Ok (suspicions_ g !! Name_ s, g)). rewrite Es.
    pose proof (Confirm_spec (From_ s) sus Hwf) as Hc.
    destruct (Confirm (From_ s) sus) as [[b sus'] rs]. destruct Hc as (Hwf' & _ & _ & Hcv & _).
    step. step. step.
    pose proof (inv_suspicion_change g _ sus sus' (posted_ g ++ rs) Hg Es Hwf' Hcv) as Hg1.
    set (g1 := set_posted_ _ _) in *. change (node_map_ g) with (node_map_ g1). destruct b.
    + rewrite Hcv, convict_readable by apply deref_node_intact. intros E.
      apply (deadNode_frame _ k) in E; [done..|]. cbn. by rewrite Hcn.
    + by intros ->%broadcast_frame.
  - destruct (decide (State_ n = STATE_ALIVE)) as [Ha|Ha].
    + destruct (suspect_start_run lives s n g Hg En Hge Ha Es) as (q & d & _ & _ & _ & _ & E).
      cbv zeta in E. rewrite E. destruct (suspicion_new _ _); [|done]. intros [= <-]. members.
      by rewrite lookup_insert_ne.
    + unfold suspectNode, getNodeState, getSuspicion. run.
      rewrite En, (proj2 (Z.ltb_ge _ _)), Es, bool_decide_eq_true_2 by done. by intros [= <-].
Qed.

Lemma mergeReport_frame need_bc r k g g' : inv g -> in_range 64 (Dominant_ r) -> Name_ r <> k ->
  mergeReport need_bc r g = Ok (tt, g') ->
  inv g' /\ evolves g g' /\ node_map_ g' !! k = node_map_ g !! k.
Proof.
  intros Hg Hr Hk E.
  destruct (safe_keeps _ _ _ _ _ (mergeReport_safe need_bc r Hr) Hg E) as [Hg' He].
  split_and!; [done..|]. unfold mergeReport in E. destruct (State_ r) eqn:Es.
  - by eapply aliveNode_frame.
  - by eapply suspectNode_frame.
  - by eapply deadNode_frame.
  - by injection E as <-.
Qed.

Lemma merge_frame need_bc l k g g' : inv g -> Forall (fun r => in_range 64 (Dominant_ r)) l ->
  k ∉ Name_ <$> l -> for_each l (mergeReport need_bc) g = Ok (tt, g') ->
  inv g' /\ evolves g g' /\ node_map_ g' !! k = node_map_ g !! k.
Proof.
  revert g. induction l as [|r l IH]; intros g Hg Hl Hk E; [by injection E as <-|].
  apply Forall_cons in Hl as [Hr Hl]. apply not_elem_of_cons in Hk as [Hr' Hk].
  cbn [for_each] in E. unfold mbind, M_bind in E.
  destruct (mergeReport need_bc r g) as [[[] g1]|] eqn:E1; [|done].
  destruct (mergeReport_frame need_bc r k g g1) as (Hg1 & He1 & Hk1); [done..|].
  destruct (IH g1) as (Hg' & He' & Hk'); [done..|]. split_and!; [done|by etrans|congruence].
Qed.

(** ** The objection among the gossip *)

(** Merging a batch with distinct names that holds a newer alive report of
    another node makes that report the node's record. *)
Lemma merge_revives need_bc l x g g' : inv g -> Forall (fun r => in_range 64 (Dominant_ r)) l ->
  NoDup (Name_ <$> l) -> x ∈ l -> State_ x = STATE_ALIVE -> Name_ x <> self_name g ->
  known_dominant g (Name_ x) < Dominant_ x ->
  for_each l (mergeReport need_bc) g = Ok (tt, g') ->
  node_map_ g' !! Name_ x = Some (set_Timestamp 0 x) /\ Name_ x ∈ nodes_ g'.
Proof.
  intros Hg Hl Hnd (l1 & l2 & ->)%list_elem_of_split Hx Hself Hd E.
  apply Forall_app in Hl as [Hl1 [Hr Hl2]%Forall_cons].
  rewrite fmap_app, fmap_cons in Hnd.
  assert (Name_ x ∉ Name_ <$> l1 /\ Name_ x ∉ Name_ <$> l2) as [Hn1 Hn2].
  { apply NoDup_app in Hnd as (_ & Hd12 & [Hn2 _]%NoDup_cons). split; [|done].
    intros Hin. apply (Hd12 _ Hin). by left. }
  rewrite for_each_app in E. destruct (for_each l1 _ g) as [[[] g1]|] eqn:E1; [|done].
  destruct (merge_frame need_bc l1 (Name_ x) g g1) as (Hg1 & He1 & Hk1); [done..|].
  assert (mergeReport need_bc x = aliveNode x need_bc) as Hxr by (unfold mergeReport; by rewrite Hx).
  cbn [for_each] in E. rewrite Hxr in E.
  destruct (aliveNode_spec x need_bc g1 Hg1 Hx Hr) as (g2 & E2 & Hg2 & _ & Heff).
  unfold alive_accepts in Heff. unfold known_dominant in *. rewrite Hk1 in Heff.
  assert (self_name g1 = self_name g) as Hs by (unfold self_name; by rewrite (ev_conf _ _ He1)).
  rewrite Hs, (bool_decide_eq_false_2 (Name_ x = _)), andb_false_r in Heff by done.
  rewrite (proj2 (Z.ltb_lt _ _)) in Heff by done. destruct Heff as (Hm & _).
  rewrite (bind_Ok _ _ _ _ _ E2) in E.
  destruct (merge_frame need_bc l2 (Name_ x) g2 g') as (Hg' & _ & Hk'); [done..|].
  assert (node_map_ g' !! Name_ x = Some (set_Timestamp 0 x)) as Hfin.
  { by rewrite Hk', Hm, lookup_insert_eq. }
  split; [done|]. apply (inv_members _ (proj1 Hg')). eexists. split; [done|]. cbn. by rewrite Hx.
Qed.

(** A batch names each node once. *)
Lemma batch_distinct g : inv g -> NoDup (Name_ <$> batch g).
Proof.
  intros Hg. destruct (inv_queue _ (proj1 Hg)) as [Hnd Hok _ _].
  assert (Name_ <$> (msg_of <$> ring (bc_queue_ g)) = (ring (bc_queue_ g)).*1) as E.
  { assert (Forall entry_ok (ring (bc_queue_ g))) as Hr by (unfold ring; by rewrite rotate_perm).
    induction Hr as [|e r [He _] _ IH]; [done|]. cbn. by rewrite He, IH. }
  assert (NoDup (Name_ <$> (msg_of <$> ring (bc_queue_ g)))) as Hr.
  { rewrite E. unfold ring. by rewrite rotate_perm. }
  eapply sublist_NoDup; [exact Hr|]. unfold batch. rewrite !fmap_take. apply sublist_take.
Qed.

(** With no more messages queued than a batch holds, each is in the batch. *)
Lemma batch_all g k x t : inv g -> Z.of_nat (length (m_ (bc_queue_ g))) <= MAX_APPENDED_MSG_ g ->
  map_find k (m_ (bc_queue_ g)) = Some (x, t) -> x ∈ batch g.
Proof.
  intros Hg Hl Hk. destruct (inv_queue _ (proj1 Hg)) as [Hnd _ _ _].
  apply find_Some in Hk; [|done]. unfold batch. rewrite take_ge by (rewrite length_ring; lia).
  apply list_elem_of_fmap. exists (k, (x, t)). split; [done|]. unfold ring. by rewrite rotate_perm.
Qed.

(** ** The two exchanges *)

(** After an objection to dominant [d], if no accusation of ourselves is in
    our own queue, what it holds about us is alive and above [d]. *)
Lemma objection_queued d g : inv g -> 0 <= d < 2 ^ 64 - 1 ->
  (forall x t, map_find (self_name g) (m_ (bc_queue_ g)) = Some (x, t) -> State_ x = STATE_ALIVE) ->
  exists x t g', fuckyou d g = Ok (tt, g') /\
    map_find (self_name g) (m_ (bc_queue_ g')) = Some (x, t) /\
    Name_ x = self_name g /\ State_ x = STATE_ALIVE /\ d < Dominant_ x.
Proof.
  intros [Hg _] Hd Hown. destruct (fuckyou_run d g) as (q & E & _ & Hf); [eauto with gossip..|].
  set (o := self_state (conf_ g) (objection (dominant_ g) d)) in *.
  assert (d < Dominant_ o) as Ho by (apply objection_above; [apply Hg|done]).
  specialize (Hf (self_name g)). rewrite decide_True in Hf by done.
  assert (exists x t, push_entry o (node_num_ g) (map_find (self_name g) (m_ (bc_queue_ g))) = (x, t) /\
    Name_ x = self_name g /\ State_ x = STATE_ALIVE /\ d < Dominant_ x) as (x & t & Ep & Hx).
  { destruct (map_find _ (m_ (bc_queue_ g))) as [[old t]|] eqn:Eold; cbn; [|by eexists _, _].
    destruct (supersedes o old) eqn:Es; [by eexists _, _|]. eexists _, _. split; [done|].
    pose proof (Hown _ _ eq_refl) as Ha. destruct (inv_queue _ Hg) as [Hnd Hok _ _].
    apply find_Some in Eold; [|done].
    destruct (proj1 (Forall_forall _ _) Hok _ Eold) as [Hn _].
    split_and!; [exact Hn|done|]. unfold supersedes in Es. lia. }
  rewrite Ep in Hf. by eexists x, t, _.
Qed.

Context `{!MessageCodec} `{!MessageCodecOk _}.

(** A ping whose batch holds a newer alive report of its own sender makes that
    report the sender's record at a receiver that survives it. *)
Lemma gossip_revives client server seq buff old ws x g h : inv g -> inv h -> x ∈ batch g ->
  State_ x = STATE_ALIVE -> Name_ x = self_name g -> known_dominant h (Name_ x) < Dominant_ x ->
  self_name h <> self_name g -> wire_string (self_name g) -> MAX_APPENDED_MSG_ g <= 10 ->
  Forall node_state_ok (batch g) -> mapM wire_state (batch g) = Ok ws ->
  gossip_size g seq ws <= mtu -> len buff = mtu -> len old = mtu -> in_range 64 seq ->
  exists size sent g', generatePing client seq buff mtu g = Ok ((size, sent), g') /\
    forall r h', handlePacket server (received size sent old) size mtu h = Ok (r, h') ->
      node_map_ h' !! Name_ x = Some (set_Timestamp 0 x) /\ Name_ x ∈ nodes_ h'.
Proof.
  intros Hg Hh Hin Hxa Hxn Hxd Hne Hname Hmax Hok Hws Hfit Hb Ho Hseq.
  destruct (wire_batch g ws Hmax Hok Hws) as [Hnss Hconv].
  destruct (gossip_sent client seq buff g ws Hg Hb) as (rest & q & E & Hl & _); [|done..|].
  { intros ->. apply Forall2_nil_inv_r in Hconv. rewrite Hconv in Hin.
    by apply not_elem_of_nil in Hin. }
  exists (gossip_size g seq ws), (gossip_packet g seq ws rest), (set_bc_queue_ q g).
  split; [done|]. intros r h'. rewrite (gossip_received server seq g ws (batch g)) by done.
  unfold mbind, M_bind.
  destruct (for_each (batch g) (mergeReport true) h) as [[[] h1]|] eqn:Em; [|done].
  unfold lift. destruct (answerPing _ _ _ _ _) as [ans|]; [|done]. intros [= _ <-].
  eapply (merge_revives true (batch g)); try done.
  - eapply Forall_impl; [exact Hok|]. by intros m (_ & _ & _ & _ & ? & _).
  - by apply batch_distinct.
  - by rewrite Hxn.
Qed.

(** C8: a false death heals in two exchanges. [a], whose name can be sent and fits a
    packet, pings [b], which holds it dead at a dominant below the largest 64-bit
    value, by a record that can be sent and fits behind the pong ([alert_fits]); if
    what [a] has in its queue about itself is nothing or alive, then when the pong
    arrives it queues an objection [x], alive and above the dominant it is dead at.
    Any later ping of [a] with [x] in its batch (of at most ten reports fit for the
    wire, which fits the packet) that reaches a [b] that knows nothing of [a] above
    that dominant and survives handling it makes [x] the record [b] has of [a], and
    [a] its member again, whatever else the batch reports. Both satisfy the
    invariant throughout, and memory is [Intact]: each report is read from a
    destroyed local of [convert] that still holds it. *)
Theorem false_death_heals (client server : endian) (seq1 size1 rst1 : Z)
    (buff1 old1 sent1 pong : list Z) (g g1 h h1 : gossiper) (n : node_state) :
  inv g -> inv h -> len buff1 = mtu -> len old1 = mtu -> in_range 64 seq1 ->
  wire_string (self_name g) -> HEADER_SIZE + len (ping_body g seq1) <= mtu ->
  alert_fits (node_map_ h !! self_name g) seq1 ->
  node_map_ h !! self_name g = Some n -> State_ n = STATE_DEAD -> 0 <= Dominant_ n < 2 ^ 64 - 1 ->
  (forall x t, map_find (self_name g) (m_ (bc_queue_ g1)) = Some (x, t) -> State_ x = STATE_ALIVE) ->
  generatePing client seq1 buff1 mtu g = Ok ((size1, sent1), g1) ->
  handlePacket server (received size1 sent1 old1) size1 mtu h = Ok ((rst1, pong), h1) ->
  exists x t g2, on_pong client seq1 pong rst1 g1 = Ok (tt, g2) /\
    map_find (self_name g) (m_ (bc_queue_ g2)) = Some (x, t) /\
    State_ x = STATE_ALIVE /\ Dominant_ n < Dominant_ x /\
    forall g3 h2 seq2 buff2 old2 ws, inv g3 -> inv h2 -> self_name g3 = self_name g ->
      x ∈ batch g3 -> MAX_APPENDED_MSG_ g3 <= 10 -> Forall node_state_ok (batch g3) ->
      mapM wire_state (batch g3) = Ok ws -> gossip_size g3 seq2 ws <= mtu ->
      len buff2 = mtu -> len old2 = mtu -> in_range 64 seq2 -> self_name h2 <> self_name g ->
      known_dominant h2 (self_name g) <= Dominant_ n ->
      exists size2 sent2 g4, generatePing client seq2 buff2 mtu g3 = Ok ((size2, sent2), g4) /\
        forall r h3, handlePacket server (received size2 sent2 old2) size2 mtu h2 = Ok (r, h3) ->
          node_map_ h3 !! self_name g = Some (set_Timestamp 0 x) /\ self_name g ∈ nodes_ h3.
Proof.
  intros Hg Hh Hb1 Ho1 Hseq1 Hname Hfit1 Halert Hn Hdead Hdn Hown Hgen1 Hpkt1.
  destruct (ping_handled client server seq1 buff1 old1 size1 rst1 sent1 pong g g1 h h1)
    as (pk & Hpk & Eans); try done.
  destruct (safe_keeps _ _ _ _ _ (generatePing_safe client seq1 buff1 mtu) Hg Hgen1) as [Hg1 He1].
  assert (self_name g1 = self_name g) as Hs1 by (unfold self_name; by rewrite (ev_conf _ _ He1)).
  rewrite <- Hs1 in *.
  destruct (answer_to_ping server client _ seq1 pk g1 Hpk Hseq1 Halert)
    as (rst' & pong' & E' & _ & _ & _ & Eon).
  { intros m Hm. by destruct (inv_names _ (proj1 Hh) _ _ Hm). }
  rewrite Eans in E'. injection E' as <- <-. rewrite Hn, bool_decide_eq_true_2 in Eon by done.
  destruct (objection_queued (Dominant_ n) g1 Hg1 Hdn Hown)
    as (x & t & g2 & Ef & Hq & Hxn & Hxa & Hxd).
  exists x, t, g2. rewrite Eon. split_and!; [done..|].
  intros g3 h2 seq2 buff2 old2 ws Hg3 Hh2 Hs3 Hin Hmax Hok Hws Hfit2 Hb2 Ho2 Hseq2 Hne Hkd.
  assert (self_name h2 <> self_name g3) as Hne3 by by rewrite Hs3.
  rewrite <- Hxn in Hkd |- *. rewrite <- Hs3 in Hname, Hxn.
  apply (gossip_revives client server seq2 buff2 old2 ws x g3 h2); try done. lia.
Qed.
End healing.
