(* ===== verification/Joining.v ===== *)
(** * A join, seen from both sides

    A gossiper that has just started joins through a member that never heard of
    it. What [Join], the exchange of tables and the session do together: the
    member takes the newcomer in, and the newcomer learns exactly the members
    that are known there to be alive. *)
From S2P Require Import Prelude Utils Bytes Header Node Broadcast Suspicion Messages Gossiper.
From S2P Require Import Membership Reports Protocol Dynamics Exchange Session Runs.
Local Open Scope Z_scope.

(** ** What a table teaches one who knows nobody *)

(** Is a report one that makes an unknown node known? *)
Definition teaches (r : node_state) : bool :=
  bool_decide (State_ r = STATE_ALIVE) && (0 <? Dominant_ r).

Definition learn (m : gmap string node_state) (r : node_state) : gmap string node_state :=
  if bool_decide (m !! Name_ r = None) && teaches r then <[Name_ r := set_Timestamp 0 r]> m else m.

Lemma learn_other m r k : Name_ r <> k -> learn m r !! k = m !! k.
Proof. intros Hk. unfold learn. destruct (_ && _); [|done]. by rewrite lookup_insert_ne. Qed.

Lemma learn_others l m k : k ∉ Name_ <$> l -> foldl learn m l !! k = m !! k.
Proof.
  revert m. induction l as [|r l IH]; intros m; [done|]. cbn. rewrite not_elem_of_cons.
  intros [Hr Hl]. rewrite IH by done. by apply learn_other.
Qed.

Lemma learn_lookup l m k : NoDup (Name_ <$> l) -> foldl learn m l !! k =
  match m !! k with
  | Some n => Some n
  | None => match list_find (fun r => Name_ r = k) l with
            | Some (_, r) => if teaches r then Some (set_Timestamp 0 r) else None
            | None => None
            end
  end.
Proof.
  revert m. induction l as [|r l IH]; intros m Hnd; [cbn; by destruct (m !! k)|].
  cbn [fmap list_fmap] in Hnd. apply NoDup_cons in Hnd as [Hr Hnd]. cbn [foldl list_find].
  case_decide as Hk.
  - rewrite learn_others by by rewrite <- Hk. unfold learn. rewrite Hk.
    destruct (m !! k) as [n|] eqn:Em; [by rewrite bool_decide_eq_false_2|].
    rewrite bool_decide_eq_true_2 by done. cbn [andb].
    destruct (teaches r); [apply lookup_insert_eq|done].
  - rewrite IH, learn_other by done. destruct (m !! k); [done|].
    by destruct (list_find _ l) as [[]|].
Qed.

Section joining.
Context `{IterationOrder} `{Residue} `{TableOrder} `{FreedHeap} `{StackRoom} `{StaleHeader}
  `{!MessageCodec} `{!MessageCodecOk _}.

(** What we know at least as well changes nothing. *)
Lemma merge_known need_bc r g : State_ r = STATE_ALIVE -> Dominant_ r <= known_dominant g (Name_ r) ->
  mergeReport need_bc r g = Ok (tt, g).
Proof.
  intros Ha Hd. unfold mergeReport. rewrite Ha. unfold aliveNode. step. destruct (_ && _); [done|].
  unfold known_dominant in Hd.
  step (eq_refl : getNodeState (Name_ r) g = Ok (node_map_ g !! Name_ r, g)).
  rewrite (proj2 (Z.leb_le _ _)); [done|]. by destruct (node_map_ g !! Name_ r).
Qed.

Lemma merge_unknown need_bc r g : inv g -> is_leaving_ g = false -> in_range 64 (Dominant_ r) ->
  node_map_ g !! Name_ r = None ->
  exists g', mergeReport need_bc r g = Ok (tt, g') /\ inv g' /\ evolves g g' /\
    node_map_ g' = learn (node_map_ g) r.
Proof.
  intros Hg Hl Hr Hk.
  assert (known_dominant g (Name_ r) = 0) as Hd by (unfold known_dominant; by rewrite Hk).
  unfold learn, teaches, mergeReport.
  destruct (State_ r) eqn:Es.
  - destruct (aliveNode_spec r need_bc g Hg Es Hr) as (g' & E & Hg' & He & Heff). exists g'.
    split_and!; [done..|]. unfold alive_accepts in Heff. rewrite Hl, Hd in Heff. cbn [andb negb] in Heff.
    rewrite !bool_decide_eq_true_2 by done. cbn [andb].
    destruct (0 <? Dominant_ r); [by destruct Heff|by rewrite Heff].
  - exists g. rewrite andb_false_r. split_and!; try done. unfold suspectNode.
    step (eq_refl : getNodeState (Name_ r) g = Ok (node_map_ g !! Name_ r, g)). by rewrite Hk.
  - destruct (deadNode_spec r g Hg Es) as (g' & E & Hg' & He & Heff). exists g'.
    split_and!; [done..|]. unfold dead_effect in Heff. rewrite Hk in Heff.
    by rewrite Heff, andb_false_r.
  - exists g. by rewrite andb_false_r.
Qed.

(** Merging a table that says what we know already of the nodes we know. *)
Lemma merge_learns need_bc l g : inv g -> is_leaving_ g = false -> NoDup (Name_ <$> l) ->
  Forall (fun r => in_range 64 (Dominant_ r)) l ->
  (forall r, r ∈ l -> node_map_ g !! Name_ r = None \/
     (State_ r = STATE_ALIVE /\ node_map_ g !! Name_ r = Some r)) ->
  exists g', for_each l (mergeReport need_bc) g = Ok (tt, g') /\ inv g' /\ evolves g g' /\
    node_map_ g' = foldl learn (node_map_ g) l.
Proof.
  intros Hg Hl Hnd Hr Hk. revert g Hg Hl Hk. induction l as [|r l IH]; intros g Hg Hl Hk; [by exists g|].
  apply Forall_cons in Hr as [Hr Hrs]. cbn [fmap list_fmap] in Hnd. apply NoDup_cons in Hnd as [Hn Hnd].
  cbn [for_each foldl]. assert (exists g1, mergeReport need_bc r g = Ok (tt, g1) /\ inv g1 /\
    evolves g g1 /\ node_map_ g1 = learn (node_map_ g) r) as (g1 & E1 & Hg1 & He1 & Hm1).
  { destruct (Hk r ltac:(left)) as [Hu|[Ha Hs]]; [by apply merge_unknown|].
    exists g. split; [|split_and!; try done].
    - apply merge_known; [done|]. unfold known_dominant. by rewrite Hs.
    - unfold learn. by rewrite bool_decide_eq_false_2 by (by rewrite Hs). }
  destruct (IH Hnd Hrs g1 Hg1) as (g' & E' & Hg' & He' & Hm').
  { by rewrite (ev_leaving _ _ He1). }
  { intros r' Hr'. rewrite Hm1, learn_other; [apply Hk; by right|].
    intros E. destruct Hn. rewrite E. by apply list_elem_of_fmap_2. }
  exists g'. split; [by step E1|]. split; [done|]. split; [by etrans|]. by rewrite Hm', Hm1.
Qed.

(** ** The tables that are sent *)

Lemma reports_In h r : r ∈ reports h <-> exists k, node_map_ h !! k = Some r.
Proof.
  unfold reports. rewrite list_elem_of_fmap. split.
  - intros ([k n] & -> & Hin). exists k. rewrite iteration_perm in Hin. by apply elem_of_map_to_list.
  - intros [k Hk]. exists (k, r). split; [done|]. rewrite iteration_perm. by apply elem_of_map_to_list.
Qed.

Lemma reports_distinct h : inv h -> NoDup (Name_ <$> reports h).
Proof.
  intros Hh. assert (Name_ <$> reports h = (iteration (node_map_ h)).*1) as ->.
  { unfold reports. rewrite <- list_fmap_compose. apply list_fmap_ext. intros i [k n] Hi.
    apply list_elem_of_lookup_2 in Hi. rewrite iteration_perm in Hi. apply elem_of_map_to_list in Hi.
    by destruct (inv_names _ (proj1 Hh) _ _ Hi). }
  rewrite iteration_perm. apply NoDup_fst_map_to_list.
Qed.

Lemma find_report h k : inv h -> snd <$> list_find (fun r => Name_ r = k) (reports h) = node_map_ h !! k.
Proof.
  intros Hh. destruct (list_find _ _) as [[i r]|] eqn:E; cbn.
  - apply list_find_Some in E as (Hi & Hr & _). apply list_elem_of_lookup_2, reports_In in Hi as [k' Hk'].
    destruct (inv_names _ (proj1 Hh) _ _ Hk'). by simplify_eq.
  - apply list_find_None in E. symmetry. apply eq_None_not_Some. intros [n Hn].
    destruct (inv_names _ (proj1 Hh) _ _ Hn) as [Hname _]. rewrite Forall_forall in E.
    apply (E n); [apply reports_In; by exists k|done].
Qed.

Lemma reports_one g k n : node_map_ g = {[k := n]} -> reports g = [n].
Proof.
  intros Hm. unfold reports. rewrite Hm. pose proof (iteration_perm {[k := n]}) as Hp.
  rewrite map_to_list_singleton in Hp. by apply Permutation_singleton_r in Hp as ->.
Qed.

Lemma encodeLocalState_body g b g' : encodeLocalState g = Ok (b, g') ->
  exists ws, mapM wire_state (reports g) = Ok ws /\ b = encode_NodeStates (Some ws).
Proof.
  unfold encodeLocalState. step. intros (ws & g1 & E & E')%bind_Ok_inv.
  run in E'. injection E' as <- _. exists ws. split; [|done]. unfold lift in E.
  destruct (mapM _ (iteration (node_map_ g))) as [ws'|] eqn:Em; [|done]. injection E as -> _.
  apply mapM_Ok. apply mapM_Ok in Em. unfold reports. by apply Forall2_fmap_l.
Qed.

(** ** The join *)

(** The record of one who starts. *)
Definition newcomer (conf : config) : node_state := set_Timestamp 0 (self_state conf 1).

Lemma newcomer_ok conf : wire_string (conf_Name conf) -> wire_string (conf_Addr conf) ->
  in_srange 16 (conf_Port conf) -> node_state_ok (newcomer conf).
Proof. intros Hn Ha Hp. split_and!; try done; [by exists (conf_Port conf)|by exists 0]. Qed.

(** A member that does not know the newcomer takes it in. *)
Lemma newcomer_welcome conf h : inv h -> conf_Name conf <> self_name h ->
  node_map_ h !! conf_Name conf = None ->
  exists h', aliveNode (newcomer conf) true h = Ok (tt, h') /\ inv h' /\
    node_map_ h' = <[conf_Name conf := newcomer conf]> (node_map_ h) /\ conf_Name conf ∈ nodes_ h'.
Proof.
  intros Hh Hne Hk. destruct (aliveNode_spec (newcomer conf) true h Hh) as (h' & E & Hh' & _ & Heff); [done..|].
  exists h'. do 2 (split; [done|]). unfold alive_accepts, known_dominant in Heff.
  change (Name_ (newcomer conf)) with (conf_Name conf) in Heff. rewrite Hk in Heff.
  rewrite bool_decide_eq_false_2, andb_false_r in Heff by done. destruct Heff as (Hm & _).
  split; [exact Hm|]. apply (inv_members _ (proj1 Hh')). exists (newcomer conf).
  by rewrite Hm, lookup_insert_eq.
Qed.

(** What the newcomer makes of the member's table, its own record in it. *)
Lemma newcomer_learns conf h h' g1 : inv h -> inv h' -> inv g1 -> is_leaving_ g1 = false ->
  node_map_ h !! conf_Name conf = None ->
  node_map_ h' = <[conf_Name conf := newcomer conf]> (node_map_ h) ->
  node_map_ g1 = {[conf_Name conf := newcomer conf]} -> Forall node_state_ok (reports h') ->
  exists g', for_each (reports h') (mergeReport false) g1 = Ok (tt, g') /\ inv g' /\ evolves g1 g' /\
    forall k, node_map_ g' !! k =
      if decide (k = conf_Name conf) then Some (newcomer conf)
      else r ← node_map_ h !! k; if teaches r then Some (set_Timestamp 0 r) else None.
Proof.
  intros Hh Hh' Hg1 Hlv Hk Hm' Hm1 Hok.
  destruct (merge_learns false (reports h') g1 Hg1 Hlv) as (g' & E & Hg' & He & Hm).
  { by apply reports_distinct. }
  { eapply Forall_impl; [exact Hok|]. by intros r (_ & _ & _ & _ & ? & _). }
  { intros r [k Hr]%reports_In. destruct (inv_names _ (proj1 Hh') _ _ Hr) as [-> _]. rewrite Hm1.
    rewrite Hm' in Hr. destruct (decide (conf_Name conf = k)) as [<-|Hne].
    - rewrite lookup_insert_eq in Hr. injection Hr as <-. right. by rewrite lookup_singleton_eq.
    - left. by apply lookup_singleton_ne. }
  exists g'. do 3 (split; [done|]). intros k. rewrite Hm, learn_lookup by by apply reports_distinct.
  pose proof (find_report h' k Hh') as Hf. rewrite Hm1. case_decide as Hd.
  - subst k. by rewrite lookup_singleton_eq.
  - rewrite lookup_singleton_ne by done. rewrite Hm', lookup_insert_ne in Hf by done. rewrite <- Hf.
    by destruct (list_find _ _) as [[i r]|].
Qed.

(** Its members: itself, and those it learned of. *)
Lemma newcomer_members conf (m : gmap string node_state) g' k : inv g' ->
  (forall k, node_map_ g' !! k = if decide (k = conf_Name conf) then Some (newcomer conf)
     else r ← m !! k; if teaches r then Some (set_Timestamp 0 r) else None) ->
  k ∈ nodes_ g' <-> k = conf_Name conf \/
    exists r, m !! k = Some r /\ State_ r = STATE_ALIVE /\ 0 < Dominant_ r.
Proof.
  intros Hg' Hm. rewrite (inv_members _ (proj1 Hg')), Hm. case_decide as Hk.
  { split; [by left|]. intros _. by exists (newcomer conf). }
  unfold teaches. destruct (m !! k) as [r|]; cbn; [|naive_solver].
  destruct (decide (State_ r = STATE_ALIVE)) as [Ha|Ha].
  - rewrite bool_decide_eq_true_2 by done. cbn [andb]. destruct (Z.ltb_spec 0 (Dominant_ r)).
    + split; [intros _; right; by exists r|]. intros _. exists (set_Timestamp 0 r). cbn. by rewrite Ha.
    + split; [by intros (? & ? & _)|]. intros [?|(r' & ? & _ & ?)]; [done|]. simplify_eq. lia.
  - rewrite bool_decide_eq_false_2 by done. naive_solver.
Qed.

(** The routines of [alive]. *)
Definition routines (conf : config) : list (Z * routine) :=
  [(Probe_interval_ conf, ProbeRoutine); (Gossip_interval_ conf, GossipRoutine)].

Lemma Join_syncs host network peer phost pport g g1 g' conf b :
  Split peer ":" = Some [phost; pport] -> conf_ g1 = conf -> conf_ g' = conf ->
  phost <> conf_Addr conf \/ to_string (conf_Port conf) <> pport ->
  Join_self g = Ok (tt, g1) -> syncState host (network phost pport) g1 = Ok (b, g') ->
  Join host network peer g = Ok (routines conf, g').
Proof.
  intros Hsp Hc1 Hc' Hp Ej Es. unfold Join. rewrite Hsp. step Ej. step. rewrite Hc1.
  replace (_ || _) with true; cycle 1.
  { symmetry. apply orb_true_iff. destruct Hp; [left|right]; by rewrite bool_decide_eq_false_2. }
  cbn [when]. unfold mbind, M_bind. rewrite Es. unfold alive, mret, M_ret. run. by rewrite Hc'.
Qed.

(** C15: a join makes both sides meet. A gossiper that has just started joins
    through a member that never heard of it, across hosts of either byte order.
    [Join] succeeds and starts the two routines; the member's session merges the
    newcomer's table, which makes the newcomer one of its members and changes no
    other record; and the newcomer ends with its own record and exactly those of
    the member's records that are alive at a dominant above zero, which, with
    itself, are its members. The two tables need to fit the session's buffers,
    the newcomer's stack to have room for both (128 KiB is enough), and the three
    objects the code reads after they are gone to be intact. *)
Theorem join_mutual (client server : endian) (uninit : Header) (in_buff out_buff : list Z)
    (conf : config) (join leave : bool) (network : string -> string -> peer_stream)
    (peer phost pport : string) (h : gossiper) :
  Intact _ -> IntactHeap _ -> IntactHeader _ -> 2 * buff_size_ <= stack_room ->
  len in_buff = buff_size_ -> len out_buff = buff_size_ ->
  Split peer ":" = Some [phost; pport] ->
  phost <> conf_Addr conf \/ to_string (conf_Port conf) <> pport ->
  network phost pport = session_stream server uninit in_buff out_buff h ->
  wire_string (conf_Name conf) -> wire_string (conf_Addr conf) -> in_srange 16 (conf_Port conf) ->
  (forall ws, mapM wire_state [newcomer conf] = Ok ws ->
    len (encode_NodeStates (Some ws)) <= buff_size_) ->
  inv h -> conf_Name conf <> self_name h -> node_map_ h !! conf_Name conf = None ->
  Forall node_state_ok (reports h) ->
  (forall h' ws, aliveNode (newcomer conf) true h = Ok (tt, h') ->
    Z.of_nat (length (reports h')) < 2 ^ 12 /\ (mapM wire_state (reports h') = Ok ws ->
    HEADER_SIZE + len (encode_NodeStates (Some ws)) <= buff_size_)) ->
  let g := set_notify_leave_ leave (set_notify_join_ join (gossiper_new conf)) in
  exists rts g1 body resp g' h',
    Join client network peer g = Ok (rts, g') /\
    rts = routines conf /\
    Join_self g = Ok (tt, g1) /\ encodeLocalState g1 = Ok (body, g1) /\
    Session_Go server uninit in_buff out_buff (packet TYPE_SYNCSTATE body []) h = Ok (Some resp, h') /\
    node_map_ h' = <[conf_Name conf := newcomer conf]> (node_map_ h) /\ conf_Name conf ∈ nodes_ h' /\
    (forall k, node_map_ g' !! k =
      if decide (k = conf_Name conf) then Some (newcomer conf)
      else r ← node_map_ h !! k; if teaches r then Some (set_Timestamp 0 r) else None) /\
    (forall k, k ∈ nodes_ g' <-> k = conf_Name conf \/
      exists r, node_map_ h !! k = Some r /\ State_ r = STATE_ALIVE /\ 0 < Dominant_ r).
Proof.
  intros HI HF HS Hroom Hin Hout Hsp Hpeer Hnet Hn Ha Hp Hfit Hh Hne Hk Hok Hfit' g.
  destruct (Join_self_joins conf join leave) as (g1 & Ej & Hg1 & He1 & _ & Hm1). fold g in Ej, He1.
  pose proof (newcomer_ok conf Hn Ha Hp) as Hme.
  destruct (newcomer_welcome conf h Hh Hne Hk) as (h' & Ew & Hh' & Hm' & Hin').
  assert (reports g1 = [newcomer conf]) as Hr1 by by eapply reports_one.
  assert (Forall node_state_ok (reports h')) as Hok'.
  { apply Forall_forall. intros r [k Hr]%reports_In. rewrite Hm' in Hr.
    apply lookup_insert_Some in Hr as [[_ <-]|[_ Hr]]; [done|].
    apply (proj1 (Forall_forall _ _) Hok), reports_In. by exists k. }
  destruct (newcomer_learns conf h h' g1) as (g' & Em & Hg' & He' & Hmg); try done.
  { by rewrite (ev_leaving _ _ He1). }
  destruct (sync_exchanges_tables client server uninit in_buff out_buff g1 h h') as [[resp Es] Ec]; try done.
  { rewrite Hr1. by apply Forall_singleton. } { by rewrite Hr1. }
  { intros ws (ws' & E & ->)%encodeLocalState_body. rewrite Hr1 in E. by apply Hfit. }
  { rewrite Hr1. cbn [for_each]. unfold mergeReport at 1. by step Ew. }
  { by apply (Hfit' h' []). }
  { intros ws (ws' & E & ->)%encodeLocalState_body. by apply (Hfit' h'). }
  destruct (encodeLocalState_run g1) as (ws & Ee & _); [rewrite Hr1; by apply Forall_singleton|].
  rewrite Ee in Es. exists (routines conf), g1, (encode_NodeStates (Some ws)), resp, g', h'.
  split; [|split; [done|]].
  - apply (Join_syncs client network peer phost pport _ g1 _ _ true); try done.
    + by rewrite (ev_conf _ _ He1).
    + by rewrite (ev_conf _ _ He'), (ev_conf _ _ He1).
    + rewrite Hnet, Ec. by step Em.
  - do 6 (split; [done|]). intros k. by apply newcomer_members.
Qed.
End joining.
