(* ===== verification/Cluster.v ===== *)
(** * A closed cluster

    Several gossipers and what they have sent each other. The network may delay,
    reorder, duplicate and lose, but it makes nothing up: a node receives only
    what some node sent. The theorem is about provenance: whatever such a cluster
    does, each record that any of its nodes holds of another is that node's own,
    with the address it was configured with, and nobody's member list holds a
    node that is not of the cluster. The codec is the [MessageCodec] interface,
    the buffers are the code's, and what is read of an object that is gone, if the
    read does not fail, is its last value. *)
From stdpp Require Import relations.
From Stdlib Require Import Ascii.
From S2P Require Import Prelude Utils Bytes Header Node Broadcast Suspicion Messages Gossiper.
From S2P Require Import Membership Protocol Dynamics Records Exchange Session.
Local Open Scope Z_scope.

(** The members, each with its gossiper and its probes; the datagrams and the
    byte streams sent so far. *)
Record cluster := mkCluster {
  members : gmap string system;
  datagrams : list (list Z);
  streams : list (list Z)
}.

Section cluster.
Context (host : string -> endian) `{IterationOrder} `{!Residue} `{TableOrder} `{FreedHeap} `{StackRoom}
  `{StaleHeader} `{!MessageCodec}.

(** What the UDP client sends for a probe: nothing if its size is -1. *)
Definition probe_datagram (p : option probe_op) : list (list Z) :=
  match p with
  | Some p => if 0 <=? p_size p then [take (Z.to_nat (p_size p)) (p_buff p)] else []
  | None => []
  end.

(** What the UDP server sends back. *)
Definition answer_datagram (r : Z) (data : list Z) : list (list Z) :=
  if 0 <? r then [take (Z.to_nat r) data] else [].

(** What [syncState] writes, before it reads the peer's stream. *)
Definition request (h : endian) (g : gossiper) : outcome (list Z) :=
  '(body, _) ← encodeLocalState g;
  _ ← stack_array 0 (HEADER_SIZE + len body) g;
  buff ← EncodeHeader h (replicate (Z.to_nat (HEADER_SIZE + len body)) 0)
           (mkHeader TYPE_SYNCSTATE (u32 (len body)));
  memcpy buff HEADER_SIZE body.

Lemma syncState_request h peer g req : request h g = Ok req ->
  syncState h (Some peer) g = syncRequest h peer req g.
Proof.
  unfold request. intros ([body g'] & Ee & E)%outcome_bind_Ok.
  apply outcome_bind_Ok in E as ([[] g2] & E0 & (b1 & E1 & E2)%outcome_bind_Ok).
  assert (g2 = g) as ->.
  { revert E0. unfold stack_array. destruct (_ <=? _); [|done]. by intros [= <-]. }
  assert (g' = g) as ->.
  { unfold encodeLocalState in Ee. revert Ee. run. destruct (mapM _ _); [|done]. congruence. }
  unfold syncState. step Ee. cbv zeta. step E0.
  erewrite bind_Ok by (unfold lift; rewrite E1; reflexivity).
  by erewrite bind_Ok by (unfold lift; rewrite E2; reflexivity).
Qed.

Definition update (k : string) (s : system) (ds ss : list (list Z)) (c : cluster) : cluster :=
  mkCluster (<[k := s]> (members c)) (ds ++ datagrams c) (ss ++ streams c).

Lemma member_updated k s ds ss c : members (update k s ds ss c) !! k = Some s.
Proof. apply lookup_insert_eq. Qed.

Lemma member_other k j s ds ss c : j <> k -> members (update k s ds ss c) !! j = members c !! j.
Proof. intros. by apply lookup_insert_ne. Qed.

Inductive cluster_step (c : cluster) : cluster -> Prop :=
  | cluster_probe k g ps buff p g' : members c !! k = Some (mkSystem g ps) -> len buff = mtu ->
      probe (host k) buff g = Ok (p, g') ->
      cluster_step c (update k (mkSystem g' (option_list p ++ ps)) (probe_datagram p) [] c)
  | cluster_receive k g ps d old r data g' : members c !! k = Some (mkSystem g ps) ->
      d ∈ datagrams c -> len old = mtu ->
      handlePacket (host k) (received (len d) d old) (len d) mtu g = Ok ((r, data), g') ->
      cluster_step c (update k (mkSystem g' ps) (answer_datagram r data) [] c)
  | cluster_pong k g ps p d old g' : members c !! k = Some (mkSystem g ps) -> p ∈ ps ->
      d ∈ datagrams c -> len old = mtu ->
      on_pong (host k) (p_seq p) (received (len d) d old) (len d) g = Ok (tt, g') ->
      cluster_step c (update k (mkSystem g' ps) [] [] c)
  | cluster_timeout k g ps p g' : members c !! k = Some (mkSystem g ps) -> p ∈ ps ->
      on_probe_timeout p g = Ok (tt, g') -> cluster_step c (update k (mkSystem g' ps) [] [] c)
  | cluster_suspicion k g ps j g' : members c !! k = Some (mkSystem g ps) ->
      on_suspicion_timer j g = Ok (tt, g') -> cluster_step c (update k (mkSystem g' ps) [] [] c)
  | cluster_posted k g ps g' : members c !! k = Some (mkSystem g ps) ->
      run_posted g = Ok (tt, g') -> cluster_step c (update k (mkSystem g' ps) [] [] c)
  (* the first half of a [Join]: its request reaches the network; one whose
     table is larger than the receiving buffer is left out *)
  | cluster_request k g ps g1 req : members c !! k = Some (mkSystem g ps) ->
      Join_self g = Ok (tt, g1) -> request (host k) g1 = Ok req ->
      len req <= HEADER_SIZE + buff_size_ ->
      cluster_step c (update k (mkSystem g ps) [] [req] c)
  | cluster_session k g ps uninit in_buff out_buff d resp g' :
      members c !! k = Some (mkSystem g ps) -> d ∈ streams c ->
      len in_buff = buff_size_ -> len out_buff = buff_size_ ->
      Session_Go (host k) uninit in_buff out_buff d g = Ok (resp, g') ->
      cluster_step c (update k (mkSystem g' ps) [] (option_list resp) c)
  | cluster_join k g ps network peer rts g' : members c !! k = Some (mkSystem g ps) ->
      (forall phost pport answer req d, network phost pport = Some answer ->
        answer req = Some d -> d ∈ streams c) ->
      Join (host k) network peer g = Ok (rts, g') ->
      cluster_step c (update k (mkSystem g' ps) [] [] c).

(** Each node freshly started from its configuration, nothing sent yet. *)
Definition started (conf : config) : system :=
  mkSystem (set_notify_leave_ true (set_notify_join_ true (gossiper_new conf))) [].

Definition cluster_new (confs : list config) : cluster :=
  mkCluster (list_to_map ((fun conf => (conf_Name conf, started conf)) <$> confs)) [] [].
End cluster.

(** ** Genuine records *)

Definition conf_ok (conf : config) : Prop :=
  wire_string (conf_Name conf) /\ wire_string (conf_Addr conf) /\ in_srange 16 (conf_Port conf).

Section genuine.
Context (confs : list config).

(** The record [n] is of the member configured by [conf]. *)
Definition names (conf : config) (n : node_state) : Prop :=
  Name_ n = conf_Name conf /\ IP_ n = conf_Addr conf /\ Port_ n = to_string (conf_Port conf).

Definition genuine (n : node_state) : Prop :=
  (exists conf, conf ∈ confs /\ names conf n) /\ From_ n = EmptyString /\
  known_state (State_ n) /\ in_range 64 (Dominant_ n) /\ in_range 64 (Timestamp_ n).

#[export] Instance genuine_property `{!Residue} `{!Unspoilt _} : RecordProperty genuine.
Proof.
  split.
  - by intros n (_ & _ & _ & ? & _).
  - by intros n (? & ? & ? & ? & _).
  - by intros n (? & ? & ? & _ & ?).
  - intros n (? & ? & _ & ? & ?). split_and!; try done. by right; right.
  - by intros n n' ->%unspoilt.
Qed.

Lemma self_genuine `{!Residue} conf d : conf ∈ confs -> in_range 64 d -> genuine (self_state conf d).
Proof.
  intros Hc Hd. split_and!; try done; [by exists conf|by left|apply indeterminate_typed].
Qed.

Lemma genuine_in_time n : genuine n -> in_time n.
Proof. by intros (_ & _ & _ & ? & _). Qed.

Context (Hconfs : Forall conf_ok confs).

Lemma genuine_ok n : genuine n -> node_state_ok n.
Proof.
  intros ((conf & Hc & Hn & Hi & Hp) & Hf & Hs & Hd & Ht).
  apply (proj1 (Forall_forall _ _) Hconfs) in Hc as (Hcn & Hca & Hcp).
  unfold node_state_ok. rewrite Hn, Hi, Hf, Hp. split_and!; try done; [by eexists|].
  destruct Hs as [-> | [-> | ->]]; [by exists 0|by exists 1|by exists 2].
Qed.

(** A table of genuine records, whatever the order, is a message. *)
Lemma genuine_message `{!MessageCodec} `{!MessageCodecOk _} l ws : Forall genuine l ->
  Z.of_nat (length l) < 2 ^ 12 -> Forall2 (fun n w => convert_fields w = Ok n) l ws ->
  Forall NodeState_ok ws -> NodeStates_ok (Some ws) /\ wires_hold genuine (Some ws).
Proof.
  intros Hl Hlen Hc Hok. split; [split; [done|by rewrite <- (Forall2_length _ _ _ Hc)]|].
  cbn. clear Hlen Hok. induction Hc as [|n w l ws Hn _ IH]; [by constructor|].
  apply Forall_cons in Hl as [Hg Hl]. constructor; [|by apply IH].
  intros n' E. congruence.
Qed.

(** ** What the members send *)

Context `{!MessageCodec} `{!MessageCodecOk _}.

(** A ping, with or without gossip, or a pong. *)
Definition datagram_ok (d : list Z) : Prop :=
  len d <= mtu /\
  ((exists p rest, d = packet TYPE_PING (encode_Ping p) rest /\ Ping_ok p /\
     (rest = [] \/ exists ws, rest = encode_NodeStates (Some ws) /\
        NodeStates_ok (Some ws) /\ wires_hold genuine (Some ws))) \/
   exists body rest, d = packet TYPE_PONG body rest).

(** A table, or less than a header. *)
Definition stream_ok (s : list Z) : Prop :=
  len s < HEADER_SIZE \/ exists ws, s = packet TYPE_SYNCSTATE (encode_NodeStates (Some ws)) [] /\
    len (encode_NodeStates (Some ws)) <= buff_size_ /\ NodeStates_ok (Some ws) /\
    wires_hold genuine (Some ws).

Context `{IterationOrder} `{!Residue} `{HI : !Unspoilt _} `{TableOrder} `{FreedHeap} `{StackRoom} `{HF : !IntactHeap _}
  `{StaleHeader} `{HS : !IntactHeader _}.

Abbreviation Genuine := (holds genuine).

Lemma generatePing_sends host seq buff g size sent g' : inv g -> Genuine g ->
  wire_string (self_name g) -> in_range 64 seq -> len buff = mtu ->
  generatePing host seq buff mtu g = Ok ((size, sent), g') ->
  size = -1 \/ 0 <= size /\ datagram_ok (take (Z.to_nat size) sent).
Proof.
  intros Hi Hg Hn Hs Hb E. destruct (Z.ltb_spec mtu (HEADER_SIZE + len (ping_body g seq))) as [Hbig|Hfit].
  { destruct (generatePing_no_room host seq buff g Hb Hbig) as (? & E' & _). left. congruence. }
  right. rewrite (generatePing_run host seq buff g Hb Hfit) in E.
  set (body := ping_body g seq) in *. set (rest := drop _ buff) in *.
  destruct (appendGossipMsg_spec (packet TYPE_PING body rest) (HEADER_SIZE + len body)
    (mtu - len body - HEADER_SIZE) g) as (q & _ & _ & Ea); [apply inv0_queue_ok, Hi|].
  unfold mbind at 1, M_bind in E. rewrite Ea in E.
  pose proof (batch_holds genuine g Hg) as Hgb.
  destruct (mapM wire_state (batch g)) as [ws|] eqn:Ew; [|done].
  destruct (wire_batch g ws) as [Hws Hc]; [apply (rh_batch _ _ Hg)| |done|].
  { eapply Forall_impl; [exact Hgb|]. apply genuine_ok. }
  destruct (genuine_message _ ws Hgb) as [_ Hw]; [|done|apply Hws|].
  { rewrite (Forall2_length _ _ _ Hc). apply Hws. }
  assert (0 <= len body) by (unfold len; lia).
  assert (datagram_ok (take (Z.to_nat (HEADER_SIZE + len body + 0)) (packet TYPE_PING body rest))) as Hplain.
  { rewrite take_packet by done. split; [unfold len in *; rewrite length_packet; simpl; unfold HEADER_SIZE in *; lia|].
    left. exists (mkPing seq (Some (self_name g))), []. split_and!; [done..|by left]. }
  cbn [mbind outcome_bind] in E. destruct ws as [|w ws].
  { injection E as <- <- <-. split; [unfold HEADER_SIZE; lia|done]. }
  set (wb := encode_NodeStates (Some (w :: ws))) in *.
  destruct (Z.ltb_spec (mtu - len body - HEADER_SIZE) (len wb)).
  - assert (size = HEADER_SIZE + len body + 0 /\ sent = packet TYPE_PING body rest) as [-> ->].
    { revert E. unfold shrinkMaxAppendedMsg. run. destruct (_ =? 1); by intros [= <- <- _]. }
    split; [unfold HEADER_SIZE; lia|done].
  - rewrite append_packet in E; last first.
    { subst rest. rewrite length_drop. unfold len, mtu, HEADER_SIZE in *. lia. }
    injection E as <- <- <-. assert (0 <= len wb) by (unfold len; lia).
    split; [unfold HEADER_SIZE; lia|]. rewrite take_packet by done.
    unfold len at 1. rewrite Nat2Z.id, take_app_length.
    split; [unfold len in *; rewrite length_packet; unfold HEADER_SIZE in *; lia|].
    left. exists (mkPing seq (Some (self_name g))), wb. split_and!; [done..|].
    right. by exists (w :: ws).
Qed.
(** The bytes of a started probe, which goes to a member's address. *)
Definition probe_ok (p : probe_op) : Prop :=
  genuine (p_node p) /\ State_ (p_node p) = STATE_ALIVE /\
  exists conf, conf ∈ confs /\ p_host p = conf_Addr conf /\ p_port p = conf_Port conf.

Lemma probe_sends host buff g p g' : inv g -> Genuine g -> wire_string (self_name g) ->
  len buff = mtu -> probe host buff g = Ok (Some p, g') ->
  probe_ok p /\ Forall datagram_ok (probe_datagram (Some p)).
Proof.
  intros Hi Hg Hn Hb E. pose proof (probe_alive host _ _ _ _ E) as Halive.
  pose proof (keeps_elim _ _ _ _ _ _ (probe_holds genuine host buff) Hg E) as [Hp _]. cbn in Hp.
  revert E. unfold probe. intros (cs & g1 & E1 & E)%bind_Ok_inv.
  destruct cs as [|k cs]; [done|]. apply bind_Ok_inv in E as (n & g2 & E2 & E).
  assert (g2 = g1) as -> by (unfold getNodeState in E2; run in E2; congruence).
  destruct n as [n|]; [|done]. rewrite (bind_Ok _ _ g1 g1 g1) in E by done.
  destruct (_ && _); [|done]. apply bind_Ok_inv in E as (p' & g3 & E & Ep).
  assert (p' = p) as -> by (run in Ep; congruence). clear Ep.
  destruct (safe_keeps _ _ _ _ _ (roundrobinNode_safe 1) Hi E1) as [Hi1 He1].
  destruct (keeps_elim _ _ _ _ _ _ (roundrobin_holds genuine 1 ltac:(lia)) Hg E1) as [_ Hg1].
  unfold probeNode in E. apply bind_Ok_inv in E as (port & g4 & E4 & E).
  assert (stoi (Port_ n) = Ok port /\ g4 = g1) as [Ep ->]
    by (unfold lift in E4; destruct (stoi _); [by injection E4 as -> ->|done]).
  cbv zeta in E. apply bind_Ok_inv in E as (seq & g5 & E5 & E).
  destruct (safe_keeps _ _ _ _ _ nextSeqNum_safe Hi1 E5) as [Hi5 He5].
  destruct (keeps_elim _ _ _ _ _ _ (nextSeqNum_holds genuine) Hg1 E5) as [Hseq Hg5].
  apply bind_Ok_inv in E as ([size sent] & g6 & E6 & E).
  run in E. injection E as <- _. cbn [p_node p_size p_buff p_host p_port] in *.
  rewrite copy_eq in Hp, Halive. split.
  - split; [by rewrite copy_eq|split; [by rewrite copy_eq|]].
    destruct Hp as ((conf & Hc & _ & Hip & Hport) & _). exists conf. split_and!; try done. cbn.
    pose proof (proj1 (Forall_forall _ _) Hconfs _ Hc) as (_ & _ & Hr).
    rewrite Hport, stoi_to_string_lemma in Ep by (unfold in_srange in *; lia).
    injection Ep as <-. by apply swrap_small.
  - unfold probe_datagram. cbn. destruct (Z.leb_spec 0 size); [|done].
    apply Forall_singleton. eapply generatePing_sends in E6 as [->|[_ Hd]]; try done.
    unfold self_name. by rewrite (ev_conf _ _ He5), (ev_conf _ _ He1).
Qed.

(** The answer to a ping is a pong. *)
Lemma answerPing_sends host ns seq data r data' : len data = mtu ->
  answerPing host ns seq data mtu = Ok (r, data') -> Forall datagram_ok (answer_datagram r data').
Proof.
  intros Hd. unfold answerPing. set (ack := encode_Pong _). cbv zeta. unfold answer_datagram.
  destruct (Z.ltb_spec mtu (HEADER_SIZE + len ack)) as [|Hfit]; [by intros [= <- <-]|].
  pose proof (encode_packet host TYPE_PONG ack data ltac:(done)) as E.
  unfold mtu, HEADER_SIZE in Hfit, Hd. specialize (E ltac:(lia) ltac:(unfold HEADER_SIZE; lia)).
  destruct (EncodeHeader host data _) as [b1|]; [|done]. cbn [mbind outcome_bind] in E |- *.
  rewrite E. cbn [mbind outcome_bind]. set (rest := drop _ data).
  assert (forall k, 0 <= k -> HEADER_SIZE + len ack + k <= mtu -> forall rest,
    Forall datagram_ok (if 0 <? HEADER_SIZE + len ack + k
      then [take (Z.to_nat (HEADER_SIZE + len ack + k)) (packet TYPE_PONG ack rest)] else [])) as Hpong.
  { intros k Hk Hk' rest'. destruct (0 <? _); [|done]. apply Forall_singleton.
    rewrite take_packet by done. split; [|right; by eexists _, _].
    unfold len in *. rewrite length_packet, length_take. unfold HEADER_SIZE in *. lia. }
  specialize (Hpong 0 ltac:(done)) as Hnone. rewrite Z.add_0_r, (Z.add_comm HEADER_SIZE) in Hnone.
  specialize (Hnone ltac:(unfold mtu, HEADER_SIZE; lia)).
  destruct ns as [n|]; [|by intros [= <- <-]].
  destruct (bool_decide _); [|by intros [= <- <-]].
  unfold appendDeadAlert. destruct (wire_state n) as [w|]; [|done]. cbn [mbind outcome_bind].
  set (al := encode_NodeState w).
  destruct (Z.ltb_spec (mtu - (len ack + HEADER_SIZE)) (len al)).
  - intros [= <- <-]. rewrite Z.add_0_r. apply Hnone.
  - rewrite (Z.add_comm (len ack) HEADER_SIZE), append_packet; last first.
    { subst rest. rewrite length_drop. unfold len, mtu, HEADER_SIZE in *. lia. }
    intros [= <- <-]. apply Hpong; unfold len in *; lia.
Qed.

(** ** What they receive *)

Lemma received_all d old : received (len d) d old = d ++ drop (length d) old.
Proof. unfold received, len. by rewrite Nat2Z.id, take_ge. Qed.

Lemma datagram_length d old : len d <= mtu -> len old = mtu -> len (received (len d) d old) = mtu.
Proof. rewrite received_all. unfold len. rewrite length_app, length_drop. lia. Qed.

Lemma datagram_genuine host d old : datagram_ok d ->
  gossip_holds host genuine (received (len d) d old) (len d).
Proof.
  rewrite received_all. intros [Hlen [(p & rest & -> & Hp & Hrest)|(body & rest & ->)]] h nss Eh Ht Hsz Ed.
  - assert (forall tail, packet TYPE_PING (encode_Ping p) rest ++ tail =
      packet TYPE_PING (encode_Ping p) (rest ++ tail)) as Happ
      by (intros tail; unfold packet; by rewrite <- !app_assoc).
    assert (len (packet TYPE_PING (encode_Ping p) rest) = HEADER_SIZE + len (encode_Ping p) + len rest) as El
      by (unfold len; rewrite length_packet; unfold HEADER_SIZE; lia).
    assert (0 <= len (encode_Ping p)) by (unfold len; lia).
    unfold mtu, HEADER_SIZE in *. rewrite Happ in Eh, Ed.
    rewrite DecodeHeader_packet in Eh by (done || unfold len in *; lia). injection Eh as <-.
    cbn [Body_length_] in *. rewrite wrap_small in Hsz by (unfold in_range, len in *; lia).
    destruct Hrest as [->|(ws & -> & Hws & Hw)]; [unfold len in *; simpl in *; lia|].
    fold HEADER_SIZE in Ed. change (4 + 4) with HEADER_SIZE in Ed.
    rewrite (decode_appended _ _ _ _ _ _ _ NodeStates_roundtrip Hws) in Ed. congruence.
  - assert (packet TYPE_PONG body rest ++ drop (length (packet TYPE_PONG body rest)) old =
      packet TYPE_PONG body (rest ++ drop (length (packet TYPE_PONG body rest)) old)) as Happ
      by (unfold packet; by rewrite <- !app_assoc).
    rewrite Happ in Eh.
    rewrite DecodeHeader_packet in Eh; [by injection Eh as <-|done|].
    unfold len, mtu in *. rewrite length_packet in Hlen. lia.
Qed.

(** A table in a stream, as a peer's answer and as a session's request. *)
Lemma stream_genuine host s : stream_ok s -> stream_holds host genuine s.
Proof.
  intros [Hshort|(ws & -> & Hlen & Hws & Hw)] h Eh nss En.
  - rewrite DecodeHeader_short in Eh; [done|]. unfold len in Hshort. rewrite length_take. lia.
  - set (body := encode_NodeStates (Some ws)) in *. unfold packet, buff_size_ in *.
    rewrite app_nil_r in Eh, En. change (Z.to_nat HEADER_SIZE) with 8%nat in *.
    rewrite <- (length_header_bytes (mkHeader TYPE_SYNCSTATE (len body))) in Eh, En.
    rewrite take_app_length in Eh. rewrite drop_app_length in En.
    rewrite <- (app_nil_r (header_bytes _)), DecodeHeader_bytes in Eh
      by (split; [done|unfold in_range, len in *; cbn; lia]).
    injection Eh as <-. cbn [Body_length_] in En. unfold len in En.
    rewrite Nat2Z.id, take_ge in En by done.
    pose proof (NodeStates_roundtrip (Some ws) [] [] Hws) as Hrt. fold body in Hrt.
    rewrite app_nil_l, app_nil_r in Hrt. change (Z.of_nat (length (@nil Z))) with 0 in Hrt.
    congruence.
Qed.

Lemma request_genuine ws in_buff : NodeStates_ok (Some ws) -> wires_hold genuine (Some ws) ->
  table_holds genuine (body_buffer (encode_NodeStates (Some ws)) in_buff).
Proof. intros Hws Hw nss. rewrite decode_body_buffer by done. congruence. Qed.

(** A member's own table: it names members only, so it is short. *)
Lemma table_short g : inv g -> Genuine g -> Z.of_nat (length (reports g)) <= Z.of_nat (length confs).
Proof.
  intros Hi Hg. unfold reports. rewrite length_fmap, iteration_perm.
  rewrite <- (length_fmap conf_Name confs), <- (length_fmap fst). apply inj_le, submseteq_length.
  apply NoDup_submseteq; [apply NoDup_fst_map_to_list|]. intros k Hk.
  apply list_elem_of_fmap in Hk as ([k' n] & -> & Hin%elem_of_map_to_list). cbn in *.
  destruct (inv_names _ (proj1 Hi) _ _ Hin) as [<- _].
  apply (rh_table _ _ Hg) in Hin as ((conf & Hc & -> & _) & _).
  apply list_elem_of_fmap. by exists conf.
Qed.

Lemma encodeLocalState_sends g body g' : inv g -> Genuine g -> Z.of_nat (length confs) < 2 ^ 12 ->
  encodeLocalState g = Ok (body, g') -> g' = g /\ exists ws, body = encode_NodeStates (Some ws) /\
    NodeStates_ok (Some ws) /\ wires_hold genuine (Some ws).
Proof.
  intros Hi Hg Hlen E. assert (Forall genuine (reports g)) as Hr.
  { unfold reports. rewrite iteration_perm. apply Forall_fmap, Forall_forall.
    intros [k n] Hin%elem_of_map_to_list. by apply (rh_table _ _ Hg) in Hin. }
  destruct (encodeLocalState_run g) as (ws & E' & Hws & Hc).
  { eapply Forall_impl; [exact Hr|]. apply genuine_ok. }
  rewrite E in E'. injection E' as -> ->. split; [done|]. exists ws. split; [done|].
  pose proof (table_short g Hi Hg). apply (genuine_message (reports g)); [done|lia|done..].
Qed.

Lemma request_sends host g req : inv g -> Genuine g -> Z.of_nat (length confs) < 2 ^ 12 ->
  len req <= HEADER_SIZE + buff_size_ -> request host g = Ok req -> stream_ok req.
Proof.
  intros Hi Hg Hlen Hreq E. unfold request in E. apply outcome_bind_Ok in E as ([body g'] & Ee & E).
  apply outcome_bind_Ok in E as (room & _ & E).
  destruct (encodeLocalState_sends g body g' Hi Hg Hlen Ee) as [_ (ws & -> & Hws & Hw)].
  set (body := encode_NodeStates (Some ws)) in *.
  assert (len req = HEADER_SIZE + len body) as Hl.
  { apply outcome_bind_Ok in E as (b & Eb%EncodeHeader_length & Em%memcpy_length).
    unfold len. rewrite Em, Eb, length_replicate. unfold HEADER_SIZE, len. lia. }
  rewrite encode_packet in E; [|done|unfold buff_size_ in *; lia|].
  - injection E as <-. right. exists ws. rewrite drop_ge; [split_and!; [done|fold body; lia|done..]|].
    rewrite length_replicate. unfold len, HEADER_SIZE. lia.
  - unfold len. rewrite length_replicate. unfold HEADER_SIZE. lia.
Qed.

(** What a session writes: a table, or, for a table that does not fit its
    buffer, seven bytes of that buffer. *)
Lemma respond_sends host ws out r out' resp : len out = buff_size_ ->
  NodeStates_ok (Some ws) -> wires_hold genuine (Some ws) ->
  respond host TYPE_SYNCSTATE (encode_NodeStates (Some ws)) out buff_size_ = Ok (r, out') ->
  doWriteResponse out' (u32 r) = Ok resp -> stream_ok resp.
Proof.
  intros Ho Hws Hw E Er. set (body := encode_NodeStates (Some ws)) in *.
  destruct (Z.ltb_spec buff_size_ (len body)) as [Hbig|Hfit].
  - left. unfold respond in E. rewrite (proj2 (Z.ltb_lt _ _) Hbig) in E. injection E as <- <-.
    apply read_at_length in Er. unfold len. by rewrite Er.
  - assert (HEADER_SIZE + len body <= len out) as Hroom.
    { unfold respond in E. rewrite (proj2 (Z.ltb_ge _ _) Hfit) in E.
      apply outcome_bind_Ok in E as (b1 & E1%EncodeHeader_length & E).
      apply outcome_bind_Ok in E as (b2 & (_ & E2 & _)%memcpy_Ok & _).
      rewrite freed_length in E2. unfold len. lia. }
    destruct (respond_run host TYPE_SYNCSTATE body out HF) as (rest & E'); [done..|].
    rewrite E in E'. injection E' as -> ->. rewrite doWriteResponse_packet in Er by lia.
    injection Er as <-. right. exists ws. by split_and!.
Qed.

(** ** A member *)

(** What is kept of each member, and of its own table. *)
Record member_ok (k : string) (s : system) : Prop := {
  mo_inv : inv (gos s);
  mo_genuine : Genuine (gos s);
  mo_conf : conf_ (gos s) ∈ confs;
  mo_name : self_name (gos s) = k;
  mo_probes : Forall probe_ok (probes s)
}.

(** A handler that is safe and keeps records genuine. *)
Lemma member_step {A} (F : fault -> Prop) (R : A -> Prop) (op : M gossiper A) k g ps ps' a g' :
  member_ok k (mkSystem g ps) -> safe F op -> keeps Genuine R op -> op g = Ok (a, g') ->
  Forall probe_ok ps' -> member_ok k (mkSystem g' ps').
Proof.
  intros [Hi Hg Hc Hn Hp] Hs Hk E Hps. cbn in *.
  destruct (safe_keeps _ _ _ _ _ Hs Hi E) as [Hi' He].
  destruct (keeps_elim _ _ _ _ _ _ Hk Hg E) as [_ Hg'].
  split; cbn; try done; unfold self_name; by rewrite (ev_conf _ _ He).
Qed.

Lemma member_wire k g ps : member_ok k (mkSystem g ps) -> wire_string (self_name g).
Proof.
  intros [_ _ Hc _ _]. by apply (proj1 (Forall_forall _ _) Hconfs) in Hc as [? _].
Qed.

Lemma in_time_mono nss : wires_hold genuine nss -> wires_hold in_time nss.
Proof. apply wires_hold_mono, genuine_in_time. Qed.

Lemma member_session host uninit in_buff out_buff d k g ps resp g' : member_ok k (mkSystem g ps) ->
  Z.of_nat (length confs) < 2 ^ 12 -> stream_ok d -> len in_buff = buff_size_ ->
  len out_buff = buff_size_ -> Session_Go host uninit in_buff out_buff d g = Ok (resp, g') ->
  member_ok k (mkSystem g' ps) /\ Forall stream_ok (option_list resp).
Proof.
  intros Hm Hlen [Hshort|(ws & -> & Hfit & Hws & Hw)] Hin Hout E.
  { unfold Session_Go, doReadHeader, ReadFull in E. rewrite (proj2 (Z.ltb_lt _ _) Hshort) in E.
    by injection E as <- <-. }
  rewrite Session_reads in E by done. set (body := encode_NodeStates (Some ws)) in *.
  apply bind_Ok_inv in E as ([r out'] & g1 & E1 & E).
  assert (g1 = g' /\ exists w, doWriteResponse out' (u32 r) = Ok w /\ resp = Some w) as [-> (w & Er & ->)].
  { unfold lift in E. run in E. destruct (doWriteResponse _ _) as [w|]; [|done].
    injection E as <- <-. eauto. }
  pose proof (request_genuine ws in_buff Hws Hw) as Ht. fold body in Ht. split.
  { eapply member_step; [exact Hm| | |exact E1|apply Hm].
    - apply handleBody_safe_if. intros nss En. by apply in_time_mono, Ht.
    - by apply (handleBody_holds genuine). }
  unfold handleBody in E1. change (TYPE_SYNCSTATE =? TYPE_PING) with false in E1.
  change (TYPE_SYNCSTATE =? TYPE_SYNCSTATE) with true in E1. cbv iota in E1.
  unfold body in E1. rewrite decode_body_buffer in E1 by done.
  rewrite (bind_Ok _ _ g (Some ws) g) in E1 by done.
  apply bind_Ok_inv in E1 as ([] & g2 & E2 & E1). apply bind_Ok_inv in E1 as (body' & g3 & E3 & E1).
  destruct (safe_keeps _ _ _ _ _ (mergeStates_safe true _ (in_time_mono _ Hw)) (mo_inv _ _ Hm) E2) as [Hi2 _].
  destruct (keeps_elim _ _ _ _ _ _ (mergeStates_holds genuine true _ Hw) (mo_genuine _ _ Hm) E2) as [_ Hg2].
  destruct (encodeLocalState_sends _ _ _ Hi2 Hg2 Hlen E3) as [-> (ws' & -> & Hws' & Hw')].
  apply Forall_singleton. eapply (respond_sends host ws' out_buff); try done.
  revert E1. unfold lift. destruct (respond _ _ _ _ _) as [x|]; [|done]. by intros [= -> _].
Qed.

(** ** The cluster *)

Context (host : string -> endian) (Hshort : Z.of_nat (length confs) < 2 ^ 12).

Record cluster_ok (c : cluster) : Prop := {
  co_members : map_Forall member_ok (members c);
  co_datagrams : Forall datagram_ok (datagrams c);
  co_streams : Forall stream_ok (streams c)
}.

Lemma update_ok k s ds ss c : cluster_ok c -> member_ok k s -> Forall datagram_ok ds ->
  Forall stream_ok ss -> cluster_ok (update k s ds ss c).
Proof.
  intros [Hm Hd Hs] ? ? ?. split; cbn; [by apply map_Forall_insert_2|by apply Forall_app..].
Qed.

(** A step of one member that sends nothing. *)
Lemma silent_ok {A} (F : fault -> Prop) (R : A -> Prop) (op : M gossiper A) k g ps a g' c :
  cluster_ok c -> members c !! k = Some (mkSystem g ps) -> safe F op -> keeps Genuine R op ->
  op g = Ok (a, g') -> cluster_ok (update k (mkSystem g' ps) [] [] c).
Proof.
  intros Hc Hk Hs Hkp E. apply update_ok; [done| |by constructor..].
  pose proof (co_members _ Hc _ _ Hk) as Hm. eapply member_step; [done..|]. apply Hm.
Qed.

Lemma receive_ok k g ps d old r data g' c : cluster_ok c -> members c !! k = Some (mkSystem g ps) ->
  d ∈ datagrams c -> len old = mtu ->
  handlePacket (host k) (received (len d) d old) (len d) mtu g = Ok ((r, data), g') ->
  cluster_ok (update k (mkSystem g' ps) (answer_datagram r data) [] c).
Proof.
  intros Hc Hk Hd Ho E. pose proof (co_members _ Hc _ _ Hk) as Hm.
  apply (proj1 (Forall_forall _ _) (co_datagrams _ Hc)) in Hd.
  pose proof (datagram_genuine (host k) d old Hd) as Hg.
  apply update_ok; [done| | |by constructor].
  - eapply member_step; [exact Hm| | |exact E|apply Hm].
    + apply handlePacket_safe_if. intros h nss ????. by eapply in_time_mono, Hg.
    + by apply (handlePacket_holds genuine).
  - assert (len (received (len d) d old) = mtu) as Hl by (apply datagram_length; [apply Hd|done]).
    revert E. unfold handlePacket. intros (h & g1 & _ & E)%bind_Ok_inv.
    destruct (Type_ h =? TYPE_PING); [|by injection E as <- <- _].
    apply bind_Ok_inv in E as (ping & g2 & _ & E). apply bind_Ok_inv in E as (from & g3 & _ & E).
    apply bind_Ok_inv in E as (ns & g4 & _ & E). apply bind_Ok_inv in E as (u & g5 & _ & E).
    apply bind_Ok_inv in E as (seqNo & g6 & _ & E). unfold lift in E. destruct (answerPing _ _ _ _ _) as [x|] eqn:Ea; [|done].
    injection E as -> _. by eapply answerPing_sends.
Qed.

Lemma cluster_step_ok c c' : cluster_step host c c' -> cluster_ok c -> cluster_ok c'.
Proof.
  intros Hs Hc. destruct Hs as [k g ps buff p g' Hk Hb E|k g ps d old r data g' Hk|
    k g ps p d old g' Hk Hp Hd Ho E|k g ps p g' Hk Hp E|k g ps j g' Hk E|k g ps g' Hk E|
    k g ps g1 req Hk Ej Er Hl|k g ps uninit inb outb d resp g' Hk Hd Hi Ho E|
    k g ps network peer rts g' Hk Hn E].
  all: pose proof (co_members _ Hc _ _ Hk) as Hm.
  - destruct p as [p|].
    + destruct (probe_sends _ _ _ _ _ (mo_inv _ _ Hm) (mo_genuine _ _ Hm) (member_wire _ _ _ Hm) Hb E) as [Hp Hd].
      apply update_ok; [done| |done|by constructor].
      eapply member_step; [exact Hm|apply probe_safe|apply (probe_holds genuine)|exact E|].
      constructor; [done|apply Hm].
    + eapply silent_ok; [done..|apply probe_safe|apply (probe_holds genuine)|exact E].
  - by eapply receive_ok.
  - eapply silent_ok; [done..|apply on_pong_safe|apply (on_pong_holds genuine)|exact E].
  - apply (proj1 (Forall_forall _ _) (mo_probes _ _ Hm)) in Hp as (Hg & Ha & _).
    eapply silent_ok; [done..| | |exact E].
    + apply suspectNode_safe; rewrite Ha; [by left|done].
    + by apply (suspectNode_holds genuine).
  - eapply silent_ok; [done..|apply on_suspicion_timer_safe|apply (on_suspicion_timer_holds genuine)|exact E].
  - eapply silent_ok; [done..|apply run_posted_safe|apply (run_posted_holds genuine)|exact E].
  - apply update_ok; [done..|by constructor|]. apply Forall_singleton.
    destruct (safe_keeps _ _ _ _ _ Join_self_safe (mo_inv _ _ Hm) Ej) as [Hi1 _].
    destruct (keeps_elim _ _ _ _ _ _ (Join_self_holds genuine) (mo_genuine _ _ Hm) Ej) as [_ Hg1].
    by eapply request_sends.
  - apply (proj1 (Forall_forall _ _) (co_streams _ Hc)) in Hd.
    destruct (member_session _ _ _ _ _ _ _ _ _ _ Hm Hshort Hd Hi Ho E) as [Hm' Hr].
    apply update_ok; [done..|by constructor|done].
  - assert (forall h p, peer_holds (host k) genuine (network h p)) as Hpeer.
    { intros h p answer req d Ha Hd. apply stream_genuine.
      by eapply (proj1 (Forall_forall _ _) (co_streams _ Hc)), Hn. }
    eapply silent_ok; [done..| |by apply (Join_holds genuine)|exact E].
    apply Join_safe_if. intros h p answer req d Ha Hd hd Hdec nss Hdn.
    by eapply in_time_mono, (Hpeer h p).
Qed.

Lemma cluster_new_ok : cluster_ok (cluster_new confs).
Proof.
  split; cbn; [|by constructor..]. intros k s Hk.
  apply elem_of_list_to_map_2, list_elem_of_fmap in Hk as (conf & [= -> ->] & Hc).
  split; cbn; try done.
  - apply gossiper_new_inv.
  - apply gossiper_new_holds. intros d. by apply self_genuine.
Qed.

Lemma clusters_ok c : rtc (cluster_step host) (cluster_new confs) c -> cluster_ok c.
Proof.
  intros Hs. cut (cluster_ok (cluster_new confs)); [|apply cluster_new_ok].
  induction Hs as [|c1 c2 c3 H12 _ IH]; [done|]. intros Hc. by eapply IH, cluster_step_ok.
Qed.
End genuine.

(** ** Properties *)

(** C5: a closed cluster keeps its facts. Let fewer than 4096 members be freshly
    started from their configurations, whose names and addresses are wire strings
    and whose ports fit an [int16_t], and let each receive only what some member
    sent, late, twice, in any order or not at all (a request larger than a session's
    buffer is left out). Let the objects the code reads
    after their lifetime (a report's local, a builder's heap buffer, a session's
    header) not hold anything else by then: a record may fail to be read, but what is
    read is what was last stored. In every state they can reach, each
    member satisfies the membership invariant; each record it files under a name
    carries the address and port that the member of that name was configured
    with, and was reported by nobody but the member's own memory (its [From_] is
    empty); its member list names configured members only; and its probes are
    addressed to configured members. *)
Theorem cluster_genuine (host : string -> endian) `{IterationOrder} `{!Residue} `{!Unspoilt _}
    `{TableOrder} `{FreedHeap} `{StackRoom} `{!IntactHeap _} `{StaleHeader} `{!IntactHeader _}
    `{!MessageCodec} `{!MessageCodecOk _} (confs : list config) (c : cluster) (k : string) (s : system) :
  Forall conf_ok confs -> Z.of_nat (length confs) < 2 ^ 12 ->
  rtc (cluster_step host) (cluster_new confs) c -> members c !! k = Some s ->
  inv (gos s) /\ self_name (gos s) = k /\
  (forall j n, node_map_ (gos s) !! j = Some n -> exists conf, conf ∈ confs /\
     conf_Name conf = j /\ IP_ n = conf_Addr conf /\ Port_ n = to_string (conf_Port conf) /\
     From_ n = EmptyString) /\
  (forall j, j ∈ nodes_ (gos s) -> j ∈ conf_Name <$> confs) /\
  (forall p, p ∈ probes s -> exists conf, conf ∈ confs /\
     p_host p = conf_Addr conf /\ p_port p = conf_Port conf).
Proof.
  intros Hconfs Hlen Hs Hk.
  destruct (co_members _ _ (clusters_ok confs Hconfs host Hlen c Hs) _ _ Hk) as [Hi Hg Hc Hn Hp].
  assert (forall j n, node_map_ (gos s) !! j = Some n -> exists conf, conf ∈ confs /\
     conf_Name conf = j /\ IP_ n = conf_Addr conf /\ Port_ n = to_string (conf_Port conf) /\
     From_ n = EmptyString) as Ht.
  { intros j n Hj. destruct (inv_names _ (proj1 Hi) _ _ Hj) as [Hname _].
    destruct (rh_table _ _ Hg _ _ Hj) as ((conf & Hin & En & Ei & Ep) & Ef & _).
    exists conf. by rewrite <- Hname. }
  split_and!; [done..| |].
  - intros j (n & Hj & _)%(inv_members _ (proj1 Hi)). destruct (Ht _ _ Hj) as (conf & Hin & <- & _).
    by apply list_elem_of_fmap_2.
  - intros p Hin. by apply (proj1 (Forall_forall _ _) Hp) in Hin as (_ & _ & ?).
Qed.
