(* ===== verification/Rounds.v ===== *)
(** * Probing, round after round

    [roundrobinNode] walks through the member list with a cursor. While the list
    stays as it is, as many probes as there are members ping each member that is
    alive, other than ourselves, exactly once: no member escapes detection. The
    cursor is a static local, one for the process; here the process has one
    gossiper, as examples/main.cpp has. *)
From stdpp Require Import list.
From S2P Require Import Prelude Utils Bytes Header Node Broadcast Suspicion Messages Gossiper.
From S2P Require Import Membership Records Reports Protocol Dynamics Exchange Session Runs Typed.
Local Open Scope Z_scope.

(** ** The order of the next probes *)

Definition order (g : gossiper) : list string := list.rotate (Z.to_nat (cursor g)) (nodes_ g).

Lemma order_perm g : order g ≡ₚ nodes_ g.
Proof. unfold order, list.rotate. rewrite Permutation_app_comm. by rewrite take_drop. Qed.

Lemma rotate_step {A} c (l : list A) : l <> [] -> exists k rest,
  list.rotate c l = k :: rest /\ list.rotate (S c) l = rest ++ [k].
Proof.
  intros Hl. assert (length l <> 0%nat) as Hn by by destruct l.
  pose proof (Nat.mod_upper_bound c (length l) Hn) as Hi. unfold list.rotate.
  replace (S c `mod` length l)%nat with (S (c `mod` length l) `mod` length l)%nat
    by (rewrite <- Nat.add_1_l, Nat.Div0.add_mod_idemp_r; done).
  set (i := (c `mod` length l)%nat) in *.
  destruct (lookup_lt_is_Some_2 l i Hi) as [k Hk].
  exists k, (drop (S i) l ++ take i l). split; [by rewrite (drop_S l k i Hk)|].
  destruct (decide (S i = length l)) as [E|Hne].
  - rewrite E, Nat.Div0.mod_same. rewrite (drop_ge l (length l)) by done. cbn.
    rewrite app_nil_r. by rewrite <- (take_S_r l i k Hk), E, take_ge.
  - rewrite Nat.mod_small by lia. by rewrite (take_S_r l i k Hk), app_assoc.
Qed.

Lemma rotate_wrap {A} c (l : list A) : 0 <= c -> l <> [] ->
  list.rotate (Z.to_nat (Z.rem c (Z.of_nat (length l)))) l = list.rotate (Z.to_nat c) l.
Proof.
  intros Hc Hl. assert (0 < length l)%nat by (destruct l; [done|simpl; lia]).
  unfold list.rotate. rewrite Z.rem_mod_nonneg by lia.
  rewrite Z2Nat.inj_mod, Nat2Z.id by lia. by rewrite Nat.Div0.mod_mod.
Qed.

(** ** One probe *)

(** What a probe leaves alone. *)
Definition unchanged (g g' : gossiper) : Prop :=
  conf_ g' = conf_ g /\ node_map_ g' = node_map_ g /\ nodes_ g' = nodes_ g.

#[global] Instance unchanged_preorder : PreOrder unchanged.
Proof.
  split; [done|]. intros g1 g2 g3 (? & ? & ?) (? & ? & ?). split_and!; congruence.
Qed.

(** The cursor moves one member on. *)
Lemma roundrobin_turn g : 0 <= cursor g -> nodes_ g <> [] -> exists k rest g',
  roundrobinNode 1 g = Ok ([k], g') /\ order g = k :: rest /\ order g' = rest ++ [k] /\
  unchanged g g' /\ 0 <= cursor g'.
Proof.
  intros Hc Hne. destruct (rotate_step (Z.to_nat (cursor g)) (nodes_ g) Hne) as (k & rest & E1 & E2).
  unfold roundrobinNode. step.
  destruct (Z.leb_spec (Z.of_nat (length (nodes_ g))) 1) as [|Hl].
  { destruct (nodes_ g) as [|k' [|]] eqn:En; [done| |simpl in *; lia].
    unfold order. rewrite En. exists k', [], g.
    assert (forall n, list.rotate n [k'] = [k']) as Hr
      by (intros n; unfold list.rotate; by rewrite Nat.mod_1_r).
    rewrite Hr. split_and!; try done. by rewrite En, Hr. }
  change (seq 0 (Z.to_nat 1)) with [0%nat]. cbn [mapM].
  set (i := Z.to_nat (Z.rem (cursor g + Z.of_nat 0) _)).
  assert (nodes_ g !! i = Some k) as ->.
  { pose proof (Z.rem_bound_pos (cursor g) (Z.of_nat (length (nodes_ g))) ltac:(lia) ltac:(lia)).
    assert (list.rotate (Z.to_nat (cursor g)) (nodes_ g) !! 0%nat = Some k) as Hk by by rewrite E1.
    rewrite lookup_rotate_r in Hk by lia. unfold rotate_nat_add in Hk.
    rewrite Z.add_0_r, Z2Nat.id, <- Z.rem_mod_nonneg in Hk by lia. subst i. by rewrite Z.add_0_r. }
  exists k, rest, (set_rr_cursor (Z.rem (cursor g + 1) (Z.of_nat (length (nodes_ g)))) g).
  split; [reflexivity|]. unfold order. members.
  rewrite rotate_wrap by (done || lia). split; [done|]. split.
  - by rewrite Z2Nat.inj_add, Nat.add_1_r by lia.
  - split; [done|]. apply Z.rem_nonneg; lia.
Qed.

Section rounds.
Context (host : endian) `{IterationOrder} `{!Residue} `{!TypedResidue _} `{TableOrder} `{FreedHeap} `{StackRoom}
  `{!MessageCodec} `{!MessageCodecOk _}.

Lemma generatePing_quiet seq buff g r g' : inv g -> len buff = mtu ->
  generatePing host seq buff mtu g = Ok (r, g') -> unchanged g g' /\ cursor g' = cursor g.
Proof.
  intros Hg Hb E. destruct (Z.ltb_spec mtu (HEADER_SIZE + len (ping_body g seq))) as [Hbig|Hfit].
  { destruct (generatePing_no_room host seq buff g Hb Hbig) as (? & E' & _).
    rewrite E in E'. by injection E' as _ ->. }
  rewrite (generatePing_run host seq buff g Hb Hfit) in E.
  apply bind_Ok_inv in E as ([appended b] & g1 & E & E1). run in E1. injection E1 as _ <-.
  destruct (appendGossipMsg_spec (packet TYPE_PING (ping_body g seq)
    (drop (8 + length (ping_body g seq)) buff)) (HEADER_SIZE + len (ping_body g seq))
    (mtu - len (ping_body g seq) - HEADER_SIZE) g) as (q & _ & _ & Ea); [apply inv0_queue_ok, Hg|].
  rewrite Ea in E. revert E. unfold shrinkMaxAppendedMsg. run.
  destruct (mapM wire_state (batch g)) as [[|w ws]|]; cbn; [by intros [= _ _ <-]| |done].
  destruct (_ <? _).
  - destruct (_ =? 1); by intros [= _ _ <-].
  - destruct (memcpy _ _ _); cbn; [by intros [= _ _ <-]|done].
Qed.

(** Is the member [k] one to ping? *)
Definition target (g : gossiper) (k : string) : bool :=
  match node_map_ g !! k with
  | Some n => bool_decide (State_ n = STATE_ALIVE) && negb (bool_decide (k = self_name g))
  | None => false
  end.

Lemma target_unchanged g g' k : unchanged g g' -> target g' k = target g k.
Proof. intros (Hc & Hm & _). unfold target, self_name. by rewrite Hc, Hm. Qed.

(** What a probe of a sound gossiper does: it moves on, and pings the member
    whose turn it is if that is one to ping. *)
Lemma probe_turn buff g : inv g -> typed g -> nodes_ g <> [] -> len buff = mtu ->
  exists p k rest g', probe host buff g = Ok (p, g') /\
    order g = k :: rest /\ order g' = rest ++ [k] /\ unchanged g g' /\
    (Name_ ∘ p_node) <$> option_list p = if target g k then [k] else [].
Proof.
  intros Hi Hg Hne Hb.
  destruct (probe_total host buff g Hi Hg Hne Hb) as (p & g' & E).
  destruct (roundrobin_turn g (rh_cursor _ _ Hg) Hne) as (k & rest & g1 & E1 & Ho & Ho1 & Hu1 & _).
  destruct (safe_keeps _ _ _ _ _ (roundrobinNode_safe 1) Hi E1) as [Hi1 _].
  exists p, k, rest, g'. split; [done|]. split; [done|].
  revert E. unfold probe. step E1. step (eq_refl : getNodeState k g1 = Ok (node_map_ g1 !! k, g1)).
  rewrite <- (target_unchanged g g1 k Hu1). unfold target.
  destruct (node_map_ g1 !! k) as [n|] eqn:En; [|done]. step.
  destruct (inv_names _ (proj1 Hi1) _ _ En) as [Hname _]. rewrite Hname. fold (self_name g1).
  destruct (_ && _).
  2: { intros [= <- <-]. by split_and!. }
  intros (q & g2 & E & [= <- <-])%bind_Ok_inv. unfold probeNode in E.
  apply bind_Ok_inv in E as (port & g3 & E3 & E).
  assert (g3 = g1) as -> by (unfold lift in E3; destruct (stoi _); [by injection E3 as _ ->|done]).
  cbv zeta in E. apply bind_Ok_inv in E as (seq & g4 & E4 & E).
  destruct (safe_keeps _ _ _ _ _ nextSeqNum_safe Hi1 E4) as [Hi4 _].
  unfold nextSeqNum in E4. run in E4. injection E4 as _ <-.
  apply bind_Ok_inv in E as ([size sent] & g5 & E5 & E).
  apply generatePing_quiet in E5 as [Hu5 Hc5]; [|done..]. run in E. injection E as <- <-.
  split; [|split].
  - destruct Hu5 as (_ & _ & Hn5). rewrite <- Ho1. unfold order. by rewrite Hc5, Hn5.
  - etrans; [exact Hu1|]. etrans; [|exact Hu5]. by split_and!.
  - by rewrite <- Hname.
Qed.

(** ** A round *)

Fixpoint probe_round (buffs : list (list Z)) : M gossiper (list probe_op) :=
  match buffs with
  | [] => mret []
  | buff :: buffs => p ← probe host buff; ps ← probe_round buffs; mret (option_list p ++ ps)
  end.

Lemma probes_in_order buffs g : inv g -> typed g -> Forall (fun buff => len buff = mtu) buffs ->
  (length buffs <= length (nodes_ g))%nat ->
  exists ps g', probe_round buffs g = Ok (ps, g') /\ unchanged g g' /\
    order g' = drop (length buffs) (order g) ++ take (length buffs) (order g) /\
    (Name_ ∘ p_node) <$> ps = filter (fun k => target g k = true) (take (length buffs) (order g)).
Proof.
  intros Hi Hg Hb. revert g Hi Hg.
  cut (forall g, inv g -> typed g -> forall front back, order g = front ++ back ->
    length front = length buffs -> exists ps g', probe_round buffs g = Ok (ps, g') /\ unchanged g g' /\
      order g' = back ++ front /\ (Name_ ∘ p_node) <$> ps = filter (fun k => target g k = true) front).
  { intros Hcut g Hi Hg Hl. apply (Hcut g Hi Hg); [by rewrite take_drop|].
    rewrite length_take. unfold order. rewrite length_rotate. lia. }
  induction Hb as [|buff buffs Hbuff _ IH]; intros g Hi Hg front back Ho Hl.
  { destruct front; [|done]. exists [], g. rewrite app_nil_r. by split_and!. }
  destruct front as [|k front]; [done|]. injection Hl as Hl.
  assert (nodes_ g <> []) as Hne.
  { intros E. assert (length (order g) = 0%nat) as Hz by (unfold order; by rewrite length_rotate, E).
    by rewrite Ho in Hz. }
  destruct (probe_turn buff g Hi Hg Hne Hbuff) as (p & k' & rest & g1 & E1 & Ho1 & Ho1' & Hu1 & Hp).
  rewrite Ho in Ho1. injection Ho1 as <- <-. rewrite <- app_assoc in Ho1'.
  destruct (safe_keeps _ _ _ _ _ (probe_safe host buff) Hi E1) as [Hi1 _].
  destruct (keeps_elim _ _ _ _ _ _ (probe_holds typed_record host buff) Hg E1) as [_ Hg1].
  destruct (IH g1 Hi1 Hg1 front (back ++ [k])) as (ps & g2 & E2 & Hu2 & Ho2 & Hps); [done..|].
  exists (option_list p ++ ps), g2. split; [|split; [by etrans|split]].
  - cbn [probe_round]. step E1. by step E2.
  - by rewrite Ho2, <- app_assoc.
  - rewrite fmap_app, Hp, Hps, filter_cons.
    rewrite (list_filter_iff (fun k => target g1 k = true) (fun k => target g k = true) front)
      by (intros k'; by rewrite (target_unchanged g g1 k' Hu1)).
    destruct (target g k); [by rewrite decide_True|by rewrite decide_False].
Qed.

(** C9: every round probes everyone. In every reachable state, as many probes in
    a row as there are members all end normally, and between them ping each
    node that is known to be alive, other than ourselves, exactly once, and
    nobody else, wherever the cursor starts and however the list was changed
    before; they change neither the table nor the member list. What objects read
    after their lifetime yielded on the way to that state had the types of the wire
    ([TypedResidue]), which keeps the ports such that none is rejected. *)
Theorem round_probes_everyone (junk : Z) (addr : string) (conf : config) (join leave : bool)
    (s : system) (buffs : list (list Z)) :
  config_new junk addr = Ok conf -> reachable host conf join leave s ->
  Forall (fun buff => len buff = mtu) buffs -> length buffs = length (nodes_ (gos s)) ->
  let g := gos s in
  exists ps g', probe_round buffs g = Ok (ps, g') /\
    node_map_ g' = node_map_ g /\ nodes_ g' = nodes_ g /\
    NoDup ((Name_ ∘ p_node) <$> ps) /\
    forall k, k ∈ (Name_ ∘ p_node) <$> ps <->
      exists n, node_map_ g !! k = Some n /\ State_ n = STATE_ALIVE /\ k <> self_name g.
Proof.
  intros Hc Hr Hb Hl g. destruct (reachable_typed_inv _ _ _ _ _ _ _ Hc Hr) as [Hg _].
  destruct (reachable_inv _ _ _ _ _ Hr) as ([Hi _] & _). fold g in Hg, Hi, Hl.
  destruct (probes_in_order buffs g Hi Hg Hb) as (ps & g' & E & (_ & Hm & Hn) & _ & Hps); [lia|].
  exists ps, g'. do 3 (split; [done|]). rewrite Hps, take_ge by (unfold order; rewrite length_rotate; lia).
  split; [apply list.NoDup_filter; rewrite order_perm; apply Hi|].
  intros k. rewrite list_elem_of_filter, order_perm. unfold target. split.
  - intros [Ht _]. destruct (node_map_ g !! k) as [n|]; [|done].
    apply andb_true_iff in Ht as [Ha Hs]. exists n. split; [done|].
    split; [by apply bool_decide_eq_true in Ha|]. intros ->. by rewrite bool_decide_eq_true_2 in Hs.
  - intros (n & Hk & Ha & Hs). rewrite Hk, bool_decide_eq_true_2, bool_decide_eq_false_2 by done.
    split; [done|]. apply (inv_members _ (proj1 Hi)). exists n. by rewrite Ha.
Qed.
End rounds.
