(* ===== verification/Draining.v ===== *)
(** * The queue drains

    What a run of pings does to the queue of reports when nothing new is queued:
    each ping that has room takes the next batch, a batch that does not fit halves
    the batch size, and after finitely many pings every report has been sent as
    often as its counter said, and the queue is empty. *)
From S2P Require Import Prelude Utils Bytes Header Node Broadcast Suspicion Messages Gossiper.
From S2P Require Import Membership Records Protocol Dynamics Exchange Runs Typed Rounds.
Local Open Scope Z_scope.

(** ** What services of the ring cost *)

Lemma served_owed e : entry_ok e -> sum_by (fun e => e.2.2) (served e) = e.2.2 - 1.
Proof.
  destruct e as [k [m t]]. intros [_ Ht]. cbn in *. unfold served, sum_by.
  destruct (Z.ltb_spec (t - 1) 1); cbn; lia.
Qed.

Lemma served_ok e : entry_ok e -> Forall entry_ok (served e).
Proof.
  destruct e as [k [m t]]. intros [Hk Ht]. cbn in *. unfold served.
  destruct (Z.ltb_spec (t - 1) 1); repeat constructor; cbn; [done|lia].
Qed.

Lemma ring_pop_n_owed n r : Forall entry_ok r -> (n <= length r)%nat ->
  sum_by (fun e => e.2.2) (ring_pop_n n r).2 = sum_by (fun e => e.2.2) r - Z.of_nat n.
Proof.
  revert r. induction n as [|n IH]; intros r Hok Hn; [cbn [ring_pop_n snd]; lia|].
  destruct r as [|e r]; [simpl in Hn; lia|]. apply Forall_cons in Hok as [He Hok].
  cbn [ring_pop_n]. destruct (ring_pop_n n (r ++ served e)) as [out r'] eqn:E. cbn [snd].
  change r' with ((out, r').2). rewrite <- E, IH.
  - rewrite sum_by_app, served_owed by done. cbn [sum_by foldr]. fold (sum_by (fun e => e.2.2) r). lia.
  - apply Forall_app. split; [done|by apply served_ok].
  - rewrite length_app. simpl in Hn. lia.
Qed.

(** The messages of a queue. *)
Definition queued (q : BroadcastQueue) (m : node_state) : Prop := exists k t, (k, (m, t)) ∈ m_ q.

Lemma queued_ring q m : queued q m <-> m ∈ msg_of <$> ring q.
Proof.
  unfold queued, ring. rewrite list_elem_of_fmap. split.
  - intros (k & t & Hin). exists (k, (m, t)). by rewrite rotate_perm.
  - intros ([k [m' t]] & -> & Hin). rewrite rotate_perm in Hin. by exists k, t.
Qed.

Lemma served_msgs l : msg_of <$> (l ≫= served) ⊆ msg_of <$> l.
Proof.
  induction l as [|[k [m t]] l IH]; [done|]. rewrite bind_cons, fmap_app. unfold served at 1.
  destruct (_ <? 1); cbn; set_solver.
Qed.

Section draining.
Context (host : endian) `{IterationOrder} `{!Residue} `{!TypedResidue _} `{TableOrder} `{FreedHeap} `{StackRoom}
  `{!MessageCodec} `{!MessageCodecOk _}.

(** ** One ping *)

(** The reports in a packet of [size] bytes: the batch, if anything is appended. *)
Definition appended (g : gossiper) (seq size : Z) : list node_state :=
  if HEADER_SIZE + len (ping_body g seq) <? size then batch g else [].

(** A batch was sent. *)
Definition batch_left (g g' : gossiper) : Prop :=
  MAX_APPENDED_MSG_ g' = MAX_APPENDED_MSG_ g /\
  let j := length (batch g) in
  let r := ring (bc_queue_ g) in
  (0 < j <= length r)%nat /\ batch g = (ring_pop_n j r).1 /\ ring (bc_queue_ g') = (ring_pop_n j r).2.

(** A batch did not fit. *)
Definition batch_kept (g g' : gossiper) (seq : Z) : Prop :=
  bc_queue_ g' = bc_queue_ g /\ m_ (bc_queue_ g) <> [] /\
  MAX_APPENDED_MSG_ g' =
    (if MAX_APPENDED_MSG_ g =? 1 then 1 else Z.quot (MAX_APPENDED_MSG_ g) 2) /\
  exists ws, mapM wire_state (batch g) = Ok ws /\ mtu < gossip_size g seq ws.

Lemma ring_nil g : ring (bc_queue_ g) = [] <-> m_ (bc_queue_ g) = [].
Proof. rewrite <- !length_zero_iff_nil. by rewrite length_ring. Qed.

Lemma batch_nil g : 1 <= MAX_APPENDED_MSG_ g -> batch g = [] -> m_ (bc_queue_ g) = [].
Proof.
  intros Hm Hb. apply length_zero_iff_nil. unfold batch in Hb. apply (f_equal length) in Hb.
  rewrite length_fmap, length_take, length_ring in Hb. simpl in Hb. lia.
Qed.

Lemma ping_outcome seq buff g : inv g -> typed g -> len buff = mtu ->
  HEADER_SIZE + len (ping_body g seq) <= mtu ->
  exists size sent g', generatePing host seq buff mtu g = Ok ((size, sent), g') /\
    ((appended g seq size = [] /\ g' = g /\ m_ (bc_queue_ g) = []) \/
     (appended g seq size = [] /\ batch_kept g g' seq) \/
     (appended g seq size = batch g /\ batch_left g g')).
Proof.
  intros Hg Ht Hb Hroom. pose proof (rh_batch _ _ Ht) as Hmax.
  destruct (wire_states_total _ (batch_holds typed_record g Ht)) as [ws Hws].
  destruct (decide (batch g = [])) as [He|Hne].
  - rewrite (generatePing_run host seq buff g Hb Hroom). set (body := ping_body g seq) in *.
    destruct (appendGossipMsg_spec (packet TYPE_PING body (drop (8 + length body) buff))
      (HEADER_SIZE + len body) (mtu - len body - HEADER_SIZE) g) as (q & _ & _ & E);
      [apply inv0_queue_ok, Hg|].
    rewrite He in E. cbn [mapM mret outcome_ret mbind outcome_bind] in E. eexists _, _, g. unfold mbind at 1, M_bind. rewrite E. split; [done|].
    left. unfold appended. fold body. rewrite Z.add_0_r, Z.ltb_irrefl. do 2 (split; [done|]).
    apply batch_nil; [lia|done].
  - assert (ws <> []) as Hws0.
    { intros ->. by apply mapM_Ok, Forall2_nil_inv_r in Hws. }
    destruct (Z.le_gt_cases (gossip_size g seq ws) mtu) as [Hfit|Hbig].
    + destruct (gossip_sent host seq buff g ws Hg Hb Hws0 Hws Hfit) as (rest & q & E & _ & _ & Hr & Hm).
      eexists _, _, _. split; [exact E|]. right. right. unfold appended.
      assert (0 < len (batch_body g ws)) as Hpos.
      { pose proof (encode_NodeStates_nonempty (Some ws)). unfold batch_body, len.
        destruct (encode_NodeStates (Some ws)); [done|simpl; lia]. }
      rewrite (proj2 (Z.ltb_lt _ _)) by (unfold gossip_size; lia).
      assert (length (batch g) <= length (ring (bc_queue_ g)))%nat as Hj
        by (unfold batch; rewrite length_fmap, length_take; lia).
      split; [done|]. split; [done|]. cbv zeta. rewrite ring_pop_n_le by done. split_and!; try done.
      destruct (batch g); [done|simpl; lia].
    + destruct (oversize_batch host seq buff g ws Hg Hb Hroom Hws0 Hws Hbig) as [sent E].
      eexists _, _, _. split; [exact E|]. right. left. unfold appended. rewrite Z.ltb_irrefl.
      split; [done|]. unfold batch_kept.
      assert (m_ (bc_queue_ g) <> []) as Hq.
      { intros Hq. apply Hne. unfold batch. by rewrite (proj2 (ring_nil g) Hq), take_nil. }
      destruct (Z.eqb_spec (MAX_APPENDED_MSG_ g) 1) as [->|]; split_and!; try done; by exists ws.
Qed.

(** ** A run of pings *)

(** The reports each ping carried, when pings with these sequence numbers are
    generated one after the other. *)
Fixpoint pings (buff : list Z) (seqs : list Z) : M gossiper (list (list node_state)) :=
  match seqs with
  | [] => mret []
  | seq :: seqs =>
    g ← get;
    '(size, _) ← generatePing host seq buff mtu;
    bs ← pings buff seqs;
    mret (appended g seq size :: bs)
  end.

(** Each queued report has room in a packet of its own. *)
Definition roomy (g : gossiper) (seqs : list Z) : Prop := forall seq, seq ∈ seqs ->
  HEADER_SIZE + len (ping_body g seq) <= mtu /\
  forall m w, queued (bc_queue_ g) m -> wire_state m = Ok w ->
    HEADER_SIZE + len (ping_body g seq) + len (encode_NodeStates (Some [w])) <= mtu.

(** Transmissions owed, and how often the batch size can be halved. *)
Definition debt (g : gossiper) : Z := owed (bc_queue_ g) + Z.log2 (MAX_APPENDED_MSG_ g).

Lemma owed_ring q : owed q = sum_by (fun e => e.2.2) (ring q).
Proof. unfold owed, ring. apply sum_by_perm. by rewrite rotate_perm. Qed.

(** A batch of one that does not fit has no room of its own. *)
Lemma batch_kept_many g g' seq seqs : typed g -> roomy g (seq :: seqs) -> batch_kept g g' seq ->
  MAX_APPENDED_MSG_ g <> 1 /\ debt g' = debt g - 1.
Proof.
  intros Ht Hroom (Hq & Hne & Hm & ws & Hws & Hbig). pose proof (rh_batch _ _ Ht) as Hmax.
  assert (MAX_APPENDED_MSG_ g <> 1) as Hmany.
  { intros E. destruct (Hroom seq ltac:(left)) as [_ Hone].
    pose proof (fun m => proj2 (queued_ring (bc_queue_ g) m)) as Hqr.
    unfold batch in Hws. rewrite E in Hws. destruct (ring (bc_queue_ g)) as [|e r] eqn:Er;
      [by apply ring_nil in Er|].
    assert (length (m_ (bc_queue_ g)) <> 0%nat) as Hl by (by destruct (m_ (bc_queue_ g))).
    rewrite Nat.min_l in Hws by (change (Z.to_nat 1) with 1%nat; lia).
    change (Z.to_nat 1) with 1%nat in Hws. cbn [take] in Hws. rewrite take_0 in Hws.
    cbn [fmap list_fmap mapM] in Hws. destruct (wire_state (msg_of e)) as [w|] eqn:Ew; [|done].
    injection Hws as <-. specialize (Hone (msg_of e) w (Hqr _ ltac:(left)) Ew).
    unfold gossip_size, batch_body in Hbig. lia. }
  split; [done|]. unfold debt. rewrite Hq, Hm, (proj2 (Z.eqb_neq _ _)) by done.
  assert (Z.log2 (Z.quot (MAX_APPENDED_MSG_ g) 2) = Z.log2 (MAX_APPENDED_MSG_ g) - 1); [|lia].
  rewrite Z.quot_div_nonneg by lia. change 2 with (2 ^ 1) at 1. rewrite <- Z.shiftr_div_pow2 by lia.
  rewrite Z.log2_shiftr by lia. pose proof (Z.log2_pos (MAX_APPENDED_MSG_ g)). lia.
Qed.

(** What a batch that is sent does to the queue. *)
Lemma batch_left_effect g g' : inv g -> inv g' -> batch_left g g' ->
  debt g' <= debt g - 1 /\ (forall m, queued (bc_queue_ g') m -> queued (bc_queue_ g) m) /\
  Forall (queued (bc_queue_ g)) (batch g) /\
  forall k, sent_count k (batch g) + remaining k (m_ (bc_queue_ g')) = remaining k (m_ (bc_queue_ g)).
Proof.
  intros Hg Hg' (Hm & (Hpos & Hle) & Hb & Hr). destruct (inv0_queue_ok _ (proj1 Hg)) as [Hwf _].
  destruct (inv0_queue_ok _ (proj1 Hg')) as [Hwf' _].
  pose proof (ring_entries _ Hwf) as Hok. set (j := length (batch g)) in *.
  pose proof (ring_pop_n_owed j _ Hok Hle) as Howed.
  rewrite ring_pop_n_le in Hb, Hr, Howed by done. cbn [fst snd] in *. split_and!.
  - unfold debt. rewrite Hm, !owed_ring, Hr. lia.
  - intros m. rewrite !queued_ring, Hr, fmap_app, elem_of_app.
    rewrite <- (take_drop j (ring (bc_queue_ g))) at 3. rewrite fmap_app, elem_of_app.
    intros [?|Hs]; [by right|left]. by apply served_msgs.
  - rewrite Hb. apply Forall_forall. intros m Hin. apply queued_ring.
    rewrite <- (take_drop j (ring (bc_queue_ g))), fmap_app, elem_of_app. by left.
  - intros k. rewrite <- !ring_remaining by done. rewrite Hr. pose proof (ring_pop_n_count k j _ Hok) as Hk.
    rewrite ring_pop_n_le in Hk by done. destruct Hk as [Hk _]. by rewrite <- Hb in Hk.
Qed.

Lemma pings_length buff seqs g bs g' : pings buff seqs g = Ok (bs, g') -> length bs = length seqs.
Proof.
  revert g bs. induction seqs as [|seq seqs IH]; intros g bs; [by intros [= <- _]|].
  cbn [pings]. step. intros ([size sent] & g1 & _ & E)%bind_Ok_inv.
  apply bind_Ok_inv in E as (bs' & g2 & E & E'). run in E'. injection E' as <- <-.
  cbn [length]. f_equal. by eapply IH.
Qed.

(** What a run of pings does, however long. *)
Lemma pings_run buff seqs g : inv g -> typed g -> len buff = mtu -> roomy g seqs ->
  exists bs g', pings buff seqs g = Ok (bs, g') /\ node_map_ g' = node_map_ g /\
    Forall (queued (bc_queue_ g)) (concat bs) /\
    (forall k, sent_count k (concat bs) + remaining k (m_ (bc_queue_ g')) = remaining k (m_ (bc_queue_ g))) /\
    (debt g <= Z.of_nat (length seqs) \/ m_ (bc_queue_ g) = [] -> m_ (bc_queue_ g') = []).
Proof.
  intros Hg Ht Hb. revert g Hg Ht. induction seqs as [|seq seqs IH]; intros g Hg Ht Hroom.
  { exists [], g. split_and!; try done. intros [Hd|]; [|done].
    apply ring_nil. apply (ring_pop_n_drain 0 (ring (bc_queue_ g))); [apply ring_entries, inv0_queue_ok, Hg|].
    pose proof (owed_ring (bc_queue_ g)). pose proof (Z.log2_nonneg (MAX_APPENDED_MSG_ g)). unfold debt in Hd.
    cbn [length Z.of_nat] in Hd |- *. lia. }
  destruct (ping_outcome seq buff g Hg Ht Hb) as (size & sent & g1 & E & Hout).
  { apply Hroom. left. }
  destruct (safe_keeps _ _ _ _ _ (generatePing_safe host seq buff mtu) Hg E) as [Hg1 He1].
  destruct (keeps_elim _ _ _ _ _ _ (generatePing_holds typed_record host seq buff mtu) Ht E) as [_ Ht1].
  destruct (generatePing_quiet host seq buff g _ g1 Hg Hb E) as [(Hc & Hm & _) _].
  assert (forall seq', ping_body g1 seq' = ping_body g seq') as Hpb
    by (intros; unfold ping_body, self_name; by rewrite Hc).
  assert ((forall m, queued (bc_queue_ g1) m -> queued (bc_queue_ g) m) /\
    Forall (queued (bc_queue_ g)) (appended g seq size) /\
    (forall k, sent_count k (appended g seq size) + remaining k (m_ (bc_queue_ g1))
       = remaining k (m_ (bc_queue_ g))) /\
    (m_ (bc_queue_ g) = [] -> m_ (bc_queue_ g1) = []) /\
    (debt g1 <= debt g - 1 \/ m_ (bc_queue_ g) = [])) as (Hsub & Hsent & Hcount & Hempty & Hdebt).
  { destruct Hout as [(-> & -> & Hq)|[(-> & Hk)|(-> & Hl)]].
    - split_and!; try done. by right.
    - destruct (batch_kept_many g g1 seq seqs Ht Hroom Hk) as [_ Hd]. destruct Hk as (Hq & _).
      rewrite Hq. split_and!; try done. left. lia.
    - destruct (batch_left_effect g g1 Hg Hg1 Hl) as (Hd & Hs & Hf & Hc'). split_and!; try done; [|by left].
      intros Hq. destruct Hl as (_ & (? & Hle) & _). apply ring_nil in Hq. rewrite Hq in Hle. simpl in Hle. lia. }
  destruct (IH g1 Hg1 Ht1) as (bs & g' & E' & Hm' & Hsent' & Hcount' & Hend).
  { intros seq' Hin. rewrite Hpb. destruct (Hroom seq' ltac:(by right)) as [? Hone]. split; [done|].
    intros m w Hqm. apply Hone. by apply Hsub. }
  exists (appended g seq size :: bs), g'. split_and!.
  - cbn [pings]. step. step E. by step E'.
  - by rewrite Hm', Hm.
  - cbn [concat]. apply Forall_app. split; [done|]. eapply Forall_impl; [exact Hsent'|]. done.
  - intros k. cbn [concat]. unfold sent_count in *. rewrite filter_app, length_app.
    specialize (Hcount k). specialize (Hcount' k). lia.
  - intros Hd. apply Hend. destruct Hdebt as [Hdebt|Hq]; [|by right; apply Hempty].
    destruct Hd as [Hd|Hq]; [left; cbn [length] in Hd; lia|right; by apply Hempty].
Qed.

(** C11: the queue drains. In every reachable state, if each queued report fits a
    packet alone and nothing new is queued, a run of pings empties the queue once
    it is as long as the transmissions the queue owes plus the halvings of the
    batch size that oversize batches can still cause. However long the run, each
    ping is generated, the pings carry queued reports only, and each report has
    been carried exactly as often as its remaining count has gone down, so that
    once the queue is empty each has been sent as often as it was due. Objects read
    after their lifetime on the way to that state yielded records with the types of
    the wire ([TypedResidue]), which is needed only for the pings to be generated. *)
Theorem queue_drains (junk : Z) (addr : string) (conf : config) (join leave : bool) (s : system)
    (buff : list Z) (seqs : list Z) :
  config_new junk addr = Ok conf -> reachable host conf join leave s -> len buff = mtu ->
  let g := gos s in
  roomy g seqs ->
  exists bs g', pings buff seqs g = Ok (bs, g') /\ length bs = length seqs /\
    node_map_ g' = node_map_ g /\ Forall (queued (bc_queue_ g)) (concat bs) /\
    (forall k, sent_count k (concat bs) = remaining k (m_ (bc_queue_ g)) - remaining k (m_ (bc_queue_ g'))) /\
    (owed (bc_queue_ g) + Z.log2 (MAX_APPENDED_MSG_ g) <= Z.of_nat (length seqs) ->
     m_ (bc_queue_ g') = [] /\ forall k, sent_count k (concat bs) = remaining k (m_ (bc_queue_ g))).
Proof.
  intros Hc Hr Hb g Hroom. destruct (reachable_typed_inv _ _ _ _ _ _ _ Hc Hr) as [Hg _].
  destruct (reachable_inv _ _ _ _ _ Hr) as ([Hi _] & _).
  destruct (pings_run buff seqs g Hi Hg Hb Hroom) as (bs & g' & E & Hm & Hs & Hk & Hend).
  exists bs, g'. split; [done|]. split; [by eapply pings_length|]. do 2 (split; [done|]).
  split; [intros k; specialize (Hk k); lia|]. intros Hd. assert (m_ (bc_queue_ g') = []) as Hq
    by (apply Hend; by left).
  split; [done|]. intros k. specialize (Hk k). rewrite Hq in Hk. unfold remaining at 1 in Hk. cbn in Hk. lia.
Qed.
End draining.
