(* ===== verification/Detection.v ===== *)
(** * A silent member is detected

    From the probe to the conviction: a round pings every member that is alive;
    a ping that is not answered in time starts a suspicion; and whatever happens
    next, the suspicion's timer convicts the member unless what is known of it has
    moved on by then. The suspicion reads the record bound in the probe's timeout
    callback, which outlives it: the client that holds the callback holds itself. *)
From stdpp Require Import list relations.
From S2P Require Import Prelude Utils Bytes Header Node Broadcast Suspicion Messages Gossiper.
From S2P Require Import Membership Reports Records Protocol Dynamics Exchange Session Runs Typed Rounds.
Local Open Scope Z_scope.

Section detection.
Context (host : endian) `{IterationOrder} `{!Residue} `{!TypedResidue _} `{TableOrder} `{FreedHeap} `{StackRoom}
  `{!MessageCodec} `{!MessageCodecOk _}.

(** ** The probes of a round *)

(** A probe carries the record of the node it pings. *)
Lemma probe_record buff g p g' : inv g -> typed g -> nodes_ g <> [] -> len buff = mtu ->
  probe host buff g = Ok (Some p, g') -> node_map_ g !! Name_ (p_node p) = Some (p_node p).
Proof.
  intros Hi Hg Hne Hb. destruct (roundrobin_turn g (rh_cursor _ _ Hg) Hne)
    as (k & rest & g1 & E1 & _ & _ & (Hc & Hm & _) & _).
  unfold probe. step E1. step (eq_refl : getNodeState k g1 = Ok (node_map_ g1 !! k, g1)). rewrite Hm.
  destruct (node_map_ g !! k) as [n|] eqn:En; [|done]. step. destruct (_ && _); [|done].
  intros (q & g2 & E & [= <- <-])%bind_Ok_inv. destruct (inv_names _ (proj1 Hi) _ _ En) as [Hn _].
  revert E. unfold probeNode. intros (port & g3 & _ & E)%bind_Ok_inv. revert E. cbv zeta.
  intros (seq & g4 & _ & E)%bind_Ok_inv. apply bind_Ok_inv in E as ([size sent] & g5 & _ & E).
  revert E. run. intros [= <- _]. cbn [p_node]. by rewrite copy_eq, Hn.
Qed.

(** A round is a run, and its probes carry what is known of those they ping. *)
Lemma probe_round_run buffs g os : inv g -> typed g -> nodes_ g <> [] ->
  Forall (fun buff => len buff = mtu) buffs ->
  exists ps g', probe_round host buffs g = Ok (ps, g') /\
    rtc (step host) (mkSystem g os) (mkSystem g' (rev ps ++ os)) /\
    Forall (fun p => node_map_ g !! Name_ (p_node p) = Some (p_node p)) ps.
Proof.
  intros Hi Hg Hne Hb. revert g os Hi Hg Hne.
  induction Hb as [|buff buffs Hbuff _ IH]; intros g os Hi Hg Hne; [by exists [], g|].
  destruct (probe_turn host buff g Hi Hg Hne Hbuff) as (p & _ & _ & g1 & E1 & _ & _ & (_ & Hm1 & Hn1) & _).
  destruct (safe_keeps _ _ _ _ _ (probe_safe host buff) Hi E1) as [Hi1 _].
  destruct (keeps_elim _ _ _ _ _ _ (probe_holds typed_record host buff) Hg E1) as [_ Hg1].
  destruct (IH g1 (option_list p ++ os) Hi1 Hg1) as (ps & g2 & E2 & Hs2 & Hps); [by rewrite Hn1|].
  exists (option_list p ++ ps), g2. split_and!.
  - cbn [probe_round]. step E1. by step E2.
  - eapply rtc_l; [by apply (step_probe host buff _ os p)|].
    rewrite rev_app_distr, <- app_assoc. by replace (rev (option_list p)) with (option_list p) by by destruct p.
  - apply Forall_app. split; [|by rewrite <- Hm1]. destruct p as [p|]; [|done].
    apply Forall_singleton. by eapply probe_record.
Qed.

(** A round pings each member that is alive, with the record it has of it. *)
Lemma round_pings buffs g os k n : inv g -> typed g -> Forall (fun buff => len buff = mtu) buffs ->
  length buffs = length (nodes_ g) -> node_map_ g !! k = Some n -> State_ n = STATE_ALIVE ->
  k <> self_name g ->
  exists ps g1 p, probe_round host buffs g = Ok (ps, g1) /\
    rtc (step host) (mkSystem g os) (mkSystem g1 (rev ps ++ os)) /\ p ∈ ps /\ p_node p = n.
Proof.
  intros Hi Hg Hb Hl Hk Ha Hself.
  assert (k ∈ nodes_ g) as Hin by (apply (inv_members _ (proj1 Hi)); exists n; by rewrite Ha).
  assert (nodes_ g <> []) as Hne by (intros E; rewrite E in Hin; by apply not_elem_of_nil in Hin).
  destruct (probe_round_run buffs g os Hi Hg Hne Hb) as (ps & g1 & E & Hrun & Hps).
  destruct (probes_in_order host buffs g Hi Hg Hb) as (ps' & g1' & E' & _ & _ & Hnames); [lia|].
  rewrite E in E'. injection E' as <- <-.
  rewrite take_ge in Hnames by (unfold order; rewrite length_rotate; lia).
  assert (k ∈ (Name_ ∘ p_node) <$> ps) as (p & -> & Hp)%list_elem_of_fmap.
  { rewrite Hnames. apply list_elem_of_filter. split; [|by rewrite order_perm].
    unfold target. by rewrite Hk, bool_decide_eq_true_2, bool_decide_eq_false_2. }
  exists ps, g1, p. do 3 (split; [done|]).
  pose proof (proj1 (Forall_forall _ _) Hps p Hp) as Hrec. cbn in Hrec, Hk. congruence.
Qed.

(** ** What started goes on *)

Lemma step_probes s s' p : step host s s' -> p ∈ probes s -> p ∈ probes s'.
Proof. intros [] Hp; cbn in *; try done. apply elem_of_app. by right. Qed.

Lemma steps_probes s s' p : rtc (step host) s s' -> p ∈ probes s -> p ∈ probes s'.
Proof. induction 1; eauto using step_probes. Qed.

(** A probe that times out on a member nobody suspects yet starts to watch it. *)
Lemma timeout_watches p n g : inv g -> node_map_ g !! Name_ (p_node p) = Some n ->
  State_ n = STATE_ALIVE -> Dominant_ n <= Dominant_ (p_node p) ->
  suspicions_ g !! Name_ (p_node p) = None -> node_num_ g <> 0 ->
  exists g', on_probe_timeout p g = Ok (tt, g') /\
    node_map_ g' = <[Name_ (p_node p) := set_Timestamp 0 (p_node p)]> (node_map_ g) /\
    conf_ g' = conf_ g /\ watched (Name_ (p_node p)) (p_node p) g'.
Proof.
  intros Hg Hk Ha Hd Hs Hn.
  destruct (suspect_start_run true (p_node p) n g Hg Hk Hd Ha Hs) as (q & d & _ & _ & _ & _ & E).
  cbv zeta in E. unfold on_probe_timeout. rewrite E. unfold suspicion_new, need_confirm.
  rewrite (proj2 (Z.eqb_neq _ _)) by done. cbn. eexists. split; [done|]. members.
  split_and!; [done..|]. eexists. members. by rewrite lookup_insert_eq.
Qed.

(** A watched member: its timer convicts it, as long as it is watched. *)
Lemma watched_convicts k c g : inv g -> watched k c g -> k <> self_name g ->
  exists g', on_suspicion_timer k g = Ok (tt, g') /\ convicted g g' k (set_Timestamp 0 c).
Proof.
  intros Hg (sus & Hs & Hc & Ha) Hk.
  destruct (inv_susp _ (proj1 Hg) _ _ Hs) as (_ & _ & Hcap). rewrite Hc in Hcap.
  apply (suspicion_timer_convicts g k _ sus); try done. by rewrite Hc.
Qed.

(** Along a run a member stays watched, or what is known of it moves on. *)
Lemma watched_run k c n s s' : rtc (step host) s s' -> system_inv s -> k <> self_name (gos s) ->
  watched k c (gos s) -> node_map_ (gos s) !! k = Some n ->
  inv (gos s') /\ k <> self_name (gos s') /\
  (watched k c (gos s') \/ exists n', node_map_ (gos s') !! k = Some n' /\
     (Dominant_ n < Dominant_ n' \/ State_ n' = STATE_DEAD)).
Proof.
  intros Hr Hs Hk Hw Hn. destruct (steps_inv host _ _ Hr Hs) as [[Hi _] He].
  split; [done|]. split; [unfold self_name in *; by rewrite (ev_conf _ _ He)|].
  destruct (ev_watch _ _ He k c Hk Hw) as [Hw'|Hm]; [by left|right].
  destruct (Hm n Hn) as (n' & Hn' & Ho). exists n'. split; [done|].
  destruct (inv_names _ (proj1 Hi) _ _ Hn') as [_ Hks]. unfold overruled in Ho. revert Ho.
  destruct Hks as [-> |[-> | ->]]; cbn [STATE_val]; [lia|lia|by right].
Qed.

(** C10: a silent member is detected. Take any member [k] but ourselves that is
    known to be alive in a reachable state. The next round of probes pings it. If
    later, with the record of [k] unchanged, no suspicion of it and a node count
    other than zero, that ping's timeout runs, it succeeds; and from then on,
    whatever messages, timers and calls follow, at every moment [k] is already
    known to be dead, or a newer record of it has come, or its suspicion's timer
    is still set and, when it runs, convicts it: [k] is dead, no member any more,
    and its leave is announced if a handler for leaves is registered. Objects read
    after their lifetime yield records with the types of the wire ([TypedResidue]),
    which is needed only for the round of probes to end normally. *)
Theorem crash_detected (junk : Z) (addr : string) (conf : config) (join leave : bool)
    (s : system) (buffs : list (list Z)) (k : string) (n : node_state) :
  config_new junk addr = Ok conf -> reachable host conf join leave s ->
  Forall (fun buff => len buff = mtu) buffs -> length buffs = length (nodes_ (gos s)) ->
  node_map_ (gos s) !! k = Some n -> State_ n = STATE_ALIVE -> k <> self_name (gos s) ->
  exists ps g1 p, probe_round host buffs (gos s) = Ok (ps, g1) /\ p ∈ ps /\ p_node p = n /\
    forall s1, rtc (step host) (mkSystem g1 (rev ps ++ probes s)) s1 ->
      node_map_ (gos s1) !! k = Some n -> suspicions_ (gos s1) !! k = None ->
      node_num_ (gos s1) <> 0 ->
      exists g2, on_probe_timeout p (gos s1) = Ok (tt, g2) /\
        step host s1 (mkSystem g2 (probes s1)) /\
        forall s3, rtc (step host) (mkSystem g2 (probes s1)) s3 ->
          (exists n', node_map_ (gos s3) !! k = Some n' /\
             (Dominant_ n < Dominant_ n' \/ State_ n' = STATE_DEAD)) \/
          (exists g4, on_suspicion_timer k (gos s3) = Ok (tt, g4) /\
             convicted (gos s3) g4 k (set_Timestamp 0 n)).
Proof.
  intros Hc Hr Hb Hl Hk Ha Hself. destruct (reachable_typed_inv _ _ _ _ _ _ _ Hc Hr) as [Hg _].
  destruct (reachable_inv _ _ _ _ _ Hr) as (Hsi & _). destruct s as [g os]. cbn [gos probes] in *.
  destruct (round_pings buffs g os k n (proj1 Hsi) Hg Hb Hl Hk Ha Hself)
    as (ps & g1 & p & E & Hrun & Hp & Hpn).
  exists ps, g1, p. do 3 (split; [done|]). intros s1 Hr1 Hk1 Hs1 Hn1.
  destruct (inv_names _ (proj1 (proj1 Hsi)) _ _ Hk) as [<- _]. rewrite <- Hpn in *.
  destruct (steps_inv host _ _ (transitivity Hrun Hr1) Hsi) as [Hsi1 He1]. cbn [gos] in He1.
  destruct (timeout_watches p _ (gos s1) (proj1 Hsi1) Hk1) as (g2 & E2 & Hm2 & Hc2 & Hw2); [done..|].
  assert (step host s1 (mkSystem g2 (probes s1))) as Hstep.
  { destruct s1 as [g3 os1]. apply (step_probe_timeout host p); [|done].
    apply (steps_probes _ _ p Hr1). apply elem_of_app. left.
    by rewrite list_elem_of_In, <- in_rev, <- list_elem_of_In. }
  exists g2. do 2 (split; [done|]). intros s3 Hr3. destruct (step_inv host _ _ Hstep Hsi1) as [Hsi2 _].
  destruct (watched_run (Name_ (p_node p)) (p_node p) (set_Timestamp 0 (p_node p)) _ _ Hr3 Hsi2)
    as (Hi3 & Hself3 & [Hw3|Hm3]); [|done| | |by left].
  - cbn. unfold self_name in *. by rewrite Hc2, (ev_conf _ _ He1).
  - cbn. by rewrite Hm2, lookup_insert_eq.
  - right. by apply watched_convicts.
Qed.
End detection.
