(* ===== verification/Pools.v ===== *)
(** * Threads that share a state

    A thread is a sequence of indivisible accesses to a shared state, each of which
    may have to wait until the state is ready for it (a mutex). A pool of threads
    runs them in any order; no order goes on for ever. *)
From Stdlib Require Import Inclusion Inverse_Image.
From stdpp Require Import relations.
From S2P Require Import Prelude.

(** A thread: done, or about to make an access, once the state is ready. *)
Inductive thread (S A : Type) : Type :=
  | Done (a : A)
  | Act {B : Type} (ready : S -> bool) (m : M S B) (k : B -> thread S A).
Arguments Done {S A} a.
Arguments Act {S A B} ready m k.

Fixpoint thread_bind {S A B} (f : A -> thread S B) (t : thread S A) : thread S B :=
  match t with
  | Done a => f a
  | Act ready m k => Act ready m (fun b => thread_bind f (k b))
  end.

#[global] Instance thread_ret {S} : MRet (thread S) := fun A a => Done a.
#[global] Instance thread_mbind {S} : MBind (thread S) := fun A B f t => thread_bind f t.

Definition await {S A} (ready : S -> bool) (m : M S A) : thread S A := Act ready m Done.
Definition atomically {S A} (m : M S A) : thread S A := await (fun _ => true) m.
Definition t_when {S} (b : bool) (t : thread S unit) : thread S unit := if b then t else mret tt.

(** A thread that nobody interrupts. *)
Fixpoint run_alone {S A} (t : thread S A) : M S A := fun s =>
  match t with
  | Done a => Ok (a, s)
  | Act ready m k =>
    if ready s then match m s with Ok (b, s') => run_alone (k b) s' | Crash f => Crash f end
    else Crash Deadlock
  end.

Record pool (S : Type) := mkPool { shared : S; running : list (thread S unit) }.
Arguments mkPool {S} shared running.
Arguments shared {S} _.
Arguments running {S} _.

Section pools.
Context {S : Type}.
Implicit Types (s : S) (p : pool S) (ts : list (thread S unit)).

Inductive pool_step : pool S -> pool S -> Prop :=
  | pool_act i s ts B ready (m : M S B) k b s' :
      ts !! i = Some (Act ready m k) -> ready s = true -> m s = Ok (b, s') ->
      pool_step (mkPool s ts) (mkPool s' (<[i := k b]> ts)).

(** Some thread's next access is a fault. *)
Definition pool_crashes p (f : fault) : Prop :=
  exists i B ready (m : M S B) k, running p !! i = Some (Act ready m k) /\
    ready (shared p) = true /\ m (shared p) = Crash f.

(** ** Every schedule ends *)

(** [t'] is what remains of [t] after its next access. *)
Definition later (t' t : thread S unit) : Prop :=
  match t with Done _ => False | Act _ m k => exists b, t' = k b end.

Definition later_one (ts' ts : list (thread S unit)) : Prop :=
  exists i t t', ts !! i = Some t /\ later t' t /\ ts' = <[i := t']> ts.

Lemma later_wf : well_founded later.
Proof. intros t. induction t as [a|B ready m k IH]; constructor; intros t' Ht; [done|]. by destruct Ht as [b ->]. Qed.

Lemma later_one_wf : well_founded later_one.
Proof.
  intros ts. induction ts as [|t ts IH]; [by constructor; intros ts' ([|i] & ? & ? & ? & _)|].
  revert t. induction IH as [ts _ IHts]. intros t.
  induction (later_wf t) as [t _ IHt]. constructor.
  intros ts' ([|i] & u & u' & Hi & Hl & ->); cbn in *.
  - injection Hi as <-. by apply IHt.
  - apply IHts. by exists i, u, u'.
Qed.

(** No pool runs for ever, whatever is shared and whoever goes next. *)
Lemma pool_ends p : sn pool_step p.
Proof.
  apply (Acc_incl _ _ (fun p1 p2 => later_one (running p1) (running p2))).
  - intros p1 p2 [i s ts B ready m k b s' Hi _ _]. exists i, (Act ready m k), (k b).
    by split_and!; [|exists b|].
  - apply Acc_inverse_image, later_one_wf.
Qed.

(** ** Uninterrupted threads *)

Lemma ret_bind {A B} (a : A) (f : A -> thread S B) : mret a ≫= f = f a.
Proof. done. Qed.

Lemma run_alone_bind {A B} (t : thread S A) (f : A -> thread S B) s :
  run_alone (t ≫= f) s =
    match run_alone t s with Ok (a, s') => run_alone (f a) s' | Crash e => Crash e end.
Proof.
  revert s. induction t as [a|C ready m k IH]; intros s; [done|].
  cbn. destruct (ready s); [|done]. destruct (m s) as [[b s']|]; [apply IH|done].
Qed.

Lemma run_atomically {A} (m : M S A) s : run_alone (atomically m) s = m s.
Proof. cbn. by destruct (m s) as [[]|]. Qed.

(** A thread that is not interrupted from now on is one of the schedules. *)
Lemma run_schedule (t : thread S unit) s s' i ts : run_alone t s = Ok (tt, s') -> ts !! i = Some t ->
  rtc pool_step (mkPool s ts) (mkPool s' (<[i := Done tt]> ts)).
Proof.
  revert s ts. induction t as [[]|B ready m k IH]; intros s ts E Hi.
  - injection E as <-. by rewrite list_insert_id.
  - cbn in E. destruct (ready s) eqn:Er; [|done]. destruct (m s) as [[b s1]|] eqn:E1; [|done].
    eapply rtc_l; [by eapply pool_act|].
    rewrite <- (list_insert_insert_eq ts i (Done tt) (k b)). apply (IH b); [done|].
    apply list_lookup_insert_eq. by eapply lookup_lt_Some.
Qed.

(** The first [n] accesses of a thread. *)
Fixpoint run_some {A} (n : nat) (t : thread S A) s : outcome (thread S A * S) :=
  match n, t with
  | Datatypes.S n, Act ready m k =>
    if ready s then match m s with Ok (b, s') => run_some n (k b) s' | Crash f => Crash f end
    else Crash Deadlock
  | _, _ => Ok (t, s)
  end.

Lemma some_schedule n t t' s s' i ts : run_some n t s = Ok (t', s') -> ts !! i = Some t ->
  rtc pool_step (mkPool s ts) (mkPool s' (<[i := t']> ts)).
Proof.
  revert t s ts. induction n as [|n IH]; intros t s ts E Hi; cbn in E.
  - injection E as <- <-. by rewrite list_insert_id.
  - destruct t as [a|B ready m k]; [injection E as <- <-; by rewrite list_insert_id|].
    destruct (ready s) eqn:Er; [|done].
    destruct (m s) as [[b s1]|] eqn:E1; [|done]. eapply rtc_l; [by eapply pool_act|].
    rewrite <- (list_insert_insert_eq ts i t' (k b)). eapply IH; [done|].
    apply list_lookup_insert_eq. by eapply lookup_lt_Some.
Qed.

Lemma run_some_act {A B} n (m : M S A) (f : A -> thread S B) s b s' : m s = Ok (b, s') ->
  run_some (Datatypes.S n) (atomically m ≫= f) s = run_some n (f b) s'.
Proof. intros E. cbn. by rewrite E. Qed.

(** A schedule as a list of turns: who goes next, for how many accesses. *)
Fixpoint take_turns (l : list (nat * nat)) p : outcome (pool S) :=
  match l with
  | [] => Ok p
  | (i, n) :: l =>
    match running p !! i with
    | None => Crash OutOfBounds
    | Some t =>
      match run_some n t (shared p) with
      | Ok (t', s) => take_turns l (mkPool s (<[i := t']> (running p)))
      | Crash f => Crash f
      end
    end
  end.

Lemma turns_schedule l p p' : take_turns l p = Ok p' -> rtc pool_step p p'.
Proof.
  revert p. induction l as [|[i n] l IH]; intros p; cbn; [by intros [= ->]|].
  destruct (running p !! i) as [t|] eqn:Hi; [|done].
  destruct (run_some n t (shared p)) as [[t' s]|] eqn:E; [|done]. intros Hl.
  etrans; [|by apply IH]. destruct p as [s0 ts]. by eapply some_schedule.
Qed.
End pools.
