(* ===== verification/Threads.v ===== *)
(** * src/gossiper.hpp with several threads

    [THREAD_NUM] threads run the handlers of one [io_service]. The mutexes and the
    atomics make each access to the shared members indivisible; between two of
    them another thread may run. Here a handler is a sequence of such accesses.
    The suspicions are objects: the table and the threads that work on one share it
    by its reference count, and confirm it under its own mutex. With one thread the
    handlers are those of Gossiper.v. *)
From stdpp Require Import relations.
From S2P Require Import Prelude Utils Node Broadcast Suspicion Messages Pools.
From S2P Require Gossiper.
From S2P Require Import Gossiper Membership Reports.
Local Open Scope Z_scope.

(** ** The shared state *)

(** A [suspicion] behind a [shared_ptr]: the object, the number of pointers to it,
    and whether its mutex [mtx_] is taken. *)
Record object := mkObject { value : suspicion; refs : nat; mtx_ : bool }.

(** [gos]: the gossiper's members but for [suspicions_] and [posted_], which are
    the table of pointers and the handlers that are ready to run, each with the
    object it was started for. Objects are numbered in the order of creation. *)
Record world := mkWorld {
  gos : gossiper;
  table : gmap string nat;
  heap : gmap nat object;
  created : nat;
  ready : list (nat * sus_ref)
}.

Definition set_gos (g : gossiper) (w : world) : world :=
  mkWorld g (table w) (heap w) (created w) (ready w).
Definition set_table (t : gmap string nat) (w : world) : world :=
  mkWorld (gos w) t (heap w) (created w) (ready w).
Definition set_heap (h : gmap nat object) (w : world) : world :=
  mkWorld (gos w) (table w) h (created w) (ready w).
Definition set_ready (l : list (nat * sus_ref)) (w : world) : world :=
  mkWorld (gos w) (table w) (heap w) (created w) l.

(** An access to the other members. *)
Definition on {A} (m : M gossiper A) : M world A := fun w =>
  match m (gos w) with Ok (a, g) => Ok (a, set_gos g w) | Crash f => Crash f end.

(** The read of one member. *)
Definition read {A} (member : gossiper -> A) : thread world A :=
  atomically (g ← on get; mret (member g)).

(** ** The pointers *)

(** What a pointer points to. *)
Definition deref_object (i : nat) : M world object := fun w =>
  match heap w !! i with Some o => Ok (o, w) | None => Crash LifetimeEnded end.

Definition set_object (i : nat) (o : object) : M world unit :=
  w ← get; modify (set_heap (<[i := o]> (heap w))).

Definition make_ready (l : list (nat * sus_ref)) : M world unit :=
  w ← get; modify (set_ready (ready w ++ l)).

(** One pointer less; the last one destroys the object, whose destructor cancels. *)
Definition release (i : nat) : M world unit :=
  o ← deref_object i;
  match refs o with
  | 0%nat | 1%nat =>
    w ← get;
    modify (set_heap (delete i (heap w))) ;;
    make_ready ((fun r => (i, r)) <$> suspicion_destroy (value o))
  | S n => set_object i (mkObject (value o) n (mtx_ o))
  end.

(** [getSuspicion], under [suspicion_lock_]: a pointer more, or null. *)
Definition getSuspicion (node_name : string) : M world (option nat) :=
  w ← get;
  match table w !! node_name with
  | None => mret None
  | Some i =>
    o ← deref_object i;
    set_object i (mkObject (value o) (S (refs o)) (mtx_ o)) ;;
    mret (Some i)
  end.

(** [suspicions_.erase(name)], under [suspicion_lock_]. *)
Definition eraseSuspicion (node_name : string) : M world unit :=
  w ← get;
  match table w !! node_name with
  | None => mret tt
  | Some i => modify (set_table (delete node_name (table w))) ;; release i
  end.

(** The end of [suspectNode], under [suspicion_lock_]: unless another thread was
    faster, a new object, to which the table and the local variable [sus] point. *)
Definition addSuspicion (node_name : string) (convict : sus_ref) : M world (option nat) :=
  w ← get;
  match table w !! node_name with
  | Some _ => mret None
  | None =>
    s ← lift (suspicion_new (node_num_ (gos w)) convict);
    let i := created w in
    modify (fun w => mkWorld (gos w) (<[node_name := i]> (table w))
      (<[i := mkObject s 2 false]> (heap w)) (S i) (ready w)) ;;
    mret (Some i)
  end.

(** [mtx_.lock()] waits until the mutex is free. *)
Definition mutex_free (i : nat) (w : world) : bool :=
  match heap w !! i with Some o => negb (mtx_ o) | None => true end.

Definition lock (i : nat) : M world unit :=
  o ← deref_object i; set_object i (mkObject (value o) (refs o) true).
Definition unlock (i : nat) : M world unit :=
  o ← deref_object i; set_object i (mkObject (value o) (refs o) false).

(** [Confirm], up to the call of [convict_]: the reference to convict by, if there
    are enough confirmations. *)
Definition confirm (i : nat) (from : string) : M world (option sus_ref) :=
  o ← deref_object i;
  let '(confirmed, s, handlers) := Confirm from (value o) in
  set_object i (mkObject s (refs o) (mtx_ o)) ;;
  make_ready ((fun r => (i, r)) <$> handlers) ;;
  mret (if (confirmed : bool) then Some (convict_ s) else None).

(** ** The handlers *)

Section handlers.
Context `{IterationOrder} `{!Residue}.

(** [bc_queue_.Push(state, node_num_.load())]. *)
Definition broadcast (s : node_state) : thread world unit :=
  n ← read node_num_; atomically (on (on_queue (Push s n))).

Definition fuckyou (dominant : Z) : thread world unit :=
  d ← atomically (on (nextDominant 1));
  d ← (if d <=? dominant then atomically (on (nextDominant (u64 (dominant - d + 1)))) else mret d);
  conf ← read conf_;
  broadcast (self_state conf d).

Definition aliveNode (a : node_state) (need_bc : bool) : thread world unit :=
  let alive_node_name := Name_ a in
  leaving ← read is_leaving_;
  conf ← read conf_;
  let self := bool_decide (alive_node_name = conf_Name conf) in
  if leaving && self then mret tt
  else
    known ← atomically (on (getNodeState alive_node_name));
    let state :=
      match known with
      | Some state => state
      | None => set_State STATE_DEAD (set_Dominant 0 (copy a))
      end in
    if Dominant_ a <=? Dominant_ state then mret tt
    else
      let need_notify := bool_decide (State_ state = STATE_DEAD) in
      t_when need_notify (atomically (on (addNodeState alive_node_name state))) ;;
      atomically (on (updateNodeState alive_node_name a)) ;;
      atomically (eraseSuspicion alive_node_name) ;;
      t_when need_bc (broadcast (copy a)) ;;
      t_when self (atomically (on (modify (set_dominant_ (Dominant_ a))))) ;;
      registered ← read notify_join_;
      t_when (need_notify && negb self && registered) (atomically (on (notify (Joined alive_node_name)))).

Definition deadNode (d : node_state) : thread world unit :=
  let dead_node_name := Name_ d in
  known ← atomically (on (getNodeState dead_node_name));
  match known with
  | None => mret tt
  | Some state =>
    if Dominant_ d <? Dominant_ state then mret tt
    else
      atomically (eraseSuspicion dead_node_name) ;;
      atomically (on sub_node_num) ;;
      if bool_decide (State_ state = STATE_DEAD) then mret tt
      else
        conf ← read conf_;
        leaving ← read is_leaving_;
        let self := bool_decide (dead_node_name = conf_Name conf) in
        if self && negb leaving then fuckyou (Dominant_ d)
        else
          atomically (on (updateNodeState dead_node_name d)) ;;
          atomically (on (removeNodeState dead_node_name)) ;;
          broadcast (copy d) ;;
          registered ← read notify_leave_;
          t_when (negb self && registered) (atomically (on (notify (Left dead_node_name))))
  end.

(** The conviction lambda. *)
Definition convict (r : sus_ref) : thread world unit :=
  d ← atomically (lift (deref_node r));
  deadNode (set_State STATE_DEAD d).

(** [sus->Confirm(s.From_)], and what the caller does with its answer. *)
Definition confirmSuspicion (i : nat) (s : node_state) : thread world unit :=
  await (mutex_free i) (lock i) ;;
  confirmed ← atomically (confirm i (From_ s));
  (match confirmed with Some r => convict r | None => mret tt end) ;;
  atomically (unlock i) ;;
  (match confirmed with Some _ => mret tt | None => broadcast (copy s) end) ;;
  atomically (release i).

Definition suspectNode (lives : bool) (s : node_state) : thread world unit :=
  let suspect_node_name := Name_ s in
  known ← atomically (on (getNodeState suspect_node_name));
  match known with
  | None => mret tt
  | Some state =>
    if Dominant_ s <? Dominant_ state then mret tt
    else
      sus ← atomically (getSuspicion suspect_node_name);
      match sus with
      | Some i => confirmSuspicion i s
      | None =>
        if bool_decide (State_ state <> STATE_ALIVE) then mret tt
        else
          conf ← read conf_;
          (if bool_decide (conf_Name conf = suspect_node_name)
           then fuckyou (Dominant_ s) else broadcast (copy s)) ;;
          atomically (on (updateNodeState suspect_node_name s)) ;;
          sus ← atomically (addSuspicion suspect_node_name (mkRef s lives));
          match sus with Some i => atomically (release i) | None => mret tt end
      end
  end.

(** The timer of an object is due: its handler is ready to run. *)
Definition timer_due (i : nat) : M world unit :=
  w ← get;
  match heap w !! i with
  | Some o =>
    if armed (value o) then
      set_object i (mkObject (cancel (value o)).1 (refs o) (mtx_ o)) ;;
      make_ready [(i, convict_ (value o))]
    else mret tt
  | None => mret tt
  end.

(** A thread takes the next handler that is ready. *)
Definition take_ready : M world (option (nat * sus_ref)) :=
  w ← get;
  match ready w with
  | [] => mret None
  | h :: rest => modify (set_ready rest) ;; mret (Some h)
  end.

(** The handler calls [convict_] of the object it was started for, which may be
    gone. *)
Definition call_convict (i : nat) (r : sus_ref) : M world sus_ref := fun w =>
  match heap w !! i with
  | Some o => Ok (convict_ (value o), w)
  | None => if stale_call then Ok (r, w) else Crash LifetimeEnded
  end.

Definition run_handler : thread world unit :=
  h ← atomically take_ready;
  match h with
  | None => mret tt
  | Some (i, r) => r ← atomically (call_convict i r); convict r
  end.

(** What a thread is given to do: merge a report, suspect the target of a probe
    that timed out, object to a dead alert, let a timer expire, run a handler. *)
Inductive job :=
  | Merge (need_bc : bool) (state : node_state)
  | Suspect (s : node_state)
  | Object (dominant : Z)
  | Expire (i : nat)
  | Handler.

Definition mergeReport (need_bc : bool) (state : node_state) : thread world unit :=
  match State_ state with
  | STATE_ALIVE => aliveNode state need_bc
  | STATE_SUSPECT => suspectNode false state
  | STATE_DEAD => deadNode state
  | STATE_other _ => mret tt
  end.

Definition do_job (j : job) : thread world unit :=
  match j with
  | Merge need_bc state => mergeReport need_bc state
  | Suspect s => suspectNode true s
  | Object dominant => fuckyou dominant
  | Expire i => atomically (timer_due i)
  | Handler => run_handler
  end.

Fixpoint do_jobs (l : list job) : thread world unit :=
  match l with [] => mret tt | j :: l => do_job j ;; do_jobs l end.
End handlers.
