(* ===== verification/Sharing.v ===== *)
(** * Who points to which suspicion

    The reference counts and the mutexes of the suspicion objects, accounted for
    by the table and by what each thread holds. Every operation on the objects
    keeps the accounts, so that a pointer a thread holds is never dangling and a
    mutex that is taken has an owner. *)
From S2P Require Import Prelude Utils Node Broadcast Suspicion Messages Pools.
From S2P Require Import Gossiper Membership Threads.
Local Open Scope nat_scope.

(** What a thread holds: nothing, or a pointer to an object, and perhaps its
    mutex. *)
Abbreviation holding := (option (nat * bool)).

Definition tabled (w : world) (i : nat) : Prop := map_Exists (fun _ j => j = i) (table w).
Definition users (i : nat) (hs : list holding) : nat := length (filter (fun h => fst <$> h = Some i) hs).
Definition owners (i : nat) (hs : list holding) : nat := length (filter (fun h => h = Some (i, true)) hs).
Definition pointers (w : world) (i : nat) (hs : list holding) : nat :=
  (if decide (tabled w i) then 1 else 0) + users i hs.

Record accounts (w : world) (hs : list holding) : Prop := {
  ac_refs : forall i o, heap w !! i = Some o -> refs o = pointers w i hs /\ 0 < refs o;
  ac_mutex : forall i o, heap w !! i = Some o -> Nat.b2n (mtx_ o) = owners i hs;
  ac_gone : forall i, heap w !! i = None -> pointers w i hs = 0;
  ac_created : forall i, is_Some (heap w !! i) -> i < created w;
  ac_once : forall k k' i, table w !! k = Some i -> table w !! k' = Some i -> k = k'
}.

Lemma users_cons i h hs : users i (h :: hs) = (if decide (fst <$> h = Some i) then 1 else 0) + users i hs.
Proof. unfold users. rewrite filter_cons. by case_decide. Qed.
Lemma owners_cons i h hs : owners i (h :: hs) = (if decide (h = Some (i, true)) then 1 else 0) + owners i hs.
Proof. unfold owners. rewrite filter_cons. by case_decide. Qed.

Lemma accounts_perm w hs hs' : hs ≡ₚ hs' -> accounts w hs -> accounts w hs'.
Proof.
  intros Hp [H1 H2 H3 H4 H5].
  assert (forall i, users i hs' = users i hs) as Hu by (intros i; unfold users; by rewrite Hp).
  assert (forall i, owners i hs' = owners i hs) as Ho by (intros i; unfold owners; by rewrite Hp).
  split; unfold pointers in *; intros; rewrite ?Hu, ?Ho; eauto.
Qed.

Lemma accounts_mem w hs i : accounts w hs -> 0 < pointers w i hs -> is_Some (heap w !! i).
Proof.
  intros Hw Hp. destruct (heap w !! i) as [o|] eqn:E; [by exists o|].
  pose proof (ac_gone _ _ Hw i E). lia.
Qed.

(** A thread's pointer is good. *)
Lemma holds_object w i b rest : accounts w (Some (i, b) :: rest) -> exists o, heap w !! i = Some o.
Proof.
  intros Hw. apply (accounts_mem w _ i Hw). unfold pointers. rewrite users_cons.
  rewrite (decide_True (P := fst <$> Some (i, b) = Some i)) by done. lia.
Qed.

Lemma tabled_iff w i : tabled w i <-> exists k, table w !! k = Some i.
Proof. unfold tabled, map_Exists. naive_solver. Qed.

(** ** Changes of one object, one table entry *)

Lemma accounts_same w w' hs : table w' = table w -> heap w' = heap w -> created w' = created w ->
  accounts w hs -> accounts w' hs.
Proof.
  intros Ht Hh Hc [H1 H2 H3 H4 H5].
  split; unfold pointers, tabled in *; rewrite ?Ht, ?Hh, ?Hc; done.
Qed.

Lemma accounts_None w hs : accounts w (None :: hs) <-> accounts w hs.
Proof. by split; intros []; split. Qed.

(** What a thread holds of [i]. *)
Definition uses (i : nat) (h : holding) : nat := if decide (fst <$> h = Some i) then 1 else 0.
Definition owns (i : nat) (h : holding) : nat := if decide (h = Some (i, true)) then 1 else 0.

Lemma pointers_cons w i h hs : pointers w i (h :: hs) = uses i h + pointers w i hs.
Proof. unfold pointers, uses. rewrite users_cons. lia. Qed.

Lemma accounts_update w h h' rest i o o' : accounts w (h :: rest) -> heap w !! i = Some o ->
  refs o' + uses i h = refs o + uses i h' -> 0 < refs o' ->
  Nat.b2n (mtx_ o') + owns i h = Nat.b2n (mtx_ o) + owns i h' ->
  (forall j, j <> i -> uses j h' = uses j h /\ owns j h' = owns j h) ->
  accounts (set_heap (<[i := o']> (heap w)) w) (h' :: rest).
Proof.
  intros Hw Ho Hr Hpos Hm Hj. pose proof Hw as [H1 H2 H3 H4 H5].
  assert (forall j, pointers (set_heap (<[i := o']> (heap w)) w) j = pointers w j) as Hp by done.
  split; intros j; rewrite ?Hp, ?pointers_cons, ?owners_cons; cbn [heap set_heap table created].
  - intros oj [[<- <-]|[Hne Hoj]]%lookup_insert_Some.
    + destruct (H1 i o Ho) as [E _]. rewrite pointers_cons in E. split; [lia|done].
    + destruct (H1 j oj Hoj) as [E ?]. rewrite pointers_cons in E. destruct (Hj j); [done|]. split; [lia|done].
  - fold (owns j h'). intros oj [[<- <-]|[Hne Hoj]]%lookup_insert_Some.
    + pose proof (H2 i o Ho) as E. rewrite owners_cons in E. fold (owns i h) in E. lia.
    + pose proof (H2 j oj Hoj) as E. rewrite owners_cons in E. fold (owns j h) in E.
      destruct (Hj j); [done|]. lia.
  - intros [Hnone Hne]%lookup_insert_None. pose proof (H3 j Hnone) as E. rewrite pointers_cons in E.
    destruct (Hj j); [done|]. lia.
  - intros [oj [[<- <-]|[_ Hoj]]%lookup_insert_Some]; apply H4; [by exists o|by exists oj].
  - apply H5.
Qed.

Lemma uses_other i j b : j <> i -> uses j (Some (i, b)) = 0.
Proof. intros Hne. unfold uses. rewrite decide_False; [done|]. cbn. congruence. Qed.
Lemma uses_self i b : uses i (Some (i, b)) = 1.
Proof. unfold uses. by rewrite decide_True. Qed.
Lemma owns_other i j b : j <> i -> owns j (Some (i, b)) = 0.
Proof. intros Hne. unfold owns. rewrite decide_False; [done|]. congruence. Qed.
Lemma uses_None i : uses i None = 0.
Proof. done. Qed.
Lemma owns_self i : owns i (Some (i, true)) = 1.
Proof. unfold owns. by rewrite decide_True. Qed.
Lemma owns_free i j : owns i (Some (j, false)) = 0.
Proof. unfold owns. by rewrite decide_False. Qed.

Lemma owns_None i : owns i None = 0.
Proof. done. Qed.

(** The sums of an update. *)
Ltac counted :=
  cbn [refs value mtx_]; intros;
  rewrite ?uses_self, ?uses_None, ?owns_free, ?owns_self, ?owns_None, ?uses_other, ?owns_other by done;
  cbn [Nat.b2n]; try split; try done; lia.

Lemma accounts_delete w k i hs : accounts w hs -> table w !! k = Some i ->
  accounts (set_table (delete k (table w)) w) (Some (i, false) :: hs).
Proof.
  intros [H1 H2 H3 H4 H5] Hk. set (w' := set_table _ w).
  assert (forall j, pointers w' j (Some (i, false) :: hs) = pointers w j hs) as Hp.
  { intros j. rewrite pointers_cons. unfold pointers. destruct (decide (j = i)) as [->|Hne].
    - rewrite uses_self, (decide_True (P := tabled w i)) by (apply tabled_iff; by exists k).
      rewrite decide_False; [lia|]. intros [k' Hk']%tabled_iff. cbn in Hk'.
      apply lookup_delete_Some in Hk' as [Hne Hk']. by destruct Hne; eapply H5.
    - rewrite uses_other by done. cbn. f_equal. apply decide_ext. rewrite !tabled_iff. cbn.
      split; intros [k' Hk']; exists k'; [by apply lookup_delete_Some in Hk' as [_ ?]|].
      apply lookup_delete_Some. split; [congruence|done]. }
  split; try done.
  - intros j o Hj. rewrite Hp. by apply H1.
  - intros j o Hj. rewrite owners_cons, (decide_False (P := Some (i, false) = _)) by done. by apply H2.
  - intros j Hj. rewrite Hp. by apply H3.
  - intros k1 k2 j. cbn. intros [_ ?]%lookup_delete_Some [_ ?]%lookup_delete_Some. by eapply H5.
Qed.

Lemma accounts_add w k s hs : accounts w hs -> table w !! k = None ->
  accounts (mkWorld (gos w) (<[k := created w]> (table w)) (<[created w := mkObject s 2 false]> (heap w))
    (S (created w)) (ready w)) (Some (created w, false) :: hs).
Proof.
  intros Hw Hk. pose proof Hw as [H1 H2 H3 H4 H5]. set (i := created w). set (w' := mkWorld _ _ _ _ _).
  assert (heap w !! i = None) as Hi.
  { destruct (heap w !! i) as [o|] eqn:E; [|done]. specialize (H4 i (ex_intro _ o E)). subst i. lia. }
  assert (pointers w' i (Some (i, false) :: hs) = 2) as Hpi.
  { rewrite pointers_cons, uses_self. unfold pointers.
    rewrite decide_True by (apply tabled_iff; exists k; apply lookup_insert_eq).
    pose proof (H3 i Hi) as E. unfold pointers in E. lia. }
  assert (forall j, j <> i -> pointers w' j (Some (i, false) :: hs) = pointers w j hs) as Hp.
  { intros j Hne. rewrite pointers_cons, uses_other, Nat.add_0_l by done. unfold pointers. f_equal.
    apply decide_ext. rewrite !tabled_iff. cbn. split; intros [k' Hk']; exists k'.
    - by apply lookup_insert_Some in Hk' as [[_ ?]|[_ ?]].
    - rewrite lookup_insert_ne; congruence. }
  split; cbn [heap table created w'].
  - intros j o [[<- <-]|[Hne Ho]]%lookup_insert_Some; [rewrite Hpi; cbn; lia|rewrite Hp by done; by apply H1].
  - intros j o. rewrite owners_cons, (decide_False (P := Some (i, false) = _)) by done.
    intros [[<- <-]|[Hne Ho]]%lookup_insert_Some; [|by apply H2]. cbn.
    unfold owners. pose proof (H3 i Hi) as E. unfold pointers, users in E.
    destruct (filter (fun h => h = Some (i, true)) hs) as [|h l] eqn:El; [done|].
    assert (h ∈ hs /\ h = Some (i, true)) as [Hin ->].
    { split; [|]; apply (list_elem_of_filter (fun h => h = Some (i, true)) hs h); rewrite El; by left. }
    assert (Some (i, true) ∈ filter (fun h : holding => fst <$> h = Some i) hs) as Hin'
      by (by apply list_elem_of_filter).
    destruct (filter (fun h : holding => fst <$> h = Some i) hs); [by apply not_elem_of_nil in Hin'|simpl in E; lia].
  - intros j [Ho Hne]%lookup_insert_None. rewrite Hp by done. by apply H3.
  - intros j [o [[<- _]|[_ Ho]]%lookup_insert_Some]; [lia|]. specialize (H4 j (ex_intro _ o Ho)). lia.
  - intros k1 k2 j [[<- <-]|[Hn1 Hk1]]%lookup_insert_Some [[<- E]|[Hn2 Hk2]]%lookup_insert_Some; try done.
    + specialize (H4 i). assert (0 < pointers w i hs) as Hpos.
      { unfold pointers. rewrite decide_True; [lia|]. apply tabled_iff. by exists k2. }
      pose proof (H3 i Hi). lia.
    + subst j. assert (0 < pointers w i hs) as Hpos.
      { unfold pointers. rewrite decide_True; [lia|]. apply tabled_iff. by exists k1. }
      pose proof (H3 i Hi). lia.
    + by eapply H5.
Qed.

(** ** The operations *)

(** The references to suspected states that may still be read. *)
Definition refers (w : world) (r : sus_ref) : Prop :=
  (exists i o, heap w !! i = Some o /\ convict_ (value o) = r) \/ r ∈ (ready w).*2.

(** An operation on the objects: from what it holds to what it holds then, leaving
    the other members and adding no references. *)
Record shares (h h' : holding) (w w' : world) : Prop := {
  sh_accounts : forall rest, accounts w (h :: rest) -> accounts w' (h' :: rest);
  sh_gos : gos w' = gos w;
  sh_refers : forall r, refers w' r -> refers w r
}.

Lemma shares_update i o o' h h' w : heap w !! i = Some o -> convict_ (value o') = convict_ (value o) ->
  refs o' + uses i h = refs o + uses i h' -> 0 < refs o' ->
  Nat.b2n (mtx_ o') + owns i h = Nat.b2n (mtx_ o) + owns i h' ->
  (forall j, j <> i -> uses j h' = uses j h /\ owns j h' = owns j h) ->
  shares h h' w (set_heap (<[i := o']> (heap w)) w).
Proof.
  intros Ho Hc Hr Hpos Hm Hj. split; [|done|].
  - intros rest Hw. by eapply accounts_update.
  - intros r [(j & oj & Hoj & <-)|Hr']; [|by right]. cbn in Hoj. left.
    apply lookup_insert_Some in Hoj as [[<- <-]|[_ Hoj]]; [exists i, o; by rewrite Hc|by exists j, oj].
Qed.

Lemma shares_ready h h' w w' l : shares h h' w w' -> (forall r, r ∈ l.*2 -> refers w r) ->
  shares h h' w (set_ready (ready w' ++ l) w').
Proof.
  intros [Ha Hg Hr] Hl. split; [|done|].
  - intros rest Hw. by eapply accounts_same, Ha.
  - intros r [Ho|Hin]; [by apply Hr; left|]. cbn in Hin. rewrite fmap_app, elem_of_app in Hin.
    destruct Hin as [Hin|Hin]; [apply Hr; by right|by apply Hl].
Qed.

Lemma destroyed_refers s r i : r ∈ ((fun r => (i, r) : nat * sus_ref) <$> suspicion_destroy s).*2 ->
  r = convict_ s.
Proof.
  unfold suspicion_destroy, cancel. destruct (armed s); cbn; [|by intros ?%not_elem_of_nil].
  by intros ->%list_elem_of_singleton.
Qed.

Lemma shares_delete i o w : heap w !! i = Some o -> refs o <= 1 ->
  shares (Some (i, false)) None w (set_heap (delete i (heap w)) w).
Proof.
  intros Ho Hr. split; [|done|].
  - intros rest Hw. apply accounts_None. pose proof Hw as [H1 H2 H3 H4 H5].
    assert (pointers w i rest = 0) as Hp.
    { destruct (H1 i o Ho) as [E _]. rewrite pointers_cons, uses_self in E. lia. }
    split; cbn [heap set_heap].
    + intros j oj [Hne Hj]%lookup_delete_Some. specialize (H1 j oj Hj).
      by rewrite pointers_cons, uses_other in H1.
    + intros j oj [Hne Hj]%lookup_delete_Some. specialize (H2 j oj Hj).
      by rewrite owners_cons, (decide_False (P := Some (i, false) = _)) in H2.
    + intros j Hj. destruct (decide (j = i)) as [->|Hne]; [done|]. rewrite lookup_delete_ne in Hj by done.
      specialize (H3 j Hj). by rewrite pointers_cons, uses_other in H3.
    + intros j [oj [_ Hj]%lookup_delete_Some]. apply H4. by exists oj.
    + apply H5.
  - intros r [(j & oj & Hj & <-)|Hin]; [left|by right]. cbn in Hj.
    apply lookup_delete_Some in Hj as [_ Hj]. by exists j, oj.
Qed.

(** The world once a pointer to the object [o] is gone. *)
Definition released (i : nat) (o : object) (w : world) : world :=
  if decide (refs o <= 1)
  then set_ready (ready w ++ ((fun r => (i, r)) <$> suspicion_destroy (value o)))
    (set_heap (delete i (heap w)) w)
  else set_heap (<[i := mkObject (value o) (refs o - 1) (mtx_ o)]> (heap w)) w.

Lemma release_run w i o : heap w !! i = Some o -> release i w = Ok (tt, released i o w).
Proof.
  intros Ho. unfold release, deref_object, released, set_object, make_ready. run. rewrite Ho.
  destruct (refs o) as [|[|n]] eqn:E; [done..|]. rewrite decide_False by lia. by rewrite Nat.sub_1_r.
Qed.

Lemma released_shares w i o : heap w !! i = Some o -> shares (Some (i, false)) None w (released i o w).
Proof.
  intros Ho. unfold released. case_decide as Hr.
  - apply (shares_ready _ _ w (set_heap (delete i (heap w)) w)); [by eapply shares_delete|].
    intros r ->%destroyed_refers. left. by exists i, o.
  - eapply shares_update; [done|done|counted..].
Qed.

(** What a thread holds that was given a pointer, or null. *)
Definition pointer (a : option nat) : holding :=
  match a with Some i => Some (i, false) | None => None end.

Lemma getSuspicion_shares w k rest : accounts w (None :: rest) ->
  exists a w', getSuspicion k w = Ok (a, w') /\ shares None (pointer a) w w'.
Proof.
  intros Hw. unfold getSuspicion, deref_object, set_object. run.
  destruct (table w !! k) as [i|] eqn:Hk; [|by exists None, w].
  assert (is_Some (heap w !! i)) as [o Ho].
  { apply (accounts_mem w rest); [by apply accounts_None|]. unfold pointers.
    rewrite decide_True; [lia|]. apply tabled_iff. by exists k. }
  rewrite Ho. exists (Some i). eexists. split; [done|]. cbn [pointer].
  eapply shares_update; [done|done|counted..].
Qed.

Lemma eraseSuspicion_shares w h k rest : accounts w (h :: rest) ->
  exists w', eraseSuspicion k w = Ok (tt, w') /\ shares h h w w'.
Proof.
  intros Hw. unfold eraseSuspicion. run. destruct (table w !! k) as [i|] eqn:Hk; [|by exists w].
  set (w1 := set_table _ w).
  assert (forall rest, accounts w (h :: rest) -> accounts w1 (Some (i, false) :: h :: rest)) as Hd
    by (intros; by apply accounts_delete).
  destruct (holds_object _ _ _ _ (Hd rest Hw)) as [o Ho]. rewrite (release_run w1 i o Ho).
  eexists. split; [done|]. destruct (released_shares w1 i o Ho) as [Ha Hg Hr]. split; [|done|done].
  intros rest' Hw'. by apply accounts_None, Ha, Hd.
Qed.

Lemma addSuspicion_shares w k r :
  wpx (fun f => f = BadFloatCast) (addSuspicion k r)
    (fun a w' => (forall rest, accounts w (None :: rest) -> accounts w' ((pointer a) :: rest)) /\
      gos w' = gos w /\ forall r', refers w' r' -> refers w r' \/ r' = r) w.
Proof.
  unfold wpx, addSuspicion. run. destruct (table w !! k) as [i|] eqn:Hk; [by split_and!; auto|].
  destruct (suspicion_new _ r) as [s|f] eqn:Es; [|by eapply suspicion_new_fault].
  split_and!; [|done|].
  - intros rest Hw. apply accounts_add; [by apply accounts_None|done].
  - intros r' [(j & o & Hj & <-)|Hin]; [cbn in Hj; apply lookup_insert_Some in Hj as [[<- <-]|[_ Ho]]|].
    + right. by eapply suspicion_new_ref.
    + left. left. by exists j, o.
    + left. by right.
Qed.

(** A mutex that is taken has an owner. *)
Lemma mutex_owned w i rest : accounts w (Some (i, false) :: rest) -> mutex_free i w = false ->
  Some (i, true) ∈ rest.
Proof.
  intros Hw. unfold mutex_free. destruct (heap w !! i) as [o|] eqn:Ho; [|done].
  destruct (mtx_ o) eqn:Em; [|done]. intros _. pose proof (ac_mutex _ _ Hw i o Ho) as E.
  rewrite Em, owners_cons, decide_False in E by done. unfold owners in E.
  destruct (filter (fun h => h = Some (i, true)) rest) as [|h l] eqn:El; [done|].
  assert (h ∈ filter (fun h : holding => h = Some (i, true)) rest) as [-> Hin]%list_elem_of_filter
    by (rewrite El; by left).
  done.
Qed.

Lemma lock_shares w i rest : accounts w (Some (i, false) :: rest) -> mutex_free i w = true ->
  exists w', lock i w = Ok (tt, w') /\ shares (Some (i, false)) (Some (i, true)) w w'.
Proof.
  intros Hw Hf. destruct (holds_object _ _ _ _ Hw) as [o Ho]. unfold mutex_free in Hf. rewrite Ho in Hf.
  apply negb_true_iff in Hf. unfold lock, deref_object, set_object. run. rewrite Ho.
  eexists. split; [done|]. pose proof (ac_refs _ _ Hw i o Ho) as [_ ?].
  eapply shares_update; [done|done|rewrite ?Hf; counted..].
Qed.

Lemma unlock_shares w i rest : accounts w (Some (i, true) :: rest) ->
  exists w', unlock i w = Ok (tt, w') /\ shares (Some (i, true)) (Some (i, false)) w w'.
Proof.
  intros Hw. destruct (holds_object _ _ _ _ Hw) as [o Ho]. unfold unlock, deref_object, set_object.
  run. rewrite Ho. eexists. split; [done|]. pose proof (ac_refs _ _ Hw i o Ho) as [_ ?].
  pose proof (ac_mutex _ _ Hw i o Ho) as Em.
  rewrite owners_cons, (decide_True (P := Some (i, true) = _)) in Em by done.
  destruct (mtx_ o) eqn:Eo; [|cbn in Em; lia].
  eapply shares_update; [done|done|rewrite ?Eo; counted..].
Qed.

Lemma handlers_refer (i : nat) (hs : list sus_ref) r : r ∈ ((fun r => (i, r)) <$> hs).*2 -> r ∈ hs.
Proof. by rewrite <- list_fmap_compose, list_fmap_id. Qed.

Lemma Confirm_ref from s : let '(_, s', handlers) := Confirm from s in
  convict_ s' = convict_ s /\ forall r, r ∈ handlers -> r = convict_ s.
Proof.
  unfold Confirm. set (s1 := if decide _ then s else _).
  assert (convict_ s1 = convict_ s) as E1 by (unfold s1; by case_decide).
  destruct (_ <=? _)%Z; [|split; [done|by intros r ?%not_elem_of_nil]].
  unfold cancel. destruct (armed s1); cbn; (split; [done|]); intros r Hr.
  - apply list_elem_of_singleton in Hr. congruence.
  - by apply not_elem_of_nil in Hr.
Qed.

Lemma confirm_shares w i b from rest : accounts w (Some (i, b) :: rest) ->
  exists a w', confirm i from w = Ok (a, w') /\ shares (Some (i, b)) (Some (i, b)) w w' /\
    forall r, a = Some r -> refers w r.
Proof.
  intros Hw. destruct (holds_object _ _ _ _ Hw) as [o Ho]. unfold confirm, deref_object, set_object, make_ready.
  run. rewrite Ho. pose proof (Confirm_ref from (value o)) as Hc.
  destruct (Confirm from (value o)) as [[confirmed s] handlers]. destruct Hc as [Hc Hh].
  assert (refers w (convict_ (value o))) as Hr by (left; by exists i, o).
  eexists _, _. split; [done|]. split.
  - apply (shares_ready _ _ w (set_heap (<[i := mkObject s (refs o) (mtx_ o)]> (heap w)) w)).
    + pose proof (ac_refs _ _ Hw i o Ho) as [_ ?]. eapply shares_update; [done|done|counted..].
    + intros r Hin. by rewrite (Hh r (handlers_refer _ _ _ Hin)).
  - intros r. destruct confirmed; [|done]. intros [= <-]. by rewrite Hc.
Qed.

Lemma timer_due_shares w h i rest : accounts w (h :: rest) ->
  exists w', timer_due i w = Ok (tt, w') /\ shares h h w w'.
Proof.
  intros Hw. unfold timer_due, set_object, make_ready. run.
  destruct (heap w !! i) as [o|] eqn:Ho; [|by exists w].
  destruct (armed (value o)) eqn:Ea; [|by exists w].
  eexists. split; [done|].
  apply (shares_ready _ _ w (set_heap (<[i := mkObject (cancel (value o)).1 (refs o) (mtx_ o)]> (heap w)) w)).
  - destruct (ac_refs _ _ Hw i o Ho). eapply shares_update; [done|cbn; unfold cancel; by destruct (armed _)|done..].
  - intros r ->%list_elem_of_singleton. left. by exists i, o.
Qed.

(** A reference that a thread takes to a conviction is one that may be read. *)
Lemma take_ready_shares w h : exists a w', take_ready w = Ok (a, w') /\ shares h h w w' /\
  forall i r, a = Some (i, r) -> refers w r.
Proof.
  unfold take_ready. run. destruct (ready w) as [|[i r] l] eqn:El; [by exists None, w|].
  eexists _, _. split; [done|]. split; [split|].
  - intros rest. by apply accounts_same.
  - done.
  - intros r' [Ho|Hin]; [by left|]. right. rewrite El. by right.
  - intros i' r' [= <- <-]. right. rewrite El. by left.
Qed.

Lemma call_convict_shares `{!Residue} w i r :
  wpx (fun f => f = LifetimeEnded /\ stale_call = false) (call_convict i r)
    (fun r' w' => w' = w /\ (refers w r' \/ r' = r)) w.
Proof.
  unfold wpx, call_convict. destruct (heap w !! i) as [o|] eqn:Ho.
  - split; [done|]. left. left. by exists i, o.
  - destruct stale_call; auto.
Qed.

(** ** Between the handlers *)

(** The gossiper that a world shows when no handler runs: its suspicions are what
    the table points to. *)
Definition view (w : world) : gossiper :=
  set_posted_ (ready w).*2
    (set_suspicions_ (omap (fun i => value <$> heap w !! i) (table w)) (gos w)).

Record at_rest (w : world) : Prop := {
  ar_accounts : accounts w [];
  ar_suspicions : suspicions_ (gos w) = ∅;
  ar_posted : posted_ (gos w) = []
}.

(** A gossiper that suspects nobody. *)
Definition trusting (g : gossiper) : world := mkWorld g ∅ ∅ 0 [].

Lemma trusting_at_rest g : suspicions_ g = ∅ -> posted_ g = [] -> at_rest (trusting g) /\ view (trusting g) = g.
Proof.
  intros Hs Hp. split.
  - split; [|done|done]. split; cbn.
    + by intros i o ?%lookup_empty_Some.
    + by intros i o ?%lookup_empty_Some.
    + intros i _. unfold pointers. rewrite decide_False; [done|]. intros [k Hk]%tabled_iff. by cbn in Hk; apply lookup_empty_Some in Hk.
    + intros i [o Ho]. by apply lookup_empty_Some in Ho.
    + by intros k k' i ?%lookup_empty_Some.
  - unfold view. cbn. rewrite omap_empty. destruct g. cbn in *. by subst.
Qed.

Lemma view_suspicion w k i o : table w !! k = Some i -> heap w !! i = Some o ->
  suspicions_ (view w) !! k = Some (value o).
Proof. intros Hk Ho. unfold view. members. by rewrite lookup_omap, Hk; cbn; rewrite Ho. Qed.

Lemma pointed w i : accounts w [] -> is_Some (heap w !! i) -> exists k, table w !! k = Some i.
Proof.
  intros Hw [o Ho]. destruct (ac_refs _ _ Hw i o Ho) as [E Hpos]. unfold pointers in E.
  apply tabled_iff. destruct (decide (tabled w i)); [done|]. cbn in E. lia.
Qed.
