(* ===== verification/ThreadSafety.v ===== *)
(** * Threads among others

    What a thread relies on and what it guarantees, whatever other threads do
    between its accesses: the table of nodes only grows, the pointers and mutexes
    are accounted for. So no thread faults for another's sake, none waits for ever,
    and what holds of the records that come in holds of all that are kept. *)
From stdpp Require Import relations.
From S2P Require Import Prelude Utils Node Broadcast Suspicion Messages Pools.
From S2P Require Import Gossiper Membership Reports Records Threads Sharing.
Local Open Scope Z_scope.

Section rely.
Context `{IterationOrder} `{!Residue} (P : node_state -> Prop) `{!RecordProperty P}.

(** ** What is shared *)

Record sound (g : gossiper) : Prop := {
  so_queue : queue_ok (bc_queue_ g);
  so_num : in_range 32 (node_num_ g);
  so_names : forall k n, node_map_ g !! k = Some n -> Name_ n = k;
  so_holds : holds P g
}.

(** The world is in order, given what each thread holds. *)
Record ok (w : world) (hs : list holding) : Prop := {
  ok_sound : sound (gos w);
  ok_accounts : accounts w hs;
  ok_refers : forall r, refers w r -> P (captured r)
}.

Definition has (k : string) (g : gossiper) : Prop := is_Some (node_map_ g !! k).
Definition grows (g g' : gossiper) : Prop := forall k, has k g -> has k g'.

#[global] Instance grows_preorder : PreOrder grows.
Proof. split; [by intros g k|intros g1 g2 g3 H12 H23 k Hk; by apply H23, H12]. Qed.

Lemma ok_perm w hs hs' : hs ≡ₚ hs' -> ok w hs -> ok w hs'.
Proof. intros Hp [? ? ?]. split; [done|by eapply accounts_perm|done]. Qed.

(** What may go wrong: the logarithm of no nodes, a call of what is gone, and the
    read of a captured state that is gone. *)
Definition allowed (f : fault) : Prop :=
  f = BadFloatCast \/ f = LifetimeEnded /\ (stale_call = false \/ exists n, stale_node n = None).

(** ** A thread among others

    [rg Q h t g]: a thread that holds [h] and is about to do [t], from the members
    [g] on, which others change in between: each access it makes keeps the world in
    order and the table growing; it waits for a mutex only while another thread
    has it and while it has none itself; it ends in [Q]. *)
Fixpoint rg {A} (Q : A -> holding -> gossiper -> Prop) (h : holding) (t : thread world A) (g : gossiper) : Prop :=
  match t with
  | Done a => forall w1 rest, ok w1 (h :: rest) -> grows g (gos w1) -> Q a h (gos w1)
  | Act ready m k => forall w1 rest, ok w1 (h :: rest) -> grows g (gos w1) ->
      (ready w1 = false -> exists i, h = Some (i, false) /\ Some (i, true) ∈ rest) /\
      (ready w1 = true -> wpx allowed m (fun b w2 => exists h', ok w2 (h' :: rest) /\
        grows (gos w1) (gos w2) /\ rg Q h' (k b) (gos w2)) w1)
  end.

Lemma rg_later {A} (Q : A -> holding -> gossiper -> Prop) h t g g' : grows g g' -> rg Q h t g -> rg Q h t g'.
Proof. intros Hg. destruct t; cbn; intros Ht w1 rest H1 H2; apply (Ht w1 rest); (done || by etrans). Qed.

Lemma rg_delay {A} (Q : A -> holding -> gossiper -> Prop) h t g :
  (forall w1 rest, ok w1 (h :: rest) -> grows g (gos w1) -> rg Q h t (gos w1)) -> rg Q h t g.
Proof. intros Ht. destruct t; intros w1 rest H1 H2; exact (Ht w1 rest H1 H2 w1 rest H1 ltac:(done)). Qed.

Lemma rg_bind {A B} (Q : A -> holding -> gossiper -> Prop) (R : B -> holding -> gossiper -> Prop) h t f g :
  rg Q h t g ->
  (forall a h1 w1 rest, ok w1 (h1 :: rest) -> grows g (gos w1) -> Q a h1 (gos w1) -> rg R h1 (f a) (gos w1)) ->
  rg R h (t ≫= f) g.
Proof.
  revert h g. induction t as [a|C ready m k IH]; intros h g Ht Hf.
  - apply rg_delay. intros w1 rest H1 H2. eapply Hf; [done..|]. by eapply Ht.
  - intros w1 rest H1 H2. destruct (Ht w1 rest H1 H2) as [Hwait Hgo]. split; [done|]. intros Er.
    eapply wpx_mono; [by apply Hgo|]. intros b w2 (h' & H3 & H4 & H5). exists h'. split_and!; [done..|].
    apply IH; [done|]. intros a h3 w3 rest3 ???. eapply Hf; try done. by etrans; [|etrans].
Qed.

(** What an access establishes once and for all, of its result and of the table;
    what the thread holds then. *)
Definition establishes {A} (R : A -> Prop) (keys : A -> list string) (a : A) (g : gossiper) : Prop :=
  R a /\ forall k, k ∈ keys a -> has k g.

Definition access {A} (R : A -> Prop) (keys : A -> list string) (next : A -> holding) (m : M world A)
    (w : world) (rest : list holding) : Prop :=
  wpx allowed m (fun a w' => ok w' (next a :: rest) /\ grows (gos w) (gos w') /\
    establishes R keys a (gos w')) w.

Lemma rg_await {A B} (R : A -> Prop) keys next (Q : B -> holding -> gossiper -> Prop) ready (m : M world A) f h g :
  (forall w1 rest, ok w1 (h :: rest) -> ready w1 = false -> exists i, h = Some (i, false) /\ Some (i, true) ∈ rest) ->
  (forall w1 rest, ok w1 (h :: rest) -> grows g (gos w1) -> ready w1 = true -> access R keys next m w1 rest) ->
  (forall a g1, grows g g1 -> establishes R keys a g1 -> rg Q (next a) (f a) g1) ->
  rg Q h (await ready m ≫= f) g.
Proof.
  intros Hwait Hm Hf w1 rest H1 H2. split; [by apply Hwait|]. intros Er.
  eapply wpx_mono; [by apply Hm|]. intros a w2 (H3 & H4 & Ha). exists (next a). split_and!; [done..|].
  apply Hf; [by etrans|done].
Qed.

Lemma rg_step {A B} (R : A -> Prop) keys next (Q : B -> holding -> gossiper -> Prop) (m : M world A) f h g :
  (forall w1 rest, ok w1 (h :: rest) -> grows g (gos w1) -> access R keys next m w1 rest) ->
  (forall a g1, grows g g1 -> establishes R keys a g1 -> rg Q (next a) (f a) g1) ->
  rg Q h (atomically m ≫= f) g.
Proof. intros Hm Hf. eapply rg_await; [done|intros; by apply Hm|done]. Qed.

(** A thread that ends as it began, holding [h]. *)
Definition ends {A} (h : holding) (a : A) (h' : holding) (g : gossiper) : Prop := h' = h.

Lemma rg_ret {A} (a : A) h g : rg (ends h) h (mret a) g.
Proof. done. Qed.

Lemma rg_end {A} (R : A -> Prop) keys h0 (m : M world A) h g :
  (forall w1 rest, ok w1 (h :: rest) -> grows g (gos w1) -> access R keys (fun _ => h0) m w1 rest) ->
  rg (ends h0) h (atomically m) g.
Proof.
  intros Hm w1 rest H1 H2. split; [done|]. intros _. eapply wpx_mono; [by apply Hm|].
  intros a w2 (H3 & H4 & _). by exists h0.
Qed.

Lemma rg_when b t h g : rg (ends h) h t g -> rg (ends h) h (t_when b t) g.
Proof. by destruct b. Qed.

Lemma rg_then {A} t (f : unit -> thread world A) Q h g : rg (ends h) h t g ->
  (forall g1, grows g g1 -> rg Q h (f tt) g1) -> rg Q h (t ≫= f) g.
Proof. intros Ht Hf. eapply rg_bind; [done|]. intros [] h1 w1 rest _ Hg ->. by apply Hf. Qed.

(** ** Accesses to the members *)

(** An access to the members keeps them sound. *)
Definition member_access {A} (R : A -> Prop) (keys : A -> list string) (m : M gossiper A) (g : gossiper) : Prop :=
  wp m (fun a g' => sound g' /\ grows g g' /\ establishes R keys a g') g.

Lemma access_on {A} (R : A -> Prop) keys (m : M gossiper A) w h rest : ok w (h :: rest) ->
  member_access R keys m (gos w) -> access R keys (fun _ => h) (on m) w rest.
Proof.
  intros [_ Ha Hr] Hm. unfold access, wpx, on. destruct (wp_ok _ _ _ Hm) as (a & g' & -> & Hg' & Hgr & He).
  split_and!; [split; [done|by apply (accounts_same w)|done]|done..].
Qed.

Lemma member_ok {A} (R : A -> Prop) keys (m : M gossiper A) g a g' : sound g ->
  m g = Ok (a, g') -> keeps (holds P) R m ->
  queue_ok (bc_queue_ g') -> in_range 32 (node_num_ g') ->
  (forall k n, node_map_ g' !! k = Some n -> Name_ n = k) -> grows g g' ->
  (forall k, k ∈ keys a -> has k g') -> member_access R keys m g.
Proof.
  intros Hg E Hm Hq Hn Hname Hgr Hk.
  pose proof (Hm g (so_holds _ Hg)) as Hm'. unfold wpx in Hm'. rewrite E in Hm'. destruct Hm'.
  unfold member_access, wpx. rewrite E. by split_and!.
Qed.

(** The same, when the table stays as it is. *)
Lemma member_same {A} (R : A -> Prop) (m : M gossiper A) g a g' : sound g ->
  m g = Ok (a, g') -> keeps (holds P) R m -> node_map_ g' = node_map_ g ->
  queue_ok (bc_queue_ g') -> in_range 32 (node_num_ g') -> member_access R (fun _ => []) m g.
Proof.
  intros Hg E Hm Ht Hq Hn. eapply member_ok; try done.
  - rewrite Ht. apply Hg.
  - intros k. unfold has. by rewrite Ht.
  - by intros k ?%not_elem_of_nil.
Qed.

Lemma names_insert k n m : Name_ n = k -> (forall k n, m !! k = Some n -> Name_ n = k) ->
  forall k' n', <[k := n]> (m : gmap string node_state) !! k' = Some n' -> Name_ n' = k'.
Proof. intros Hn Hm k' n' [[<- <-]|[_ Hk]]%lookup_insert_Some; [done|by apply Hm]. Qed.

Lemma has_insert k n m k' : is_Some (m !! k') -> is_Some (<[k := n]> (m : gmap string node_state) !! k').
Proof. intros ?. apply lookup_insert_is_Some. destruct (decide (k = k')); auto. Qed.

Lemma member_read {A} (member : gossiper -> A) (R : A -> Prop) g : sound g -> (sound g -> R (member g)) ->
  member_access R (fun _ => []) (g ← get; mret (member g)) g.
Proof.
  intros Hg HR. split; [done|split; [done|]]. split; [by apply HR|by intros k ?%not_elem_of_nil].
Qed.

Lemma member_getNodeState k g : sound g ->
  member_access (opt (fun n => P n /\ Name_ n = k))
    (fun o => match o with Some _ => [k] | None => [] end) (getNodeState k) g.
Proof.
  intros Hg. split; [done|split; [done|]]. destruct (node_map_ g !! k) as [n|] eqn:E; split.
  - split; [by apply (rh_table _ _ (so_holds _ Hg)) in E|by apply (so_names _ Hg)].
  - intros k' ->%list_elem_of_singleton. by exists n.
  - done.
  - by intros k' ?%not_elem_of_nil.
Qed.

Lemma member_addNodeState k s g : sound g -> P s -> Name_ s = k ->
  member_access any (fun _ => [k]) (addNodeState k s) g.
Proof.
  intros Hg Hs Hk. eapply member_ok; [done|apply addNodeState_run|by apply addNodeState_holds|..].
  - apply Hg.
  - apply wrap_range. lia.
  - apply names_insert; [done|apply Hg].
  - intros k'. apply has_insert.
  - intros k' ->%list_elem_of_singleton. unfold has. members. by rewrite lookup_insert_eq.
Qed.

Lemma member_updateNodeState k s g : sound g -> has k g -> P s -> Name_ s = k ->
  member_access any (fun _ => []) (updateNodeState k s) g.
Proof.
  intros Hg [n Hn] Hs Hk.
  eapply member_ok; [done|by eapply updateNodeState_run|by apply updateNodeState_holds|apply Hg..| | |].
  - apply names_insert; [done|apply Hg].
  - intros k'. apply has_insert.
  - by intros k' ?%not_elem_of_nil.
Qed.

Lemma member_push s n g : sound g -> P s -> in_range 32 n ->
  member_access any (fun _ => []) (on_queue (Push s n)) g.
Proof.
  intros Hg Hs Hn. destruct (so_queue _ Hg) as [Hq [Hp0 Hpc]].
  destruct (Push_spec s n _ Hq Hn) as (q & E & Hwf & Hc & Hp & Hd & _).
  eapply (member_same _ _ _ tt (set_bc_queue_ q g)); [done| |by apply on_queue_holds, Push_holds|done| |apply Hg].
  - unfold on_queue. by rewrite E.
  - split; [done|split; members; congruence].
Qed.

Lemma member_nextDominant shift g : sound g -> member_access (in_range 64) (fun _ => []) (nextDominant shift) g.
Proof. intros Hg. eapply member_same; [done|reflexivity|apply nextDominant_holds|done|apply Hg..]. Qed.

Lemma member_sub g : sound g -> member_access any (fun _ => []) sub_node_num g.
Proof.
  intros Hg. eapply member_same; [done|reflexivity|apply sub_node_num_holds|done|apply Hg|].
  apply wrap_range. lia.
Qed.

Lemma member_dominant d g : sound g -> in_range 64 d ->
  member_access any (fun _ => []) (modify (set_dominant_ d)) g.
Proof. intros Hg Hd. eapply member_same; [done|reflexivity|by apply keep_dominant|done|apply Hg..]. Qed.

Lemma member_notify e g : sound g -> member_access any (fun _ => []) (notify e) g.
Proof. intros Hg. eapply member_same; [done|reflexivity|apply notify_holds|done|apply Hg..]. Qed.

Lemma member_removeNodeState k g : sound g -> member_access any (fun _ => []) (removeNodeState k) g.
Proof.
  intros Hg. destruct (find_index k (nodes_ g)) as [i|] eqn:E.
  - eapply member_same; [done|unfold removeNodeState; run; rewrite E; reflexivity|
      apply removeNodeState_holds|done|apply Hg|apply wrap_range; lia].
  - eapply member_same; [done|unfold removeNodeState; run; rewrite E; reflexivity|
      apply removeNodeState_holds|done|apply Hg..].
Qed.

Lemma rg_on {A B} (R : A -> Prop) keys (Q : B -> holding -> gossiper -> Prop) (m : M gossiper A) f h g :
  (forall g1, sound g1 -> grows g g1 -> member_access R keys m g1) ->
  (forall a g1, grows g g1 -> establishes R keys a g1 -> rg Q h (f a) g1) ->
  rg Q h (atomically (on m) ≫= f) g.
Proof.
  intros Hm Hf. eapply (rg_step R keys (fun _ => h)); [|done]. intros w1 rest H1 H2.
  apply access_on; [done|]. apply Hm; [apply (ok_sound _ _ H1)|done].
Qed.

Lemma rg_on_end {A} (R : A -> Prop) keys (m : M gossiper A) h g :
  (forall g1, sound g1 -> grows g g1 -> member_access R keys m g1) -> rg (ends h) h (atomically (on m)) g.
Proof.
  intros Hm. eapply (rg_end R keys). intros w1 rest H1 H2.
  apply access_on; [done|]. apply Hm; [apply (ok_sound _ _ H1)|done].
Qed.

Lemma rg_read {A B} (R : A -> Prop) (member : gossiper -> A) (Q : B -> holding -> gossiper -> Prop) f h g :
  (forall g, sound g -> R (member g)) -> (forall a g1, grows g g1 -> R a -> rg Q h (f a) g1) ->
  rg Q h (read member ≫= f) g.
Proof.
  intros HR Hf. eapply (rg_step R (fun _ => []) (fun _ => h)).
  - intros w1 rest H1 H2. pose proof (member_read member R _ (ok_sound _ _ H1) (HR _)) as Hm.
    exact (access_on R (fun _ => []) _ w1 h rest H1 Hm).
  - intros a g1 Hg [Ha _]. by apply Hf.
Qed.

(** ** Accesses to the suspicions *)

Lemma access_shares {A} (R : A -> Prop) next (m : M world A) w h rest a w' : ok w (h :: rest) ->
  m w = Ok (a, w') -> shares h (next a) w w' -> R a -> access R (fun _ => []) next m w rest.
Proof.
  intros [Hs Ha Hr] E [Sa Sg Sr] HR. unfold access, wpx. rewrite E, Sg.
  split_and!; [split; [by rewrite Sg|by apply Sa|intros r Hin; by apply Hr, Sr]|done|].
  split; [done|]. by intros k ?%not_elem_of_nil.
Qed.

Lemma rg_erase {B} (Q : B -> holding -> gossiper -> Prop) k f h g :
  (forall g1, grows g g1 -> rg Q h (f tt) g1) -> rg Q h (atomically (eraseSuspicion k) ≫= f) g.
Proof.
  intros Hf. eapply (rg_step any (fun _ => []) (fun _ => h)); [|by intros [] g1 ? _; apply Hf].
  intros w1 rest H1 _. destruct (eraseSuspicion_shares w1 h k rest (ok_accounts _ _ H1)) as (w' & E & Hs).
  by eapply access_shares.
Qed.

Lemma rg_release i h g : h = Some (i, false) -> rg (ends None) h (atomically (release i)) g.
Proof.
  intros ->. eapply (rg_end any (fun _ => [])). intros w1 rest H1 _.
  destruct (holds_object _ _ _ _ (ok_accounts _ _ H1)) as [o Ho].
  eapply access_shares; [done|by apply release_run|by apply released_shares|done].
Qed.

(** What is known of the references a thread takes. *)
Definition refer (o : option sus_ref) : Prop := opt (fun r => P (captured r)) o.

(** ** The handlers among others *)

Lemma broadcast_rg s h g : P s -> rg (ends h) h (broadcast s) g.
Proof.
  intros Hs. eapply (rg_read (in_range 32)); [apply so_num|]. intros n g1 _ Hn.
  eapply rg_on_end. intros. by apply member_push.
Qed.

Lemma fuckyou_rg dominant h g : rg (ends h) h (fuckyou dominant) g.
Proof.
  eapply rg_on; [intros; by apply member_nextDominant|]. intros d g1 _ [Hd _].
  assert (forall (d' : Z) g2, in_range 64 d' ->
    rg (ends h) h (conf ← read conf_; broadcast (self_state conf d')) g2) as Hrest.
  { intros d' g2 Hd'. eapply (rg_read (fun conf => P (self_state conf d'))).
    - intros g3 H3. by apply (rh_self _ _ (so_holds _ H3)).
    - intros conf g3 _ Hc. by apply broadcast_rg. }
  destruct (d <=? dominant); [|by apply Hrest].
  eapply rg_on; [intros; by apply member_nextDominant|]. intros d' g2 _ [Hd' _]. by apply Hrest.
Qed.

Lemma aliveNode_rg a need_bc h g : P a -> rg (ends h) h (aliveNode a need_bc) g.
Proof.
  intros Ha. unfold aliveNode. eapply (rg_read any); [done|]. intros leaving g1 _ _.
  eapply (rg_read any); [done|]. intros conf g2 _ _. cbv zeta.
  destruct (leaving && _); [apply rg_ret|].
  eapply rg_on; [intros; by apply member_getNodeState|]. intros known g3 _ [Hknown Hkeys].
  set (state := match known with Some state => state | None => _ end).
  assert (P state /\ Name_ state = Name_ a) as [Hs Hn].
  { unfold state. destruct known as [n|]; [done|]. rewrite copy_eq.
    split; [by apply rp_dead, rp_dominant|done]. }
  destruct (_ <=? _); [apply rg_ret|].
  eapply (rg_bind (fun _ h' g => h' = h /\ has (Name_ a) g)).
  { destruct (bool_decide (State_ state = STATE_DEAD)) eqn:Ed; cbn [t_when].
    - intros w1 rest H1 H2. split; [done|]. intros _.
      eapply wpx_mono; [apply access_on; [done|]; by apply member_addNodeState; [apply (ok_sound _ _ H1)|..]|].
      intros [] w2 (H3 & H4 & _ & Hk). exists h. split_and!; [done..|]. intros w3 rest3 _ H5.
      split; [done|]. apply H5, Hk. by left.
    - intros w1 rest _ H2. split; [done|]. apply H2. destruct known as [n|]; [apply Hkeys; by left|].
      by apply bool_decide_eq_false in Ed. }
  intros [] h1 w4 rest4 _ _ [-> Hk]. set (g4 := gos w4) in *. clearbody g4.
  eapply rg_on; [intros g5 H5 H6; apply member_updateNodeState; [done|by apply H6|done|done]|].
  intros [] g5 _ _. apply rg_erase. intros g6 _.
  eapply rg_then; [apply rg_when, broadcast_rg; by rewrite copy_eq|]. intros g7 _.
  eapply rg_then; [apply rg_when; eapply rg_on_end; intros; apply member_dominant; [done|by apply rp_range]|].
  intros g8 _. eapply (rg_read any); [done|]. intros registered g9 _ _.
  eapply rg_when, rg_on_end. intros. by apply member_notify.
Qed.

Lemma deadNode_rg d h g : P d -> rg (ends h) h (deadNode d) g.
Proof.
  intros Hd. unfold deadNode. eapply rg_on; [intros; by apply member_getNodeState|].
  intros known g1 _ [Hknown Hkeys]. destruct known as [state|]; [|apply rg_ret].
  destruct (_ <? _); [apply rg_ret|]. apply rg_erase. intros g2 Hg2.
  eapply rg_on; [intros; by apply member_sub|]. intros [] g3 Hg3 _.
  destruct (bool_decide _); [apply rg_ret|].
  eapply (rg_read any); [done|]. intros conf g4 Hg4 _.
  eapply (rg_read any); [done|]. intros leaving g5 Hg5 _. cbv zeta.
  destruct (_ && _); [apply fuckyou_rg|].
  eapply rg_on; [intros g6 H6 Hg6; apply member_updateNodeState; [done| |done|done]|].
  { apply Hg6, Hg5, Hg4, Hg3, Hg2, Hkeys. by left. }
  intros [] g6 _ _. eapply rg_on; [intros; by apply member_removeNodeState|]. intros [] g7 _ _.
  eapply rg_then; [apply broadcast_rg; by rewrite copy_eq|]. intros g8 _.
  eapply (rg_read any); [done|]. intros registered g9 _ _.
  eapply rg_when, rg_on_end. intros. by apply member_notify.
Qed.

Lemma convict_rg r h g : P (captured r) -> rg (ends h) h (convict r) g.
Proof.
  intros Hr. eapply (rg_step P (fun _ => []) (fun _ => h)).
  - intros w1 rest H1 _. unfold access, wpx, lift. destruct (deref_node r) as [d|f] eqn:E.
    + split_and!; [done|done|split; [|by intros k ?%not_elem_of_nil]]. by eapply deref_node_holds.
    + apply deref_stale_fault in E as [-> ?]. by right; split; [|right].
  - intros d g1 _ [Hd _]. by apply deadNode_rg, rp_dead.
Qed.

Lemma confirmSuspicion_rg i s g : P s -> rg (ends None) (Some (i, false)) (confirmSuspicion i s) g.
Proof.
  intros Hs. unfold confirmSuspicion.
  eapply (rg_await any (fun _ => []) (fun _ => Some (i, true))).
  { intros w1 rest H1 Hb. exists i. split; [done|]. eapply mutex_owned; [apply H1|done]. }
  { intros w1 rest H1 _ Hf. destruct (lock_shares w1 i rest (ok_accounts _ _ H1) Hf) as (w' & E & Hsh).
    by eapply access_shares. }
  intros [] g1 _ _. eapply (rg_step refer (fun _ => []) (fun _ => Some (i, true))).
  { intros w1 rest H1 _.
    destruct (confirm_shares w1 i true (From_ s) rest (ok_accounts _ _ H1)) as (a & w' & E & Hsh & Hr).
    eapply access_shares; [done..|]. destruct a as [r|]; [|done]. by apply (ok_refers _ _ H1), Hr. }
  intros confirmed g2 _ [Hc _].
  eapply (rg_then (match confirmed with Some r => convict r | None => mret tt end)).
  { destruct confirmed as [r|]; [by apply convict_rg|apply rg_ret]. }
  intros g3 _. eapply (rg_step any (fun _ => []) (fun _ => Some (i, false))).
  { intros w1 rest H1 _. destruct (unlock_shares w1 i rest (ok_accounts _ _ H1)) as (w' & E & Hsh).
    by eapply access_shares. }
  intros [] g4 _ _.
  eapply (rg_then (match confirmed with Some _ => mret tt | None => broadcast (copy s) end)).
  { destruct confirmed; [apply rg_ret|apply broadcast_rg; by rewrite copy_eq]. }
  intros g5 _. by apply (rg_release i).
Qed.

Lemma suspectNode_rg lives s g : P s -> rg (ends None) None (suspectNode lives s) g.
Proof.
  intros Hs. unfold suspectNode. eapply rg_on; [intros; by apply member_getNodeState|].
  intros known g1 _ [Hknown Hkeys]. destruct known as [state|]; [|apply rg_ret].
  destruct (_ <? _); [apply rg_ret|].
  eapply (rg_step any (fun _ => []) pointer).
  { intros w1 rest H1 _. destruct (getSuspicion_shares w1 (Name_ s) rest (ok_accounts _ _ H1)) as (a & w' & E & Hsh).
    by eapply access_shares. }
  intros [i|] g2 Hg2 _; [by apply confirmSuspicion_rg|].
  destruct (bool_decide _); [apply rg_ret|].
  eapply (rg_read any); [done|]. intros conf g3 Hg3 _.
  eapply (rg_then (if bool_decide _ then _ else _)).
  { destruct (bool_decide _); [apply fuckyou_rg|apply broadcast_rg; by rewrite copy_eq]. }
  intros g4 Hg4. eapply rg_on; [intros g5 H5 Hg5; apply member_updateNodeState; [done| |done|done]|].
  { apply Hg5, Hg4, Hg3, Hg2, Hkeys. by left. }
  intros [] g5 _ _. eapply (rg_step any (fun _ => []) pointer).
  { intros w1 rest [H1 H2 H3] _. pose proof (addSuspicion_shares w1 (Name_ s) (mkRef s lives)) as Ha.
    unfold access, wpx in *. destruct (addSuspicion _ _ w1) as [[a w']|f]; [|by left].
    destruct Ha as (Ha & Hg & Hr). rewrite Hg.
    split_and!; [split; [by rewrite Hg|by apply Ha|]|done|split; [done|by intros k ?%not_elem_of_nil]].
    intros r [Hin | ->]%Hr; [by apply H3|done]. }
  intros [i|] g6 _ _; [by apply (rg_release i)|apply rg_ret].
Qed.

Lemma run_handler_rg g : rg (ends None) None run_handler g.
Proof.
  unfold run_handler. set (known := fun a : option (nat * sus_ref) => refer (snd <$> a)).
  eapply (rg_step known (fun _ => []) (fun _ => None)).
  { intros w1 rest H1 _. destruct (take_ready_shares w1 None) as (a & w' & E & Hsh & Hr).
    eapply access_shares; [done..|]. destruct a as [[i r]|]; [|done]. by eapply (ok_refers _ _ H1), Hr. }
  intros [[i r]|] g1 _ [Hr _]; [|apply rg_ret].
  eapply (rg_step (fun r => P (captured r)) (fun _ => []) (fun _ => None)); [|intros r' g2 _ [Hr' _]; by apply convict_rg].
  intros w1 rest H1 _. eapply wpx_mono; [eapply wpx_weaken; [|apply call_convict_shares]|].
  - intros f [-> ?]. by right; split; [|left].
  - intros r' w' [-> Hin]. split_and!; [done|done|split; [|by intros k ?%not_elem_of_nil]].
    destruct Hin as [Hin | ->]; [by apply (ok_refers _ _ H1)|done].
Qed.

(** The states that a job brings in. *)
Definition brings (j : job) (Q : node_state -> Prop) : Prop :=
  match j with Merge _ s | Suspect s => Q s | Object _ | Expire _ | Handler => True end.

Lemma do_job_rg j g : brings j P -> rg (ends None) None (do_job j) g.
Proof.
  destruct j as [need_bc s|s|d|i|]; cbn; intros Hs.
  - unfold mergeReport. destruct (State_ s);
      [by apply aliveNode_rg|by apply suspectNode_rg|by apply deadNode_rg|apply rg_ret].
  - by apply suspectNode_rg.
  - apply fuckyou_rg.
  - eapply (rg_end any (fun _ => [])). intros w1 rest H1 _.
    destruct (timer_due_shares w1 None i rest (ok_accounts _ _ H1)) as (w' & E & Hsh). by eapply access_shares.
  - apply run_handler_rg.
Qed.

Lemma do_jobs_rg l g : Forall (fun j => brings j P) l -> rg (ends None) None (do_jobs l) g.
Proof.
  intros Hl. revert g. induction Hl as [|j l Hj _ IH]; intros g; [apply rg_ret|].
  eapply rg_then; [by apply do_job_rg|done].
Qed.

(** ** A pool of such threads *)

(** The world is in order, given what each of the threads holds. *)
Definition pool_ok (p : pool world) : Prop := exists hs,
  ok (shared p) hs /\
  Forall2 (fun t h => rg (ends None) h t (gos (shared p))) (running p) hs.

Lemma holdings_perm i h (hs : list holding) : hs !! i = Some h -> exists rest, hs ≡ₚ h :: rest /\
  forall h', <[i := h']> hs ≡ₚ h' :: rest.
Proof.
  intros Hi. exists (take i hs ++ drop (S i) hs). split.
  - rewrite <- (take_drop_middle hs i h Hi) at 1. by rewrite Permutation_middle.
  - intros h'. rewrite insert_take_drop by (by eapply lookup_lt_Some). by rewrite Permutation_middle.
Qed.

Lemma pool_thread p i t hs : ok (shared p) hs ->
  Forall2 (fun t h => rg (ends None) h t (gos (shared p))) (running p) hs -> running p !! i = Some t ->
  exists h rest, hs !! i = Some h /\ ok (shared p) (h :: rest) /\ (forall h', <[i := h']> hs ≡ₚ h' :: rest) /\
    hs ≡ₚ h :: rest /\ rg (ends None) h t (gos (shared p)).
Proof.
  intros Hw Hts Hi. destruct (Forall2_lookup_l _ _ _ _ _ Hts Hi) as (h & Hh & Hrg).
  destruct (holdings_perm i h hs Hh) as (rest & Hp & Hins). exists h, rest.
  split_and!; [done|by eapply ok_perm|done..].
Qed.

Lemma pool_step_ok p p' : pool_step p p' -> pool_ok p -> pool_ok p' /\ grows (gos (shared p)) (gos (shared p')).
Proof.
  intros [i w ts B ready m k b w' Hi Er E] (hs & Hw & Hts).
  destruct (pool_thread _ _ _ _ Hw Hts Hi) as (h & rest & Hh & Hok & Hins & _ & Hrg). cbn in *.
  destruct (Hrg w rest Hok ltac:(done)) as [_ Hgo]. specialize (Hgo Er). unfold wpx in Hgo. rewrite E in Hgo.
  destruct Hgo as (h' & Hok' & Hgr & Hk). split; [|done]. exists (<[i := h']> hs). split.
  - eapply ok_perm; [symmetry; apply Hins|done].
  - cbn. apply Forall2_insert; [|done]. eapply Forall2_impl; [exact Hts|]. intros t h0 Ht. by eapply rg_later.
Qed.

Lemma pool_steps_ok p p' : rtc pool_step p p' -> pool_ok p -> pool_ok p' /\ grows (gos (shared p)) (gos (shared p')).
Proof.
  induction 1 as [|p1 p2 p3 H12 _ IH]; intros Hp; [done|].
  destruct (pool_step_ok _ _ H12 Hp) as [Hp2 Hg2]. destruct (IH Hp2). split; [done|by etrans].
Qed.

Lemma pool_faults p f : pool_ok p -> pool_crashes p f -> allowed f.
Proof.
  intros (hs & Hw & Hts) (i & B & ready & m & k & Hi & Er & E).
  destruct (pool_thread _ _ _ _ Hw Hts Hi) as (h & rest & Hh & Hok & _ & _ & Hrg).
  destruct (Hrg _ rest Hok ltac:(done)) as [_ Hgo]. specialize (Hgo Er). unfold wpx in Hgo. by rewrite E in Hgo.
Qed.

(** A thread that has a mutex is not done and need not wait. *)
Lemma owner_goes p hs i : ok (shared p) hs ->
  Forall2 (fun t h => rg (ends None) h t (gos (shared p))) (running p) hs -> Some (i, true) ∈ hs ->
  exists j B ready (m : M world B) k, running p !! j = Some (Act ready m k) /\ ready (shared p) = true.
Proof.
  intros Hw Hts [j Hj]%list_elem_of_lookup. destruct (Forall2_lookup_r _ _ _ _ _ Hts Hj) as (t & Ht & _).
  destruct (pool_thread _ _ _ _ Hw Hts Ht) as (h & rest & Hh & Hok & _ & _ & Hrg).
  rewrite Hj in Hh. injection Hh as <-. destruct t as [a|B ready m k].
  - by specialize (Hrg _ rest Hok ltac:(done)).
  - exists j, B, ready, m, k. split; [done|]. destruct (Hrg _ rest Hok ltac:(done)) as [Hwait _].
    destruct (ready (shared p)); [done|]. by destruct Hwait as (? & ? & _).
Qed.

Lemma done_or_not (ts : list (thread world unit)) : Forall (fun t => t = Done tt) ts \/
  exists i B ready (m : M world B) k, ts !! i = Some (Act ready m k).
Proof.
  induction ts as [|[[]|B ready m k] ts IH]; [by left| |by right; exists 0%nat, B, ready, m, k].
  destruct IH as [IH|(i & IH)]; [left; by constructor|right; by exists (S i)].
Qed.

Lemma accounts_none w hs : accounts w hs -> Forall (fun h => h = None) hs -> accounts w [].
Proof. intros Hw Hn. revert Hw. induction Hn as [|h hs -> _ IH]; [done|]. by rewrite accounts_None. Qed.

(** A pool that can go no further is done, with nothing held, or is about to
    crash: nobody waits for ever. *)
Lemma pool_goes_on p : pool_ok p -> nf pool_step p ->
  (exists f, pool_crashes p f) \/ Forall (fun t => t = Done tt) (running p) /\ accounts (shared p) [].
Proof.
  intros (hs & Hw & Hts) Hnf.
  assert (forall i B ready (m : M world B) k, running p !! i = Some (Act ready m k) -> ready (shared p) = true ->
    exists f, pool_crashes p f) as Hready.
  { intros i B ready m k Hi Er. destruct (m (shared p)) as [[b w']|f] eqn:E.
    - destruct p as [w ts]. destruct Hnf. eexists. by eapply pool_act.
    - exists f, i, B, ready, m, k. by split_and!. }
  assert ((exists i, Some (i, true) ∈ hs) -> exists f, pool_crashes p f) as Howner.
  { intros [i Hin]. destruct (owner_goes p hs i Hw Hts Hin) as (j & B & ready & m & k & Hj & Er). by eapply Hready. }
  destruct (done_or_not (running p)) as [Hdone|(i & B & ready & m & k & Hi)].
  - right. split; [done|]. apply (accounts_none _ hs); [apply Hw|]. apply Forall_lookup. intros j h Hj.
    destruct (Forall2_lookup_r _ _ _ _ _ Hts Hj) as (t & Ht & _).
    destruct (pool_thread _ _ _ _ Hw Hts Ht) as (h' & rest & Hh & Hok & _ & _ & Hrg).
    rewrite Hj in Hh. injection Hh as <-. rewrite (proj1 (Forall_lookup _ _) Hdone _ _ Ht) in Hrg.
    exact (Hrg _ rest Hok ltac:(done)).
  - left. destruct (ready (shared p)) eqn:Er; [by eapply Hready|]. apply Howner.
    destruct (pool_thread _ _ _ _ Hw Hts Hi) as (h & rest & Hh & Hok & _ & Hp & Hrg).
    destruct (proj1 (Hrg _ rest Hok ltac:(done)) Er) as (j & _ & Hin). exists j. rewrite Hp. by right.
Qed.

Lemma view_ok w : inv (view w) -> holds P (view w) -> at_rest w -> ok w [].
Proof.
  intros [Hi _] Hh [Ha Hs Hp]. pose proof (inv0_queue_ok _ Hi) as Hq. split; [split|done|].
  - exact Hq.
  - exact (inv_num _ Hi).
  - intros k n Hk. by destruct (inv_names _ Hi _ _ Hk).
  - destruct Hh. split; try done; rewrite ?Hs, ?Hp; [apply map_Forall_empty|done].
  - intros r [(i & o & Ho & <-)|Hin].
    + destruct (pointed w i Ha (ex_intro _ o Ho)) as [k Hk].
      exact (rh_susp _ _ Hh k _ (view_suspicion w k i o Hk Ho)).
    + exact (proj1 (Forall_forall _ _) (rh_posted _ _ Hh) r Hin).
Qed.

Lemma pool_start w (ls : list (list job)) : ok w [] -> Forall (Forall (fun j => brings j P)) ls ->
  pool_ok (mkPool w (do_jobs <$> ls)).
Proof.
  intros Hw Hls. exists ((fun _ => None) <$> ls). split.
  - destruct Hw as [H1 H2 H3]. split; [done| |done]. clear -H2. induction ls as [|l ls IH]; [done|].
    by apply accounts_None.
  - cbn. apply Forall2_fmap, Forall_Forall2_diag. eapply Forall_impl; [exact Hls|]. intros l Hl. by apply do_jobs_rg.
Qed.

(** C14: threads do no damage of their own. Any number of threads merge reports,
    suspect probes' targets, object to alerts, let suspicion timers expire and run
    the handlers this makes ready, interleaved in any order. None dereferences null,
    uses a suspicion or an iterator that is gone, or writes a record that is not
    there: an access can only fail where a single thread's can, at the logarithm of a
    zero count, at a call of a destroyed conviction, or at its read of a captured
    state that is gone. No node is forgotten, each record is filed under its name, and
    a [RecordProperty] (64-bit dominants; kept by declaring dead, by zeroing dominant
    or timestamp and by reads of what is gone) that held of the records, of the
    reports and of our own record at any dominant holds of every record in table and
    queue. No deadlock on the suspicions' mutexes: every schedule ends, and one that
    can go no further has ended every thread, every mutex free and every pointer given
    back, unless an access fails. *)
Theorem threads_safe (w : world) (ls : list (list job)) (p : pool world) :
  at_rest w -> inv (view w) -> holds P (view w) -> Forall (Forall (fun j => brings j P)) ls ->
  rtc pool_step (mkPool w (do_jobs <$> ls)) p ->
  (forall f, pool_crashes p f -> f = BadFloatCast \/
    f = LifetimeEnded /\ (stale_call = false \/ exists n, stale_node n = None)) /\
  (forall k, is_Some (node_map_ (gos w) !! k) -> is_Some (node_map_ (gos (shared p)) !! k)) /\
  (forall k n, node_map_ (gos (shared p)) !! k = Some n -> Name_ n = k /\ P n) /\
  queue_ok (bc_queue_ (gos (shared p))) /\
  Forall (fun e => P (msg_of e)) (m_ (bc_queue_ (gos (shared p)))) /\
  sn pool_step p /\
  (nf pool_step p -> (exists f, pool_crashes p f) \/
    Forall (fun t => t = Done tt) (running p) /\ accounts (shared p) []).
Proof.
  intros Hr Hi Hh Hls Hs.
  destruct (pool_steps_ok _ _ Hs (pool_start w ls (view_ok w Hi Hh Hr) Hls)) as [Hp Hgr].
  split; [intros f; by apply pool_faults|split; [done|]].
  pose proof Hp as (hs & Hw & Hts). destruct (ok_sound _ _ Hw) as [Hq _ Hn Hg].
  split_and!; [|done|exact (rh_queue _ _ Hg)|apply pool_ends|by apply pool_goes_on].
  intros k n Hk. split; [by apply Hn|by apply (rh_table _ _ Hg) in Hk].
Qed.
End rely.
