(* ===== verification/OneThread.v ===== *)
(** * One thread

    A thread that nobody interrupts does what the handlers of Gossiper.v do: merging
    a report in one go, from a world whose handlers rest, ends in the state that
    Gossiper.v computes, or fails as it does. So the reports merged one after
    the other, in any order, are schedules of the pool. *)
From stdpp Require Import relations.
From S2P Require Import Prelude Utils Node Broadcast Suspicion Messages Pools.
From S2P Require Gossiper.
From S2P Require Import Gossiper Membership Reports Threads Sharing.
Local Open Scope Z_scope.

(** ** Agreement

    From [w], which satisfies [I], the thread runs as the action does from what [w]
    shows, and [I] holds again. *)
Section agrees.
Context (I : world -> Prop).

Definition agrees {A} (t : thread world A) (m : M gossiper A) (w : world) : Prop :=
  match m (view w) with
  | Ok (a, g) => exists w', run_alone t w = Ok (a, w') /\ I w' /\ view w' = g
  | Crash f => run_alone t w = Crash f
  end.

Lemma agrees_ret {A} (a : A) w : I w -> agrees (mret a) (mret a) w.
Proof. intros Hw. by exists w. Qed.

Lemma agrees_bind {A B} (t : thread world A) (m : M gossiper A) (f : A -> thread world B) k w :
  agrees t m w -> (forall a w', I w' -> agrees (f a) (k a) w') -> agrees (t ≫= f) (m ≫= k) w.
Proof.
  unfold agrees. intros Hm Hf. rewrite run_alone_bind. unfold mbind at 1, M_bind.
  destruct (m (view w)) as [[a g]|e]; [|by rewrite Hm].
  destruct Hm as (w' & -> & Hw & <-). by apply Hf.
Qed.

Lemma agrees_lift {A} (o : outcome A) w : I w -> agrees (atomically (lift o)) (lift o) w.
Proof.
  intros Hw. unfold agrees. rewrite run_atomically. destruct o as [a|f]; cbn; [|done]. by exists w.
Qed.

Lemma agrees_when b t m w : I w -> agrees t m w -> agrees (t_when b t) (when b m) w.
Proof. intros Hw Ht. destruct b; [done|by apply agrees_ret]. Qed.

Lemma agrees_get {A} (t : thread world A) k w : agrees t (k (view w)) w -> agrees t (get ≫= k) w.
Proof. done. Qed.

Lemma agrees_read {A B} (member : gossiper -> A) (f : A -> thread world B) m w :
  member (gos w) = member (view w) -> agrees (f (member (view w))) m w -> agrees (read member ≫= f) m w.
Proof.
  intros E. unfold agrees. rewrite run_alone_bind.
  assert (run_alone (read member) w = Ok (member (view w), w)) as ->; [|done].
  rewrite <- E. by destruct w.
Qed.

(** Both take a first step of their own. *)
Lemma agrees_step {A} (t t' : thread world A) m m' w w' :
  run_alone t w = run_alone t' w' -> m (view w) = m' (view w') -> agrees t' m' w' -> agrees t m w.
Proof. unfold agrees. by intros -> ->. Qed.

(** ** The other members *)

(** [m] does not touch the suspicions, nor what is posted. *)
Definition hide (s : gmap string suspicion) (l : list sus_ref) (g : gossiper) : gossiper :=
  set_posted_ l (set_suspicions_ s g).
Definition blind {A} (m : M gossiper A) : Prop := forall s l g,
  m (hide s l g) = match m g with Ok (a, g') => Ok (a, hide s l g') | Crash f => Crash f end.

(** [I] is not about the other members. *)
Class Framed : Prop := framed w g : I w -> suspicions_ g = suspicions_ (gos w) ->
  posted_ g = posted_ (gos w) -> I (set_gos g w).

Lemma blind_same {A} (m : M gossiper A) g a g' : blind m -> m g = Ok (a, g') ->
  suspicions_ g' = suspicions_ g /\ posted_ g' = posted_ g.
Proof.
  intros Hm E. pose proof (Hm (suspicions_ g) (posted_ g) g) as E'.
  replace (hide _ _ g) with g in E' by by destruct g. rewrite E in E'. injection E' as E'.
  rewrite E'. by destruct g'.
Qed.

Context `{!Framed}.

Lemma agrees_on {A} (m : M gossiper A) w : blind m -> I w -> agrees (atomically (on m)) m w.
Proof.
  intros Hm Hw. unfold agrees. rewrite run_atomically. unfold on.
  pose proof (Hm (omap (fun i => value <$> heap w !! i) (table w)) (ready w).*2 (gos w)) as E.
  change (hide _ _ (gos w)) with (view w) in E. rewrite E.
  destruct (m (gos w)) as [[a g']|f] eqn:Em; [|done]. eexists. split; [done|split; [|done]].
  apply framed; [done|by eapply blind_same..].
Qed.

Lemma blind_on_queue {A} (op : M BroadcastQueue A) : blind (on_queue op).
Proof. intros s l g. unfold on_queue. cbn. by destruct (op (bc_queue_ g)) as [[]|]. Qed.

Lemma blind_getNodeState k : blind (getNodeState k).
Proof. done. Qed.
Lemma blind_updateNodeState k n : blind (updateNodeState k n).
Proof. intros s l g. unfold updateNodeState. run. cbn. by destruct (node_map_ g !! k). Qed.
Lemma blind_removeNodeState k : blind (removeNodeState k).
Proof. intros s l g. unfold removeNodeState. run. cbn. by destruct (find_index k (nodes_ g)). Qed.

Create HintDb blind.
#[local] Hint Resolve blind_on_queue blind_getNodeState blind_updateNodeState blind_removeNodeState : blind.
#[local] Hint Extern 1 (blind _) => done : blind.

(** ** The handlers *)

Section handlers.
Context `{IterationOrder} `{!Residue}.

Lemma broadcast_agrees s w : I w -> agrees (broadcast s) (Gossiper.broadcast s) w.
Proof.
  intros Hw. apply agrees_read, agrees_get, agrees_on; [done|apply blind_on_queue|done].
Qed.

Lemma fuckyou_agrees d w : I w -> agrees (fuckyou d) (Gossiper.fuckyou d) w.
Proof.
  intros Hw. apply agrees_bind; [by apply agrees_on|]. intros own w1 Hw1.
  apply agrees_bind; [destruct (_ <=? _); [by apply agrees_on|by apply agrees_ret]|]. intros own' w2 Hw2.
  apply agrees_read, agrees_get; [done|]. by apply broadcast_agrees.
Qed.

(** Dropping a suspicion. *)
Class Erases : Prop := erases k w : I w ->
  agrees (atomically (eraseSuspicion k)) (Gossiper.eraseSuspicion k) w.
Context `{!Erases}.

Lemma aliveNode_agrees a need_bc w : I w -> agrees (aliveNode a need_bc) (Gossiper.aliveNode a need_bc) w.
Proof.
  intros Hw. unfold aliveNode, Gossiper.aliveNode. apply agrees_get.
  apply agrees_read; [done|]. apply agrees_read; [done|]. cbv zeta.
  destruct (_ && _); [by apply agrees_ret|].
  apply agrees_bind; [by apply agrees_on|]. intros known w1 Hw1.
  destruct (_ <=? _); [by apply agrees_ret|].
  apply agrees_bind; [by apply agrees_when, agrees_on|]. intros _ w2 Hw2.
  apply agrees_bind; [apply agrees_on; auto with blind|]. intros _ w3 Hw3.
  apply agrees_bind; [by apply erases|]. intros _ w4 Hw4.
  apply agrees_bind; [by apply agrees_when, broadcast_agrees|]. intros _ w5 Hw5.
  apply agrees_bind; [by apply agrees_when, agrees_on|]. intros _ w6 Hw6.
  apply agrees_get, agrees_read; [done|]. by apply agrees_when, agrees_on.
Qed.

Lemma deadNode_agrees d w : I w -> agrees (deadNode d) (Gossiper.deadNode d) w.
Proof.
  intros Hw. unfold deadNode, Gossiper.deadNode.
  apply agrees_bind; [by apply agrees_on|]. intros known w1 Hw1.
  destruct known as [state|]; [|by apply agrees_ret]. destruct (_ <? _); [by apply agrees_ret|].
  apply agrees_bind; [by apply erases|]. intros _ w2 Hw2.
  apply agrees_bind; [by apply agrees_on|]. intros _ w3 Hw3. apply agrees_get. cbv zeta.
  destruct (bool_decide _); [by apply agrees_ret|].
  apply agrees_read; [done|]. apply agrees_read; [done|].
  destruct (_ && _); [by apply fuckyou_agrees|].
  apply agrees_bind; [apply agrees_on; auto with blind|]. intros _ w4 Hw4.
  apply agrees_bind; [apply agrees_on; auto with blind|]. intros _ w5 Hw5.
  apply agrees_bind; [by apply broadcast_agrees|]. intros _ w6 Hw6.
  apply agrees_get, agrees_read; [done|]. by apply agrees_when, agrees_on.
Qed.
End handlers.
End agrees.

(** ** What a world shows *)

(** Worlds that differ in what they suspect. *)
Lemma view_eq w w' s : gos w' = gos w -> ready w' = ready w ->
  (forall k, (i ← table w' !! k; value <$> heap w' !! i) = s !! k) ->
  view w' = set_suspicions_ s (view w).
Proof.
  intros Hg Hr Hk. unfold view. rewrite Hg, Hr.
  assert (omap (fun i => value <$> heap w' !! i) (table w') = s) as ->; [|done].
  apply map_eq. intros k. by rewrite lookup_omap.
Qed.

Lemma view_suspects w k : suspicions_ (view w) !! k = (i ← table w !! k; value <$> heap w !! i).
Proof. unfold view. members. apply lookup_omap. Qed.

Lemma set_suspicions_same g : set_suspicions_ (suspicions_ g) g = g.
Proof. by destruct g. Qed.

Lemma view_same w w' : gos w' = gos w -> ready w' = ready w ->
  (forall k, (i ← table w' !! k; value <$> heap w' !! i) = (i ← table w !! k; value <$> heap w !! i)) ->
  view w' = view w.
Proof.
  intros Hg Hr Hk. rewrite <- (set_suspicions_same (view w)). apply view_eq; [done..|].
  intros k. by rewrite view_suspects.
Qed.

Lemma view_change w k i o o' hs : accounts w hs -> table w !! k = Some i -> heap w !! i = Some o ->
  view (set_heap (<[i := o']> (heap w)) w) =
    set_suspicions_ (<[k := value o']> (suspicions_ (view w))) (view w).
Proof.
  intros Hw Hk Ho. apply view_eq; [done..|]. intros k'. cbn [heap set_heap table]. destruct (decide (k' = k)) as [->|Hne].
  - by rewrite Hk, lookup_insert_eq; cbn; rewrite lookup_insert_eq.
  - rewrite lookup_insert_ne, view_suspects by done. destruct (table w !! k') as [j|] eqn:Ej; [|done]. cbn.
    rewrite lookup_insert_ne; [done|]. intros ->. by destruct Hne; eapply ac_once.
Qed.

Lemma view_keep w i o o' : heap w !! i = Some o -> value o' = value o ->
  view (set_heap (<[i := o']> (heap w)) w) = view w.
Proof.
  intros Ho Hv. apply view_same; [done..|]. intros k. cbn.
  destruct (table w !! k) as [j|]; [|done]. cbn. destruct (decide (i = j)) as [->|Hne].
  - by rewrite lookup_insert_eq, Ho; cbn; rewrite Hv.
  - by rewrite lookup_insert_ne.
Qed.

Lemma view_gone w i : ~ tabled w i -> view (set_heap (delete i (heap w)) w) = view w.
Proof.
  intros Hi. apply view_same; [done..|]. intros k. cbn.
  destruct (table w !! k) as [j|] eqn:Ej; [|done]. cbn. rewrite lookup_delete_ne; [done|].
  intros ->. apply Hi, tabled_iff. by exists k.
Qed.

Lemma view_drop w k : view (set_table (delete k (table w)) w) =
  set_suspicions_ (delete k (suspicions_ (view w))) (view w).
Proof. unfold view. members. cbn. by rewrite omap_delete. Qed.

Lemma view_ready w l : view (set_ready (ready w ++ l) w) = set_posted_ (posted_ (view w) ++ l.*2) (view w).
Proof. unfold view. members. cbn. by rewrite fmap_app. Qed.

Lemma posted_same g : set_posted_ (posted_ g ++ []) g = g.
Proof. rewrite app_nil_r. by destruct g. Qed.

Lemma handlers_posted (i : nat) (l : list sus_ref) : ((fun r => (i, r)) <$> l).*2 = l.
Proof. by rewrite <- list_fmap_compose, list_fmap_id. Qed.

Lemma view_released w i o : (refs o <= 1 -> ~ tabled w i)%nat -> heap w !! i = Some o ->
  view (released i o w) =
    if decide (refs o <= 1)%nat
    then set_posted_ (posted_ (view w) ++ suspicion_destroy (value o)) (view w) else view w.
Proof.
  intros Hi Ho. unfold released. case_decide as Hr; [|by eapply view_keep].
  change (ready w) with (ready (set_heap (delete i (heap w)) w)).
  by rewrite view_ready, handlers_posted, view_gone by auto.
Qed.

(** ** A thread alone, which holds [h] *)

(** The timer of what it holds no longer runs. *)
Definition stopped (h : holding) (w : world) : Prop :=
  forall i b o, h = Some (i, b) -> heap w !! i = Some o -> armed (value o) = false.

Record quiet (h : holding) (w : world) : Prop := {
  qu_accounts : accounts w [h];
  qu_suspicions : suspicions_ (gos w) = ∅;
  qu_posted : posted_ (gos w) = [];
  qu_stopped : stopped h w
}.

Lemma at_rest_quiet w : at_rest w <-> quiet None w.
Proof. split; intros []; split; try done; by apply accounts_None. Qed.

#[global] Instance quiet_framed h : Framed (quiet h).
Proof.
  intros w g [Ha Hs Hp Hq] Es Ep. split; [by apply (accounts_same w)|by rewrite <- Hs|by rewrite <- Hp|done].
Qed.

Lemma destroy_nothing s : armed s = false -> suspicion_destroy s = [].
Proof. intros E. unfold suspicion_destroy, cancel. by rewrite E. Qed.

Lemma stopped_released h w i o : stopped h w -> heap w !! i = Some o -> stopped h (released i o w).
Proof.
  intros Hq Ho j b o' ->. unfold released. case_decide; cbn.
  - intros [_ Hj]%lookup_delete_Some. exact (Hq _ _ _ eq_refl Hj).
  - intros [[<- <-]|[_ Hj]]%lookup_insert_Some; [exact (Hq _ _ _ eq_refl Ho)|exact (Hq _ _ _ eq_refl Hj)].
Qed.

(** Dropping an object from the table leaves nobody but its holder. *)
Lemma dropped w k i o h : accounts w [h] -> table w !! k = Some i -> heap w !! i = Some o ->
  let w1 := set_table (delete k (table w)) w in
  ~ tabled w1 i /\ ((refs o <= 1)%nat \/ exists b, h = Some (i, b)).
Proof.
  intros Ha Hk Ho w1.
  assert (~ tabled w1 i) as Hi.
  { intros [k' Hk']%tabled_iff. cbn in Hk'. apply lookup_delete_Some in Hk' as [Hne Hk'].
    destruct Hne. by eapply ac_once. }
  split; [done|]. destruct (ac_refs _ _ (accounts_delete w k i [h] Ha Hk) i o Ho) as [E _].
  rewrite !pointers_cons, uses_self in E. unfold pointers in E. rewrite decide_False in E by done.
  change (users i []) with 0%nat in E.
  destruct h as [[j b]|]; [|rewrite uses_None in E; left; lia].
  destruct (decide (i = j)) as [->|Hne]; [right; by exists b|rewrite uses_other in E by done; left; lia].
Qed.

#[global] Instance quiet_erases h : Erases (quiet h).
Proof.
  intros k w Hq. pose proof Hq as [Ha Hs Hp Hstop]. unfold agrees.
  rewrite eraseSuspicion_run, run_atomically. unfold eraseSuspicion, cancelled. rewrite view_suspects. run.
  destruct (table w !! k) as [i|] eqn:Hk; cbn [option_bind mbind].
  2:{ exists w. split_and!; [done|done|]. rewrite delete_id, set_suspicions_same, posted_same; [done|].
      by rewrite view_suspects, Hk. }
  set (w1 := set_table _ w).
  assert (accounts w1 (Some (i, false) :: [h])) as Ha1 by by apply accounts_delete.
  destruct (holds_object _ _ _ _ Ha1) as [o Ho]. rewrite (release_run w1 i o Ho).
  change (heap w !! i = Some o) in Ho. rewrite Ho. cbn [option_fmap fmap option_map].
  destruct (dropped w k i o h Ha Hk Ho) as [Hi Hr].
  exists (released i o w1). split; [done|split].
  - pose proof (released_shares w1 i o Ho) as [Sa Sg _]. split.
    + by apply accounts_None, Sa.
    + rewrite Sg. exact Hs.
    + rewrite Sg. exact Hp.
    + by apply stopped_released.
  - rewrite view_released by done. unfold w1. rewrite view_drop. case_decide; [done|].
    destruct Hr as [|[b ->]]; [done|].
    rewrite destroy_nothing, app_nil_r by (by eapply Hstop). by destruct (view w).
Qed.

(** What a thread does after the action is done, that the world does not show. *)
Lemma agrees_after {A} (I J : world -> Prop) (t : thread world A) m (f : A -> thread world A) w :
  agrees I t m w ->
  (forall a w', I w' -> exists w'', run_alone (f a) w' = Ok (a, w'') /\ J w'' /\ view w'' = view w') ->
  agrees J (t ≫= f) m w.
Proof.
  unfold agrees. intros Hm Hf. rewrite run_alone_bind. destruct (m (view w)) as [[a g]|e]; [|by rewrite Hm].
  destruct Hm as (w' & -> & Hw & <-). by apply Hf.
Qed.

(** ** A suspect alone *)

(** A thread alone holds an object of the table. *)
Record pending (h : nat * bool) (w : world) : Prop := {
  pe_accounts : accounts w [Some h];
  pe_suspicions : suspicions_ (gos w) = ∅;
  pe_posted : posted_ (gos w) = [];
  pe_tabled : tabled w h.1
}.

#[global] Instance pending_framed h : Framed (pending h).
Proof.
  intros w g [Ha Hs Hp Hq] Es Ep. split; [by apply (accounts_same w)|by rewrite <- Hs|by rewrite <- Hp|done].
Qed.

Lemma release_alone w i : accounts w [Some (i, false)] -> suspicions_ (gos w) = ∅ -> posted_ (gos w) = [] ->
  stopped (Some (i, false)) w \/ tabled w i ->
  exists w', run_alone (atomically (release i)) w = Ok (tt, w') /\ quiet None w' /\ view w' = view w.
Proof.
  intros Ha Hs Hp Hor. destruct (holds_object _ _ _ _ Ha) as [o Ho]. rewrite run_atomically, (release_run _ _ _ Ho).
  pose proof (released_shares w i o Ho) as [Sa Sg _].
  destruct (ac_refs _ _ Ha i o Ho) as [E _]. rewrite pointers_cons, uses_self in E.
  assert (refs o <= 1 -> ~ tabled w i)%nat as Hi.
  { intros Hle Hi. unfold pointers in E. rewrite decide_True in E by done. lia. }
  exists (released i o w). split; [done|split; [split|]].
  - by apply Sa.
  - rewrite Sg. exact Hs.
  - rewrite Sg. exact Hp.
  - done.
  - rewrite view_released by done. case_decide as Hle; [|done]. destruct Hor as [Hst|]; [|by destruct (Hi Hle)].
    by rewrite destroy_nothing, posted_same by (by eapply Hst).
Qed.

Lemma unlock_alone w i : accounts w [Some (i, true)] -> exists w', run_alone (atomically (unlock i)) w = Ok (tt, w') /\
  accounts w' [Some (i, false)] /\ gos w' = gos w /\ table w' = table w /\ view w' = view w /\
  (stopped (Some (i, true)) w -> stopped (Some (i, false)) w').
Proof.
  intros Ha. destruct (unlock_shares w i [] Ha) as (w' & E & [Sa Sg _]). rewrite run_atomically. exists w'.
  destruct (holds_object _ _ _ _ Ha) as [o Ho]. unfold unlock, deref_object, set_object in E. run in E.
  rewrite Ho in E. injection E as <-. split; [unfold unlock, deref_object, set_object; run; by rewrite Ho|].
  split_and!; [by apply Sa|done|done|by eapply view_keep|].
  intros Hst j b o' [= <- <-]. cbn. intros [[_ <-]|[? _]]%lookup_insert_Some; [|done]. exact (Hst _ _ _ eq_refl Ho).
Qed.

Section suspects.
Context `{IterationOrder} `{!Residue}.

Lemma Confirm_stops from s s' handlers : Confirm from s = (true, s', handlers) -> armed s' = false.
Proof.
  unfold Confirm. set (s1 := if decide _ then s else _). destruct (_ <=? _); [|done].
  unfold cancel. destruct (armed s1) eqn:E; by intros [= <- _].
Qed.

(** Taking the mutex and confirming, with nobody else there. *)
Lemma confirmed_alone w i k o from : accounts w [Some (i, false)] -> suspicions_ (gos w) = ∅ ->
  posted_ (gos w) = [] -> table w !! k = Some i -> heap w !! i = Some o ->
  let '(confirmed, s, handlers) := Confirm from (value o) in
  exists w', (forall (B : Type) (f : option sus_ref -> thread world B),
      run_alone (await (mutex_free i) (lock i) ;; c ← atomically (confirm i from); f c) w =
        run_alone (f (if (confirmed : bool) then Some (convict_ s) else None)) w') /\
    view w' = set_posted_ (posted_ (view w) ++ handlers)
      (set_suspicions_ (<[k := s]> (suspicions_ (view w))) (view w)) /\
    pending (i, true) w' /\ (confirmed = true -> stopped (Some (i, true)) w').
Proof.
  intros Ha Hs Hp Hk Ho. destruct (ac_refs _ _ Ha i o Ho) as [_ Hpos].
  assert (mtx_ o = false) as Em.
  { pose proof (ac_mutex _ _ Ha i o Ho) as E. rewrite owners_cons, decide_False in E by done.
    by destruct (mtx_ o). }
  pose proof (Confirm_ref from (value o)) as Hc. pose proof (Confirm_stops from (value o)) as Hst.
  destruct (Confirm from (value o)) as [[confirmed s] handlers] eqn:Ec. destruct Hc as [Hc _].
  exists (set_ready (ready w ++ ((fun r => (i, r)) <$> handlers))
    (set_heap (<[i := mkObject s (refs o) true]> (heap w)) w)).
  split_and!.
  - intros B f. cbn. unfold mutex_free, lock, confirm, deref_object, set_object, make_ready. run.
    rewrite Ho, Em. cbn. rewrite lookup_insert_eq. cbn. rewrite Ec. cbn. by rewrite insert_insert_eq.
  - change (ready w) with (ready (set_heap (<[i := mkObject s (refs o) true]> (heap w)) w)).
    by rewrite view_ready, handlers_posted, (view_change w k i o _ _ Ha Hk Ho).
  - split; [|done|done|apply tabled_iff; by exists k].
    eapply accounts_same; [..|eapply (accounts_update w (Some (i, false)) (Some (i, true)) [] i o _ Ha Ho)];
      try done; rewrite ?Em; counted.
  - intros -> j b o' [= <- <-]. cbn. rewrite lookup_insert_eq. intros [= <-]. by eapply Hst.
Qed.

Lemma convict_agrees I `{!Framed I} `{!Erases I} r w : I w -> agrees I (convict r) (Gossiper.convict r) w.
Proof.
  intros Hw. apply agrees_bind; [by apply agrees_lift|]. intros d w1 Hw1. by apply deadNode_agrees.
Qed.

Lemma confirmSuspicion_agrees w i k o s : accounts w [Some (i, false)] -> suspicions_ (gos w) = ∅ ->
  posted_ (gos w) = [] -> table w !! k = Some i -> heap w !! i = Some o ->
  agrees (quiet None) (confirmSuspicion i s)
    (let '(confirmed, sus, handlers) := Confirm (From_ s) (value o) in
     g ← get;
     modify (set_suspicions_ (<[k := sus]> (suspicions_ g))) ;;
     post handlers ;;
     if (confirmed : bool) then Gossiper.convict (convict_ sus) else Gossiper.broadcast (copy s)) w.
Proof.
  intros Ha Hs Hp Hk Ho. pose proof (confirmed_alone w i k o (From_ s) Ha Hs Hp Hk Ho) as Hc.
  destruct (Confirm (From_ s) (value o)) as [[confirmed sus] handlers]. destruct Hc as (w1 & E & V & Hp1 & Hst1).
  unfold confirmSuspicion. pose proof Hp1 as [Ha1 Hs1 Hp1' Ht1]. destruct confirmed.
  - eapply (agrees_step _ _ _ _ (Gossiper.convict (convict_ sus)) _ w1);
      [rewrite E; reflexivity|unfold post; run; rewrite V; reflexivity|].
    eapply (agrees_after (quiet (Some (i, true)))); [apply convict_agrees; [apply _..|by split; auto]|].
    intros [] w2 [Ha2 Hs2 Hp2 Hq2]. destruct (unlock_alone w2 i Ha2) as (w3 & E3 & Ha3 & Hg3 & _ & V3 & Hq3).
    destruct (release_alone w3 i) as (w4 & E4 & Hw4 & V4); [done|by rewrite Hg3|by rewrite Hg3|left; auto|].
    exists w4. rewrite run_alone_bind, E3. cbn [mret thread_ret]. split; [exact E4|split; [done|congruence]].
  - destruct (unlock_alone w1 i Ha1) as (w2 & E2 & Ha2 & Hg2 & Ht2 & V2 & _).
    eapply (agrees_step _ _ (broadcast (copy s) ;; atomically (release i)) _ (Gossiper.broadcast (copy s)) _ w2);
      [rewrite E; cbn [mbind thread_mbind]|rewrite V2, V; reflexivity|].
    { change (run_alone (atomically (unlock i) ≫= fun _ => broadcast (copy s) ;; atomically (release i)) w1 =
        run_alone (broadcast (copy s) ;; atomically (release i)) w2). by rewrite run_alone_bind, E2. }
    eapply (agrees_after (pending (i, false))).
    + apply broadcast_agrees; [apply _|]. split; [done|by rewrite Hg2..|]. unfold tabled. by rewrite Ht2.
    + intros [] w3 [Ha3 Hs3 Hp3 Ht3]. apply release_alone; auto.
Qed.

(** A new object, the local pointer to it given back. *)
Lemma created_alone w k s : at_rest w -> table w !! k = None ->
  let w1 := mkWorld (gos w) (<[k := created w]> (table w))
    (<[created w := mkObject s 2 false]> (heap w)) (S (created w)) (ready w) in
  exists w', run_alone (atomically (release (created w))) w1 = Ok (tt, w') /\ quiet None w' /\
    view w' = set_suspicions_ (<[k := s]> (suspicions_ (view w))) (view w).
Proof.
  intros [Ha Hs Hp] Hk w1. pose proof (accounts_add w k s [] Ha Hk) as Ha1. fold w1 in Ha1.
  destruct (release_alone w1 (created w) Ha1 Hs Hp) as (w' & E & Hw & V).
  { right. apply tabled_iff. exists k. apply lookup_insert_eq. }
  exists w'. split; [done|split; [done|]]. rewrite V. apply view_eq; [done..|]. intros k'. cbn [table heap w1].
  destruct (decide (k = k')) as [<-|Hne]; [rewrite !lookup_insert_eq; cbn; by rewrite lookup_insert_eq|].
  rewrite !lookup_insert_ne, view_suspects by done. destruct (table w !! k') as [j|] eqn:Ej; [|done]. cbn.
  rewrite lookup_insert_ne; [done|]. intros <-.
  assert (is_Some (heap w !! created w)) as Hin%(ac_created _ _ Ha); [|lia].
  apply (accounts_mem w [] _ Ha). unfold pointers. rewrite decide_True; [lia|]. apply tabled_iff. by exists k'.
Qed.

Lemma get_pointer w k i o : table w !! k = Some i -> heap w !! i = Some o -> accounts w [] ->
  exists w', (forall (B : Type) (f : option nat -> thread world B),
      run_alone (atomically (getSuspicion k) ≫= f) w = run_alone (f (Some i)) w') /\
    accounts w' [Some (i, false)] /\ gos w' = gos w /\ table w' = table w /\ view w' = view w /\
    exists o', heap w' !! i = Some o' /\ value o' = value o.
Proof.
  intros Hk Ho Ha. destruct (getSuspicion_shares w k []) as (a & w' & E & [Sa Sg _]); [by apply accounts_None|].
  pose proof E as E'. unfold getSuspicion, deref_object, set_object in E'. run in E'. rewrite Hk, Ho in E'.
  injection E' as <- <-. eexists. split.
  { intros B f. rewrite run_alone_bind, run_atomically, E. reflexivity. }
  split_and!; [by apply Sa, accounts_None|done|done|by eapply view_keep|].
  eexists. split; [apply lookup_insert_eq|done].
Qed.

Lemma no_pointer {B} w k (f : option nat -> thread world B) : table w !! k = None ->
  run_alone (atomically (getSuspicion k) ≫= f) w = run_alone (f None) w.
Proof. intros Hk. rewrite run_alone_bind, run_atomically. unfold getSuspicion. run. by rewrite Hk. Qed.

Lemma getSuspicion_bind {B} k (f : option suspicion -> M gossiper B) g :
  (Gossiper.getSuspicion k ≫= f) g = f (suspicions_ g !! k) g.
Proof. done. Qed.

(** The end of [suspectNode]. *)
Lemma add_agrees k r w : at_rest w ->
  agrees (quiet None)
    (sus ← atomically (addSuspicion k r); match sus with Some i => atomically (release i) | None => mret tt end)
    (g ← get;
     match suspicions_ g !! k with
     | Some _ => mret tt
     | None =>
       sus ← lift (suspicion_new (node_num_ g) r);
       modify (set_suspicions_ (<[k := sus]> (suspicions_ g)))
     end) w.
Proof.
  intros Hw. pose proof (created_alone w k) as Hnew. unfold agrees. rewrite run_alone_bind, run_atomically.
  unfold addSuspicion. run. rewrite view_suspects.
  destruct (table w !! k) as [i|] eqn:Hk; cbn [option_bind mbind].
  - assert (is_Some (heap w !! i)) as [o ->].
    { apply (accounts_mem w []); [apply Hw|]. unfold pointers. rewrite decide_True; [lia|].
      apply tabled_iff. by exists k. }
    exists w. split; [done|split; [by apply at_rest_quiet|done]].
  - change (node_num_ (view w)) with (node_num_ (gos w)).
    destruct (suspicion_new (node_num_ (gos w)) r) as [s|f]; [|done].
    destruct (Hnew s Hw eq_refl) as (w' & E & Hw' & V). by exists w'.
Qed.

Lemma suspectNode_agrees lives s w : at_rest w ->
  agrees (quiet None) (suspectNode lives s) (Gossiper.suspectNode lives s) w.
Proof.
  intros Hw%at_rest_quiet. unfold suspectNode, Gossiper.suspectNode.
  apply agrees_bind; [apply agrees_on; [apply _|done|done]|]. intros known w1 Hw1.
  destruct known as [state|]; [|by apply agrees_ret]. destruct (_ <? _); [by apply agrees_ret|].
  pose proof Hw1 as [Ha Hs Hp]%at_rest_quiet. destruct (table w1 !! Name_ s) as [i|] eqn:Hk.
  - assert (is_Some (heap w1 !! i)) as [o Ho].
    { apply (accounts_mem w1 [] _ Ha). unfold pointers. rewrite decide_True; [lia|].
      apply tabled_iff. by exists (Name_ s). }
    destruct (get_pointer w1 (Name_ s) i o Hk Ho Ha) as (w2 & E & Ha2 & Hg2 & Ht2 & V2 & o' & Ho' & Hv).
    eapply agrees_step; [by rewrite E| |eapply (confirmSuspicion_agrees w2 i (Name_ s) o'); try done].
    + rewrite getSuspicion_bind, view_suspects, Hk. cbn [option_bind mbind].
      rewrite Ho. cbn [option_fmap fmap option_map]. by rewrite V2, Hv.
    + by rewrite Hg2.
    + by rewrite Hg2.
    + by rewrite Ht2.
  - eapply agrees_step; [by rewrite no_pointer|by rewrite getSuspicion_bind, view_suspects, Hk|].
    cbn beta iota. destruct (bool_decide (State_ state <> STATE_ALIVE)); [by apply agrees_ret|].
    apply agrees_get, agrees_read; [done|]. apply agrees_bind.
    { change (conf_ (view w1)) with (conf_ (gos w1)). destruct (bool_decide _);
        [by apply fuckyou_agrees; [apply _|]|by apply broadcast_agrees; [apply _|]]. }
    intros _ w2 Hw2. apply agrees_bind; [apply agrees_on; [apply _|apply blind_updateNodeState|done]|].
    intros _ w3 Hw3. by apply add_agrees, at_rest_quiet.
Qed.

Lemma mergeReport_agrees need_bc s w : at_rest w ->
  agrees (quiet None) (mergeReport need_bc s) (Gossiper.mergeReport need_bc s) w.
Proof.
  intros Hw. pose proof (proj1 (at_rest_quiet w) Hw) as Hq. unfold mergeReport, Gossiper.mergeReport.
  destruct (State_ s); [apply aliveNode_agrees; [apply _..|done]|by apply suspectNode_agrees|
    apply deadNode_agrees; [apply _..|done]|by apply agrees_ret].
Qed.

(** ** Jobs one after the other *)

(** The jobs that end what they start. *)
Definition whole (j : job) : bool :=
  match j with Merge _ _ | Suspect _ | Object _ => true | Expire _ | Handler => false end.

Definition job_alone (j : job) : M gossiper unit :=
  match j with
  | Merge need_bc s => Gossiper.mergeReport need_bc s
  | Suspect s => Gossiper.suspectNode true s
  | Object dominant => Gossiper.fuckyou dominant
  | Expire _ | Handler => mret tt
  end.

Lemma do_jobs_agrees l w : Forall whole l -> at_rest w ->
  agrees (quiet None) (do_jobs l) (for_each l job_alone) w.
Proof.
  intros Hl Hw. revert w Hw. induction Hl as [|j l Hj _ IH]; intros w Hw; [by apply agrees_ret, at_rest_quiet|].
  apply agrees_bind; [|intros [] w' Hw'; by apply IH, at_rest_quiet].
  destruct j; [by apply mergeReport_agrees|by apply suspectNode_agrees|
    apply fuckyou_agrees; [apply _|by apply at_rest_quiet]|done..].
Qed.

(** One after the other is one of the schedules. If merging the reports of each
    list, and suspecting the targets of its probes, in turn, as a single thread does,
    ends in some state, then a pool with a thread for each list can end in
    that state, all threads done and all pointers given back. *)
Theorem threads_in_turn (w : world) (g : gossiper) (ls : list (list job)) :
  at_rest w -> Forall (Forall whole) ls ->
  for_each ls (fun l => for_each l job_alone) (view w) = Ok (tt, g) ->
  exists w', rtc pool_step (mkPool w (do_jobs <$> ls)) (mkPool w' ((fun _ => Done tt) <$> ls)) /\
    view w' = g /\ at_rest w'.
Proof.
  intros Hw Hls. cut (forall ts : list (thread world unit),
    for_each ls (fun l => for_each l job_alone) (view w) = Ok (tt, g) ->
    exists w', rtc pool_step (mkPool w (ts ++ (do_jobs <$> ls))) (mkPool w' (ts ++ ((fun _ => Done tt) <$> ls))) /\
      view w' = g /\ at_rest w').
  { intros Hts. apply (Hts []). }
  revert w Hw. induction Hls as [|l ls Hl _ IH]; intros w Hw ts E; [injection E as <-; by exists w|].
  cbn [for_each] in E. apply bind_Ok_inv in E as ([] & g1 & E1 & E2).
  pose proof (do_jobs_agrees l w Hl Hw) as Ha. unfold agrees in Ha. rewrite E1 in Ha.
  destruct Ha as (w1 & Er & Hw1%at_rest_quiet & <-).
  destruct (IH w1 Hw1 (ts ++ [Done tt]) E2) as (w' & Hs & V & Hw'). exists w'. split; [|done].
  etrans; [apply (run_schedule (do_jobs l) w w1 (length ts) _ Er)|].
  - by rewrite fmap_cons, lookup_app_r, Nat.sub_diag.
  - rewrite fmap_cons, insert_app_r_alt, Nat.sub_diag by done. cbn. by rewrite <- !app_assoc in Hs.
Qed.
End suspects.
