(* ===== verification/Races.v ===== *)
(** * What goes wrong between two accesses

    The handlers find a node's record in one access and act on what they found in
    later ones. Two schedules of two threads in which another thread's report
    falls in between, and the pool that the theorems on threads are shown at. *)
From stdpp Require Import relations.
From S2P Require Import Prelude Utils Node Broadcast Suspicion Messages Pools.
From S2P Require Gossiper.
From S2P Require Import Gossiper Membership Reports Records Typed Threads Sharing ThreadSafety OneThread.
Local Open Scope Z_scope.

(** ** Known accesses of an uninterrupted thread *)

Section accesses.
Context {A B : Type}.

Lemma run_on (m : M gossiper A) (f : A -> thread world B) w a g : m (gos w) = Ok (a, g) ->
  run_alone (atomically (on m) ≫= f) w = run_alone (f a) (set_gos g w).
Proof. intros E. rewrite run_alone_bind, run_atomically. unfold on. by rewrite E. Qed.

Lemma run_read (member : gossiper -> A) (f : A -> thread world B) w :
  run_alone (read member ≫= f) w = run_alone (f (member (gos w))) w.
Proof. rewrite run_alone_bind. by destruct w. Qed.

Lemma run_unsuspected k (f : unit -> thread world B) w : table w !! k = None ->
  run_alone (atomically (eraseSuspicion k) ≫= f) w = run_alone (f tt) w.
Proof. intros Hk. rewrite run_alone_bind, run_atomically. unfold eraseSuspicion. run. by rewrite Hk. Qed.

Lemma some_on n (m : M gossiper A) (f : A -> thread world B) w a g : m (gos w) = Ok (a, g) ->
  run_some (S n) (atomically (on m) ≫= f) w = run_some n (f a) (set_gos g w).
Proof. intros E. apply run_some_act. unfold on. by rewrite E. Qed.

Lemma some_read n (member : gossiper -> A) (f : A -> thread world B) w :
  run_some (S n) (read member ≫= f) w = run_some n (f (member (gos w))) w.
Proof. by destruct w. Qed.
End accesses.

Section race.
Context `{IterationOrder} `{!Residue}.

(** ** Two threads enter one node *)

(** What an alive report of a node does once it found no record of it. *)
Definition entered (a : node_state) (w : world) : world :=
  let g := gos w in
  let g := set_node_num_ (u32 (node_num_ g + 1)) (set_nodes_ (nodes_ g ++ [Name_ a])
    (set_node_map_ (<[Name_ a := set_Timestamp 0 a]> (node_map_ g)) g)) in
  set_gos (set_notified_ (notified_ g ++ [Joined (Name_ a)]) g) w.

(** The rest of [aliveNode], from there on. *)
Definition enter (a : node_state) : thread world unit :=
  t_when true (atomically (on (addNodeState (Name_ a) (set_State STATE_DEAD (set_Dominant 0 (copy a)))))) ;;
  atomically (on (updateNodeState (Name_ a) a)) ;;
  atomically (eraseSuspicion (Name_ a)) ;;
  t_when false (broadcast (copy a)) ;;
  t_when false (atomically (on (modify (set_dominant_ (Dominant_ a))))) ;;
  registered ← read notify_join_;
  t_when (true && negb false && registered) (atomically (on (notify (Joined (Name_ a))))).

Lemma alive_reads a w : node_map_ (gos w) !! Name_ a = None -> Name_ a <> self_name (gos w) ->
  0 < Dominant_ a -> run_some 3 (aliveNode a false) w = Ok (enter a, w).
Proof.
  intros Hnew Hself Hd. unfold aliveNode. rewrite some_read, some_read. cbv zeta.
  rewrite bool_decide_eq_false_2, andb_false_r by done.
  rewrite (some_on _ _ _ _ None (gos w)) by (unfold getNodeState; run; by rewrite Hnew).
  rewrite copy_eq. cbn [Dominant_ State_ set_State set_Dominant].
  rewrite (proj2 (Z.leb_gt _ _)), bool_decide_eq_true_2 by done. unfold enter. rewrite copy_eq. by destruct w.
Qed.

Lemma enter_run a w : notify_join_ (gos w) = true -> table w !! Name_ a = None ->
  run_alone (enter a) w = Ok (tt, entered a w).
Proof.
  intros Hj Ht. unfold enter. cbn [t_when]. erewrite run_on by apply addNodeState_run.
  erewrite run_on by (eapply updateNodeState_run; cbn [gos set_gos]; members; apply lookup_insert_eq).
  rewrite run_unsuspected, !ret_bind, run_read by done. cbn [gos set_gos]. members. rewrite Hj. cbn [andb negb t_when].
  rewrite run_atomically. unfold on, notify. run. cbn [gos set_gos]. unfold entered. members.
  by rewrite insert_insert_eq.
Qed.

(** C30: finding and entering a node are two accesses. Two threads that each
    merge an alive report of the same unknown node can both find no record of
    it; then both enter it. The node is twice in the member list and counted
    twice, its join is announced twice, and its record is the one that was
    written last, whichever of the reports is newer: the membership invariant is
    broken. *)
Theorem join_race (a b : node_state) (w : world) : let g := gos w in
  node_map_ g !! Name_ a = None -> table w !! Name_ a = None -> Name_ b = Name_ a ->
  Name_ a <> self_name g -> 0 < Dominant_ a -> 0 < Dominant_ b -> notify_join_ g = true ->
  exists w', let g' := gos w' in
    rtc pool_step (mkPool w [aliveNode a false; aliveNode b false]) (mkPool w' [Done tt; Done tt]) /\
    nodes_ g' = nodes_ g ++ [Name_ a; Name_ a] /\
    node_num_ g' = u32 (u32 (node_num_ g + 1) + 1) /\
    notified_ g' = notified_ g ++ [Joined (Name_ a); Joined (Name_ a)] /\
    node_map_ g' !! Name_ a = Some (set_Timestamp 0 b) /\ ~ inv (view w').
Proof.
  intros g Hnew Ht Hb Hself Ha Hdb Hj. exists (entered b (entered a w)). split.
  - set (ts := [aliveNode a false; aliveNode b false]).
    etrans; [apply (some_schedule 3 (aliveNode a false) (enter a) w w 0); [by apply alive_reads|done]|].
    etrans; [apply (some_schedule 3 (aliveNode b false) (enter b) w w 1); [|done]|].
    { apply alive_reads; by rewrite ?Hb. }
    etrans; [apply (run_schedule (enter a) w (entered a w) 0); [by apply enter_run|done]|].
    etrans; [apply (run_schedule (enter b) (entered a w) (entered b (entered a w)) 1); [|done]|done].
    apply enter_run; [done|]. by rewrite Hb.
  - unfold view, entered. cbn [gos set_gos]. members. rewrite Hb, <- !app_assoc, lookup_insert_eq. split_and!; [done..|].
    intros [Hi _]. pose proof (inv_nodup _ Hi) as Hn. members.
    apply NoDup_app in Hn as (_ & _ & [Hin _]%NoDup_cons). apply Hin. by left.
Qed.

(** ** A death overtaken by its refutation *)

(** What a death report does once it found the record [state] of a node that is
    not known dead, in a thread and alone. *)
Definition found (d state : node_state) : thread world unit :=
  atomically (eraseSuspicion (Name_ d)) ;;
  atomically (on sub_node_num) ;;
  if bool_decide (State_ state = STATE_DEAD) then mret tt
  else
    conf ← read conf_;
    leaving ← read is_leaving_;
    let self := bool_decide (Name_ d = conf_Name conf) in
    if self && negb leaving then fuckyou (Dominant_ d)
    else
      atomically (on (updateNodeState (Name_ d) d)) ;;
      atomically (on (removeNodeState (Name_ d))) ;;
      broadcast (copy d) ;;
      registered ← read notify_leave_;
      t_when (negb self && registered) (atomically (on (notify (Left (Name_ d))))).

Definition found_alone (d state : node_state) : M gossiper unit :=
  Gossiper.eraseSuspicion (Name_ d) ;;
  sub_node_num ;;
  g ← get;
  let self := bool_decide (Name_ d = conf_Name (conf_ g)) in
  if bool_decide (State_ state = STATE_DEAD) then mret tt
  else if self && negb (is_leaving_ g) then Gossiper.fuckyou (Dominant_ d)
  else
    updateNodeState (Name_ d) d ;;
    removeNodeState (Name_ d) ;;
    Gossiper.broadcast (copy d) ;;
    g ← get;
    when (negb self && notify_leave_ g) (notify (Left (Name_ d))).

Lemma dead_reads d n w : node_map_ (gos w) !! Name_ d = Some n -> Dominant_ n <= Dominant_ d ->
  run_some 1 (deadNode d) w = Ok (found d n, w).
Proof.
  intros Hn Hd. unfold deadNode.
  rewrite (some_on _ _ _ _ (Some n) (gos w)) by (unfold getNodeState; run; by rewrite Hn).
  rewrite (proj2 (Z.ltb_ge _ _)) by done. by destruct w.
Qed.

Lemma found_agrees d n w : at_rest w -> agrees (quiet None) (found d n) (found_alone d n) w.
Proof.
  intros Hw%at_rest_quiet. unfold found, found_alone.
  apply agrees_bind; [by apply quiet_erases|]. intros _ w1 Hw1.
  apply agrees_bind; [by apply agrees_on; [apply _|..]|]. intros _ w2 Hw2. apply agrees_get. cbv zeta.
  destruct (bool_decide _); [by apply agrees_ret|].
  apply agrees_read; [done|]. apply agrees_read; [done|].
  destruct (_ && _); [by apply fuckyou_agrees; [apply _|]|].
  apply agrees_bind; [apply agrees_on; [apply _|apply blind_updateNodeState|done]|]. intros _ w3 Hw3.
  apply agrees_bind; [apply agrees_on; [apply _|apply blind_removeNodeState|done]|]. intros _ w4 Hw4.
  apply agrees_bind; [by apply broadcast_agrees; [apply _|]|]. intros _ w5 Hw5.
  apply agrees_get, agrees_read; [done|]. apply agrees_when; [done|by apply agrees_on; [apply _|..]].
Qed.

(** The record that is overwritten is whatever has come in the meantime. *)
Lemma found_run d n g : inv g -> State_ n <> STATE_DEAD -> Name_ d ∈ nodes_ g -> Name_ d <> self_name g ->
  exists g', found_alone d n g = Ok (tt, g') /\ Name_ d :: nodes_ g' ≡ₚ nodes_ g /\
    node_map_ g' = <[Name_ d := set_Timestamp 0 d]> (node_map_ g).
Proof.
  intros [Hg _] Hn Hin Hself. set (k := Name_ d) in *. unfold found_alone. fold k.
  destruct (inv_members _ Hg k) as [Hm _]. destruct (Hm Hin) as (m & Hk & _).
  step (eraseSuspicion_run k g). set (g1 := set_node_num_ (u32 (node_num_ g - 1))
    (set_posted_ (posted_ g ++ cancelled g k) (set_suspicions_ (delete k (suspicions_ g)) g))).
  step (eq_refl : sub_node_num _ = Ok (tt, g1)). step. cbv zeta.
  rewrite bool_decide_eq_false_2 by done. change (conf_Name (conf_ g1)) with (self_name g).
  rewrite bool_decide_eq_false_2 by done. cbn [andb negb].
  step (updateNodeState_run k d m g1 Hk). set (g2 := set_node_map_ _ g1).
  destruct (removeNodeState_run k g2 Hin) as (l & El & Hl). step El. set (g3 := set_node_num_ _ _).
  destruct (broadcast_run (copy d) g3) as (q & Eq & _); [exact (inv0_queue_ok g Hg)|apply wrap_range; lia|].
  step Eq. step. set (g4 := set_bc_queue_ q g3).
  exists (if notify_leave_ g4 then set_notified_ (notified_ g4 ++ [Left k]) g4 else g4).
  split; [by destruct (notify_leave_ g4)|]. by destruct (notify_leave_ g4).
Qed.

(** A newer alive report of a member that is not this node. *)
Lemma member_refutes a m g : inv g -> State_ a = STATE_ALIVE -> in_range 64 (Dominant_ a) ->
  Name_ a <> self_name g -> node_map_ g !! Name_ a = Some m -> Dominant_ m < Dominant_ a ->
  exists g', Gossiper.aliveNode a true g = Ok (tt, g') /\ inv g' /\ evolves g g' /\ alive_effect g g' a true.
Proof.
  intros Hg Ha Hr Hself Hm Hd. destruct (aliveNode_spec a true g Hg Ha Hr) as (g' & E & Hg' & Hev & He).
  exists g'. split_and!; [done..|]. unfold alive_accepts, known_dominant in He.
  by rewrite bool_decide_eq_false_2, andb_false_r, Hm, (proj2 (Z.ltb_lt _ _)) in He.
Qed.

(** C29: overwriting a record is not conditional on what was read. A thread that
    merges a death report of a member can find the record older than the report;
    then another thread merges the member's newer refutation; then the first one
    writes the death over it. The member is dropped, and the older report is its
    record, where either order of the two reports, one after the other, ends with
    the refutation: a thread's view does not only move up. *)
Theorem refutation_race (n d a : node_state) (w : world) : let g := gos w in let k := Name_ d in
  at_rest w -> inv (view w) -> node_map_ g !! k = Some n -> State_ n = STATE_ALIVE ->
  k <> self_name g -> Name_ a = k -> State_ d = STATE_DEAD -> State_ a = STATE_ALIVE ->
  Dominant_ n <= Dominant_ d < Dominant_ a -> in_range 64 (Dominant_ a) ->
  (exists w', rtc pool_step (mkPool w [deadNode d; aliveNode a true]) (mkPool w' [Done tt; Done tt]) /\
    node_map_ (gos w') !! k = Some (set_Timestamp 0 d) /\ k ∉ nodes_ (gos w')) /\
  (exists g', (Gossiper.deadNode d ;; Gossiper.aliveNode a true) (view w) = Ok (tt, g') /\
    node_map_ g' !! k = Some (set_Timestamp 0 a)) /\
  (exists g', (Gossiper.aliveNode a true ;; Gossiper.deadNode d) (view w) = Ok (tt, g') /\
    node_map_ g' !! k = Some (set_Timestamp 0 a)).
Proof.
  intros g k Hw Hi Hn Hal Hself Ha Hd Has Hdom Hr.
  assert (Name_ a <> self_name (view w)) as Hself' by (rewrite Ha; exact Hself).
  assert (node_map_ (view w) !! Name_ a = Some n) as Hn' by (rewrite Ha; exact Hn).
  assert (k ∈ nodes_ (view w)) as Hin.
  { apply (inv_members _ (proj1 Hi)). exists n. split; [exact Hn|by rewrite Hal]. }
  destruct (member_refutes a n _ Hi Has Hr Hself' Hn') as (g1 & E1 & Hi1 & Hev1 & Hm1 & Hl1 & _); [lia|].
  rewrite Ha in Hm1, Hl1. rewrite bool_decide_eq_false_2, app_nil_r in Hl1 by (by intros []).
  split_and!.
  - pose proof (aliveNode_agrees (quiet None) a true w (proj1 (at_rest_quiet w) Hw)) as Hag.
    unfold agrees in Hag. rewrite E1 in Hag. destruct Hag as (w1 & Er1 & Hw1%at_rest_quiet & <-).
    destruct (found_run d n (view w1)) as (g2 & E2 & Hl2 & Hm2);
      [done|by rewrite Hal|by rewrite Hl1|unfold self_name; by rewrite (ev_conf _ _ Hev1)|].
    pose proof (found_agrees d n w1 Hw1) as Hag. unfold agrees in Hag. rewrite E2 in Hag.
    destruct Hag as (w2 & Er2 & _ & V2). exists w2. split; [|split].
    + etrans; [apply (some_schedule 1 (deadNode d) (found d n) w w 0); [apply dead_reads; [done|lia]|done]|].
      etrans; [apply (run_schedule (aliveNode a true) w w1 1); [done|done]|].
      by apply (run_schedule (found d n) w1 w2 0).
    + change (node_map_ (view w2) !! k = Some (set_Timestamp 0 d)). rewrite V2, Hm2. apply lookup_insert_eq.
    + change (k ∉ nodes_ (view w2)). rewrite V2. pose proof (inv_nodup _ (proj1 Hi1)) as Hnd.
      rewrite <- Hl2 in Hnd. by apply NoDup_cons in Hnd as [? _].
  - destruct (deadNode_spec d (view w) Hi Hd) as (g2 & E2 & Hi2 & Hev2 & He). unfold dead_effect in He.
    change (node_map_ (view w) !! Name_ d) with (node_map_ g !! k) in He.
    rewrite Hn, (proj2 (Z.ltb_ge _ _)), Hal, (bool_decide_eq_false_2 (Name_ d = _)) in He by (done || lia).
    destruct He as (_ & _ & Hm2 & _).
    destruct (member_refutes a (set_Timestamp 0 d) g2) as (g3 & E3 & _ & _ & Hm3 & _); try done.
    + unfold self_name. by rewrite (ev_conf _ _ Hev2).
    + rewrite Hm2, Ha. apply lookup_insert_eq.
    + cbn. lia.
    + exists g3. rewrite (bind_Ok _ _ _ _ _ E2). split; [done|]. rewrite Hm3, Ha. apply lookup_insert_eq.
  - exists g1. rewrite (bind_Ok _ _ _ _ _ E1). rewrite Hm1, lookup_insert_eq. split; [|done].
    destruct (deadNode_spec d g1 Hi1 Hd) as (g2 & E2 & _ & _ & He). unfold dead_effect in He.
    rewrite Hm1, lookup_insert_eq in He. rewrite (proj2 (Z.ltb_lt _ _)) in He by (cbn; lia). by rewrite E2, He.
Qed.
End race.

(** ** Threads at the example *)

#[local] Existing Instance example_memory.

Definition b_older : node_state := b_record.
Definition b_newer : node_state := report "b:2" "b" "2" 9 STATE_ALIVE "".
Definition c_record : node_state := report "c:3" "c" "3" 4 STATE_ALIVE "".
Definition example_world : world := trusting example_start.

Lemma example_world_rest : at_rest example_world /\ view example_world = example_start.
Proof. by apply trusting_at_rest. Qed.

(** The newer report is merged first, both are entered, the older one stays. *)
Lemma join_race_witness : exists w', let g' := gos w' in
  rtc pool_step (mkPool example_world [aliveNode b_newer false; aliveNode b_older false])
    (mkPool w' [Done tt; Done tt]) /\
  nodes_ g' = ["b:2"; "b:2"] /\ node_num_ g' = 2 /\
  notified_ g' = [Joined "b:2"; Joined "b:2"] /\
  node_map_ g' !! "b:2" = Some (set_Timestamp 0 b_older) /\ ~ inv (view w').
Proof.
  destruct (join_race b_newer b_older example_world) as (w' & Hs & Hn & Hc & Hl & Hm);
    [evaluate..|]. exists w'. split; [exact Hs|]. split; [exact Hn|]. split; [exact Hc|]. by split.
Defined.

(** [b:2] refutes its death at dominant 6 with one at dominant 9, in vain. *)
Definition cluster_world : world := trusting example_cluster.

Lemma refutation_race_witness :
  (exists w', rtc pool_step (mkPool cluster_world [deadNode b_dead; aliveNode b_newer true])
      (mkPool w' [Done tt; Done tt]) /\
    node_map_ (gos w') !! "b:2" = Some (set_Timestamp 0 b_dead) /\ "b:2" ∉ nodes_ (gos w')) /\
  (exists g', (Gossiper.deadNode b_dead ;; Gossiper.aliveNode b_newer true) (view cluster_world) = Ok (tt, g') /\
    node_map_ g' !! "b:2" = Some (set_Timestamp 0 b_newer)) /\
  (exists g', (Gossiper.aliveNode b_newer true ;; Gossiper.deadNode b_dead) (view cluster_world) = Ok (tt, g') /\
    node_map_ g' !! "b:2" = Some (set_Timestamp 0 b_newer)).
Proof.
  destruct (trusting_at_rest example_cluster) as [Hw Hv]; [evaluate..|].
  pose proof example_cluster_inv as Hi. rewrite <- Hv in Hi.
  exact (refutation_race b_record b_dead b_newer cluster_world Hw Hi ltac:(evaluate) eq_refl
    ltac:(evaluate) eq_refl eq_refl eq_refl ltac:(cbn; lia) ltac:(split; [cbn; lia|done])).
Defined.

(** One thread learns of two nodes and suspects one of them; two threads merge
    reports of the same suspect, one of them runs a handler then. *)
Definition example_jobs : list (list job) :=
  [[Merge true b_record; Merge true c_record; Suspect (b_suspect "")];
   [Merge true (b_suspect "c:3")];
   [Merge true (b_suspect "d:4"); Handler]].

(** The third thread has found the suspicion when the second one confirms it,
    convicts, and drops it from the table. *)
Definition half_way : pool world :=
  let p := mkPool example_world (do_jobs <$> example_jobs) in
  match take_turns [(0, 100); (2, 2); (1, 7)]%nat p with Ok p => p | Crash _ => p end.

Lemma half_way_steps : rtc pool_step (mkPool example_world (do_jobs <$> example_jobs)) half_way.
Proof.
  unfold half_way. cbv zeta. destruct (take_turns _ _) as [p|] eqn:E; [|done]. by eapply turns_schedule.
Qed.

Lemma example_jobs_typed : Forall (Forall (fun j => brings j typed_record)) example_jobs.
Proof.
  repeat first [apply Forall_nil_2 | apply Forall_cons_2]; try done.
  all: split_and!; [first [by exists 2 | by exists 3]|done|done|].
  all: first [by exists 0 | by exists 1 | by exists 2].
Qed.

Lemma example_start_typed : holds typed_record example_start.
Proof. apply gossiper_new_holds. intros d Hd. by apply self_state_typed. Qed.

Lemma threads_safe_witness : let w := shared half_way in
  table w !! "b:2" = None /\ refs <$> heap w !! 0%nat = Some 2%nat /\ mutex_free 0 w = false /\
  (forall f, pool_crashes half_way f -> f = BadFloatCast) /\ sn pool_step half_way.
Proof.
  cbv zeta. split; [by vm_compute|]. split; [by vm_compute|]. split; [by vm_compute|].
  pose proof (threads_safe typed_record example_world example_jobs half_way (proj1 example_world_rest)
    (gossiper_new_inv _ _ _) example_start_typed example_jobs_typed half_way_steps)
    as (Hf & _ & _ & _ & _ & Hsn & _).
  split; [|exact Hsn]. intros f Hc. destruct (Hf f Hc) as [|[_ [Hst|[n Hn]]]]; [done|discriminate Hst|discriminate Hn].
Defined.

(** The same jobs, one thread after the other. *)
Definition in_turn : gossiper :=
  state_after (for_each (take 2 example_jobs) (fun l => for_each l job_alone)) example_start.

Lemma threads_in_turn_witness :
  nodes_ in_turn = ["c:3"] /\
  exists w', rtc pool_step (mkPool example_world (do_jobs <$> take 2 example_jobs)) (mkPool w' [Done tt; Done tt]) /\
    view w' = in_turn /\ at_rest w'.
Proof.
  split; [by vm_compute|].
  refine (threads_in_turn example_world in_turn (take 2 example_jobs) (proj1 example_world_rest) _ _).
  - by repeat constructor.
  - by vm_compute.
Defined.
