(* ===== verification/Timer.v ===== *)
(** * Steady timers, as asio runs them

    [asio::steady_timer] and the part of its queue the program uses, from the
    vendored sources (deadline_timer_service.hpp and timer_queue.hpp). A wait is
    the handler to run; a completion is a handler with its error code. Times are
    nanoseconds of [steady_clock]; each operation is given the time it reads. The
    clock's arithmetic stays far below its 64 bits and does not wrap here. *)
From S2P Require Import Prelude.
Local Open Scope Z_scope.

Inductive error_code := Success | OperationAborted | OtherError.

#[global] Instance error_code_eq_dec : EqDecision error_code.
Proof. solve_decision. Defined.

(** [if (ec)]. *)
Definition is_error (ec : error_code) : bool := match ec with Success => false | _ => true end.

Record steady_timer (H : Type) := mkTimer {
  expiry : Z;
  might_have_pending_waits : bool;
  op_queue_ : list H
}.
Arguments mkTimer {H} _ _ _.
Arguments expiry {H} _.
Arguments might_have_pending_waits {H} _.
Arguments op_queue_ {H} _.

(** [std::chrono::milliseconds] in nanoseconds, and the clock's last point. *)
Definition milliseconds (n : Z) : Z := n * 1000000.
Definition time_point_max : Z := 2 ^ 63 - 1.

Section timer.
Context {H : Type}.
Implicit Types (t : steady_timer H).

Definition timer_new : steady_timer H := mkTimer 0 false [].

(** [cancel_timer]: every waiting operation completes with [operation_aborted]. *)
Definition cancel_timer t : steady_timer H * list (error_code * H) :=
  (mkTimer (expiry t) (might_have_pending_waits t) [],
   (fun h => (OperationAborted, h)) <$> op_queue_ t).

Definition timer_cancel t : steady_timer H * list (error_code * H) :=
  if might_have_pending_waits t then
    let '(t, completions) := cancel_timer t in
    (mkTimer (expiry t) false (op_queue_ t), completions)
  else (t, []).

(** The setters cancel first. *)
Definition expires_at (expiry_time : Z) t : steady_timer H * list (error_code * H) :=
  let '(t, completions) := timer_cancel t in
  (mkTimer expiry_time (might_have_pending_waits t) (op_queue_ t), completions).

Definition expires_from_now (now duration : Z) t : steady_timer H * list (error_code * H) :=
  expires_at (now + duration) t.

Definition async_wait (handler : H) t : steady_timer H :=
  mkTimer (expiry t) true (op_queue_ t ++ [handler]).

(** [get_ready_timers], for one timer: not before its expiry. *)
Definition get_ready (now : Z) t : steady_timer H * list (error_code * H) :=
  if now <? expiry t then (t, [])
  else (mkTimer (expiry t) (might_have_pending_waits t) [],
        (fun h => (Success, h)) <$> op_queue_ t).

(** Waits are marked: [cancel] never misses one. *)
Definition timer_wf t : Prop := op_queue_ t <> [] -> might_have_pending_waits t = true.

Lemma timer_new_wf : timer_wf timer_new.
Proof. by intros []. Qed.

Lemma timer_cancel_spec t : timer_wf t ->
  timer_cancel t = (mkTimer (expiry t) false [], (fun h => (OperationAborted, h)) <$> op_queue_ t).
Proof.
  intros Hwf. unfold timer_cancel, cancel_timer. destruct t as [e [|] ops]; cbn in *; [done|].
  unfold timer_wf in Hwf. cbn in Hwf. destruct ops; [done|]. by discriminate Hwf.
Qed.

Lemma expires_at_spec e t : timer_wf t ->
  expires_at e t = (mkTimer e false [], (fun h => (OperationAborted, h)) <$> op_queue_ t).
Proof. intros Hwf. unfold expires_at. by rewrite timer_cancel_spec. Qed.

Lemma get_ready_early now t : now < expiry t -> get_ready now t = (t, []).
Proof. intros Hn. unfold get_ready. by rewrite (proj2 (Z.ltb_lt _ _)). Qed.

Lemma get_ready_late now t : expiry t <= now ->
  get_ready now t = (mkTimer (expiry t) (might_have_pending_waits t) [],
                     (fun h => (Success, h)) <$> op_queue_ t).
Proof. intros Hn. unfold get_ready. by rewrite (proj2 (Z.ltb_ge _ _)). Qed.

Lemma async_wait_wf h t : timer_wf (async_wait h t).
Proof. done. Qed.

Lemma get_ready_wf now t : timer_wf t -> timer_wf (get_ready now t).1.
Proof. unfold get_ready. destruct (now <? expiry t); [done|]. by intros _ ?. Qed.
(** Waits move between the timer and the completions, none appears or is lost. *)
Definition moves (op : steady_timer H -> steady_timer H * list (error_code * H)) : Prop :=
  forall t t' completions, timer_wf t -> op t = (t', completions) ->
    timer_wf t' /\ completions.*2 ++ op_queue_ t' = op_queue_ t.

Lemma completions_handlers (ec : error_code) (l : list H) : ((fun h => (ec, h)) <$> l).*2 = l.
Proof. rewrite <- list_fmap_compose. apply list_fmap_id. Qed.

Lemma timer_cancel_moves : moves timer_cancel.
Proof.
  intros t t' l Hwf. rewrite timer_cancel_spec by done. intros [= <- <-]. split; [by intros []|].
  cbn. by rewrite completions_handlers, app_nil_r.
Qed.

Lemma expires_at_moves e : moves (expires_at e).
Proof.
  intros t t' l Hwf. rewrite expires_at_spec by done. intros [= <- <-]. split; [by intros []|].
  cbn. by rewrite completions_handlers, app_nil_r.
Qed.

Lemma get_ready_moves now : moves (get_ready now).
Proof.
  intros t t' l Hwf. unfold get_ready. destruct (now <? expiry t); intros [= <- <-]; [done|].
  split; [by intros []|]. cbn. by rewrite completions_handlers, app_nil_r.
Qed.
End timer.
