(* ===== verification/Ticker.v ===== *)
(** * src/ticker.hpp: the ticker

    [AsioTicker] on a steady timer. Its handler is always [checkDeadline], bound
    without the error code. The callback does not touch the ticker; the times at
    which it was called are recorded. [checkDeadline] reads the clock twice, the
    callback runs in between. *)
From stdpp Require Import relations.
From S2P Require Import Prelude Timer.
Local Open Scope Z_scope.

(** [ready_]: completed waits whose handler the [io_service] has yet to run. *)
Record AsioTicker := mkTicker {
  timer_ : steady_timer unit;
  op_ : bool;                             (* is there a callback *)
  timeout_ : Z;
  ready_ : list (error_code * unit);
  calls_ : list Z
}.

(** The constructor leaves [timeout_] unset; nothing reads it before [Tick]. *)
Definition ticker_new : AsioTicker := mkTicker timer_new false 0 [] [].

Definition Tick (now timeout : Z) (op : bool) (t : AsioTicker) : AsioTicker :=
  let '(timer, aborted) := expires_from_now now (milliseconds timeout) (timer_ t) in
  mkTicker (async_wait tt timer) op (milliseconds timeout) (ready_ t ++ aborted) (calls_ t).

Definition Stop (t : AsioTicker) : AsioTicker :=
  let '(timer, aborted) := timer_cancel (timer_ t) in
  mkTicker timer (op_ t) (timeout_ t) (ready_ t ++ aborted) (calls_ t).

(** [now] when the expiry is compared, [later] when the timer is set again. *)
Definition checkDeadline (now later : Z) (t : AsioTicker) : AsioTicker :=
  if expiry (timer_ t) <=? now then
    let '(timer, aborted) := expires_from_now later (timeout_ t) (timer_ t) in
    mkTicker (async_wait tt timer) (op_ t) (timeout_ t) (ready_ t ++ aborted)
      (if op_ t then calls_ t ++ [now] else calls_ t)
  else
    mkTicker (async_wait tt (timer_ t)) (op_ t) (timeout_ t) (ready_ t) (calls_ t).

(** The timer queue hands over a wait whose time has come. *)
Definition expire (now : Z) (t : AsioTicker) : AsioTicker :=
  let '(timer, done) := get_ready now (timer_ t) in
  mkTicker timer (op_ t) (timeout_ t) (ready_ t ++ done) (calls_ t).

(** The [io_service] runs the first completed handler, whatever its error code. *)
Definition run_ready (now later : Z) (t : AsioTicker) : AsioTicker :=
  match ready_ t with
  | [] => t
  | _ :: ready =>
    checkDeadline now later (mkTicker (timer_ t) (op_ t) (timeout_ t) ready (calls_ t))
  end.

(** ** The ticker in time *)

Inductive tick_step : Z * AsioTicker -> Z * AsioTicker -> Prop :=
  | tick_time now later t : now <= later -> tick_step (now, t) (later, t)
  | tick_expire now t : tick_step (now, t) (now, expire now t)
  | tick_run now later t : now <= later -> tick_step (now, t) (later, run_ready now later t)
  | tick_stop now t : tick_step (now, t) (now, Stop t).

(** The calls are at least [timeout] apart, the first at least that after [start]. *)
Fixpoint spaced (start timeout : Z) (calls : list Z) : Prop :=
  match calls with
  | [] => True
  | c :: calls => start + timeout <= c /\ spaced c timeout calls
  end.

(** One wait is outstanding, in the timer or in the [io_service]; the expiry is
    a timeout after the last call. *)
Record ticker_inv (start timeout : Z) (w : Z * AsioTicker) : Prop := {
  tk_one : (length (op_queue_ (timer_ w.2)) + length (ready_ w.2) = 1)%nat;
  tk_wf : timer_wf (timer_ w.2);
  tk_timeout : timeout_ w.2 = timeout;
  tk_op : op_ w.2 = true;
  tk_spaced : spaced start timeout (calls_ w.2);
  tk_last : List.last (calls_ w.2) start + timeout <= expiry (timer_ w.2);
  tk_now : List.last (calls_ w.2) start <= w.1;
  tk_near : expiry (timer_ w.2) <= w.1 + timeout
}.

Lemma spaced_app start timeout calls c : spaced start timeout calls ->
  List.last calls start + timeout <= c -> spaced start timeout (calls ++ [c]).
Proof.
  revert start. induction calls as [|c0 calls IH]; intros start; [done|].
  intros [Hc Hs] Hl. split; [done|]. apply IH; [done|]. by rewrite last_cons_default in Hl.
Qed.

Lemma last_snoc_default (l : list Z) x d : List.last (l ++ [x]) d = x.
Proof. apply last_last. Qed.

Lemma Tick_inv now timeout : 0 <= timeout ->
  ticker_inv now (milliseconds timeout) (now, Tick now timeout true ticker_new).
Proof.
  intros Ht. unfold Tick, ticker_new. cbn. split; cbn; try done; unfold milliseconds; lia.
Qed.

Lemma checkDeadline_inv start timeout now later t : 0 <= timeout -> now <= later ->
  ready_ t = [] -> op_queue_ (timer_ t) = [] ->
  timer_wf (timer_ t) -> timeout_ t = timeout -> op_ t = true ->
  spaced start timeout (calls_ t) -> List.last (calls_ t) start + timeout <= expiry (timer_ t) ->
  List.last (calls_ t) start <= now -> expiry (timer_ t) <= now + timeout ->
  ticker_inv start timeout (later, checkDeadline now later t).
Proof.
  intros Ht Hl Hr Hq Hwf Hto Hop Hs Hla Hn Hnear. unfold checkDeadline.
  rewrite Hop, Hto. destruct (Z.leb_spec (expiry (timer_ t)) now) as [He|He].
  - unfold expires_from_now. rewrite expires_at_spec by done. rewrite Hq, Hr. cbn.
    split; cbn; try done; rewrite ?last_snoc_default; try lia.
    apply spaced_app; [done|lia].
  - split; cbn; try done; rewrite ?Hq, ?Hr; cbn; try done; lia.
Qed.

Lemma tick_step_inv start timeout w w' : 0 <= timeout -> tick_step w w' ->
  ticker_inv start timeout w -> ticker_inv start timeout w'.
Proof.
  intros Ht Hs [H1 H2 H3 H4 H5 H6 H7 H8]. destruct Hs as [now later t Hl|now t|now later t Hl|now t]; cbn in *.
  - split; cbn; try done; lia.
  - unfold expire. destruct (Z.lt_ge_cases now (expiry (timer_ t))).
    + rewrite get_ready_early by done. rewrite app_nil_r. by split.
    + rewrite get_ready_late by done.
      split; cbn; try done; [rewrite length_app, length_fmap; lia|by intros []].
  - unfold run_ready. destruct (ready_ t) as [|c ready] eqn:Er.
    { split; cbn; rewrite ?Er; try done; cbn in *; lia. }
    cbn in H1. assert (op_queue_ (timer_ t) = []) as Hq by (apply length_zero_iff_nil; lia).
    assert (ready = []) as -> by (apply length_zero_iff_nil; lia).
    eapply checkDeadline_inv; cbn; try done.
  - unfold Stop. rewrite timer_cancel_spec by done.
    split; cbn; try done; [rewrite length_app, length_fmap; lia|by intros []].
Qed.

Lemma tick_steps_inv start timeout w w' : 0 <= timeout -> rtc tick_step w w' ->
  ticker_inv start timeout w -> ticker_inv start timeout w'.
Proof. intros Ht. induction 1; [done|]. eauto using tick_step_inv. Qed.

(** From any state the pending handler can run, and at the expiry it calls. *)
Lemma ticker_calls_again start timeout now t : 0 <= timeout -> ticker_inv start timeout (now, t) ->
  exists t', rtc tick_step (now, t) (Z.max now (expiry (timer_ t)), t') /\
    calls_ t' = calls_ t ++ [Z.max now (expiry (timer_ t))].
Proof.
  intros Ht Hi. set (at_ := Z.max now (expiry (timer_ t))).
  (* Once the wait is in the timer: let time pass, expire, run. *)
  assert (forall now1 t1, now1 <= at_ -> ticker_inv start timeout (now1, t1) -> ready_ t1 = [] ->
    expiry (timer_ t1) <= at_ -> exists t', rtc tick_step (now1, t1) (at_, t') /\
    calls_ t' = calls_ t1 ++ [at_]) as Hgo.
  { intros now1 t1 Hle Hi1 Hr He. destruct Hi1 as [H1 H2 H3 H4 _ _ _ _]. cbn in *.
    rewrite Hr in H1. cbn in H1. destruct (op_queue_ (timer_ t1)) as [|[] [|]] eqn:Eq; cbn in H1; [lia| |lia].
    eexists. split.
    - eapply rtc_l; [by apply (tick_time now1 at_)|]. eapply rtc_l; [apply tick_expire|].
      eapply rtc_l; [by apply (tick_run at_ at_)|]. apply rtc_refl.
    - unfold expire. rewrite get_ready_late by done. unfold run_ready. cbn [ready_].
      rewrite Hr, Eq. cbn. unfold checkDeadline. cbn [timer_ expiry timeout_ op_ ready_ calls_].
      rewrite (proj2 (Z.leb_le _ _)) by done. rewrite H4. by destruct (expires_from_now _ _ _). }
  destruct (ready_ t) as [|[ec []] ready] eqn:Er; [apply Hgo; (done || lia)|].
  (* The handler is in the io_service: it calls now, or waits again. *)
  pose proof (tick_step_inv start timeout _ _ Ht (tick_run now now t ltac:(lia)) Hi) as Hi2.
  assert (ready = []) as ->.
  { destruct Hi as [H1 _ _ _ _ _ _ _]. cbn in H1. rewrite Er in H1. cbn in H1.
    apply length_zero_iff_nil. lia. }
  destruct (Z.le_gt_cases (expiry (timer_ t)) now) as [He|He].
  - assert (at_ = now) as -> by lia. exists (run_ready now now t). split.
    + eapply rtc_l; [by apply tick_run|apply rtc_refl].
    + destruct Hi as [_ _ _ H4 _ _ _ _]. cbn in H4. unfold run_ready. rewrite Er.
      unfold checkDeadline. cbn [timer_ expiry timeout_ op_ ready_ calls_].
      rewrite (proj2 (Z.leb_le _ _)) by done. rewrite H4.
      by destruct (expires_from_now _ _ _).
  - assert (run_ready now now t = mkTicker (async_wait tt (timer_ t)) (op_ t) (timeout_ t) [] (calls_ t)) as E.
    { unfold run_ready. rewrite Er. unfold checkDeadline. cbn [timer_ expiry].
      by rewrite (proj2 (Z.leb_gt _ _)). }
    rewrite E in Hi2. destruct (Hgo now (mkTicker (async_wait tt (timer_ t)) (op_ t) (timeout_ t) [] (calls_ t)))
      as (t' & Hs & Hc); [lia|done|done|cbn; lia|].
    exists t'. split; [|done]. eapply rtc_l; [|exact Hs]. rewrite <- E. by apply tick_run.
Qed.

(** C33: the ticker keeps time, and cannot be stopped. From [Tick] on, through any
    interleaving of clock, timer queue, handler runs and calls of [Stop], one wait
    is outstanding, the callback's calls are at least [timeout] apart, and from
    every state the callback is called again as soon as the timer's current expiry
    has come: [Stop] cancels a wait whose handler simply waits again. *)
Theorem ticker_keeps_time (start timeout now : Z) (t : AsioTicker) : 0 <= timeout ->
  rtc tick_step (start, Tick start timeout true ticker_new) (now, t) ->
  (length (op_queue_ (timer_ t)) + length (ready_ t) = 1)%nat /\
  spaced start (milliseconds timeout) (calls_ t) /\
  expiry (timer_ t) <= now + milliseconds timeout /\
  exists t', rtc tick_step (now, t) (Z.max now (expiry (timer_ t)), t') /\
    calls_ t' = calls_ t ++ [Z.max now (expiry (timer_ t))].
Proof.
  intros Ht Hs. assert (0 <= milliseconds timeout) as Hm by (unfold milliseconds; lia).
  pose proof (tick_steps_inv _ _ _ _ Hm Hs (Tick_inv start timeout Ht)) as Hi.
  split_and!; [apply Hi..|]. eapply ticker_calls_again; [exact Hm|exact Hi].
Qed.

(** A ticker of 500 ms, stopped before its first call. *)
Definition stopped_ticker : AsioTicker := Stop (Tick 0 500 true ticker_new).

Lemma ticker_keeps_time_witness :
  exists t', rtc tick_step (7, stopped_ticker) (500000000, t') /\ calls_ t' = [500000000].
Proof.
  destruct (ticker_keeps_time 0 500 7 stopped_ticker) as (_ & _ & _ & H); [lia| |exact H].
  eapply rtc_l; [apply tick_stop|]. eapply rtc_l; [by apply (tick_time 0 7)|apply rtc_refl].
Defined.
