(* ===== verification/UdpServer.v ===== *)
(** * src/network/udp/runner.hpp: the UDP server

    The server has one operation under way at a time: it receives, and answers
    in the buffer it received into before it receives again. What it relies on of
    its packet handler is the [PacketHandlerOk] interface; the gossiper's
    [handlePacket] is an instance. *)
From stdpp Require Import relations.
From S2P Require Import Prelude Utils Bytes Header Node Broadcast Suspicion Messages Gossiper.
From S2P Require Import Membership Protocol Dynamics Exchange Timer.
Local Open Scope Z_scope.

(** [packet_handler]: the buffer it reads and answers in, the bytes received,
    the room for the answer; the length of the answer, none if not positive. *)
Class PacketHandler (S : Type) := handle_packet_ : list Z -> Z -> Z -> M S (Z * list Z).

Class PacketHandlerOk {S : Type} (P : PacketHandler S) : Prop :=
  handle_packet_fits data size resp_size s r data' s' :
    handle_packet_ data size resp_size s = Ok ((r, data'), s') ->
    length data' = length data /\ (resp_size = len data -> r <= resp_size).

Definition mtu_ : Z := 1460.

(** The asynchronous operations under way. *)
Inductive operation :=
  | Receiving
  | Sending (length : Z).

Record Server := mkServer {
  data_ : list Z;
  pending : list operation
}.

Section server.
Context {S : Type} `{!PacketHandler S}.

Definition doReceive (s : Server) : Server := mkServer (data_ s) (pending s ++ [Receiving]).

(** [asio::buffer] of the array takes at most the array. *)
Definition doSend (length : Z) (s : Server) : Server :=
  mkServer (data_ s) (pending s ++ [Sending (Z.min length mtu_)]).

Definition Start : Server -> Server := doReceive.

(** The completion handler of [doReceive]. *)
Definition on_received (ec : error_code) (bytes_recvd : Z) (s : Server) : M S Server :=
  if negb (is_error ec) && (0 <? bytes_recvd) then
    '(response_length, data) ← handle_packet_ (data_ s) bytes_recvd mtu_;
    let s := mkServer data (pending s) in
    if 0 <? response_length then mret (doSend response_length s)
    else mret (doReceive s)
  else mret (doReceive s).

(** The completion handler of [doSend]: errors are printed. *)
Definition on_sent (ec : error_code) (s : Server) : Server := doReceive s.

(** ** The server in its world

    Datagrams wait in [inbox]; of a longer one the buffer gets the front. What
    was sent is in [outbox], each with the length given to the socket. *)
Record world := mkWorld {
  server : Server;
  owner : S;
  inbox : list (list Z);
  outbox : list (list Z)
}.

Definition received_size (d : list Z) : Z := Z.min (len d) mtu_.

Inductive serve_step : world -> world -> Prop :=
  | serve_receive d inbox outbox data s a s' a' :
      on_received Success (received_size d) (mkServer (received (received_size d) d data) s) a = Ok (s', a') ->
      serve_step (mkWorld (mkServer data (Receiving :: s)) a (d :: inbox) outbox)
                 (mkWorld s' a' inbox outbox)
  | serve_receive_error ec data s a s' a' inbox outbox :
      is_error ec = true -> on_received ec 0 (mkServer data s) a = Ok (s', a') ->
      serve_step (mkWorld (mkServer data (Receiving :: s)) a inbox outbox) (mkWorld s' a' inbox outbox)
  | serve_send n data s a inbox outbox :
      serve_step (mkWorld (mkServer data (Sending n :: s)) a inbox outbox)
        (mkWorld (on_sent Success (mkServer data s)) a inbox (outbox ++ [take (Z.to_nat n) data]))
  | serve_send_error ec n data s a inbox outbox : is_error ec = true ->
      serve_step (mkWorld (mkServer data (Sending n :: s)) a inbox outbox)
        (mkWorld (on_sent ec (mkServer data s)) a inbox outbox).

(** ** The reference: one datagram after the other *)

(** The answers there are, and the buffer at the end. *)
Fixpoint serve_all (ds : list (list Z)) (data : list Z) : M S (list (list Z) * list Z) :=
  match ds with
  | [] => mret ([], data)
  | d :: ds =>
    let size := received_size d in
    if 0 <? size then
      '(r, resp) ← handle_packet_ (received size d data) size mtu_;
      '(answers, data) ← serve_all ds resp;
      mret (if 0 <? r then take (Z.to_nat r) resp :: answers else answers, data)
    else serve_all ds data
  end.

Context `{!PacketHandlerOk _}.

Lemma length_received size d old : 0 <= size <= len d -> size <= len old ->
  length (received size d old) = length old.
Proof. unfold received, len. intros. rewrite length_app, length_take, length_drop. lia. Qed.

Lemma received_size_le d : 0 <= received_size d <= len d /\ received_size d <= mtu_.
Proof. unfold received_size, len, mtu_. lia. Qed.

Lemma serve_all_length ds data s r data' s' : len data = mtu_ ->
  serve_all ds data s = Ok ((r, data'), s') -> len data' = mtu_.
Proof.
  revert data s r. induction ds as [|d ds IH]; intros data s r Hd; cbn [serve_all].
  { by intros [= _ <- _]. }
  pose proof (received_size_le d). destruct (0 <? received_size d); [|apply IH, Hd]. run.
  destruct (handle_packet_ _ _ _ s) as [[[r1 resp] s1]|] eqn:E; [|done].
  apply handle_packet_fits in E as [Hl _].
  rewrite length_received in Hl by lia.
  destruct (serve_all ds resp s1) as [[[as1 data1] s2]|] eqn:E2; [|done]. intros [= _ <- <-].
  eapply IH, E2. unfold len in *. lia.
Qed.

(** One more datagram at the end. *)
Lemma serve_all_snoc ds d data s answers data1 s1 :
  serve_all ds data s = Ok ((answers, data1), s1) ->
  serve_all (ds ++ [d]) data s =
    (if 0 <? received_size d then
       '(r, resp) ← handle_packet_ (received (received_size d) d data1) (received_size d) mtu_;
       mret (if 0 <? r then answers ++ [take (Z.to_nat r) resp] else answers, resp)
     else mret (answers, data1)) s1.
Proof.
  revert data s answers. induction ds as [|d0 ds IH]; intros data s answers; cbn [serve_all app].
  - intros [= <- <- <-]. destruct (0 <? received_size d); [|done]. run.
    destruct (handle_packet_ _ _ _ s) as [[[r resp] s2]|]; [|done]. by destruct (0 <? r).
  - destruct (0 <? received_size d0); [|apply IH]. run.
    destruct (handle_packet_ (received (received_size d0) d0 data) _ _ s) as [[[r0 resp] s2]|]; [|done].
    destruct (serve_all ds resp s2) as [[[as1 data2] s3]|] eqn:E; [|done]. intros [= <- <- <-].
    rewrite (IH _ _ _ E). destruct (0 <? received_size d); [|done]. run.
    destruct (handle_packet_ (received (received_size d) d data2) _ _ s3) as [[[r resp2] s4]|]; [|done].
    by destruct (0 <? r0), (0 <? r).
Qed.

(** ** The loop refines the reference *)

(** What the server is doing after it has taken [done] off the network. *)
Definition serving (data0 : list Z) (a0 : S) (taken : list (list Z)) (w : world) : Prop :=
  exists answers, serve_all taken data0 a0 = Ok ((answers, data_ (server w)), owner w) /\
    ((pending (server w) = [Receiving] /\ sublist (outbox w) answers) \/
     exists n earlier, pending (server w) = [Sending n] /\ 0 < n <= mtu_ /\
       answers = earlier ++ [take (Z.to_nat n) (data_ (server w))] /\ sublist (outbox w) earlier).

Lemma on_received_ok d data s s' a a' : len data = mtu_ ->
  on_received Success (received_size d) (mkServer (received (received_size d) d data) s) a = Ok (s', a') ->
  if 0 <? received_size d then
    exists r resp, handle_packet_ (received (received_size d) d data) (received_size d) mtu_ a = Ok ((r, resp), a') /\
      r <= mtu_ /\ s' = mkServer resp (s ++ [if 0 <? r then Sending r else Receiving])
  else a' = a /\ data_ s' = data /\ pending s' = s ++ [Receiving].
Proof.
  intros Hl. unfold on_received. change (is_error Success) with false. cbn [negb andb data_ pending]. pose proof (received_size_le d) as Hsz.
  destruct (Z.ltb_spec 0 (received_size d)) as [Hp|Hz].
  - run. destruct (handle_packet_ _ _ _ a) as [[[r resp] a1]|] eqn:E; [|done].
    pose proof (handle_packet_fits _ _ _ _ _ _ _ E) as [Hlen Hr].
    assert (r <= mtu_) as Hm.
    { apply Hr. unfold len. rewrite length_received by (unfold len, mtu_ in *; lia). by rewrite <- Hl. }
    intros Hx. exists r, resp. destruct (0 <? r) eqn:E0; injection Hx as <- <-; split_and!; try done.
    unfold doSend. cbn. by rewrite Z.min_l.
  - intros [= <- <-]. split_and!; [done| |done]. cbn. unfold received.
    assert (received_size d = 0) as -> by lia. done.
Qed.

Lemma serving_step data0 a0 taken w w' : len data0 = mtu_ -> serve_step w w' -> serving data0 a0 taken w ->
  exists taken', serving data0 a0 taken' w' /\
    taken' ++ inbox w' = taken ++ inbox w.
Proof.
  intros Hl Hs (answers & E & Hw). pose proof (serve_all_length _ _ _ _ _ _ Hl E) as Hdl.
  destruct Hs as [d ib ob data s a s' a' Hr|ec data s a s' a' ib ob He Hr|n data s a ib ob|ec n data s a ib ob He];
    cbn [server data_ pending owner inbox outbox] in *.
  - destruct Hw as [[Hp Ho]|(n & e & Hp & _)]; [|done]. injection Hp as ->.
    apply on_received_ok in Hr; [|done]. pose proof (serve_all_snoc taken d _ _ _ _ _ E) as E2.
    exists (taken ++ [d]). split; [|by rewrite <- app_assoc].
    destruct (0 <? received_size d).
    + destruct Hr as (r & resp & Eh & Hm & ->). run in E2. rewrite Eh in E2.
      eexists. split; [exact E2|]. cbn. destruct (Z.ltb_spec 0 r); [|by left].
      right. exists r, answers. split_and!; done.
    + destruct Hr as (-> & Hd & Hp). exists answers. split; [cbn; by rewrite E2, Hd|].
      left. cbn. by rewrite Hp.
  - destruct Hw as [[Hp Ho]|(n & e & Hp & _)]; [|done]. injection Hp as ->. exists taken.
    split; [|done]. unfold on_received in Hr. rewrite He in Hr. injection Hr as <- <-.
    exists answers. split; [done|by left].
  - destruct Hw as [[Hp _]|(n' & e & Hp & Hn & -> & Ho)]; [done|]. injection Hp as -> ->. exists taken.
    split; [|done]. eexists. split; [exact E|]. left. split; [done|]. cbn. by apply sublist_app.
  - destruct Hw as [[Hp _]|(n' & e & Hp & Hn & -> & Ho)]; [done|]. injection Hp as -> ->. exists taken.
    split; [|done]. eexists. split; [exact E|]. left. split; [done|]. cbn.
    by apply sublist_inserts_r.
Qed.

Lemma serve_all_answers ds data s r data' s' : len data = mtu_ ->
  serve_all ds data s = Ok ((r, data'), s') -> Forall (fun a => 0 < len a <= mtu_) r.
Proof.
  revert data s r. induction ds as [|d ds IH]; intros data s r Hd; cbn [serve_all].
  { by intros [= <- _ _]. }
  pose proof (received_size_le d). destruct (0 <? received_size d); [|apply IH, Hd]. run.
  destruct (handle_packet_ _ _ _ s) as [[[r1 resp] s1]|] eqn:E; [|done].
  apply handle_packet_fits in E as [Hl Hr]. unfold len in Hr.
  rewrite length_received in Hl, Hr by lia.
  destruct (serve_all ds resp s1) as [[[as1 data1] s2]|] eqn:E2; [|done]. intros [= <- <- <-].
  assert (Forall (fun a => 0 < len a <= mtu_) as1) as Has by (eapply IH, E2; unfold len in *; lia).
  destruct (Z.ltb_spec 0 r1); [|done]. constructor; [|done].
  unfold len in *. rewrite length_take. lia.
Qed.

Lemma serving_steps data0 a0 taken w w' : len data0 = mtu_ -> rtc serve_step w w' ->
  serving data0 a0 taken w -> exists taken', serving data0 a0 taken' w' /\
    taken' ++ inbox w' = taken ++ inbox w.
Proof.
  intros Hl Hs. revert taken. induction Hs as [w|w1 w2 w3 H12 _ IH]; intros taken Hw; [by exists taken|].
  destruct (serving_step _ _ _ _ _ Hl H12 Hw) as (t2 & Hw2 & E2).
  destruct (IH t2 Hw2) as (t3 & Hw3 & E3). exists t3. split; [done|congruence].
Qed.

Lemma serving_start data a ds : serving data a [] (mkWorld (Start (mkServer data [])) a ds []).
Proof. exists []. split; [done|by left]. Qed.
End server.

(** ** The gossiper answers packets *)

Section gossiper.
Context (host : endian) `{IterationOrder} `{Residue} `{!MessageCodec}.

Lemma appendDeadAlert_fits n buff pos size r buff' : appendDeadAlert n buff pos size = Ok (r, buff') ->
  length buff' = length buff /\ (0 <= size -> r <= size).
Proof.
  unfold appendDeadAlert. intros (w & _ & E)%outcome_bind_Ok.
  destruct (Z.ltb_spec size (len (encode_NodeState w))); [by injection E as <- <-|].
  apply outcome_bind_Ok in E as (b & Eb%memcpy_length & [= <- <-]). done.
Qed.

Lemma answerPing_fits ns seq data resp_size r data' :
  answerPing host ns seq data resp_size = Ok (r, data') ->
  length data' = length data /\ (0 <= resp_size -> r <= resp_size).
Proof.
  unfold answerPing. set (ack := encode_Pong _).
  destruct (Z.ltb_spec resp_size (HEADER_SIZE + len ack)); [intros [= <- <-]; split; [done|lia]|].
  intros (b1 & E1%EncodeHeader_length & (b2 & E2%memcpy_length & E)%outcome_bind_Ok)%outcome_bind_Ok.
  assert (len ack + HEADER_SIZE <= resp_size) by lia.
  destruct ns as [n|]; [|injection E as <- <-; split; [congruence|done]].
  destruct (bool_decide _); [|injection E as <- <-; split; [congruence|done]].
  apply outcome_bind_Ok in E as ([r3 b3] & E3%appendDeadAlert_fits & [= <- <-]).
  destruct E3 as [El Er]. split; [congruence|lia].
Qed.

#[export] Instance gossiper_packets : PacketHandler gossiper := handlePacket host.

#[export] Instance gossiper_packets_ok : PacketHandlerOk gossiper_packets.
Proof.
  intros data size resp_size g r data' g'. unfold handle_packet_, gossiper_packets, handlePacket. run.
  destruct (DecodeHeader host data) as [h|]; [|done].
  destruct (Type_ h =? TYPE_PING).
  - destruct (Ping_from data HEADER_SIZE) as [from|]; [|done].
    destruct (deref_opt from) as [k|]; [|done].
    cbn [getNodeState]. unfold getNodeState. run.
    match goal with |- context [match ?c with Ok _ => _ | Crash _ => _ end] => destruct c as [[[] g1]|] eqn:Em end; [|done].
    destruct (Ping_seqNo data HEADER_SIZE) as [seqNo|]; [|done].
    destruct (answerPing _ _ _ _ _) as [[r1 b1]|] eqn:E; [|done]. intros [= <- <- <-].
    apply answerPing_fits in E as [Hl Hr]. split; [done|]. intros ->. apply Hr. unfold len. lia.
  - intros [= <- <- <-]. split; [done|]. intros ->. unfold len. lia.
Qed.

(** C34: the UDP server is a loop over datagrams. From [Start] on, whatever the
    order of completions and errors, it has one operation under way, never none;
    the gossiper has merged the datagrams taken off the network one after the
    other, each answer written over the datagram it answers; and what was sent is
    a part, in order, of those answers, none empty and none longer than [mtu_]. *)
Theorem udp_server_serves (ds : list (list Z)) (buff : list Z) (g : gossiper) (w : world) :
  len buff = mtu_ -> rtc serve_step (mkWorld (Start (mkServer buff [])) g ds []) w ->
  length (pending (server w)) = 1%nat /\
  exists taken answers, ds = taken ++ inbox w /\
    serve_all taken buff g = Ok ((answers, data_ (server w)), owner w) /\
    sublist (outbox w) answers /\ Forall (fun a => 0 < len a <= mtu_) (outbox w).
Proof.
  intros Hb Hs. destruct (serving_steps _ g [] _ _ Hb Hs (serving_start buff g ds)) as (taken & Hw & E).
  destruct Hw as (answers & Ea & Hp). pose proof (serve_all_answers _ _ _ _ _ _ Hb Ea) as Hall.
  assert (sublist (outbox w) answers /\ length (pending (server w)) = 1%nat) as [Hsub Hone].
  { destruct Hp as [[-> Ho]|(n & e & -> & _ & -> & Ho)]; split; try done.
    by apply sublist_inserts_r. }
  split; [done|]. exists taken, answers. split_and!; [by rewrite E|done|done|].
  apply Forall_forall. intros a Ha. apply (proj1 (Forall_forall _ _) Hall).
  by eapply elem_of_submseteq, sublist_submseteq.
Qed.
End gossiper.
