(* ===== verification/UdpClient.v ===== *)
(** * src/network/udp/async_client.hpp: the UDP client of a probe

    [AsyncClient] as a state machine: what it has asked of its timer and of its
    socket, the completions whose handlers the [io_service] has yet to run, and
    the handlers themselves. A callback is always the last thing a handler does,
    so handlers return the callback they call. The literal errors (from_string,
    open, cancel of a closed socket) throw in the [io_service]'s thread, where
    nobody catches: [Terminated]. *)
From stdpp Require Import relations.
From S2P Require Import Prelude Utils Bytes Timer.
Local Open Scope Z_scope.

(** The completion handlers, with the timeout they captured. *)
Inductive handler :=
  | SendDeadline
  | SendDone (timeout : Z)
  | ReceiveDeadline
  | ReceiveDone (timeout : Z).

#[global] Instance handler_eq_dec : EqDecision handler.
Proof. solve_decision. Defined.

(** The calls of the four callbacks; [resp] and [size] are [receive_finish_cb_]'s. *)
Inductive callback :=
  | SendFinish
  | SendTimeout
  | ReceiveFinish (resp : list Z) (size : Z)
  | ReceiveTimeout.

#[global] Instance callback_eq_dec : EqDecision callback.
Proof. solve_decision. Defined.

(** Which callbacks are set, [Waterfall]'s arguments. *)
Record waterfall := mkWaterfall {
  send_finish_cb_ : bool;
  send_timeout_cb_ : bool;
  receive_finish_cb_ : bool;
  receive_timeout_cb_ : bool
}.

(** A completed operation: its error code, the bytes transferred, its handler. *)
Definition completion : Type := error_code * Z * handler.

Record AsyncClient := mkClient {
  deadline_ : steady_timer handler;
  is_open : bool;
  socket_ops : list handler;           (* outstanding on the socket *)
  outgoing : option (list Z);          (* the bytes the outstanding send reads *)
  data_ : list Z;
  callbacks : waterfall;
  ready : list completion
}.

Definition mtu_ : Z := 1460.

Definition client_new (data : list Z) : AsyncClient :=
  mkClient timer_new false [] None data (mkWaterfall false false false false) [].

Definition Waterfall (w : waterfall) (c : AsyncClient) : AsyncClient :=
  mkClient (deadline_ c) (is_open c) (socket_ops c) (outgoing c) (data_ c) w (ready c).

(** A timer operation's completions join the queue. *)
Definition on_deadline (op : steady_timer handler -> steady_timer handler * list (error_code * handler))
    (c : AsyncClient) : AsyncClient :=
  let '(t, done) := op (deadline_ c) in
  mkClient t (is_open c) (socket_ops c) (outgoing c) (data_ c) (callbacks c)
    (ready c ++ ((fun p => (p.1, 0, p.2)) <$> done)).

Definition set_ops (open : bool) (ops : list handler) (out : option (list Z)) (c : AsyncClient) :
    AsyncClient :=
  mkClient (deadline_ c) open ops out (data_ c) (callbacks c) (ready c).

(** [if (timeout > 0)]: the expiry, and the wait. *)
Definition arm (now timeout : Z) (h : handler) (c : AsyncClient) : AsyncClient :=
  if 0 <? timeout then
    on_deadline (fun t => let '(t, done) := expires_from_now now (milliseconds timeout) t in
                          (async_wait h t, done)) c
  else c.

(** [socket_.cancel()]: outstanding operations complete with an error; on a
    closed socket it throws. *)
Definition socket_cancel (c : AsyncClient) : outcome AsyncClient :=
  if is_open c then
    Ok (mkClient (deadline_ c) true [] None (data_ c) (callbacks c)
          (ready c ++ ((fun h => (OperationAborted, 0, h)) <$> socket_ops c)))
  else Crash Terminated.

Section client.
(** [asio::ip::address::from_string] accepts the text. *)
Context (valid_address : string -> bool).

(** [size] is a [std::size_t]. *)
Definition AsyncSendTo (now : Z) (buff : list Z) (size : Z) (host : string) (timeout : Z)
    (c : AsyncClient) : outcome AsyncClient :=
  if mtu_ <? u64 size then Ok c
  else
    let c := arm now timeout SendDeadline c in
    if negb (valid_address host) then Ok c
    else if is_open c then Crash Terminated
    else
      bytes ← read_at buff 0 (Z.to_nat (u64 size));
      Ok (set_ops true (socket_ops c ++ [SendDone timeout]) (Some bytes) c).

Definition asyncReceiveFrom (now timeout : Z) (c : AsyncClient) : AsyncClient :=
  let c := arm now timeout ReceiveDeadline c in
  set_ops (is_open c) (socket_ops c ++ [ReceiveDone timeout]) (outgoing c) c.

Definition AsyncReceiveFrom (now : Z) (host : string) (timeout : Z) (c : AsyncClient) :
    outcome AsyncClient :=
  if valid_address host then Ok (asyncReceiveFrom now timeout c) else Crash Terminated.

(** ** The completion handlers *)

Definition call_if (b : bool) (cb : callback) : option callback := if b then Some cb else None.

(** [checkDeadline] with the operation of a deadline. *)
Definition checkDeadline (now : Z) (b : bool) (cb : callback) (c : AsyncClient) :
    outcome (AsyncClient * option callback) :=
  if expiry (deadline_ c) <=? now then
    c ← socket_cancel c; Ok (c, call_if b cb)
  else Ok (c, None).

(** A member nothing calls: a send's handler that goes on to receive. *)
Definition handleSendTo (now : Z) (ec : error_code) (c : AsyncClient) : AsyncClient :=
  let c := on_deadline timer_cancel c in
  if is_error ec then c else asyncReceiveFrom now 0 c.

(** The common part of the two completion handlers. *)
Definition on_done (ec : error_code) (timeout : Z) (b : bool) (cb : callback) (c : AsyncClient) :
    AsyncClient * option callback :=
  let c := if 0 <? timeout then on_deadline timer_cancel c else c in
  if is_error ec then (c, None) else (c, call_if b cb).

Definition handle (now : Z) (ec : error_code) (bytes : Z) (h : handler) (c : AsyncClient) :
    outcome (AsyncClient * option callback) :=
  match h with
  | SendDeadline => checkDeadline now (send_timeout_cb_ (callbacks c)) SendTimeout c
  | ReceiveDeadline => checkDeadline now (receive_timeout_cb_ (callbacks c)) ReceiveTimeout c
  | SendDone timeout => Ok (on_done ec timeout (send_finish_cb_ (callbacks c)) SendFinish c)
  | ReceiveDone timeout =>
    Ok (on_done ec timeout (receive_finish_cb_ (callbacks c)) (ReceiveFinish (data_ c) bytes) c)
  end.

Definition set_ready (l : list completion) (c : AsyncClient) : AsyncClient :=
  mkClient (deadline_ c) (is_open c) (socket_ops c) (outgoing c) (data_ c) (callbacks c) l.

(** ** What the outside does *)

(** The socket completes an outstanding operation: a send, or a receive of a
    datagram, the front of which is in [data_]; or either fails. *)
Definition complete (ec : error_code) (bytes : Z) (data : list Z) (h : handler)
    (rest : list handler) (c : AsyncClient) : AsyncClient :=
  mkClient (deadline_ c) (is_open c) rest (outgoing c) data (callbacks c) (ready c ++ [(ec, bytes, h)]).

Definition expire (now : Z) (c : AsyncClient) : AsyncClient := on_deadline (get_ready now) c.
End client.
