(* ===== verification/Probe.v ===== *)
(** * src/gossiper.hpp: a probe, from its ping to its verdict

    [probeNode] hands its ping to a UDP client whose callbacks come back to the
    client (start receiving) and to the gossiper (pong, or suspicion). Here the
    two are run together, with the clock, the socket and the order of handlers
    left open. *)
From stdpp Require Import relations.
From S2P Require Import Prelude Utils Bytes Header Node Broadcast Suspicion Messages Gossiper.
From S2P Require Import Membership Protocol Timer UdpClient.
Local Open Scope Z_scope.

Section probe.
Context (host : endian) (valid_address : string -> bool).
Context `{IterationOrder} `{Residue} `{!MessageCodec}.

(** [client->Waterfall(...)]: the send timeout is [nullptr]. *)
Definition probe_waterfall : waterfall := mkWaterfall true false true true.

(** The end of [probeNode]: the client, its waterfall, [AsyncSendTo]. *)
Definition start_probe (now : Z) (data : list Z) (p : probe_op) : outcome AsyncClient :=
  AsyncSendTo valid_address now (p_buff p) (p_size p) (p_host p) (p_timeout p)
    (Waterfall probe_waterfall (client_new data)).

(** The clock, the client, the gossiper, and the callbacks so far. *)
Record probing := mkProbing {
  clock : Z;
  client : AsyncClient;
  owner : gossiper;
  log : list (Z * callback)
}.

(** What the callbacks are bound to. *)
Definition on_callback (p : probe_op) (now : Z) (cb : callback) (c : AsyncClient) :
    M gossiper AsyncClient :=
  match cb with
  | SendFinish => lift (AsyncReceiveFrom valid_address now (p_host p) (p_timeout p) c)
  | SendTimeout => mret c
  | ReceiveFinish resp size => on_pong host (p_seq p) resp size ;; mret c
  | ReceiveTimeout => on_probe_timeout p ;; mret c
  end.

(** A handler, then the callback it calls. *)
Definition run_handler (p : probe_op) (now later : Z) (ec : error_code) (bytes : Z) (h : handler)
    (c : AsyncClient) : M gossiper (AsyncClient * list (Z * callback)) :=
  '(c, cb) ← lift (handle now ec bytes h c);
  match cb with
  | None => mret (c, [])
  | Some cb => c ← on_callback p later cb c; mret (c, [(now, cb)])
  end.

(** The client's own steps, and what else happens to the gossiper meanwhile. *)
Inductive client_step (p : probe_op) : probing -> probing -> Prop :=
  | client_time now later c g l : now <= later ->
      client_step p (mkProbing now c g l) (mkProbing later c g l)
  | client_io now c g l ec bytes data h pre post : socket_ops c = pre ++ h :: post ->
      client_step p (mkProbing now c g l)
        (mkProbing now (complete ec bytes data h (pre ++ post) c) g l)
  | client_expire now c g l :
      client_step p (mkProbing now c g l) (mkProbing now (expire now c) g l)
  | client_run now later c g l ec bytes h rest c' g' calls : now <= later ->
      ready c = (ec, bytes, h) :: rest ->
      run_handler p now later ec bytes h (set_ready rest c) g = Ok ((c', calls), g') ->
      client_step p (mkProbing now c g l) (mkProbing later c' g' (l ++ calls)).

Inductive probe_step (p : probe_op) : probing -> probing -> Prop :=
  | probe_client w w' : client_step p w w' -> probe_step p w w'
  | probe_others now c g g' l :
      probe_step p (mkProbing now c g l) (mkProbing now c g' l).

(** ** Counting handlers and callbacks *)

Definition is_send_done (h : handler) : bool := match h with SendDone _ => true | _ => false end.
Definition is_receive_done (h : handler) : bool := match h with ReceiveDone _ => true | _ => false end.
Definition is_receive_deadline (h : handler) : bool := match h with ReceiveDeadline => true | _ => false end.

Definition is_send_finish (e : Z * callback) : bool := match e.2 with SendFinish => true | _ => false end.
Definition is_receive_finish (e : Z * callback) : bool :=
  match e.2 with ReceiveFinish _ _ => true | _ => false end.
Definition is_receive_timeout (e : Z * callback) : bool :=
  match e.2 with ReceiveTimeout => true | _ => false end.

Definition is_send_timeout (e : Z * callback) : bool := match e.2 with SendTimeout => true | _ => false end.

Definition count {A} (P : A -> bool) (l : list A) : nat := length (base.filter P l).
#[local] Arguments count : simpl never.

(** The handlers of a kind that may still run. *)
Definition outstanding (P : handler -> bool) (c : AsyncClient) : nat :=
  count P (socket_ops c) + count P (op_queue_ (deadline_ c)) + count P ((fun r => r.2) <$> ready c).

Lemma count_app {A} (P : A -> bool) l k : count P (l ++ k) = (count P l + count P k)%nat.
Proof. unfold count. by rewrite filter_app, length_app. Qed.

Lemma count_cons {A} (P : A -> bool) x l : count P (x :: l) = ((if P x then 1 else 0) + count P l)%nat.
Proof. unfold count. rewrite filter_cons. destruct (P x) eqn:E; by rewrite ?decide_True, ?decide_False by (rewrite E; tauto). Qed.

Lemma count_nil {A} (P : A -> bool) : count P [] = 0%nat.
Proof. done. Qed.


(** ** Outstanding handlers are kept *)

Lemma handlers_of (l : list (error_code * handler)) :
  (fun r : completion => r.2) <$> ((fun q : error_code * handler => (q.1, 0, q.2)) <$> l) = l.*2.
Proof. rewrite <- list_fmap_compose. by apply list_fmap_ext. Qed.

Lemma aborted_handlers (l : list handler) :
  (fun r : completion => r.2) <$> ((fun h => (OperationAborted, 0, h)) <$> l) = l.
Proof. rewrite <- list_fmap_compose. apply list_fmap_id. Qed.

Lemma outstanding_on_deadline P op c : moves op -> timer_wf (deadline_ c) ->
  let c' := on_deadline op c in
  timer_wf (deadline_ c') /\ outstanding P c' = outstanding P c /\
  is_open c' = is_open c /\ callbacks c' = callbacks c /\ data_ c' = data_ c.
Proof.
  intros Hm Hwf. unfold on_deadline. destruct (op (deadline_ c)) as [t done] eqn:E. cbn.
  destruct (Hm _ _ _ Hwf E) as [Hwf' Hq]. split_and!; try done.
  unfold outstanding. cbn. rewrite <- Hq, fmap_app, handlers_of, !count_app. lia.
Qed.

Lemma outstanding_arm P now timeout h c : timer_wf (deadline_ c) -> 0 < timeout ->
  let c' := arm now timeout h c in
  timer_wf (deadline_ c') /\
  outstanding P c' = (outstanding P c + if P h then 1 else 0)%nat /\
  is_open c' = is_open c /\ callbacks c' = callbacks c /\ socket_ops c' = socket_ops c /\
  expiry (deadline_ c') = now + milliseconds timeout.
Proof.
  intros Hwf Ht. unfold arm. rewrite (proj2 (Z.ltb_lt _ _)) by done. unfold on_deadline, expires_from_now.
  rewrite expires_at_spec by done. cbn. split_and!; try done.
  unfold outstanding. cbn.
  rewrite fmap_app, handlers_of, completions_handlers, !count_app, count_cons, count_nil. lia.
Qed.

Lemma outstanding_socket_cancel P c : is_open c = true ->
  exists c', socket_cancel c = Ok c' /\ outstanding P c' = outstanding P c /\ is_open c' = true /\
    callbacks c' = callbacks c /\ deadline_ c' = deadline_ c.
Proof.
  intros Ho. unfold socket_cancel. rewrite Ho. eexists. split_and!; try done. unfold outstanding. cbn.
  rewrite fmap_app, aborted_handlers, !count_app, count_nil. lia.
Qed.

Lemma outstanding_complete P ec bytes data h pre post c : socket_ops c = pre ++ h :: post ->
  outstanding P (complete ec bytes data h (pre ++ post) c) = outstanding P c.
Proof.
  intros Hs. unfold outstanding. cbn. rewrite Hs, fmap_app, !count_app, !count_cons. cbn. rewrite count_cons, count_nil. lia.
Qed.

Lemma outstanding_set_ready P ec bytes h rest c : ready c = (ec, bytes, h) :: rest ->
  outstanding P c = (outstanding P (set_ready rest c) + if P h then 1 else 0)%nat.
Proof. intros Hr. unfold outstanding. cbn. rewrite Hr. cbn. rewrite count_cons. lia. Qed.

(** ** The invariant of a probe *)

Record probe_inv (timeout : Z) (w : probing) : Prop := {
  pv_open : is_open (client w) = true;
  pv_wf : timer_wf (deadline_ (client w));
  pv_callbacks : callbacks (client w) = probe_waterfall;
  pv_send : (outstanding is_send_done (client w) + count is_send_finish (log w) <= 1)%nat;
  pv_receive : (outstanding is_receive_done (client w) + count is_receive_finish (log w) <=
    count is_send_finish (log w))%nat;
  pv_deadline : (outstanding is_receive_deadline (client w) + count is_receive_timeout (log w) <=
    count is_send_finish (log w))%nat;
  pv_first : forall e rest, log w = e :: rest -> is_send_finish e = true;
  pv_null : forall s, (s, SendTimeout) ∉ log w;
  pv_expiry : forall s, (s, SendFinish) ∈ log w ->
    s + milliseconds timeout <= expiry (deadline_ (client w)) /\
    forall t, (t, ReceiveTimeout) ∈ log w -> expiry (deadline_ (client w)) <= t
}.

Lemma count_elem {A} (P : A -> bool) x l : x ∈ l -> P x = true -> (1 <= count P l)%nat.
Proof.
  intros (l1 & l2 & ->)%list_elem_of_split HP. rewrite count_app, count_cons, HP. lia.
Qed.

Lemma probe_inv_client timeout now c c' g g' l : probe_inv timeout (mkProbing now c g l) ->
  (forall P, outstanding P c' = outstanding P c) -> is_open c' = is_open c ->
  timer_wf (deadline_ c') -> callbacks c' = callbacks c ->
  expiry (deadline_ c') = expiry (deadline_ c) -> forall now', probe_inv timeout (mkProbing now' c' g' l).
Proof.
  intros [] Ho Hop Hwf Hcb He now'. split; cbn in *; rewrite ?Ho, ?Hop, ?He, ?Hcb; done.
Qed.

(** Callbacks that are null are not called. *)
Definition called (w : waterfall) (cb : callback) : bool :=
  match cb with
  | SendFinish => send_finish_cb_ w
  | SendTimeout => send_timeout_cb_ w
  | ReceiveFinish _ _ => receive_finish_cb_ w
  | ReceiveTimeout => receive_timeout_cb_ w
  end.

(** The callback a handler may lead to. *)
Definition leads_to (h : handler) (now : Z) (c : AsyncClient) (cb : callback) : Prop :=
  match h, cb with
  | SendDone _, SendFinish | ReceiveDone _, ReceiveFinish _ _ => True
  | SendDeadline, SendTimeout | ReceiveDeadline, ReceiveTimeout => expiry (deadline_ c) <= now
  | _, _ => False
  end.

(** The client after a handler: the same handlers outstanding, the socket open. *)
Record kept (c c' : AsyncClient) : Prop := {
  kept_outstanding P : outstanding P c' = outstanding P c;
  kept_open : is_open c' = true;
  kept_wf : timer_wf (deadline_ c');
  kept_callbacks : callbacks c' = callbacks c;
  kept_expiry : expiry (deadline_ c') = expiry (deadline_ c)
}.

Lemma kept_refl c : is_open c = true -> timer_wf (deadline_ c) -> kept c c.
Proof. by split. Qed.

Lemma kept_cancel c : is_open c = true -> timer_wf (deadline_ c) -> kept c (on_deadline timer_cancel c).
Proof.
  intros Ho Hwf.
  pose proof (fun P => outstanding_on_deadline P timer_cancel c timer_cancel_moves Hwf) as Hc.
  destruct (Hc is_send_done) as (Hw & _ & Hop & Hcb & _).
  split; [intros P; apply Hc|congruence|done..|]. unfold on_deadline. by rewrite timer_cancel_spec.
Qed.

Lemma kept_socket_cancel c : is_open c = true -> timer_wf (deadline_ c) ->
  exists c', socket_cancel c = Ok c' /\ kept c c'.
Proof.
  intros Ho Hwf. pose proof (fun P => outstanding_socket_cancel P c Ho) as Hc.
  unfold socket_cancel in *. rewrite Ho in *. eexists. split; [reflexivity|].
  split; try done. intros P. by destruct (Hc P) as (c' & [= <-] & HP & _).
Qed.

Lemma on_done_spec ec t b cb c : is_open c = true -> timer_wf (deadline_ c) ->
  exists c' o, on_done ec t b cb c = (c', o) /\ kept c c' /\ forall x, o = Some x -> b = true /\ x = cb.
Proof.
  intros Ho Hwf. unfold on_done. set (c1 := if 0 <? t then _ else c).
  assert (kept c c1) as Hk by (subst c1; destruct (0 <? t); auto using kept_refl, kept_cancel).
  destruct (is_error ec); eexists _, _; split_and!; try done.
  intros x. unfold call_if. destruct b; [|done]. by intros [= <-].
Qed.

Lemma checkDeadline_spec now b cb c : is_open c = true -> timer_wf (deadline_ c) ->
  exists c' o, checkDeadline now b cb c = Ok (c', o) /\ kept c c' /\
    forall x, o = Some x -> b = true /\ x = cb /\ expiry (deadline_ c) <= now.
Proof.
  intros Ho Hwf. unfold checkDeadline. destruct (Z.leb_spec (expiry (deadline_ c)) now).
  - destruct (kept_socket_cancel c Ho Hwf) as (c' & -> & Hk). eexists _, _. split_and!; try done.
    intros x. unfold call_if. destruct b; [|done]. by intros [= <-].
  - eexists _, _. split_and!; try done.
Qed.

(** A handler neither creates nor loses handlers, and does not throw while the
    socket is open. *)
Lemma handle_spec now ec bytes h c : is_open c = true -> timer_wf (deadline_ c) ->
  exists c' cb, handle now ec bytes h c = Ok (c', cb) /\ kept c c' /\
    forall x, cb = Some x -> called (callbacks c) x = true /\ leads_to h now c x.
Proof.
  intros Ho Hwf. destruct h; cbn [handle].
  - destruct (checkDeadline_spec now (send_timeout_cb_ (callbacks c)) SendTimeout c Ho Hwf)
      as (c' & o & -> & Hk & Hx). eexists _, _. split_and!; try done. by intros x (? & -> & ?)%Hx.
  - destruct (on_done_spec ec timeout (send_finish_cb_ (callbacks c)) SendFinish c Ho Hwf)
      as (c' & o & -> & Hk & Hx). eexists _, _. split_and!; try done. by intros x (? & ->)%Hx.
  - destruct (checkDeadline_spec now (receive_timeout_cb_ (callbacks c)) ReceiveTimeout c Ho Hwf)
      as (c' & o & -> & Hk & Hx). eexists _, _. split_and!; try done. by intros x (? & -> & ?)%Hx.
  - destruct (on_done_spec ec timeout (receive_finish_cb_ (callbacks c)) (ReceiveFinish (data_ c) bytes) c Ho Hwf)
      as (c' & o & -> & Hk & Hx). eexists _, _. split_and!; try done. by intros x (? & ->)%Hx.
Qed.

(** Receiving starts with a deadline. *)
Lemma asyncReceiveFrom_spec now timeout c : timer_wf (deadline_ c) -> 0 < timeout ->
  let c' := asyncReceiveFrom now timeout c in
  (forall P, outstanding P c' =
     (outstanding P c + (if P ReceiveDeadline then 1 else 0) + if P (ReceiveDone timeout) then 1 else 0)%nat) /\
  is_open c' = is_open c /\ timer_wf (deadline_ c') /\ callbacks c' = callbacks c /\
  expiry (deadline_ c') = now + milliseconds timeout.
Proof.
  intros Hwf Ht. pose proof (fun P => outstanding_arm P now timeout ReceiveDeadline c Hwf Ht) as Ha.
  cbn. unfold asyncReceiveFrom. set (c1 := arm now timeout ReceiveDeadline c) in *. cbn.
  destruct (Ha is_send_done) as (Hw & _ & Ho & Hcb & Hs & He). split_and!; try done.
  intros P. destruct (Ha P) as (_ & Hp & _). unfold outstanding in *. cbn.
  rewrite count_app, count_cons, count_nil. rewrite <- Hp. lia.
Qed.

Lemma count_log_snoc {A} (P : A -> bool) l x : count P (l ++ [x]) = (count P l + if P x then 1 else 0)%nat.
Proof. rewrite count_app, count_cons, count_nil. lia. Qed.

Lemma no_count {A} (P : A -> bool) x l : count P l = 0%nat -> P x = true -> x ∉ l.
Proof. intros Hc HP Hx. pose proof (count_elem P x l Hx HP). lia. Qed.

(** Handlers that call nothing. *)
Lemma probe_inv_fewer timeout now later c c' g g' l : probe_inv timeout (mkProbing now c g l) ->
  (forall P, (outstanding P c' <= outstanding P c)%nat) -> is_open c' = is_open c ->
  timer_wf (deadline_ c') -> callbacks c' = callbacks c ->
  expiry (deadline_ c') = expiry (deadline_ c) -> probe_inv timeout (mkProbing later c' g' l).
Proof.
  intros [] Ho Hop Hwf Hcb He. pose proof (Ho is_send_done). pose proof (Ho is_receive_done).
  pose proof (Ho is_receive_deadline).
  split; cbn in *; rewrite ?Hop, ?He, ?Hcb; try done; lia.
Qed.

(** The log of calls so far, [calls] added. *)
Lemma probe_inv_log timeout now later c c' g g' l x h :
  probe_inv timeout (mkProbing now c g l) -> called probe_waterfall x = true -> leads_to h now c x ->
  is_open c' = true -> timer_wf (deadline_ c') -> callbacks c' = callbacks c ->
  expiry (deadline_ c') = expiry (deadline_ c) ->
  (forall P, outstanding P c = (outstanding P c' + if P h then 1 else 0)%nat) ->
  x <> SendFinish ->
  probe_inv timeout (mkProbing later c' g' (l ++ [(now, x)])).
Proof.
  intros [] Hc Hl Ho Hwf Hcb He Hout Hx. cbn in *.
  assert (forall s, (s, SendFinish) ∈ l ++ [(now, x)] -> (s, SendFinish) ∈ l) as Hsf.
  { intros s [?|[= _ ?]%list_elem_of_singleton]%elem_of_app; congruence. }
  pose proof (Hout is_send_done) as Hs. pose proof (Hout is_receive_done) as Hr.
  pose proof (Hout is_receive_deadline) as Hd.
  split; cbn; rewrite ?count_log_snoc; try done.
  - by rewrite Hcb.
  - destruct h, x; cbn in *; try done; lia.
  - destruct h, x; cbn in *; try done; lia.
  - destruct h, x; cbn in *; try done; lia.
  - intros e rest E. destruct l as [|e' l]; cbn in E; [|by eapply pv_first0; injection E as -> _].
    rewrite !count_nil in *. destruct h, x; cbn in *; try done; lia.
  - intros s [?|[= _ <-]%list_elem_of_singleton]%elem_of_app; [by eapply pv_null0|done].
  - intros s Hin%Hsf. rewrite He. destruct (pv_expiry0 s Hin) as [Hs1 Hs2]. split; [done|].
    intros t [?|[= -> <-]%list_elem_of_singleton]%elem_of_app; [auto|]. by destruct h.
Qed.

Lemma count_none {A} (P : A -> bool) l : (forall x, x ∈ l -> P x = false) -> count P l = 0%nat.
Proof.
  induction l as [|x l IH]; intros HP; [done|]. rewrite count_cons, HP, IH by set_solver. done.
Qed.

Lemma count_zero {A} (P : A -> bool) l x : count P l = 0%nat -> x ∈ l -> P x = false.
Proof. intros Hc Hx. destruct (P x) eqn:E; [|done]. by destruct (no_count P x l Hc E). Qed.

(** [run_handler] on a probe whose socket is open: the handler's step, then the
    callback. *)
Lemma run_handler_inv p now later ec bytes h c g c' g' calls :
  is_open c = true -> timer_wf (deadline_ c) ->
  run_handler p now later ec bytes h c g = Ok ((c', calls), g') ->
  exists c1 cb, handle now ec bytes h c = Ok (c1, cb) /\ kept c c1 /\
    match cb with
    | None => c' = c1 /\ calls = [] /\ g' = g
    | Some x => called (callbacks c) x = true /\ leads_to h now c x /\ calls = [(now, x)] /\
        on_callback p later x c1 g = Ok (c', g')
    end.
Proof.
  intros Ho Hwf. destruct (handle_spec now ec bytes h c Ho Hwf) as (c1 & cb & Hh & Hk & Hx).
  unfold run_handler. run. rewrite Hh. cbn. intros Hr. exists c1, cb.
  destruct cb as [x|]; [|split_and!; try done; by injection Hr].
  destruct (Hx x eq_refl). destruct (on_callback p later x c1 g) as [[c2 g2]|]; [|done].
  cbn in Hr. injection Hr as <- <- <-. done.
Qed.

(** The callback of a finished send: the receive starts, with its deadline. *)
Lemma probe_inv_sent timeout now later c c' g g' l t :
  probe_inv timeout (mkProbing now c g l) -> 0 < timeout -> now <= later -> kept (set_ready (drop 1 (ready c)) c) c' ->
  (forall P, outstanding P c = (outstanding P c' + if P (SendDone t) then 1 else 0)%nat) ->
  probe_inv timeout (mkProbing later (asyncReceiveFrom later timeout c') g' (l ++ [(now, SendFinish)])).
Proof.
  intros [] Ht Hn [_ Ho Hwf Hcb _] Hout. cbn in *.
  destruct (asyncReceiveFrom_spec later timeout c' Hwf Ht) as (Hout' & Ho' & Hwf' & Hcb' & He').
  generalize dependent (asyncReceiveFrom later timeout c'). intros c2 Hout' Ho' Hwf' Hcb' He'.
  pose proof (Hout is_send_done) as Hs. pose proof (Hout is_receive_done) as Hr.
  pose proof (Hout is_receive_deadline) as Hd. cbn in Hs, Hr, Hd.
  assert (count is_send_finish l = 0%nat) as Hl by lia.
  split; cbn; rewrite ?count_log_snoc, ?Hout'; cbn; try done; try lia; try congruence.
  - intros e rest E. destruct l as [|e' l]; cbn in E; [by injection E as <- _|].
    by eapply pv_first0; injection E as -> _.
  - intros s [?|[= _ ?]%list_elem_of_singleton]%elem_of_app; by eapply pv_null0.
  - intros s [Hin|[= ->]%list_elem_of_singleton]%elem_of_app;
      [by apply (count_zero is_send_finish) in Hin|].
    rewrite He'. split; [lia|].
    intros t' [Hin|[= _ ?]%list_elem_of_singleton]%elem_of_app.
    apply (count_elem is_receive_timeout) in Hin; [lia|done].
Qed.

Lemma probe_run_inv p now later c g l ec bytes h rest c' g' calls :
  probe_inv (p_timeout p) (mkProbing now c g l) -> 0 < p_timeout p -> now <= later ->
  ready c = (ec, bytes, h) :: rest ->
  run_handler p now later ec bytes h (set_ready rest c) g = Ok ((c', calls), g') ->
  probe_inv (p_timeout p) (mkProbing later c' g' (l ++ calls)).
Proof.
  intros Hi Ht Hn Hr Hrun. pose proof Hi as [Ho Hwf Hcb _ _ _ _ _ _]. cbn in Ho, Hwf, Hcb.
  pose proof (fun P => outstanding_set_ready P ec bytes h rest c Hr) as Hout.
  apply run_handler_inv in Hrun as (c1 & cb & _ & Hk & Hcase); [|done..].
  pose proof Hk as [Hko Hop Hkw Hkc Hke].
  assert (forall P, outstanding P c = (outstanding P c1 + if P h then 1 else 0)%nat) as Hout1
    by (intros P; rewrite Hko; apply Hout).
  destruct cb as [x|]; [destruct Hcase as (Hc & Hl & -> & Hcb')|destruct Hcase as (-> & -> & ->)].
  - cbn [callbacks set_ready deadline_] in Hc, Hkc, Hke. rewrite Hcb in Hc.
    destruct (decide (x = SendFinish)) as [->|Hx].
    + destruct h; try done. unfold on_callback, AsyncReceiveFrom in Hcb'.
      destruct (valid_address (p_host p)); [|done]. injection Hcb' as <- <-.
      eapply (probe_inv_sent _ now); try done. by rewrite Hr.
    + assert (c' = c1) as ->.
      { destruct x; try done; cbn [on_callback] in Hcb'; revert Hcb'; run;
          repeat case_match; congruence. }
      eapply (probe_inv_log _ now later c c1); try done; congruence.
  - rewrite app_nil_r. eapply (probe_inv_fewer _ now later c); try done; try congruence.
    intros P. rewrite Hout1. lia.
Qed.

Lemma client_step_inv p w w' : 0 < p_timeout p -> client_step p w w' ->
  probe_inv (p_timeout p) w -> probe_inv (p_timeout p) w'.
Proof.
  intros Ht [now later c g l Hn|now c g l ec bytes data h pre post Hs|now c g l
            |now later c g l ec bytes h rest c' g' calls Hn Hr Hrun] Hi.
  - eapply (probe_inv_client _ now c c); [exact Hi|..]; by destruct Hi.
  - eapply (probe_inv_client _ now c); [exact Hi| |by destruct Hi..].
    intros P. by apply outstanding_complete.
  - pose proof (fun P => outstanding_on_deadline P (get_ready now) c (get_ready_moves now) (pv_wf _ _ Hi)) as Ho.
    eapply (probe_inv_client _ now c); [exact Hi|intros P; apply Ho|apply (Ho is_send_done)..|].
    unfold expire, on_deadline, get_ready. by destruct (now <? _).
  - by eapply probe_run_inv.
Qed.

Lemma probe_step_inv p w w' : 0 < p_timeout p -> probe_step p w w' ->
  probe_inv (p_timeout p) w -> probe_inv (p_timeout p) w'.
Proof.
  intros Ht [w0 w1 Hs|now c g g' l] Hi; [by eapply client_step_inv|].
  eapply (probe_inv_client _ now c c); [exact Hi|..]; by destruct Hi.
Qed.

Lemma start_probe_inv p now data c g : 0 < p_timeout p -> p_size p <= mtu_ -> 0 <= p_size p ->
  valid_address (p_host p) = true -> start_probe now data p = Ok c ->
  probe_inv (p_timeout p) (mkProbing now c g []).
Proof.
  intros Ht Hs1 Hs2 Hv. unfold start_probe, AsyncSendTo. rewrite Hv, wrap_small by (unfold in_range, mtu_ in *; lia).
  rewrite (proj2 (Z.ltb_ge _ _)) by done. cbn [negb].
  pose proof (fun P => outstanding_arm P now (p_timeout p) SendDeadline
    (Waterfall probe_waterfall (client_new data)) timer_new_wf Ht) as Ha.
  set (c1 := arm _ _ _ _) in *. destruct (Ha is_send_done) as (Hw & _ & Ho & Hcb & Hs & He).
  rewrite Ho. cbn [is_open Waterfall client_new]. destruct (read_at _ _ _) as [bytes|]; [|done].
  intros [= <-].
  assert (forall P, outstanding P (set_ops true (socket_ops c1 ++ [SendDone (p_timeout p)]) (Some bytes) c1) =
    ((if P SendDeadline then 1 else 0) + if P (SendDone (p_timeout p)) then 1 else 0)%nat) as Hout.
  { intros P. destruct (Ha P) as (_ & Hp & _). unfold outstanding in *. cbn.
    rewrite count_app, count_cons, count_nil. cbn in Hp. rewrite !count_nil in Hp. lia. }
  split; cbn; rewrite ?Hout, ?count_nil; cbn; try done.
  - set_solver.
  - set_solver.
Qed.

(** The calls of a probe's callbacks, in order, with their times. *)
Inductive probe_calls (timeout : Z) : list (Z * callback) -> Prop :=
  | calls_none : probe_calls timeout []
  | calls_sent s : probe_calls timeout [(s, SendFinish)]
  | calls_answered s t r n : probe_calls timeout [(s, SendFinish); (t, ReceiveFinish r n)]
  | calls_timed_out s t : s + milliseconds timeout <= t ->
      probe_calls timeout [(s, SendFinish); (t, ReceiveTimeout)]
  | calls_answered_late s t u r n : s + milliseconds timeout <= t ->
      probe_calls timeout [(s, SendFinish); (t, ReceiveTimeout); (u, ReceiveFinish r n)]
  | calls_timed_out_late s t u r n : s + milliseconds timeout <= t ->
      probe_calls timeout [(s, SendFinish); (u, ReceiveFinish r n); (t, ReceiveTimeout)].

Ltac excess := exfalso; rewrite ?count_cons in *; cbn in *; lia.

Lemma probe_inv_calls timeout w : probe_inv timeout w -> probe_calls timeout (log w).
Proof.
  intros [_ _ _ Hs Hr Hd Hf Hn He].
  assert (count is_send_timeout (log w) = 0%nat) as Ht0.
  { apply count_none. intros [s []] Hin; try done. by destruct (Hn s). }
  assert ((count is_send_finish (log w) <= 1)%nat) as Hs1 by lia.
  assert ((count is_receive_finish (log w) <= 1)%nat) as Hr1 by lia.
  assert ((count is_receive_timeout (log w) <= 1)%nat) as Hd1 by lia.
  clear Hs Hr Hd Hn. destruct (log w) as [|[s x] l]; [constructor|].
  pose proof (Hf _ _ eq_refl) as Hx. destruct x; try done. clear Hf.
  destruct (He s ltac:(left)) as [Hle Hlt].
  assert (forall t, (t, ReceiveTimeout) ∈ l -> s + milliseconds timeout <= t) as Hdl
    by (intros t Ht; transitivity (expiry (deadline_ (client w))); [done|]; apply Hlt; by right).
  clear He Hlt Hle Hx.
  destruct l as [|[t []] l]; try excess; [constructor|..].
  - destruct l as [|[u []] l]; try excess; [constructor|].
    destruct l as [|[v []] l]; try excess. constructor. apply Hdl. set_solver.
  - destruct l as [|[u []] l]; try excess; [constructor; apply Hdl; set_solver|].
    destruct l as [|[v []] l]; try excess. constructor. apply Hdl. set_solver.
Qed.

(** C35: a probe of a numeric address with a timeout, in any interleaving of its
    client's operations: each callback is called at most once, the two receive
    callbacks only after the send finished, and the target is suspected no
    earlier than the timeout after the moment its ping was known to be sent; no
    handler of the client ever throws. That both receive callbacks can be called
    is the code's doing: see [probe_verdict]. *)
Theorem probe_callbacks p now data c g w :
  valid_address (p_host p) = true -> 0 < p_timeout p -> 0 <= p_size p <= mtu_ ->
  start_probe now data p = Ok c -> rtc (probe_step p) (mkProbing now c g []) w ->
  probe_calls (p_timeout p) (log w) /\
  forall t ec bytes h, exists r, handle t ec bytes h (client w) = Ok r.
Proof.
  intros Hv Ht [Hs0 Hs] Hc Hw.
  assert (probe_inv (p_timeout p) w) as Hi.
  { eapply (rtc_ind_r (fun w => probe_inv (p_timeout p) w)); [|..|exact Hw].
    - by eapply start_probe_inv.
    - intros y z _ Hyz. by apply probe_step_inv. }
  split; [by apply probe_inv_calls|]. intros t ec bytes h. destruct Hi.
  destruct (handle_spec t ec bytes h (client w)) as (c' & cb & E & _); eauto.
Qed.

(** ** The runs that decide *)

(** The next handler, its callback run until [later]. *)
Definition run_next (p : probe_op) (later : Z) (w : probing) : outcome probing :=
  match ready (client w) with
  | [] => Ok w
  | (ec, bytes, h) :: rest =>
    '(c, calls, g) ← run_handler p (clock w) later ec bytes h (set_ready rest (client w)) (owner w);
    Ok (mkProbing later c g (log w ++ calls))
  end.

(** The [io_service] at time [now], until it has nothing to run ([fuel]). *)
Fixpoint drain (p : probe_op) (fuel : nat) (w : probing) : outcome probing :=
  match fuel, ready (client w) with
  | S fuel, _ :: _ => w ← run_next p (clock w) w; drain p fuel w
  | _, _ => Ok w
  end.

Definition set_clock (now : Z) (w : probing) : probing := mkProbing now (client w) (owner w) (log w).
Definition set_client (f : AsyncClient -> AsyncClient) (w : probing) : probing :=
  mkProbing (clock w) (f (client w)) (owner w) (log w).

(** The socket's first outstanding operation completes. *)
Definition io (ec : error_code) (bytes : Z) (data : list Z) (c : AsyncClient) : AsyncClient :=
  match socket_ops c with
  | h :: rest => complete ec bytes data h rest c
  | [] => c
  end.

Lemma drain_steps p fuel w w' : drain p fuel w = Ok w' -> rtc (probe_step p) w w'.
Proof.
  revert w. induction fuel as [|fuel IH]; intros [now c g l] Hd; [by injection Hd as ->|].
  cbn in Hd. unfold run_next in Hd. cbn in Hd.
  destruct (ready c) as [|[[ec bytes] h] rest] eqn:Hr; [by injection Hd as ->|].
  destruct (run_handler _ _ _ _ _ _ _ _) as [[[c' calls] g']|] eqn:E; [|done]. cbn in Hd.
  eapply rtc_l; [|apply IH, Hd]. by eapply probe_client, client_run.
Qed.

Lemma io_steps p ec bytes data w : rtc (probe_step p) w (set_client (io ec bytes data) w).
Proof.
  destruct w as [now c g l]. unfold set_client, io. cbn.
  destruct (socket_ops c) as [|h rest] eqn:E; [apply rtc_refl|].
  apply rtc_once. apply probe_client. by apply (client_io p now c g l ec bytes data h [] rest).
Qed.

Section runs.
Context (p : probe_op).
Context (Hv : valid_address (p_host p) = true) (Ht : 0 < p_timeout p) (Hs : 0 <= p_size p <= mtu_).

(** The client that has one operation on its socket, and one wait. *)
Definition waiting (deadline : Z) (wait op : handler) (out : option (list Z)) (data : list Z) : AsyncClient :=
  mkClient (mkTimer deadline true [wait]) true [op] out data probe_waterfall [].

Lemma start_probe_waiting t0 data c : start_probe t0 data p = Ok c ->
  exists out, c = waiting (t0 + milliseconds (p_timeout p)) SendDeadline (SendDone (p_timeout p)) out data.
Proof using Hs Ht Hv.
  unfold start_probe, AsyncSendTo, arm. rewrite Hv, wrap_small by (unfold in_range, mtu_ in *; lia).
  rewrite (proj2 (Z.ltb_ge _ _)), (proj2 (Z.ltb_lt 0 _)) by lia. cbn.
  destruct (read_at _ _ _) as [bytes|]; [|done]. intros [= <-]. by exists (Some bytes).
Qed.

Lemma expire_waiting now deadline wait op out data : deadline <= now ->
  expire now (waiting deadline wait op out data) =
  mkClient (mkTimer deadline true []) true [op] out data probe_waterfall [(Success, 0, wait)].
Proof. intros Hd. unfold expire, on_deadline. cbn. by rewrite get_ready_late. Qed.

Lemma later_than_now now : (now + milliseconds (p_timeout p) <=? now) = false.
Proof using Ht. apply Z.leb_gt. unfold milliseconds. lia. Qed.

Lemma has_timeout : (0 <? p_timeout p) = true.
Proof using Ht. by apply Z.ltb_lt. Qed.

#[local] Arguments on_pong : simpl never.
#[local] Arguments on_probe_timeout : simpl never.

(** Executes a run. *)
Ltac play :=
  repeat (progress (cbn; unfold run_next, run_handler, handle, on_done, checkDeadline, on_callback,
            AsyncReceiveFrom, asyncReceiveFrom, arm, socket_cancel; cbv [mbind outcome_bind M_bind mret M_ret lift])
    || rewrite has_timeout || rewrite later_than_now || rewrite Hv
    || match goal with
       | E : on_pong _ _ _ _ _ = _ |- _ => rewrite E
       | E : on_probe_timeout _ _ = _ |- _ => rewrite E
       | L : _ <= _ |- _ => rewrite (proj2 (Z.leb_le _ _) L)
       | L : _ < _ |- context [_ <=? _] => rewrite (proj2 (Z.leb_gt _ _) L)
       end); try reflexivity.

Lemma probe_sent t1 deadline n out data g :
  drain p 2 (set_client (io Success n data) (mkProbing t1 (waiting deadline SendDeadline (SendDone (p_timeout p)) out data) g [])) =
  Ok (mkProbing t1 (waiting (t1 + milliseconds (p_timeout p)) ReceiveDeadline (ReceiveDone (p_timeout p)) out data)
    g [(t1, SendFinish)]).
Proof using Hv Ht. play.
Qed.

(** C36: what becomes of a probe whose ping was sent at [t1]. Nobody answers: at
    [t2], the timeout later, the target is suspected. The pong is received in
    time: it is read, and nothing else happens. The pong has been received, but
    the two handlers only run after the deadline: the pong is read and the node
    that sent it is suspected all the same. *)
Theorem probe_verdict t0 t1 t2 data c g : start_probe t0 data p = Ok c ->
  exists w, drain p 2 (set_client (io Success (p_size p) data) (mkProbing t1 c g [])) = Ok w /\
    owner w = g /\ log w = [(t1, SendFinish)] /\
    (t1 + milliseconds (p_timeout p) <= t2 ->
      forall g', on_probe_timeout p g = Ok (tt, g') ->
      exists w', drain p 2 (set_client (expire t2) (set_clock t2 w)) = Ok w' /\
        owner w' = g' /\ log w' = [(t1, SendFinish); (t2, ReceiveTimeout)]) /\
    (t2 < t1 + milliseconds (p_timeout p) ->
      forall resp n g', on_pong host (p_seq p) resp n g = Ok (tt, g') ->
      exists w', drain p 2 (set_client (io Success n resp) (set_clock t2 w)) = Ok w' /\
        owner w' = g' /\ log w' = [(t1, SendFinish); (t2, ReceiveFinish resp n)] /\
        forall P, outstanding P (client w') = 0%nat) /\
    (t1 + milliseconds (p_timeout p) <= t2 ->
      forall resp n g1 g2, on_pong host (p_seq p) resp n g = Ok (tt, g1) ->
      on_probe_timeout p g1 = Ok (tt, g2) ->
      exists w', drain p 2 (set_client (io Success n resp) (set_clock t2 w)) = Ok w' /\
        owner w' = g2 /\
        log w' = [(t1, SendFinish); (t2, ReceiveFinish resp n); (t2, ReceiveTimeout)]).
Proof using Hs Ht Hv.
  intros [out ->]%start_probe_waiting. eexists. split; [by apply probe_sent|]. split_and!; try done.
  - intros Hl g' Hg. eexists.
    split; [unfold set_client, set_clock; cbn [client]; rewrite expire_waiting by done; play|done].
  - intros Hl resp n g' Hg. eexists. split; [play|done].
  - intros Hl resp n g1 g2 Hg1 Hg2. eexists. split; [play|done].
Qed.
End runs.

(** C37: a member whose address is a name, not a number ("localhost"), is never
    sent its ping, and the process of the prober ends when the timeout of that
    ping is over: its handler cancels a socket that was never opened. *)
Theorem probe_of_a_name_terminates p now later data c g :
  valid_address (p_host p) = false -> 0 < p_timeout p -> 0 <= p_size p <= mtu_ ->
  start_probe now data p = Ok c -> now + milliseconds (p_timeout p) <= later ->
  socket_ops c = [] /\
  drain p 1 (set_client (expire later) (mkProbing later c g [])) = Crash Terminated.
Proof.
  intros Hv Ht Hs Hc Hl. revert Hc. unfold start_probe, AsyncSendTo, arm.
  rewrite Hv, wrap_small by (unfold in_range, mtu_ in *; lia).
  rewrite (proj2 (Z.ltb_ge _ _)), (proj2 (Z.ltb_lt 0 _)) by lia. cbn. intros [= <-].
  split; [done|]. unfold set_client, expire, on_deadline. cbn [client deadline_].
  rewrite get_ready_late by done. cbn. unfold run_next, run_handler. run. cbn. unfold checkDeadline. cbn.
  by rewrite (proj2 (Z.leb_le _ _)).
Qed.
End probe.
