(* ===== verification/BlockingClient.v ===== *)
(** * src/network/tcp/blocking_client.hpp: the client of a table exchange

    Each operation starts an asynchronous one and runs the client's own
    [io_service] until it is over; a persistent actor, [check_deadline], closes
    the socket when the deadline has passed. When and how the network completes
    an operation is given with it. Handlers take no time, and the reactor wakes
    when the next thing is due; it hands over descriptors before timers. [Connect]
    resolves the peer's name first, by a call that blocks outside of the
    [io_service], before it sets its deadline. *)
From S2P Require Import Prelude Utils Timer.
Local Open Scope Z_scope.

Inductive handler :=
  | CheckDeadline
  | OperationDone.

#[global] Instance handler_eq_dec : EqDecision handler.
Proof. solve_decision. Defined.

(** What the network does with an operation: when it completes, if ever, and
    its error code. *)
Record io_result := mkIo {
  io_done : option Z;
  io_error : error_code
}.

Record BlockingClient := mkBlocking {
  clock : Z;
  is_open : bool;
  deadline_ : steady_timer handler;
  in_flight : option io_result;
  ready : list (error_code * handler);
  ec_ : option error_code               (* the operation's [ec]; [None] is [would_block] *)
}.

Definition set_clock (t : Z) (c : BlockingClient) : BlockingClient :=
  mkBlocking t (is_open c) (deadline_ c) (in_flight c) (ready c) (ec_ c).

Definition set_ready (l : list (error_code * handler)) (c : BlockingClient) : BlockingClient :=
  mkBlocking (clock c) (is_open c) (deadline_ c) (in_flight c) l (ec_ c).

(** A timer operation's completions join the queue. *)
Definition on_deadline
    (op : steady_timer handler -> steady_timer handler * list (error_code * handler))
    (c : BlockingClient) : BlockingClient :=
  let '(t, done) := op (deadline_ c) in
  mkBlocking (clock c) (is_open c) t (in_flight c) (ready c ++ done) (ec_ c).

(** [socket_.close(ignored_ec)]: what is outstanding is aborted. *)
Definition close (c : BlockingClient) : BlockingClient :=
  mkBlocking (clock c) false (deadline_ c) None
    (ready c ++ match in_flight c with
                | Some _ => [(OperationAborted, OperationDone)]
                | None => []
                end) (ec_ c).

(** The deadline actor. *)
Definition check_deadline (c : BlockingClient) : BlockingClient :=
  let c := if expiry (deadline_ c) <=? clock c
           then on_deadline (expires_at time_point_max) (close c)
           else c in
  on_deadline (fun t => (async_wait CheckDeadline t, [])) c.

(** The constructor. *)
Definition client_new (now : Z) : BlockingClient :=
  check_deadline
    (on_deadline (expires_at time_point_max) (mkBlocking now false timer_new None [] None)).

(** ** [io_service_.run_one()] *)

Definition io_due (now : Z) (c : BlockingClient) : option error_code :=
  match in_flight c with
  | Some (mkIo (Some t) e) => if t <=? now then Some e else None
  | _ => None
  end.

(** The reactor, at the present time: the descriptor, then the timer. *)
Definition poll (c : BlockingClient) : BlockingClient :=
  on_deadline (get_ready (clock c))
    match io_due (clock c) c with
    | Some e => mkBlocking (clock c) (is_open c) (deadline_ c) None (ready c ++ [(e, OperationDone)]) (ec_ c)
    | None => c
    end.

(** When the reactor wakes: the timer's expiry or the operation's completion,
    whichever is first, and never in the past. *)
Definition wake (c : BlockingClient) : Z :=
  Z.max (clock c)
    match in_flight c with
    | Some (mkIo (Some t) _) => Z.min t (expiry (deadline_ c))
    | _ => expiry (deadline_ c)
    end.

Definition run_handler (e : error_code) (h : handler) (c : BlockingClient) : BlockingClient :=
  match h with
  | CheckDeadline => check_deadline c
  | OperationDone => mkBlocking (clock c) (is_open c) (deadline_ c) (in_flight c) (ready c) (Some e)
  end.

Definition run_one (c : BlockingClient) : BlockingClient :=
  let c := match ready c with [] => poll (set_clock (wake c) c) | _ => c end in
  match ready c with
  | [] => c
  | (e, h) :: rest => run_handler e h (set_ready rest c)
  end.

(** [do io_service_.run_one(); while (ec == asio::error::would_block);] Out of
    [fuel], the loop is still running. *)
Fixpoint run_until_done (fuel : nat) (c : BlockingClient) : option (error_code * BlockingClient) :=
  match fuel with
  | O => None
  | S fuel =>
    let c := run_one c in
    match ec_ c with
    | None => run_until_done fuel c
    | Some e => Some (e, c)
    end
  end.

(** ** The operations *)

(** [if (timeout > 0)], an [int]; [ec = would_block]; the operation. *)
Definition begin (timeout : Z) (open : bool) (r : io_result) (c : BlockingClient) : BlockingClient :=
  let c := if 0 <? timeout
           then on_deadline (expires_from_now (clock c) (milliseconds timeout)) c else c in
  let c := mkBlocking (clock c) open (deadline_ c) (in_flight c) (ready c) None in
  if open then mkBlocking (clock c) open (deadline_ c) (Some r) (ready c) None
  else set_ready (ready c ++ [(OtherError, OperationDone)]) c.

(** The result of an operation: the exception's error, if any, and the client. *)
Definition blocked : Type := option (error_code * BlockingClient).

(** The part of [Connect] after the name is resolved: [async_connect] opens the
    socket. *)
Definition connect_resolved (fuel : nat) (timeout : Z) (r : io_result) (c : BlockingClient) : blocked :=
  match run_until_done fuel (begin timeout true r c) with
  | Some (ec, c) =>
    Some (if is_error ec || negb (is_open c)
          then (if is_error ec then ec else OperationAborted, c) else (Success, c))
  | None => None
  end.

(** [tcp::resolver(io_service_).resolve(query)] blocks until the name service
    answers, no handler running meanwhile and no deadline set, and throws its
    error. [resolved]: when that is, if ever, and the error. *)
Definition Connect (fuel : nat) (timeout : Z) (resolved r : io_result) (c : BlockingClient) : blocked :=
  match io_done resolved with
  | None => None
  | Some t =>
    let c := set_clock (Z.max (clock c) t) c in
    if is_error (io_error resolved) then Some (io_error resolved, c)
    else connect_resolved fuel timeout r c
  end.

Definition ReadFull (fuel : nat) (timeout : Z) (r : io_result) (c : BlockingClient) : blocked :=
  run_until_done fuel (begin timeout (is_open c) r c).

Definition Write (fuel : nat) (timeout : Z) (r : io_result) (c : BlockingClient) : blocked :=
  run_until_done fuel (begin timeout (is_open c) r c).

Definition Close (c : BlockingClient) : BlockingClient := close (on_deadline timer_cancel c).

(** The operations of [syncState], one after the other until one throws. *)
Definition after_success (op : BlockingClient -> blocked) (b : blocked) : blocked :=
  match b with
  | Some (Success, c) => op c
  | b => b
  end.

Definition sync_operations (fuel : nat) (timeout : Z) (resolved connect write header body : io_result)
    (c : BlockingClient) : blocked :=
  after_success (ReadFull fuel timeout body)
    (after_success (ReadFull fuel timeout header)
      (after_success (Write fuel timeout write) (Connect fuel timeout resolved connect c))).

(** ** Between operations

    The actor is asleep, or its wait is over and its handler has yet to run. *)
Definition idle (c : BlockingClient) : Prop :=
  timer_wf (deadline_ c) /\ in_flight c = None /\
  ((op_queue_ (deadline_ c) = [CheckDeadline] /\ ready c = []) \/
   (op_queue_ (deadline_ c) = [] /\ exists e, ready c = [(e, CheckDeadline)])).

Lemma client_new_idle now : now < time_point_max -> idle (client_new now).
Proof.
  intros Hn. unfold client_new, check_deadline. cbn. rewrite (proj2 (Z.leb_gt _ _)) by done.
  split; [done|]. split; [done|]. by left.
Qed.

Lemma client_new_waits now : now < time_point_max ->
  client_new now =
  mkBlocking now false (mkTimer time_point_max true [CheckDeadline]) None [] None.
Proof. intros Hn. unfold client_new, check_deadline. cbn. by rewrite (proj2 (Z.leb_gt _ _)). Qed.

(** An operation under way, the actor asleep until [deadline]. *)
Definition running (now deadline : Z) (r : io_result) : BlockingClient :=
  mkBlocking now true (mkTimer deadline true [CheckDeadline]) (Some r) [] None.

(** How an operation ends: when, with which error, with the socket open or not. *)
Definition verdict (now deadline : Z) (r : io_result) : Z * error_code * bool :=
  match io_done r with
  | Some t => if t <=? deadline then (Z.max now t, io_error r, true) else (deadline, OperationAborted, false)
  | None => (deadline, OperationAborted, false)
  end.

Lemma run_until_done_S fuel c : run_until_done (S fuel) c =
  match ec_ (run_one c) with
  | None => run_until_done fuel (run_one c)
  | Some e => Some (e, run_one c)
  end.
Proof. done. Qed.

Lemma run_completes fuel now deadline t e : now <= deadline -> t <= deadline ->
  exists c, run_until_done (S fuel) (running now deadline (mkIo (Some t) e)) = Some (e, c) /\
    idle c /\ clock c = Z.max now t /\ is_open c = true /\ expiry (deadline_ c) = deadline.
Proof.
  intros Hn Ht. rewrite run_until_done_S. unfold run_one, wake, poll, io_due. cbn.
  replace (Z.max now (t `min` deadline)) with (Z.max now t) by lia.
  rewrite (proj2 (Z.leb_le _ _)) by lia. unfold on_deadline, get_ready. cbn.
  destruct (Z.max now t <? deadline); cbn; eexists; (split; [done|]); (split; [|done]).
  - split; [done|]. split; [done|]. by left.
  - split; [by intros []|]. split; [done|]. right. split; [done|by eexists].
Qed.

(** The client after an operation, the actor still asleep. *)
Definition asleep (now deadline : Z) (ec : option error_code) : BlockingClient :=
  mkBlocking now true (mkTimer deadline true [CheckDeadline]) None [] ec.

Lemma run_completes_early fuel now deadline t e : now <= t < deadline ->
  run_until_done (S fuel) (running now deadline (mkIo (Some t) e)) = Some (e, asleep t deadline (Some e)).
Proof.
  intros Ht. rewrite run_until_done_S. unfold run_one, wake, poll, io_due. cbn.
  replace (Z.max now (t `min` deadline)) with t by lia.
  rewrite Z.leb_refl. unfold on_deadline. cbn. by rewrite get_ready_early by (cbn; lia).
Qed.

Lemma run_one_late now deadline r : now <= deadline ->
  (forall t, io_done r = Some t -> deadline < t) ->
  run_one (running now deadline r) =
  mkBlocking deadline false (mkTimer time_point_max true [CheckDeadline]) None
    [(OperationAborted, OperationDone)] None.
Proof.
  intros Hn Hr.
  assert (wake (running now deadline r) = deadline) as Hw.
  { unfold wake. destruct r as [[t|] e]; cbn; [|lia]. pose proof (Hr t eq_refl). lia. }
  assert (io_due deadline (running deadline deadline r) = None) as Hi.
  { unfold io_due. destruct r as [[t|] e]; cbn; [|done]. pose proof (Hr t eq_refl).
    by rewrite (proj2 (Z.leb_gt _ _)). }
  assert (poll (set_clock deadline (running now deadline r)) =
    mkBlocking deadline true (mkTimer deadline true []) (Some r) [(Success, CheckDeadline)] None) as Hp.
  { change (set_clock _ _) with (running deadline deadline r). unfold poll.
    change (clock (running deadline deadline r)) with deadline. rewrite Hi. unfold on_deadline.
    change (deadline_ (running deadline deadline r)) with (mkTimer deadline true [CheckDeadline]).
    by rewrite get_ready_late by done. }
  change (run_one (running now deadline r)) with
    (let c := poll (set_clock (wake (running now deadline r)) (running now deadline r)) in
     match ready c with [] => c | (e, h) :: rest => run_handler e h (set_ready rest c) end).
  rewrite Hw, Hp. cbn. unfold check_deadline. cbn. by rewrite Z.leb_refl.
Qed.

Lemma run_times_out fuel now deadline r : now <= deadline ->
  (forall t, io_done r = Some t -> deadline < t) ->
  exists c, run_until_done (S (S fuel)) (running now deadline r) = Some (OperationAborted, c) /\
    idle c /\ clock c = deadline /\ is_open c = false.
Proof.
  intros Hn Hr. rewrite run_until_done_S, run_one_late by done. cbn.
  eexists. split; [done|]. split; [|done]. split; [done|]. split; [done|]. by left.
Qed.

(** An operation that started ends as its deadline and the network say. *)
Lemma running_ends fuel now deadline r : now <= deadline ->
  exists e c, run_until_done (S (S fuel)) (running now deadline r) = Some (e, c) /\ idle c /\
    (clock c, e, is_open c) = verdict now deadline r.
Proof.
  intros Hn. unfold verdict. destruct r as [[t|] e]; cbn [io_done io_error].
  - destruct (Z.leb_spec t deadline) as [Ht|Ht].
    + destruct (run_completes (S fuel) now deadline t e) as (c & E & Hi & Hc & Ho & _); [done..|].
      exists e, c. by rewrite E, Hc, Ho.
    + destruct (run_times_out fuel now deadline (mkIo (Some t) e)) as (c & E & Hi & Hc & Ho);
        [done|by intros ? [= <-]|]. exists OperationAborted, c. by rewrite E, Hc, Ho.
  - destruct (run_times_out fuel now deadline (mkIo None e)) as (c & E & Hi & Hc & Ho);
      [done|done|]. exists OperationAborted, c. by rewrite E, Hc, Ho.
Qed.

(** With a timeout the actor is told of the new deadline before anything else. *)
Lemma begin_armed timeout open r c : idle c -> 0 < timeout ->
  run_one (begin timeout open r c) =
  mkBlocking (clock c) open (mkTimer (clock c + milliseconds timeout) true [CheckDeadline])
    (if open then Some r else in_flight c) (if open then [] else [(OtherError, OperationDone)]) None.
Proof.
  intros (Hwf & Hf & Hq) Ht. unfold begin. rewrite (proj2 (Z.ltb_lt _ _)) by done.
  unfold on_deadline, expires_from_now. rewrite expires_at_spec by done.
  cbn [clock is_open in_flight ready ec_ deadline_].
  assert (exists e, ready c ++ ((fun h => (OperationAborted, h)) <$> op_queue_ (deadline_ c)) =
    [(e, CheckDeadline)]) as [e ->].
  { destruct Hq as [[-> ->]|[-> [e ->]]]; eauto. }
  destruct open; unfold run_one; cbn; unfold check_deadline; cbn;
    by rewrite (proj2 (Z.leb_gt _ _)) by (unfold milliseconds; lia).
Qed.

(** Without one, an older deadline is still in force. *)
Lemma begin_unarmed timeout r c : timer_wf (deadline_ c) -> op_queue_ (deadline_ c) = [CheckDeadline] ->
  ready c = [] -> timeout <= 0 ->
  begin timeout true r c = running (clock c) (expiry (deadline_ c)) r.
Proof.
  intros Hwf Hq Hr Ht. unfold begin. rewrite (proj2 (Z.ltb_ge _ _)) by done.
  unfold running. destruct c as [now o [e m q] f l ec]. cbn in *. subst.
  by rewrite (Hwf ltac:(done) : m = true).
Qed.

(** How an operation with a timeout ends; on a closed socket it fails at once. *)
Lemma operation_ends fuel timeout open r c : idle c -> 0 < timeout ->
  exists e c', run_until_done (S (S (S fuel))) (begin timeout open r c) = Some (e, c') /\ idle c' /\
    (clock c', e, is_open c') =
      if open then verdict (clock c) (clock c + milliseconds timeout) r
      else (clock c, OtherError, false).
Proof.
  intros Hi Ht. rewrite run_until_done_S, begin_armed by done. cbn [ec_]. destruct open.
  - apply running_ends. unfold milliseconds. lia.
  - cbn. destruct Hi as (_ & -> & _). eexists _, _. split; [done|]. split; [|done].
    split; [done|]. split; [done|]. by left.
Qed.

Lemma verdict_time now timeout r : 0 < timeout ->
  now <= (verdict now (now + milliseconds timeout) r).1.1 <= now + milliseconds timeout.
Proof.
  intros Ht. unfold verdict, milliseconds. destruct (io_done r) as [t|]; cbn; [|lia].
  destruct (Z.leb_spec t (now + timeout * 1000000)); cbn; lia.
Qed.

(** ** The operations of a table exchange *)

(** The specification: when the operations are over, and the first error. *)
Fixpoint exchange (timeout now : Z) (ops : list io_result) : Z * error_code :=
  match ops with
  | [] => (now, Success)
  | r :: ops =>
    let '(t, e, _) := verdict now (now + milliseconds timeout) r in
    match e with
    | Success => exchange timeout t ops
    | e => (t, e)
    end
  end.

Lemma exchange_time timeout now ops : 0 < timeout ->
  now <= (exchange timeout now ops).1 <= now + Z.of_nat (length ops) * milliseconds timeout.
Proof.
  intros Ht. revert now. induction ops as [|r ops IH]; intros now; cbn [exchange length fst]; [lia|].
  pose proof (verdict_time now timeout r Ht) as Hv.
  destruct (verdict _ _ _) as [[t e] o]. cbn [fst] in Hv.
  assert (0 < milliseconds timeout) by (unfold milliseconds; lia).
  destruct e; cbn [fst]; [specialize (IH t)|..]; lia.
Qed.

Definition ends (timeout now : Z) (r : io_result) (b : blocked) : Prop :=
  exists e c, b = Some (e, c) /\ idle c /\ (clock c, e) = (verdict now (now + milliseconds timeout) r).1 /\
    (e = Success -> is_open c = true).

Lemma verdict_success_open now deadline r :
  (verdict now deadline r).1.2 = Success -> (verdict now deadline r).2 = true.
Proof. unfold verdict. destruct (io_done r) as [t|]; [|done]. by destruct (t <=? deadline). Qed.

Lemma ReadFull_ends timeout r c : idle c -> is_open c = true -> 0 < timeout ->
  ends timeout (clock c) r (ReadFull 3 timeout r c).
Proof.
  intros Hi Ho Ht. unfold ReadFull. rewrite Ho.
  destruct (operation_ends 0 timeout true r c Hi Ht) as (e & c' & E & Hi' & Hv). cbn [negb] in Hv.
  exists e, c'. rewrite E. split; [done|]. split; [done|]. rewrite <- Hv. split; [done|].
  intros ->. pose proof (verdict_success_open (clock c) (clock c + milliseconds timeout) r) as Hs.
  rewrite <- Hv in Hs. by apply Hs.
Qed.

Lemma Connect_ends timeout r c : idle c -> 0 < timeout ->
  ends timeout (clock c) r (connect_resolved 3 timeout r c).
Proof.
  intros Hi Ht. unfold connect_resolved.
  destruct (operation_ends 0 timeout true r c Hi Ht) as (e & c' & -> & Hi' & Hv).
  pose proof (verdict_success_open (clock c) (clock c + milliseconds timeout) r) as Hs.
  rewrite <- Hv in Hs. cbn in Hs.
  exists e, c'. destruct e; cbn.
  - rewrite Hs by done. cbn. by rewrite <- Hv.
  - by rewrite <- Hv.
  - by rewrite <- Hv.
Qed.

(** Operations that were done one after the other. *)
Definition ends_all (timeout now : Z) (ops : list io_result) (b : blocked) : Prop :=
  exists c, b = Some ((exchange timeout now ops).2, c) /\ idle c /\ clock c = (exchange timeout now ops).1 /\
    ((exchange timeout now ops).2 = Success -> is_open c = true).

Lemma ends_one timeout now r b : ends timeout now r b -> ends_all timeout now [r] b.
Proof.
  intros (e & c & -> & Hi & Hv & Ho). exists c. cbn.
  destruct (verdict _ _ _) as [[t e'] o]. cbn in Hv. injection Hv as <- <-. by destruct e.
Qed.

Lemma exchange_snoc timeout now ops r : exchange timeout now (ops ++ [r]) =
  let '(t, e) := exchange timeout now ops in
  match e with Success => exchange timeout t [r] | e => (t, e) end.
Proof.
  revert now. induction ops as [|r' ops IH]; intros now; [done|]. cbn.
  destruct (verdict _ _ r') as [[t e] o]. destruct e; [apply IH|done..].
Qed.

Lemma ends_next timeout now ops r (op : BlockingClient -> blocked) b :
  (forall c, idle c -> is_open c = true -> ends timeout (clock c) r (op c)) ->
  ends_all timeout now ops b -> ends_all timeout now (ops ++ [r]) (after_success op b).
Proof.
  intros Hop (c & -> & Hi & Hc & Ho). unfold ends_all. rewrite exchange_snoc.
  destruct (exchange timeout now ops) as [t e]. cbn [fst snd] in *.
  destruct e; [|by exists c..]. specialize (Ho eq_refl). subst t.
  apply (ends_one timeout (clock c) r), Hop; done.
Qed.

(** C39: the network part of a table exchange. Nothing bounds the resolution of
    the peer's name, which comes before any deadline is set: if the name service
    never answers the exchange is never over, and an error of its is the exchange's.
    Once the name is resolved, with a timeout, the exchange is over, with the first
    error or with success, when the deadlines of its four operations and the network
    say, and within four timeouts at the latest; three handlers are enough for each
    operation. *)
Theorem sync_operations_bounded (timeout : Z) (resolved connect write header body : io_result)
    (c : BlockingClient) :
  idle c -> 0 < timeout ->
  match io_done resolved with
  | None => forall fuel, sync_operations fuel timeout resolved connect write header body c = None
  | Some t0 =>
    let now := Z.max (clock c) t0 in
    let '(t, e) := if is_error (io_error resolved) then (now, io_error resolved)
                   else exchange timeout now [connect; write; header; body] in
    (exists c', sync_operations 3 timeout resolved connect write header body c = Some (e, c') /\
      clock c' = t) /\
    now <= t <= now + 4 * milliseconds timeout
  end.
Proof.
  intros Hi Ht. unfold sync_operations, Connect. destruct (io_done resolved) as [t0|]; [|done].
  cbv zeta. set (now := Z.max (clock c) t0). set (c0 := set_clock now c).
  destruct (is_error (io_error resolved)) eqn:Ee.
  { split; [|unfold milliseconds; lia]. exists c0. split; [|done].
    by destruct (io_error resolved). }
  pose proof (exchange_time timeout now [connect; write; header; body] Ht) as Hb.
  assert (ends_all timeout now [connect; write; header; body]
    (after_success (ReadFull 3 timeout body) (after_success (ReadFull 3 timeout header)
      (after_success (Write 3 timeout write) (connect_resolved 3 timeout connect c0)))))
    as (c' & E & _ & Hc & _).
  { apply (ends_next _ _ [connect; write; header] body); [intros; by apply ReadFull_ends|].
    apply (ends_next _ _ [connect; write] header); [intros; by apply ReadFull_ends|].
    apply (ends_next _ _ [connect] write); [intros; by apply ReadFull_ends|].
    apply ends_one. change now with (clock c0). by apply Connect_ends. }
  destruct (exchange _ _ _) as [t e]. cbn [fst snd] in *. split; [by exists c'|]. exact Hb.
Qed.

Definition example_client : BlockingClient := client_new 0.

(** The name takes 7 s; the peer accepts and reads, and never answers: one
    timeout after that. *)
Lemma sync_operations_bounded_witness :
  let soon t := mkIo (Some t) Success in
  let never := mkIo None Success in
  let resolved := soon 7000000000 in
  let sent := 7000000002 in
  exchange 500 7000000000 [soon 7000000001; soon sent; never; never] = (7500000002, OperationAborted) /\
  (exists c', sync_operations 3 500 resolved (soon 7000000001) (soon sent) never never example_client =
     Some (OperationAborted, c') /\ clock c' = 7500000002) /\
  7000000000 <= 7500000002 <= 7000000000 + 4 * milliseconds 500.
Proof.
  split; [by vm_compute|].
  exact (sync_operations_bounded 500 (mkIo (Some 7000000000) Success) (mkIo (Some 7000000001) Success)
    (mkIo (Some 7000000002) Success) (mkIo None Success)
    (mkIo None Success) example_client (client_new_idle 0 ltac:(done)) ltac:(done)).
Defined.

(** One operation that completes in time. *)
Ltac next := rewrite begin_unarmed by done;
  cbn [clock deadline_ expiry asleep set_clock]; try rewrite run_completes_early by lia;
  cbn [after_success is_error is_open asleep negb orb].

(** Without a timeout, which is the default configuration, a peer that takes
    the table and never answers blocks the exchange, and [Join] with it, until
    the last instant of the clock. *)
Theorem silent_peer_blocks (now timeout t0 t1 t2 : Z) (body : io_result) :
  timeout <= 0 -> now <= t0 -> t0 <= t1 -> t1 <= t2 -> t2 < time_point_max ->
  exists c, sync_operations 3 timeout (mkIo (Some t0) Success) (mkIo (Some t1) Success)
      (mkIo (Some t2) Success) (mkIo None Success) body
      (client_new now) = Some (OperationAborted, c) /\ clock c = time_point_max.
Proof.
  intros Ht H0 H1 H2 H3. unfold sync_operations, Connect, connect_resolved, Write, ReadFull.
  rewrite client_new_waits by lia. cbn [io_done io_error is_error clock set_clock].
  rewrite Z.max_r by done. next. next. next.
  destruct (run_times_out 1 t2 time_point_max (mkIo None Success)) as (c & -> & _ & Hc & _);
    [lia|done|]. by exists c.
Qed.

Lemma silent_peer_blocks_witness :
  exists c, sync_operations 3 0 (mkIo (Some 500) Success) (mkIo (Some 1000) Success)
      (mkIo (Some 2000) Success) (mkIo None Success)
      (mkIo None Success) (client_new 0) = Some (OperationAborted, c) /\ clock c = time_point_max.
Proof. apply (silent_peer_blocks 0 0 500 1000 2000 (mkIo None Success)); done. Defined.
