(* ===== verification/TcpClient.v ===== *)
(** * src/network/tcp/async_client.hpp: the asynchronous TCP client

    [AsyncClient] connects to the endpoints of its host, one after the other,
    each with a deadline; writes and reads may set deadlines of their own. The
    program does not use it yet. The resolver's endpoints are given; an
    [endpoint_iter] is the list from the current endpoint on. Every socket
    operation completes at any time with any error code. *)
From stdpp Require Import relations.
From S2P Require Import Prelude Utils Timer.
Local Open Scope Z_scope.

Section client.
Context {E : Type}.

Inductive handler :=
  | CheckDeadline
  | HandleConnect (endpoint_iter : list E)
  | HandleWrite
  | HandleRead.

Record AsyncClient := mkClient {
  stopped_ : bool;
  is_open : bool;
  deadline_ : steady_timer handler;
  socket_ops : list handler;
  ready : list (error_code * handler);
  attempts : list E                       (* the endpoints tried *)
}.

Definition on_deadline
    (op : steady_timer handler -> steady_timer handler * list (error_code * handler))
    (c : AsyncClient) : AsyncClient :=
  let '(t, done) := op (deadline_ c) in
  mkClient (stopped_ c) (is_open c) t (socket_ops c) (ready c ++ done) (attempts c).

Definition set_ready (l : list (error_code * handler)) (c : AsyncClient) : AsyncClient :=
  mkClient (stopped_ c) (is_open c) (deadline_ c) (socket_ops c) l (attempts c).

(** [expires_from_now], then [async_wait]. *)
Definition arm (now timeout : Z) (c : AsyncClient) : AsyncClient :=
  on_deadline (fun t => let '(t, done) := expires_from_now now (milliseconds timeout) t in
                        (async_wait CheckDeadline t, done)) c.

(** [socket_.close()]. *)
Definition socket_close (c : AsyncClient) : AsyncClient :=
  mkClient (stopped_ c) false (deadline_ c) []
    (ready c ++ ((fun h => (OperationAborted, h)) <$> socket_ops c)) (attempts c).

Definition set_stopped (c : AsyncClient) : AsyncClient :=
  mkClient true (is_open c) (deadline_ c) (socket_ops c) (ready c) (attempts c).

Definition start_op (open : bool) (tried : list E) (h : handler) (c : AsyncClient) : AsyncClient :=
  mkClient (stopped_ c) open (deadline_ c) (socket_ops c ++ [h]) (ready c) (attempts c ++ tried).

Definition Close (c : AsyncClient) : AsyncClient :=
  on_deadline timer_cancel (socket_close (set_stopped c)).

(** [async_connect] opens the socket. *)
Definition startConnect (now : Z) (endpoint_iter : list E) (c : AsyncClient) : AsyncClient :=
  match endpoint_iter with
  | e :: _ => start_op true [e] (HandleConnect endpoint_iter) (arm now 1000 c)
  | [] => Close c
  end.

(** [resolver_.resolve]: the endpoints of a host and a port, or it throws
    ([None]), and the exception leaves the function. *)
Definition connect (resolve : string -> string -> option (list E)) (now : Z) (host port : string)
    (c : AsyncClient) : option AsyncClient :=
  endpoint ← resolve host port; Some (startConnect now endpoint c).

(** The constructor, with what the resolver returns. *)
Definition client_new (now : Z) (endpoints : list E) : AsyncClient :=
  startConnect now endpoints (mkClient false false timer_new [] [] []).

Lemma client_connects resolve now host port endpoints : resolve host port = Some endpoints ->
  connect resolve now host port (mkClient false false timer_new [] [] []) =
    Some (client_new now endpoints).
Proof. unfold connect. by intros ->. Qed.

Definition Write (now timeout : Z) (c : AsyncClient) : AsyncClient :=
  let c := if timeout =? 0 then c else arm now timeout c in
  start_op (is_open c) [] HandleWrite c.

Definition ReadFull (now timeout : Z) (c : AsyncClient) : AsyncClient :=
  let c := if timeout =? 0 then c else arm now timeout c in
  start_op (is_open c) [] HandleRead c.

(** ** The completion handlers *)

Definition handleConnect (now : Z) (ec : error_code) (endpoint_iter : list E) (c : AsyncClient) : AsyncClient :=
  if stopped_ c then c
  else if negb (is_open c) then startConnect now (tail endpoint_iter) c
  else if is_error ec then startConnect now (tail endpoint_iter) (socket_close c)
  else on_deadline timer_cancel c.

(** [handleWrite] and [handleRead]. *)
Definition handleTransfer (ec : error_code) (c : AsyncClient) : AsyncClient :=
  if stopped_ c then c
  else
    let c := on_deadline timer_cancel c in
    if is_error ec then Close c else c.

Definition checkDeadline (now : Z) (c : AsyncClient) : AsyncClient :=
  if stopped_ c then c
  else if expiry (deadline_ c) <=? now then socket_close c else c.

Definition handle (now : Z) (ec : error_code) (h : handler) (c : AsyncClient) : AsyncClient :=
  match h with
  | CheckDeadline => checkDeadline now c
  | HandleConnect endpoint_iter => handleConnect now ec endpoint_iter c
  | HandleWrite | HandleRead => handleTransfer ec c
  end.

(** ** The client in time *)

Definition complete (ec : error_code) (h : handler) (rest : list handler) (c : AsyncClient) : AsyncClient :=
  mkClient (stopped_ c) (is_open c) (deadline_ c) rest (ready c ++ [(ec, h)]) (attempts c).

(** What the client does by itself. *)
Inductive tcp_step : Z * AsyncClient -> Z * AsyncClient -> Prop :=
  | tcp_time now later c : now <= later -> tcp_step (now, c) (later, c)
  | tcp_io now c ec h pre post : socket_ops c = pre ++ h :: post ->
      tcp_step (now, c) (now, complete ec h (pre ++ post) c)
  | tcp_expire now c : tcp_step (now, c) (now, on_deadline (get_ready now) c)
  | tcp_run now c ec h rest : ready c = (ec, h) :: rest ->
      tcp_step (now, c) (now, handle now ec h (set_ready rest c)).

(** What its user does. *)
Inductive tcp_use : Z * AsyncClient -> Z * AsyncClient -> Prop :=
  | use_write now timeout c : tcp_use (now, c) (now, Write now timeout c)
  | use_read now timeout c : tcp_use (now, c) (now, ReadFull now timeout c)
  | use_close now c : tcp_use (now, c) (now, Close c).

Definition tcp_any (w w' : Z * AsyncClient) : Prop := tcp_step w w' \/ tcp_use w w'.

(** ** Pending handlers *)

Definition pending (c : AsyncClient) : list handler :=
  socket_ops c ++ op_queue_ (deadline_ c) ++ (ready c).*2.

Definition connecting (h : handler) : option (list E) :=
  match h with HandleConnect endpoint_iter => Some endpoint_iter | _ => None end.

(** The connection attempts under way. *)
Definition connects (c : AsyncClient) : list (list E) := omap connecting (pending c).

(** A change that keeps the pending handlers, up to their order. *)
Record shuffles (c c' : AsyncClient) : Prop := {
  sh_pending : pending c' ≡ₚ pending c;
  sh_attempts : attempts c' = attempts c;
  sh_stopped : stopped_ c' = stopped_ c;
  sh_wf : timer_wf (deadline_ c) -> timer_wf (deadline_ c')
}.

#[local] Instance shuffles_preorder : PreOrder shuffles.
Proof.
  split; [by split|]. intros c1 c2 c3 [P1 A1 S1 W1] [P2 A2 S2 W2].
  split; [by rewrite P2|by rewrite A2|by rewrite S2|auto].
Qed.

Lemma on_deadline_shuffles op c : moves op -> timer_wf (deadline_ c) -> shuffles c (on_deadline op c).
Proof.
  intros Hm Hwf. unfold on_deadline. destruct (op (deadline_ c)) as [t done] eqn:Eo.
  destruct (Hm _ _ _ Hwf Eo) as [Hwf' Hq]. split; try done. unfold pending. cbn.
  rewrite <- Hq, fmap_app. solve_Permutation.
Qed.

Lemma on_deadline_open op c : is_open (on_deadline op c) = is_open c.
Proof. unfold on_deadline. by destruct (op _). Qed.

Lemma socket_close_shuffles c : shuffles c (socket_close c).
Proof.
  split; try done. unfold pending. cbn. rewrite fmap_app, completions_handlers. solve_Permutation.
Qed.

Lemma complete_shuffles ec h pre post c : socket_ops c = pre ++ h :: post ->
  shuffles c (complete ec h (pre ++ post) c).
Proof.
  intros Hs. split; try done. unfold pending. cbn. rewrite Hs, fmap_app. cbn. solve_Permutation.
Qed.

Lemma set_ready_pending ec h rest c : ready c = (ec, h) :: rest ->
  pending c ≡ₚ h :: pending (set_ready rest c).
Proof. intros Hr. unfold pending. cbn. rewrite Hr. cbn. solve_Permutation. Qed.

Lemma arm_pending now timeout c : timer_wf (deadline_ c) ->
  let c' := arm now timeout c in
  pending c' ≡ₚ CheckDeadline :: pending c /\ attempts c' = attempts c /\ stopped_ c' = stopped_ c /\
  is_open c' = is_open c /\ timer_wf (deadline_ c').
Proof.
  intros Hwf. unfold arm, on_deadline, expires_from_now. rewrite expires_at_spec by done. cbn.
  split_and!; try done. unfold pending. cbn. rewrite fmap_app, completions_handlers. solve_Permutation.
Qed.

Lemma start_op_pending open tried h c : pending (start_op open tried h c) ≡ₚ h :: pending c.
Proof. unfold pending. cbn. solve_Permutation. Qed.

Lemma Close_pending c : timer_wf (deadline_ c) ->
  pending (Close c) ≡ₚ pending c /\ attempts (Close c) = attempts c /\ stopped_ (Close c) = true /\
  is_open (Close c) = false /\ timer_wf (deadline_ (Close c)).
Proof.
  intros Hwf. unfold Close. rewrite on_deadline_open.
  assert (shuffles (set_stopped c) (on_deadline timer_cancel (socket_close (set_stopped c)))) as [Hp Ha Hs Hw].
  { etrans; [apply socket_close_shuffles|]. by apply on_deadline_shuffles; [apply timer_cancel_moves|]. }
  split_and!; [done|done|done|done|by apply Hw].
Qed.

(** ** The invariant *)

Record tcp_inv (endpoints : list E) (c : AsyncClient) : Prop := {
  ti_wf : timer_wf (deadline_ c);
  ti_closed : stopped_ c = true -> is_open c = false;
  ti_order : exists rest, endpoints = attempts c ++ rest /\
    (connects c = [] \/ exists e, connects c = [e :: rest])
}.

(** Nobody uses the client: what is pending connects, and it only stops when
    there is nothing left to try. *)
Record unused (endpoints : list E) (c : AsyncClient) : Prop := {
  un_pending : Forall (fun h => h = CheckDeadline \/ exists it, h = HandleConnect it) (pending c);
  un_stopped : stopped_ c = true -> attempts c = endpoints
}.

Lemma connects_perm c c' : pending c' ≡ₚ pending c -> connects c ≡ₚ connects c'.
Proof. intros Hp. unfold connects. by rewrite Hp. Qed.

Lemma short_perm {A} (l k : list A) (P : list A -> Prop) : l ≡ₚ k ->
  ((l = [] \/ exists x, l = [x]) -> P l -> P k).
Proof.
  intros Hp [->|[x ->]]; [by apply Permutation_nil_l in Hp as ->|].
  by apply Permutation_singleton_l in Hp as ->.
Qed.

Lemma order_shuffles endpoints c c' : pending c' ≡ₚ pending c -> attempts c' = attempts c ->
  (exists rest, endpoints = attempts c ++ rest /\ (connects c = [] \/ exists e, connects c = [e :: rest])) ->
  exists rest, endpoints = attempts c' ++ rest /\ (connects c' = [] \/ exists e, connects c' = [e :: rest]).
Proof.
  intros Hp Ha (rest & He & Hc). exists rest. rewrite Ha. split; [done|].
  apply (short_perm (connects c) (connects c') (fun l => l = [] \/ exists e, l = [e :: rest]));
    [by apply connects_perm|naive_solver|done].
Qed.

Lemma tcp_inv_shuffles endpoints c c' : shuffles c c' -> (is_open c' = true -> is_open c = true) ->
  tcp_inv endpoints c -> tcp_inv endpoints c'.
Proof.
  intros [Hp Ha Hs Hw] Ho [Hwf Hc Hor]. split; [auto| |by eapply order_shuffles].
  rewrite Hs. intros E0. specialize (Hc E0). destruct (is_open c'); [|done]. by rewrite Ho in Hc.
Qed.

Lemma unused_shuffles endpoints c c' : shuffles c c' -> unused endpoints c -> unused endpoints c'.
Proof. intros [Hp Ha Hs _] [Hu Ho]. split; [by rewrite Hp|by rewrite Ha, Hs]. Qed.

(** A handler was taken from the queue. *)
Lemma taken_inv endpoints ec h rest c : ready c = (ec, h) :: rest -> tcp_inv endpoints c ->
  tcp_inv endpoints (set_ready rest c) /\
  (forall it, h = HandleConnect it -> connects (set_ready rest c) = [] /\
     endpoints = attempts c ++ tail it).
Proof.
  intros Hr [Hwf Hc (r & He & Hcs)].
  pose proof (set_ready_pending ec h rest c Hr) as Hp.
  assert (connects c ≡ₚ match connecting h with
                         | Some it => it :: connects (set_ready rest c)
                         | None => connects (set_ready rest c) end) as Hc'.
  { unfold connects at 1. rewrite Hp. cbn. by destruct (connecting h). }
  destruct h as [|it| |]; cbn [connecting] in Hc'.
  2:{ destruct Hcs as [E0|[e E0]]; rewrite E0 in Hc'.
      - by apply Permutation_nil_cons in Hc'.
      - apply Permutation_singleton_l in Hc'. 
        assert (it = e :: r /\ connects (set_ready rest c) = []) as [-> Hn] by (split; congruence).
        split; [|by intros ? [= <-]]. split; try done. exists r. split; [done|by left]. }
  all: split; [|done]; split; try done; exists r; split; [done|];
    eapply (short_perm (connects c) _ (fun l => l = [] \/ exists e, l = [e :: r])); [done|naive_solver|done].
Qed.

Lemma startConnect_inv now endpoints it c : timer_wf (deadline_ c) -> connects c = [] ->
  stopped_ c = false -> endpoints = attempts c ++ it -> tcp_inv endpoints (startConnect now it c).
Proof.
  intros Hwf Hc Hs He. destruct it as [|e it]; cbn [startConnect].
  - destruct (Close_pending c Hwf) as (Hp & Ha & Hs' & Ho & Hw). split; [done|done|].
    eapply order_shuffles; [done|done|]. exists []. split; [done|by left].
  - destruct (arm_pending now 1000 c Hwf) as (Hp & Ha & Hs' & Ho & Hw).
    split; [done|by cbn; rewrite Hs', Hs|].
    exists it. cbn [start_op attempts]. rewrite Ha, He, <- app_assoc. split; [done|]. right. exists e.
    apply Permutation_singleton_r. unfold connects. rewrite start_op_pending, Hp. unfold connects in Hc. cbn. by rewrite Hc.
Qed.

Lemma Close_inv endpoints c : tcp_inv endpoints c -> tcp_inv endpoints (Close c).
Proof.
  intros [Hwf _ Ho]. destruct (Close_pending c Hwf) as (Hp & Ha & _ & Hop & Hw).
  split; [done|done|by eapply order_shuffles].
Qed.

(** A handler that ran. *)
Lemma handle_inv now endpoints ec h rest c : ready c = (ec, h) :: rest -> tcp_inv endpoints c ->
  tcp_inv endpoints (handle now ec h (set_ready rest c)).
Proof.
  intros Hr Hi. destruct (taken_inv endpoints ec h rest c Hr Hi) as [Hi0 Hit].
  set (c0 := set_ready rest c) in *. pose proof Hi0 as [Hwf Hcl _].
  assert (forall c1, shuffles c0 c1 -> is_open c1 = is_open c0 -> tcp_inv endpoints c1) as Hsh.
  { intros c1 Hs Ho. eapply tcp_inv_shuffles; [done|by rewrite Ho|done]. }
  assert (forall c1, tcp_inv endpoints c1 -> tcp_inv endpoints (socket_close c1)) as Hclose.
  { intros c1. apply tcp_inv_shuffles; [apply socket_close_shuffles|done]. }
  assert (tcp_inv endpoints (on_deadline timer_cancel c0)) as Hcancel.
  { apply Hsh; [by apply on_deadline_shuffles; [apply timer_cancel_moves|]|apply on_deadline_open]. }
  destruct h as [|it| |]; cbn [handle].
  - unfold checkDeadline. destruct (stopped_ c0); [done|]. destruct (_ <=? now); auto.
  - destruct (Hit it eq_refl) as [Hc0 He]. unfold handleConnect.
    destruct (stopped_ c0) eqn:Hs; [done|]. destruct (is_open c0); cbn [negb].
    + destruct (is_error ec); [|done]. apply startConnect_inv; [done| |done|done].
      { pose proof (sh_pending _ _ (socket_close_shuffles c0)) as Hp.
        apply connects_perm in Hp. rewrite Hc0 in Hp. by apply Permutation_nil_l in Hp. }
    + by apply startConnect_inv.
  - unfold handleTransfer. destruct (stopped_ c0); [done|].
    destruct (is_error ec); [by apply Close_inv|done].
  - unfold handleTransfer. destruct (stopped_ c0); [done|].
    destruct (is_error ec); [by apply Close_inv|done].
Qed.

Lemma arm_inv now timeout endpoints c : tcp_inv endpoints c -> tcp_inv endpoints (arm now timeout c).
Proof.
  intros [Hwf Hc (rest & He & Hcs)]. destruct (arm_pending now timeout c Hwf) as (Hp & Ha & Hs & Ho & Hw).
  split; [done|by rewrite Hs, Ho|]. exists rest. rewrite Ha. split; [done|].
  eapply (short_perm (connects c) _ (fun l => l = [] \/ exists e, l = [e :: rest]));
    [unfold connects; by rewrite Hp|naive_solver|done].
Qed.

(** Writes and reads leave the connection as it is. *)
Lemma transfer_inv endpoints h c : connecting h = None -> tcp_inv endpoints c ->
  tcp_inv endpoints (start_op (is_open c) [] h c).
Proof.
  intros Hh [Hwf Hc (rest & He & Hcs)]. split; [done|done|]. exists rest. cbn [start_op attempts].
  rewrite app_nil_r. split; [done|].
  eapply (short_perm (connects c) _ (fun l => l = [] \/ exists e, l = [e :: rest]));
    [unfold connects; rewrite start_op_pending; cbn; by rewrite Hh|naive_solver|done].
Qed.

Lemma tcp_step_inv endpoints w w' : tcp_step w w' -> tcp_inv endpoints w.2 -> tcp_inv endpoints w'.2.
Proof.
  intros [now later c _|now c ec h pre post Hs|now c|now c ec h rest Hr] Hi; cbn [snd] in *; [done|..].
  - by eapply tcp_inv_shuffles; [by apply complete_shuffles| |].
  - eapply tcp_inv_shuffles; [apply on_deadline_shuffles; [apply get_ready_moves|by destruct Hi]| |done].
    by rewrite on_deadline_open.
  - by apply handle_inv with (ec := ec).
Qed.

Lemma tcp_use_inv endpoints w w' : tcp_use w w' -> tcp_inv endpoints w.2 -> tcp_inv endpoints w'.2.
Proof.
  intros [now timeout c|now timeout c|now c] Hi; cbn [snd] in *; [..|by apply Close_inv].
  - unfold Write. destruct (timeout =? 0); apply transfer_inv; auto using arm_inv.
  - unfold ReadFull. destruct (timeout =? 0); apply transfer_inv; auto using arm_inv.
Qed.

Lemma client_new_inv now endpoints : tcp_inv endpoints (client_new now endpoints).
Proof. apply startConnect_inv; [apply timer_new_wf|done..]. Qed.

(** ** A client nobody uses *)

Definition connects_only (h : handler) : Prop := h = CheckDeadline \/ exists it, h = HandleConnect it.

Lemma startConnect_unused now endpoints it c : timer_wf (deadline_ c) -> stopped_ c = false ->
  endpoints = attempts c ++ it -> Forall connects_only (pending c) ->
  unused endpoints (startConnect now it c).
Proof.
  intros Hwf Hs He Hu. destruct it as [|e it]; cbn [startConnect].
  - destruct (Close_pending c Hwf) as (Hp & Ha & _). split; [by rewrite Hp|].
    intros _. by rewrite Ha, He, app_nil_r.
  - destruct (arm_pending now 1000 c Hwf) as (Hp & Ha & Hs' & _).
    split; [|by cbn; rewrite Hs', Hs].
    rewrite start_op_pending, Hp. constructor; [right; by eexists|]. constructor; [by left|done].
Qed.

Lemma handle_unused now endpoints ec h rest c : ready c = (ec, h) :: rest -> tcp_inv endpoints c ->
  unused endpoints c -> unused endpoints (handle now ec h (set_ready rest c)).
Proof.
  intros Hr Hi [Hu Hst]. destruct (taken_inv endpoints ec h rest c Hr Hi) as [[Hwf _ _] Hit].
  rewrite (set_ready_pending ec h rest c Hr) in Hu. apply Forall_cons in Hu as [Hh Hu].
  set (c0 := set_ready rest c) in *.
  assert (unused endpoints c0) as Hu0 by done.
  pose proof (socket_close_shuffles c0) as Hc.
  destruct Hh as [->|[it ->]]; cbn [handle].
  - unfold checkDeadline. destruct (stopped_ c0); [done|]. destruct (_ <=? now); [|done].
    by eapply unused_shuffles.
  - destruct (Hit it eq_refl) as [_ He]. unfold handleConnect. destruct (stopped_ c0) eqn:Hs; [done|].
    destruct (is_open c0); cbn [negb]; [|by apply startConnect_unused].
    destruct (is_error ec).
    + apply startConnect_unused; [done|done|done|]. by rewrite (sh_pending _ _ Hc).
    + eapply unused_shuffles; [apply on_deadline_shuffles; [apply timer_cancel_moves|done]|done].
Qed.

Lemma tcp_step_unused endpoints w w' : tcp_step w w' -> tcp_inv endpoints w.2 ->
  unused endpoints w.2 -> unused endpoints w'.2.
Proof.
  intros [now later c _|now c ec h pre post Hs|now c|now c ec h rest Hr] Hi Hu; cbn [snd] in *; [done|..].
  - by eapply unused_shuffles; [apply complete_shuffles|].
  - eapply unused_shuffles; [apply on_deadline_shuffles; [apply get_ready_moves|by destruct Hi]|done].
  - by apply handle_unused with (ec := ec).
Qed.

(** C40: the connection attempts of a TCP client, whatever its user and the
    network do: the endpoints are tried in the resolver's order, each at most
    once, with at most one attempt under way; a stopped client is closed. A
    client that nobody uses stops only when every endpoint has been tried. *)
Theorem connects_in_order (now : Z) (endpoints : list E) :
  (forall w, rtc tcp_any (now, client_new now endpoints) w ->
     attempts w.2 `prefix_of` endpoints /\ (length (connects w.2) <= 1)%nat /\
     (stopped_ w.2 = true -> is_open w.2 = false)) /\
  (forall w, rtc tcp_step (now, client_new now endpoints) w ->
     stopped_ w.2 = true -> attempts w.2 = endpoints).
Proof.
  split.
  - intros w Hw.
    assert (tcp_inv endpoints w.2) as [_ Hc (rest & He & Hcs)].
    { eapply (rtc_ind_r (fun w => tcp_inv endpoints w.2)); [|..|exact Hw]; [apply client_new_inv|].
      intros y z _ [Hyz|Hyz]; [by apply tcp_step_inv|by apply tcp_use_inv]. }
    split; [by exists rest|]. split; [|done]. destruct Hcs as [->|[e ->]]; cbn; lia.
  - intros w Hw.
    assert (tcp_inv endpoints w.2 /\ unused endpoints w.2) as [_ [_ Hst]]; [|done].
    eapply (rtc_ind_r (fun w => tcp_inv endpoints w.2 /\ unused endpoints w.2)); [|..|exact Hw].
    + split; [apply client_new_inv|]. by apply startConnect_unused; [apply timer_new_wf|..].
    + intros y z _ Hyz [Hi Hu]. split; [by eapply tcp_step_inv|by eapply tcp_step_unused].
Qed.
End client.

(** Two endpoints that refuse: both are tried, then the client stops. *)
Definition refuse (c : AsyncClient (E := Z)) : AsyncClient :=
  match socket_ops c with h :: rest => complete OtherError h rest c | [] => c end.
Definition run_next (c : AsyncClient (E := Z)) : AsyncClient :=
  match ready c with (ec, h) :: rest => handle 0 ec h (set_ready rest c) | [] => c end.

Lemma refuse_steps c : rtc tcp_step (0, c) (0, refuse c).
Proof.
  unfold refuse. destruct (socket_ops c) as [|h rest] eqn:Eo; [done|].
  apply rtc_once. by apply (tcp_io 0 c OtherError h [] rest).
Qed.

Lemma run_next_steps c : rtc tcp_step (0, c) (0, run_next c).
Proof.
  unfold run_next. destruct (ready c) as [|[ec h] rest] eqn:Eo; [done|].
  apply rtc_once. by apply tcp_run.
Qed.

Definition refused_twice : AsyncClient :=
  run_next (run_next (refuse (run_next (refuse (client_new 0 [1; 2]))))).

Lemma refused_twice_steps : rtc tcp_step (0, client_new 0 [1; 2]) (0, refused_twice).
Proof.
  unfold refused_twice. etrans; [apply refuse_steps|]. etrans; [apply run_next_steps|].
  etrans; [apply refuse_steps|]. etrans; apply run_next_steps.
Qed.

Lemma connects_in_order_witness : stopped_ refused_twice = true /\ attempts refused_twice = [1; 2].
Proof.
  assert (stopped_ refused_twice = true) as Hs by by vm_compute.
  split; [exact Hs|].
  exact (proj2 (connects_in_order 0 [1; 2]) (0, refused_twice) refused_twice_steps Hs).
Defined.
