(* ===== verification/TcpServer.v ===== *)
(** * src/network/tcp/runner.hpp: the TCP server and its runner

    The server accepts connections for ever, all of them into the one [socket_];
    the sessions it starts are Session.v. [TcpRunner] owns a server and an
    [io_service]; the program uses [HybridRunner] instead. *)
From S2P Require Import Prelude Timer.
Local Open Scope Z_scope.

(** [accepting]: the accepts under way. *)
Record Server := mkServer {
  accepting : nat;
  sessions : nat                        (* started, and not yet over *)
}.

(** The constructor binds the acceptor; nothing is accepted before [Start]. *)
Definition Server_new : Server := mkServer 0 0.

Definition doAccept (s : Server) : Server := mkServer (S (accepting s)) (sessions s).

Definition Server_Start : Server -> Server := doAccept.

(** The completion handler: a session for the connection, and the next accept. *)
Definition on_accepted (ec : error_code) (s : Server) : Server :=
  let s := if is_error ec then s else mkServer (accepting s) (S (sessions s)) in
  doAccept s.

(** An accept that completes is replaced: a started server never stops
    listening, and never listens twice. *)
Lemma on_accepted_listens ec n m :
  accepting (on_accepted ec (mkServer n m)) = S n /\
  sessions (on_accepted ec (mkServer n m)) = (if is_error ec then m else S m).
Proof. unfold on_accepted. by destruct (is_error ec). Qed.

(** ** TcpRunner *)

(** [tcp_svr_]: null, or the server and its port. *)
Record TcpRunner := mkTcpRunner { tcp_svr_ : option (Z * Server) }.

Definition TcpRunner_new : TcpRunner := mkTcpRunner None.

Section runner.
(** The acceptor's constructor can bind the port; else it throws. *)
Context (bindable : Z -> bool).

(** [None]: the [system_error] of the acceptor leaves the function. *)
Definition PrepareServer (port : Z) (r : TcpRunner) : option bool * TcpRunner :=
  match tcp_svr_ r with
  | Some _ => (Some false, r)
  | None =>
    if bindable port then (Some true, mkTcpRunner (Some (port, Server_new))) else (None, r)
  end.

(** The [std::thread] is a temporary, destroyed joinable at the end of the
    statement: [std::terminate]. *)
Definition TcpRunner_Run (r : TcpRunner) : outcome TcpRunner := Crash Terminated.

(** One server per runner: after a first success every call is refused and
    changes nothing; a failed call can be repeated. *)
Lemma PrepareServer_once port port' r b r' : PrepareServer port r = (b, r') ->
  match b with
  | Some _ => PrepareServer port' r' = (Some false, r')
  | None => r' = r /\ bindable port = false
  end.
Proof.
  unfold PrepareServer. destruct (tcp_svr_ r) as [s|] eqn:E; [intros [= <- <-]; by rewrite E|].
  destruct (bindable port); by intros [= <- <-].
Qed.
End runner.
