(* ===== verification/HybridRunner.v ===== *)
(** * src/hybrid_runner.hpp: the whole process

    [HybridRunner] holds the TCP server (tcp/runner.hpp), the UDP server and the
    tickers of a node, and runs their handlers. The process is the runner, the
    gossiper its handlers call, the sessions of the TCP server and the UDP
    clients of the probes; its steps are the steps of those parts. *)
From stdpp Require Import relations.
From S2P Require Import Prelude Utils Bytes Header Node Broadcast Suspicion Messages Gossiper.
From S2P Require Import Membership Protocol Dynamics Exchange Session Runs Timer.
From S2P Require Ticker UdpServer UdpClient.
From S2P Require Import Probe TcpServer.
Local Open Scope Z_scope.

(** ** The runner *)

Record HybridRunner := mkRunner {
  tcp_svr_ : Server;
  udp_svr_ : UdpServer.Server;
  tickers_ : list (routine * Ticker.AsioTicker);
  threads : Z
}.

Definition runner_new (data : list Z) : HybridRunner :=
  mkRunner Server_new (UdpServer.mkServer data []) [] 0.

Definition AddTicker (now interval : Z) (cb : routine) (r : HybridRunner) : HybridRunner :=
  mkRunner (tcp_svr_ r) (udp_svr_ r)
    (tickers_ r ++ [(cb, Ticker.Tick now interval true Ticker.ticker_new)]) (threads r).

(** The loop over an [int]. *)
Definition Run (thread_num : Z) (r : HybridRunner) : HybridRunner :=
  mkRunner (Server_Start (tcp_svr_ r)) (UdpServer.Start (udp_svr_ r)) (tickers_ r)
    (threads r + Z.max 0 thread_num).

Definition set_tcp (s : Server) (r : HybridRunner) : HybridRunner :=
  mkRunner s (udp_svr_ r) (tickers_ r) (threads r).
Definition set_udp (s : UdpServer.Server) (r : HybridRunner) : HybridRunner :=
  mkRunner (tcp_svr_ r) s (tickers_ r) (threads r).
Definition set_ticker (i : nat) (t : routine * Ticker.AsioTicker) (r : HybridRunner) : HybridRunner :=
  mkRunner (tcp_svr_ r) (udp_svr_ r) (<[i := t]> (tickers_ r)) (threads r).

(** What [alive] does with the runner, if [Join] came to it. *)
Definition start_routines (now thread_num : Z) (routines : list (Z * routine)) (r : HybridRunner) :
    HybridRunner :=
  match routines with
  | [] => r
  | _ => Run thread_num (foldl (fun r '(interval, cb) => AddTicker now interval cb r) r routines)
  end.

(** ** The process *)

Record process := mkProcess {
  now_ : Z;
  gossip_ : gossiper;
  hybrid_runner_ : HybridRunner;
  clients_ : list (probe_op * UdpClient.AsyncClient * list (Z * UdpClient.callback));
  made_ : list probe_op;                (* every probe made so far *)
  joins_ : nat                          (* the calls of Join that came to [alive] *)
}.

Section process.
Context (host : endian) (valid_address : string -> bool) (THREAD_NUM : Z).
Context `{IterationOrder} `{Residue} `{TableOrder} `{FreedHeap} `{StackRoom} `{StaleHeader}
  `{!MessageCodec} `{!MessageCodecOk _}.

(** A ticker's handler ran: is its callback called? *)
Definition ticks (t t' : Ticker.AsioTicker) : bool :=
  bool_decide (length (Ticker.calls_ t') <> length (Ticker.calls_ t)).

Inductive process_step : process -> process -> Prop :=
  | process_time now later g r cs ps j : now <= later ->
      process_step (mkProcess now g r cs ps j) (mkProcess later g r cs ps j)
  | process_join network peer rts now g g' r cs ps j :
      (forall h p, peer_ok (network h p)) -> Join host network peer g = Ok (rts, g') ->
      process_step (mkProcess now g r cs ps j)
        (mkProcess now g' (start_routines now THREAD_NUM rts r) cs ps
           (match rts with [] => j | _ => S j end))
  | process_expire i cb t now g r cs ps j : tickers_ r !! i = Some (cb, t) ->
      process_step (mkProcess now g r cs ps j)
        (mkProcess now g (set_ticker i (cb, Ticker.expire now t) r) cs ps j)
  | process_tick_stays i cb t now later g r cs ps j : now <= later -> tickers_ r !! i = Some (cb, t) ->
      ticks t (Ticker.run_ready now later t) = false ->
      process_step (mkProcess now g r cs ps j)
        (mkProcess later g (set_ticker i (cb, Ticker.run_ready now later t) r) cs ps j)
  | process_tick_gossip i t now later g g' r cs ps j : now <= later ->
      tickers_ r !! i = Some (GossipRoutine, t) -> ticks t (Ticker.run_ready now later t) = true ->
      gossip g = Ok (tt, g') ->
      process_step (mkProcess now g r cs ps j)
        (mkProcess later g' (set_ticker i (GossipRoutine, Ticker.run_ready now later t) r) cs ps j)
  | process_tick_probe i t buff op now later g g' r cs new ps j : now <= later ->
      tickers_ r !! i = Some (ProbeRoutine, t) -> ticks t (Ticker.run_ready now later t) = true ->
      probe host buff g = Ok (op, g') ->
      match op with
      | Some p => exists data c, start_probe valid_address now data p = Ok c /\ new = [(p, c, [])]
      | None => new = []
      end ->
      process_step (mkProcess now g r cs ps j)
        (mkProcess later g' (set_ticker i (ProbeRoutine, Ticker.run_ready now later t) r) (cs ++ new)
           (option_list op ++ ps) j)
  | process_client i p c c' l l' now later g g' r cs ps j :
      cs !! i = Some (p, c, l) ->
      client_step host valid_address p (mkProbing now c g l) (mkProbing later c' g' l') ->
      process_step (mkProcess now g r cs ps j)
        (mkProcess later g' r (<[i := (p, c', l')]> cs) ps j)
  | process_receive ec bytes data pre post s' now g g' r cs ps j :
      UdpServer.pending (udp_svr_ r) = pre ++ UdpServer.Receiving :: post -> Forall is_byte data ->
      UdpServer.on_received (PacketHandler0 := UdpServer.gossiper_packets host) ec bytes
        (UdpServer.mkServer data (pre ++ post)) g = Ok (s', g') ->
      process_step (mkProcess now g r cs ps j) (mkProcess now g' (set_udp s' r) cs ps j)
  | process_sent ec n pre post now g r cs ps j :
      UdpServer.pending (udp_svr_ r) = pre ++ UdpServer.Sending n :: post ->
      process_step (mkProcess now g r cs ps j)
        (mkProcess now g (set_udp (UdpServer.on_sent ec
           (UdpServer.mkServer (UdpServer.data_ (udp_svr_ r)) (pre ++ post))) r) cs ps j)
  | process_accept ec n m now g r cs ps j : tcp_svr_ r = mkServer (S n) m ->
      process_step (mkProcess now g r cs ps j)
        (mkProcess now g (set_tcp (on_accepted ec (mkServer n m)) r) cs ps j)
  | process_session uninit in_buff out_buff stream resp n m now g g' r cs ps j :
      tcp_svr_ r = mkServer n (S m) -> Forall is_byte in_buff -> Forall is_byte stream ->
      Session_Go host uninit in_buff out_buff stream g = Ok (resp, g') ->
      process_step (mkProcess now g r cs ps j) (mkProcess now g' (set_tcp (mkServer n m) r) cs ps j)
  | process_suspicion k now g g' r cs ps j : on_suspicion_timer k g = Ok (tt, g') ->
      process_step (mkProcess now g r cs ps j) (mkProcess now g' r cs ps j)
  | process_posted now g g' r cs ps j : run_posted g = Ok (tt, g') ->
      process_step (mkProcess now g r cs ps j) (mkProcess now g' r cs ps j).

Definition process_initial (conf : config) (join leave : bool) (data : list Z) (w : process) : Prop :=
  exists now g, RegisterNotifier join leave (gossiper_new conf) = Ok (tt, g) /\
    w = mkProcess now g (runner_new data) [] [] 0.

(** What the gossiper sees of a process. *)
Definition seen (w : process) : system := mkSystem (gossip_ w) (made_ w).

(** ** What a step does to the gossiper *)

Lemma Join_routines network peer g rts g' : Join host network peer g = Ok (rts, g') ->
  rts = [] \/ rts = [(Probe_interval_ (conf_ g'), ProbeRoutine); (Gossip_interval_ (conf_ g'), GossipRoutine)].
Proof.
  unfold Join, alive. destruct (Split peer ":") as [[|? [|? [|]]]|]; run; intros E;
    repeat first [progress simplify_eq | case_match]; auto.
Qed.

(** A client's callbacks are steps of the gossiper. *)
Lemma client_step_seen p w w' ps : p ∈ ps -> client_step host valid_address p w w' ->
  rtc (step host) (mkSystem (owner w) ps) (mkSystem (owner w') ps) /\ clock w <= clock w'.
Proof.
  intros Hp [now later c g l Hn|now c g l ec bytes data h pre post Hs|now c g l
            |now later c g l ec bytes h rest c' g' calls Hn Hr Hrun]; cbn [owner clock]; [done..|].
  split; [|done]. unfold run_handler in Hrun. run in Hrun.
  destruct (UdpClient.handle _ _ _ _ _) as [[c1 [cb|]]|]; [|by injection Hrun as <- _ <-|done].
  destruct (on_callback _ _ _ _ _ _ _) as [[c2 g2]|] eqn:E; [|done]. injection Hrun as <- _ <-.
  destruct cb; cbn [on_callback] in E; revert E; run; intros E.
  - case_match; simplify_eq. done.
  - by simplify_eq.
  - case_match; simplify_eq. case_match. simplify_eq. destruct u.
    apply rtc_once. by eapply step_pong.
  - case_match; simplify_eq. case_match. simplify_eq. destruct u.
    apply rtc_once. by eapply step_probe_timeout.
Qed.

Lemma memcpy_bytes m pos src m' : Forall is_byte m -> Forall is_byte src ->
  memcpy m pos src = Ok m' -> Forall is_byte m'.
Proof.
  intros Hm Hs (_ & _ & ->)%memcpy_Ok. apply Forall_app. split; [by apply Forall_take|].
  apply Forall_app. split; [done|by apply Forall_drop].
Qed.

Lemma Session_seen uninit in_buff out_buff stream g resp g' ps :
  Forall is_byte in_buff -> Forall is_byte stream ->
  Session_Go host uninit in_buff out_buff stream g = Ok (resp, g') ->
  rtc (step host) (mkSystem g ps) (mkSystem g' ps).
Proof.
  intros Hb Hs. unfold Session_Go, doReadHeader, doReadBody, ReadFull. run.
  destruct (len stream <? HEADER_SIZE); [by intros [= _ <-]|].
  set (hdr := take _ stream). set (rest := drop _ stream).
  assert (Forall is_byte hdr) by by apply Forall_take. assert (Forall is_byte rest) by by apply Forall_drop.
  destruct (memcpy in_buff 0 hdr) as [b1|] eqn:E1; [|done].
  destruct (handleHeader _ _ _ _) as [h|]; [|done].
  destruct (len rest <? _); [by intros [= _ <-]|].
  destruct (memcpy b1 0 _) as [b2|] eqn:E2; [|done].
  destruct (handleBody _ _ _ _ _ _ _) as [[[r out] g1]|] eqn:E3; [|done].
  destruct (doWriteResponse _ _); [|done]. intros [= _ <-]. apply rtc_once.
  eapply step_session; [|exact E3].
  assert (Forall is_byte b1) by (eapply memcpy_bytes; [exact Hb| |exact E1]; done).
  eapply memcpy_bytes; [| |exact E2]; [done|by apply Forall_take].
Qed.

Lemma received_seen ec bytes s g s' g' ps : Forall is_byte (UdpServer.data_ s) ->
  UdpServer.on_received (PacketHandler0 := UdpServer.gossiper_packets host) ec bytes s g = Ok (s', g') ->
  rtc (step host) (mkSystem g ps) (mkSystem g' ps) /\
  length (UdpServer.pending s') = S (length (UdpServer.pending s)).
Proof.
  intros Hb. unfold UdpServer.on_received, UdpServer.handle_packet_, UdpServer.gossiper_packets. run.
  destruct (_ && _); [|intros [= <- <-]; split; [done|cbn; rewrite length_app; cbn; lia]].
  destruct (handlePacket _ _ _ _ _) as [[[r b] g1]|] eqn:E; [|done].
  destruct (0 <? r); intros [= <- <-]; (split; [apply rtc_once; eapply step_packet; [exact Hb|exact E]|]);
    cbn; rewrite length_app; cbn; lia.
Qed.

(** ** The invariant of the process *)

Definition interval (conf : config) (cb : routine) : Z :=
  match cb with
  | ProbeRoutine => Probe_interval_ conf
  | GossipRoutine => Gossip_interval_ conf
  end.

(** A ticker of the process, at some moment, is one that keeps time. *)
Definition on_time (conf : config) (now : Z) (t : routine * Ticker.AsioTicker) : Prop :=
  exists start, Ticker.ticker_inv start (milliseconds (interval conf t.1)) (now, t.2).

Record process_inv (conf : config) (w : process) : Prop := {
  pi_clients : Forall (fun c => c.1.1 ∈ made_ w) (clients_ w);
  pi_accept : accepting (tcp_svr_ (hybrid_runner_ w)) = joins_ w;
  pi_udp : length (UdpServer.pending (udp_svr_ (hybrid_runner_ w))) = joins_ w;
  pi_tickers : length (tickers_ (hybrid_runner_ w)) = (2 * joins_ w)%nat;
  pi_on_time : Forall (on_time conf (now_ w)) (tickers_ (hybrid_runner_ w))
}.

Lemma process_step_seen w w' : Forall (fun c => c.1.1 ∈ made_ w) (clients_ w) ->
  process_step w w' -> rtc (step host) (seen w) (seen w').
Proof.
  unfold seen. intros Hc Hs.
  destruct Hs as [|network peer rts now g g' r cs ps j Hn Hj|i cb t now g r cs ps j Ht
    |i cb t now later g r cs ps j|i t now later g g' r cs ps j Hn Ht Hk Hg
    |i t buff op now later g g' r cs new ps j Hn Ht Hk Hp Hnew
    |i p c c' l l' now later g g' r cs ps j Hi Hcl
    |ec bytes data pre post s' now g g' r cs ps j Hp Hb Hrec
    |ec n pre post now g r cs ps j Hp|ec n m now g r cs ps j Ha
    |uninit in_buff out_buff stream resp n m now g g' r cs ps j Ha Hb Hst Hse
    |k now g g' r cs ps j Hsus|now g g' r cs ps j Hpo]; cbn [gossip_ made_ clients_] in *; try done.
  - apply rtc_once. by eapply step_join.
  - unfold gossip in Hg. run in Hg. by injection Hg as <-.
  - apply rtc_once. by eapply step_probe.
  - eapply client_step_seen in Hcl as [Hr _]; [exact Hr|].
    by eapply (Forall_lookup_1 _ _ _ _ Hc) in Hi.
  - by eapply received_seen in Hrec as [Hr _].
  - eapply Session_seen; [exact Hb|exact Hst|exact Hse].
  - apply rtc_once. by eapply step_suspicion_timer.
  - apply rtc_once. by eapply step_posted.
Qed.

Section invariant.
Context (conf : config).
Context (Hprobe : 0 <= Probe_interval_ conf) (Hgossip : 0 <= Gossip_interval_ conf).

Lemma interval_nonneg cb : 0 <= milliseconds (interval conf cb).
Proof using Hgossip Hprobe. unfold milliseconds. destruct cb; cbn; lia. Qed.

Lemma on_time_step now later cb t t' : Ticker.tick_step (now, t) (later, t') ->
  on_time conf now (cb, t) -> on_time conf later (cb, t').
Proof using Hgossip Hprobe.
  intros Hs [start Ht]. exists start. cbn in *.
  exact (Ticker.tick_step_inv _ _ _ _ (interval_nonneg cb) Hs Ht).
Qed.

Lemma on_time_later now later ts : now <= later -> Forall (on_time conf now) ts ->
  Forall (on_time conf later) ts.
Proof using Hgossip Hprobe.
  intros Hn Hts. eapply Forall_impl; [exact Hts|]. intros [cb t]. apply on_time_step. by constructor.
Qed.

(** One ticker moves, and time with it. *)
Lemma on_time_insert now later i cb t t' ts : now <= later -> ts !! i = Some (cb, t) ->
  Ticker.tick_step (now, t) (later, t') -> Forall (on_time conf now) ts ->
  Forall (on_time conf later) (<[i := (cb, t')]> ts).
Proof using Hgossip Hprobe.
  intros Hn Hi Hs Hts. apply Forall_insert; [by eapply on_time_later|].
  eapply on_time_step; [exact Hs|]. by eapply (Forall_lookup_1 _ _ _ _ Hts).
Qed.

Lemma tick_new now cb :
  on_time conf now (cb, Ticker.Tick now (interval conf cb) true Ticker.ticker_new).
Proof using Hgossip Hprobe. exists now. apply Ticker.Tick_inv. destruct cb; done. Qed.

Lemma process_step_inv w w' : conf_ (gossip_ w') = conf -> process_inv conf w -> process_step w w' ->
  process_inv conf w'.
Proof using Hgossip Hprobe.
  intros Hconf Hi Hs.
  destruct Hs as [now later g r cs ps j Hn|network peer rts now g g' r cs ps j Hn Hj|i cb t now g r cs ps j Ht
    |i cb t now later g r cs ps j Hn Ht Hk|i t now later g g' r cs ps j Hn Ht Hk Hg
    |i t buff op now later g g' r cs new ps j Hn Ht Hk Hp Hnew
    |i p c c' l l' now later g g' r cs ps j Hc Hcl
    |ec bytes data pre post s' now g g' r cs ps j Hp Hb Hrec
    |ec n pre post now g r cs ps j Hp|ec n m now g r cs ps j Ha
    |uninit in_buff out_buff stream resp n m now g g' r cs ps j Ha Hb Hst Hse
    |k now g g' r cs ps j Hsus|now g g' r cs ps j Hpo]; destruct Hi as [Hcs Hac Hud Htk Hot];
    cbn [gossip_ made_ clients_ hybrid_runner_ joins_ now_] in *.
  - split; cbn; try done. by eapply on_time_later.
  - destruct (Join_routines _ _ _ _ _ Hj) as [->| ->]; [by split|]. rewrite Hconf. cbn [start_routines].
    unfold Run, AddTicker. cbn. split; cbn; try lia; [done| | |].
    + rewrite length_app. cbn. lia.
    + rewrite !length_app. cbn. lia.
    + apply Forall_app. split; [apply Forall_app; split; [done|]|];
        apply Forall_singleton; [apply (tick_new now ProbeRoutine)|apply (tick_new now GossipRoutine)].
  - split; cbn; try done; [by rewrite length_insert|]. eapply on_time_insert; try done. apply Ticker.tick_expire.
  - split; cbn; try done; [by rewrite length_insert|]. eapply on_time_insert; try done. by apply Ticker.tick_run.
  - split; cbn; try done; [by rewrite length_insert|]. eapply on_time_insert; try done. by apply Ticker.tick_run.
  - split; cbn; try done; [|by rewrite length_insert|].
    + apply Forall_app. split.
      * eapply Forall_impl; [exact Hcs|]. intros x Hx. cbn in *. apply elem_of_app. by right.
      * destruct op as [p|]; [destruct Hnew as (data & c & _ & ->)|by subst].
        apply Forall_singleton. cbn. by left.
    + eapply on_time_insert; try done. by apply Ticker.tick_run.
  - assert (p ∈ ps) as Hin by by eapply (Forall_lookup_1 _ _ _ _ Hcs) in Hc.
    destruct (client_step_seen _ _ _ ps Hin Hcl) as [_ Hle]. cbn in Hle.
    split; cbn; try done; [by apply Forall_insert|by eapply on_time_later].
  - destruct (received_seen ec bytes (UdpServer.mkServer data (pre ++ post)) g s' g' ps Hb Hrec) as [_ Hl]. split; cbn; try done.
    rewrite Hl. rewrite Hp in Hud. cbn. rewrite !length_app in *. cbn in Hud. lia.
  - split; cbn; try done. rewrite Hp in Hud. rewrite !length_app in *. cbn in *. lia.
  - split; cbn; try done. rewrite Ha in Hac. cbn in Hac. rewrite <- Hac. by destruct (is_error ec).
  - split; cbn; try done. by rewrite Ha in Hac.
  - by split.
  - by split.
Qed.
End invariant.

(** C38: the process runs the gossiper, and only through its steps. Whatever the
    clock, the network, the sessions and the order of handlers do, what the
    gossiper has gone through is a run of the system whose properties are stated
    above; and with each [Join] the process gets one more accept, one more
    operation of the UDP server, and two more tickers, whose callbacks are at
    least their interval apart. The single operation that the UDP server's
    buffer allows for is had by a process that joins once. *)
Theorem process_refines (conf : config) (join leave : bool) (data : list Z) (w w' : process) :
  0 <= Probe_interval_ conf -> 0 <= Gossip_interval_ conf ->
  process_initial conf join leave data w -> rtc process_step w w' ->
  reachable host conf join leave (seen w') /\
  let r := hybrid_runner_ w' in
  accepting (tcp_svr_ r) = joins_ w' /\ length (UdpServer.pending (udp_svr_ r)) = joins_ w' /\
  length (tickers_ r) = (2 * joins_ w')%nat /\
  Forall (fun '(cb, t) => exists start,
    Ticker.spaced start (milliseconds (interval conf cb)) (Ticker.calls_ t)) (tickers_ r).
Proof.
  intros Hp Hg (now & g & Hreg & ->) Hs.
  assert (reachable host conf join leave (seen w') /\ process_inv conf w') as [Hr [_ Ha Hu Ht Ho]].
  { eapply (rtc_ind_r (fun w => reachable host conf join leave (seen w) /\ process_inv conf w)); [|..|exact Hs].
    - split; [|by split]. eexists. split; [|apply rtc_refl]. by split.
    - intros y z _ Hyz [(s0 & Hi & Hy) Hinv].
      assert (reachable host conf join leave (seen z)) as Hz.
      { exists s0. split; [done|]. etrans; [exact Hy|]. apply process_step_seen; [apply Hinv|done]. }
      split; [done|]. eapply process_step_inv; [done|done| |done|done].
      apply (reachable_inv _ _ _ _ _ Hz). }
  split; [done|]. split; [done|]. split; [done|]. split; [done|].
  eapply Forall_impl; [exact Ho|]. intros [cb t] [start Hi]. exists start. apply Hi.
Qed.
End process.
