(* ===== verification/Main.v ===== *)
(** * examples/main.cpp: the program

    [./main <local addr> <join addr>]: a configuration from the first argument, a
    gossiper with both handlers registered, a [Join] of the second argument, and
    then sleep while the runner works. What the program does after [main] went to
    sleep is the process of HybridRunner.v. *)
From stdpp Require Import relations.
From Stdlib Require Import Ascii.
From S2P Require Import Prelude Utils Bytes Header Node Broadcast Suspicion Messages Gossiper.
From S2P Require Import Membership Protocol Dynamics Exchange Session Runs HybridRunner.
Local Open Scope Z_scope.

Definition newline : string := String (ascii_of_nat 10) EmptyString.

(** What the handlers print. *)
Definition notify_join (node : string) : string := ("node " +:+ node +:+ " joined." +:+ newline)%string.
Definition notify_leave (node : string) : string := ("node " +:+ node +:+ " left." +:+ newline)%string.

(** The output of the handlers so far. *)
Definition printed (g : gossiper) : list string :=
  (fun e => match e with Joined k => notify_join k | Left k => notify_leave k end) <$> notified_ g.

Section main.
Context (host : endian) (valid_address : string -> bool).
Context `{IterationOrder} `{Residue} `{TableOrder} `{FreedHeap} `{StackRoom} `{StaleHeader}
  `{!MessageCodec} `{!MessageCodecOk _}.

(** [gossiper<1>]: one thread. [None]: the usage line, and the end. *)
Definition main (network : string -> string -> peer_stream) (junk now : Z) (data : list Z)
    (argv : list string) : outcome (option process) :=
  match argv with
  | [_; addr; join_addr] =>
    conf ← config_new junk addr;
    '(_, g) ← RegisterNotifier true true (gossiper_new conf);
    '(rts, g) ← Join host network join_addr g;
    Ok (Some (mkProcess now g (start_routines now 1 rts (runner_new data)) [] []
      (match rts with [] => O | _ => 1%nat end)))
  | _ => Ok None
  end.

Abbreviation started conf := (set_notify_leave_ true (set_notify_join_ true (gossiper_new conf))).

(** What [main] leaves running is a process after one step from its start. *)
Lemma main_process network junk now data prog addr join_addr w :
  (forall h p, peer_ok (network h p)) ->
  main network junk now data [prog; addr; join_addr] = Ok (Some w) ->
  exists conf w0, config_new junk addr = Ok conf /\ process_initial conf true true data w0 /\
    process_step host valid_address 1 w0 w.
Proof.
  intros Hn. unfold main. intros (conf & Hc & E)%outcome_bind_Ok.
  change (RegisterNotifier true true (gossiper_new conf)) with (Ok (tt, started conf)) in E.
  cbn [mbind outcome_bind] in E. apply outcome_bind_Ok in E as ([rts g] & Hj & [= <-]).
  exists conf, (mkProcess now (started conf) (runner_new data) [] [] 0).
  split; [done|]. split; [by exists now, (started conf)|].
  by apply (process_join host valid_address 1 network join_addr rts).
Qed.

(** A node whose peer does not answer starts all the same: it is its own only
    member, and its two tickers run. *)
Lemma main_alone network junk now data prog addr join_addr conf phost pport :
  config_new junk addr = Ok conf -> Split join_addr ":" = Some [phost; pport] ->
  network phost pport = None ->
  exists w, main network junk now data [prog; addr; join_addr] = Ok (Some w) /\
    joins_ w = 1%nat /\ length (tickers_ (hybrid_runner_ w)) = 2%nat /\
    conf_Name conf ∈ nodes_ (gossip_ w).
Proof.
  intros Hc Hs Hn. destruct (Join_self_joins conf true true) as (g & Ej & _ & _ & Hin & _).
  assert (Join host network join_addr (started conf) =
    Ok ([(Probe_interval_ (conf_ g), ProbeRoutine); (Gossip_interval_ (conf_ g), GossipRoutine)], g)) as E.
  { unfold Join. rewrite Hs, Hn. step Ej. step. unfold syncState. by destruct (_ || _). }
  unfold main. rewrite Hc. cbn [mbind outcome_bind].
  change (RegisterNotifier true true (gossiper_new conf)) with (Ok (tt, started conf)).
  cbn [mbind outcome_bind]. rewrite E. by eexists.
Qed.
End main.
