(* ===== verification/Echo.v ===== *)
(** * examples/timer.cpp: an echo server

    The example the TCP server was written after: a session reads some bytes and
    writes them back, and again; a server accepts sessions for ever; [main] runs
    it beside a timer of two seconds. What the peer sends and how the stream is
    cut into reads is the network's choice. *)
From stdpp Require Import relations.
From S2P Require Import Prelude Utils Timer.
Local Open Scope Z_scope.

(** The operation under way on a session's socket. *)
Inductive operation :=
  | Reading
  | Writing (length : nat)
  | Over.

Record session := mkSession {
  data_ : list Z;
  op : operation;
  heard : list Z;        (* the bytes read so far *)
  said : list Z          (* the bytes written so far *)
}.

Definition max_length : nat := 1024.

Definition set_op (o : operation) (s : session) : session := mkSession (data_ s) o (heard s) (said s).

Definition do_read : session -> session := set_op Reading.
Definition do_write (length : nat) : session -> session := set_op (Writing length).

(** A new session, and its start. *)
Definition session_new (data : list Z) : session := mkSession data Over [] [].
Definition start : session -> session := do_read.

(** The completion of a read of [chunk] into the front of [data_]. *)
Definition on_read (ec : error_code) (chunk : list Z) (s : session) : session :=
  let s := mkSession (chunk ++ drop (length chunk) (data_ s)) Over (heard s ++ chunk) (said s) in
  if is_error ec then s else do_write (length chunk) s.

(** The completion of a write, which transferred [n] bytes. *)
Definition on_write (ec : error_code) (n : nat) (s : session) : session :=
  let s := mkSession (data_ s) Over (heard s) (said s ++ take n (data_ s)) in
  if is_error ec then s else do_read s.

Inductive echo_step : session -> session -> Prop :=
  | echo_read ec chunk data heard said : (length chunk <= max_length)%nat ->
      (is_error ec = true -> chunk = []) ->
      echo_step (mkSession data Reading heard said)
        (on_read ec chunk (mkSession data Reading heard said))
  | echo_write ec n k data heard said : (n <= k)%nat -> (is_error ec = false -> n = k) ->
      echo_step (mkSession data (Writing k) heard said)
        (on_write ec n (mkSession data (Writing k) heard said)).

Definition echo_inv (s : session) : Prop :=
  match op s with
  | Reading => heard s = said s
  | Writing n => heard s = said s ++ take n (data_ s) /\ (n <= max_length)%nat
  | Over => exists rest, heard s = said s ++ rest /\ (length rest <= max_length)%nat
  end.

Lemma echo_step_inv s s' : echo_step s s' -> echo_inv s -> echo_inv s'.
Proof.
  intros [ec chunk data h sd Hl He|ec n k data h sd Hn He] Hi; unfold on_read, on_write, echo_inv in *;
    cbn in *.
  - destruct (is_error ec) eqn:Ee; cbn; [|split; [by rewrite take_app_length, Hi|done]].
    rewrite (He eq_refl), app_nil_r, Hi. exists []. rewrite app_nil_r. split; [done|simpl; lia].
  - destruct Hi as [-> Hk]. destruct (is_error ec) eqn:Ee; cbn; [|by rewrite (He eq_refl)].
    exists (drop n (take k data)). rewrite <- app_assoc. split.
    + f_equal. rewrite <- (take_drop n (take k data)) at 1. f_equal.
      rewrite take_take. f_equal. lia.
    + rewrite length_drop, length_take. lia.
Qed.

Lemma echo_steps_inv s s' : rtc echo_step s s' -> echo_inv s -> echo_inv s'.
Proof. induction 1; eauto using echo_step_inv. Qed.

(** What a session writes is what it has read, in order and without loss, and
    never more than one buffer behind. *)
Theorem echoes data s : rtc echo_step (start (session_new data)) s ->
  exists rest, heard s = said s ++ rest /\ (length rest <= max_length)%nat.
Proof.
  intros Hs. pose proof (echo_steps_inv _ _ Hs eq_refl) as Hi.
  unfold echo_inv in Hi. destruct (op s) as [|n|].
  - exists []. rewrite app_nil_r. split; [done|simpl; lia].
  - destruct Hi as [E Hn]. exists (take n (data_ s)). split; [done|]. rewrite length_take. lia.
  - done.
Qed.

(** ** The server and [main] *)

Record server := mkServer { accepting : nat; sessions : list session }.

Definition do_accept (s : server) : server := mkServer (S (accepting s)) (sessions s).

Definition on_accept (ec : error_code) (data : list Z) (s : server) : server :=
  let s := if is_error ec then s else mkServer (accepting s) (sessions s ++ [start (session_new data)]) in
  do_accept s.

Definition server_new : server := do_accept (mkServer 0 []).

(** [std::atoi]: [stoi] that reads no digits as 0; out of range it is
    undefined. *)
Definition atoi (s : string) : outcome Z :=
  match stoi s with
  | Crash InvalidArgument => Ok 0
  | o => o
  end.

(** [main] up to the [join] of its thread: its return value, or the server, its
    port and the timer it leaves running. *)
Definition main (bindable : Z -> bool) (now : Z) (argv : list string) :
    outcome (Z + (Z * server * steady_timer unit)) :=
  match argv with
  | [_; port] =>
    p ← atoi port;
    if bindable (i16 p) then
      let timer := (expires_from_now now (milliseconds 2000) timer_new).1 in
      Ok (inr (i16 p, server_new, async_wait tt timer))
    else Ok (inl 0)
  | _ => Ok (inl 1)
  end.
