(* ===== verification/Scenarios.v ===== *)
(** * Two concrete gossipers, with the FlatBuffers codec

    The cluster of the witnesses: [a:1] and [b:2], the generated codec, buffers
    of the code's sizes, and memory whose dead objects are still intact. The
    theorems of the interfaces are applied here to the code as it is built. *)
From stdpp Require Import relations.
From S2P Require Import Prelude Utils Bytes Header Node Broadcast Suspicion Messages FlatBuffers.
From S2P Require Import Codec Gossiper Membership Reports Protocol Dynamics Exchange Session Runs.
From S2P Require Import Typed Healing Joining Cluster Rounds Draining Detection.
From S2P Require Import Timer UdpServer.
Local Open Scope Z_scope.

Definition the {A} (d : A) (o : outcome A) : A := match o with Ok a => a | Crash _ => d end.
Definition is_ok {A} (o : outcome A) : bool := match o with Ok _ => true | Crash _ => false end.

Lemma the_Ok {A} (d : A) o : is_ok o = true -> o = Ok (the d o).
Proof. by destruct o. Qed.

Lemma the_pair_Ok {A B C} r (d : A * B * C) o : r = the d o -> is_ok o = true ->
  o = Ok (r.1.1, r.1.2, r.2).
Proof. intros ->. by destruct o as [[[]]|]. Qed.

(** Results, compared without looking into the states. *)
Lemma Ok_state_inj {A S} (a a' : A) (g g' : S) : Ok (a, g) = Ok (a', g') -> g' = g.
Proof. congruence. Qed.
Lemma Ok_sent_inj {A B S} (a a' : A) (b b' : B) (g g' : S) :
  Ok (a, b, g) = Ok (a', b', g') -> a' = a /\ b' = b.
Proof. split; congruence. Qed.

Lemma state_after_Ok (op : M gossiper unit) g : is_ok (op g) = true ->
  op g = Ok (tt, state_after op g).
Proof. unfold state_after. by destruct (op g) as [[[] g']|]. Qed.

#[local] Instance memory : Residue := intact_memory 0.
#[local] Instance heap : FreedHeap := intact_freed.
#[local] Instance room : StackRoom := 8 * 2 ^ 20.
#[local] Instance stack : StaleHeader := intact_stack.
#[local] Instance codec : MessageCodec := flatbuffers true.
#[local] Instance codec_ok : MessageCodecOk codec := flatbuffers_ok true.

Lemma NodeState_transport_witness :
  (w' ← decode_NodeState ([7; 7; 7] ++ encode_NodeState (the (mkWState None 0 0 None 0) (wire_state b_record))
     ++ [9]) 3; convert w') = Ok b_record.
Proof.
  destruct (NodeState_transport memory b_record [7; 7; 7] [9]) as (w & Ew & E).
  - apply intact_memory_intact.
  - unfold node_state_ok. split_and!; try done; [by exists 2|by exists 0].
  - rewrite Ew. exact E.
Defined.

(** [b:2] knows [a:1] as dead, at dominant 9. *)
Definition b_conf : config := mkConfig "b:2" "b" 2 1000 0 500 500 1000 0.
Definition b_start : gossiper := set_notify_leave_ true (set_notify_join_ true (gossiper_new b_conf)).
Definition a_record : node_state := report "a:1" "a" "1" 9 STATE_ALIVE "".
Definition b_doubts : gossiper :=
  state_after (Join_self ;; aliveNode a_record true ;; deadNode (a_dead 9)) b_start.

Lemma b_doubts_inv : inv b_doubts.
Proof.
  apply (state_after_inv no_fault); [|apply gossiper_new_inv].
  apply safe_bind; [apply Join_self_safe|]. intros _.
  apply safe_bind; [by apply aliveNode_safe|]. intros _. by apply deadNode_safe.
Qed.

Definition blank (n : Z) : list Z := replicate (Z.to_nat n) 0.

Definition a_ping : Z * list Z * gossiper :=
  the (0, [], example_cluster) (generatePing BigEndian 1 (blank mtu) mtu example_cluster).
Definition b_pong : Z * list Z * gossiper :=
  the (0, [], b_doubts)
    (handlePacket LittleEndian (received a_ping.1.1 a_ping.1.2 (blank mtu)) a_ping.1.1 mtu b_doubts).

Lemma b_knows_a : node_map_ b_doubts !! self_name example_cluster = Some (a_dead 9).
Proof. by vm_compute. Qed.

(** The ping [a:1] sends carries what it learned of [b:2] and [c:3]; [b:2]
    answers with the alert, and [a:1] objects above dominant 9. *)
Lemma ping_answered_witness :
  0 < b_pong.1.1 <= mtu /\
  DecodeHeader BigEndian b_pong.1.2 = Ok (mkHeader TYPE_PONG (len (pong_body 1))) /\
  decode_Pong b_pong.1.2 HEADER_SIZE = Ok (mkPong 1) /\
  exists q, on_pong BigEndian 1 b_pong.1.2 b_pong.1.1 example_cluster =
      Ok (tt, set_bc_queue_ q (set_dominant_ 10 example_cluster)).
Proof.
  destruct (ping_answered BigEndian LittleEndian 1 (blank mtu) (blank mtu) a_ping.1.1 b_pong.1.1
    a_ping.1.2 b_pong.1.2 example_cluster a_ping.2 example_cluster b_doubts b_pong.2)
    as (H1 & H2 & H3 & H4).
  - apply example_cluster_inv.
  - apply b_doubts_inv.
  - apply example_cluster_inv.
  - by vm_compute.
  - by vm_compute.
  - done.
  - split; by vm_compute.
  - by vm_compute.
  - intros n Hn _. rewrite b_knows_a in Hn. injection Hn as <-. split.
    + unfold node_state_ok. split_and!; try done; [by exists 1|by exists 2].
    + intros w Hw. vm_compute in Hw. injection Hw as <-. by vm_compute.
  - done.
  - eapply (the_pair_Ok a_ping); [unfold a_ping; reflexivity|by vm_compute].
  - eapply (the_pair_Ok b_pong); [unfold b_pong; reflexivity|by vm_compute].
  - split; [exact H1|]. split; [exact H2|]. split; [exact H3|].
    rewrite b_knows_a, bool_decide_eq_true_2 in H4 by reflexivity.
    destruct H4 as (_ & q & H4 & _). exists q. exact H4.
Defined.

(** [node_state_ok], decided. *)
Definition sendable (n : node_state) : bool :=
  negb (has_char Ascii.zero (Name_ n)) && negb (has_char Ascii.zero (IP_ n)) &&
  negb (has_char Ascii.zero (From_ n)) &&
  (Z.of_nat (String.length (Name_ n) + String.length (IP_ n) + String.length (From_ n)) <? 2 ^ 16) &&
  match stoi (Port_ n) with
  | Ok p => bool_decide (Port_ n = to_string p) && (- 2 ^ 15 <=? p) && (p <? 2 ^ 15)
  | Crash _ => false
  end &&
  (0 <=? Dominant_ n) && (Dominant_ n <? 2 ^ 64) && (0 <=? Timestamp_ n) && (Timestamp_ n <? 2 ^ 64) &&
  bool_decide (State_ n = STATE_of_int8 (STATE_val (State_ n))) &&
  (- 2 ^ 7 <=? STATE_val (State_ n)) && (STATE_val (State_ n) <? 2 ^ 7).

Lemma all_sendable l : forallb sendable l = true -> Forall node_state_ok l.
Proof.
  rewrite forallb_forall. intros H. apply Forall_forall. intros n Hn%list_elem_of_In.
  specialize (H n Hn). unfold sendable in H. rewrite !andb_true_iff in H.
  destruct (stoi (Port_ n)) as [p|] eqn:Ep; [|naive_solver].
  rewrite !andb_true_iff in H. destruct_and!.
  repeat match goal with
  | H : negb _ = true |- _ => apply negb_true_iff in H
  | H : bool_decide _ = true |- _ => apply bool_decide_eq_true in H
  | H : (_ <=? _) = true |- _ => apply Z.leb_le in H
  | H : (_ <? _) = true |- _ => apply Z.ltb_lt in H
  end.
  unfold node_state_ok, wire_string, in_srange, in_range. simpl. split_and!; try done; try lia.
  - exists p. split; [lia|done].
  - exists (STATE_val (State_ n)). split; [lia|done].
Qed.

Lemma bytesb_ok (l : list Z) : forallb (fun b => (0 <=? b) && (b <? 256)) l = true -> Forall is_byte l.
Proof.
  rewrite forallb_forall. intros H. apply Forall_forall. intros b Hb%list_elem_of_In.
  specialize (H b Hb). apply andb_true_iff in H as [?%Z.leb_le ?%Z.ltb_lt]. unfold is_byte. lia.
Qed.

(** [a:1] objects, and its next ping brings it back to [b:2]. *)
Definition a_objects : gossiper :=
  state_after (on_pong BigEndian 1 b_pong.1.2 b_pong.1.1) a_ping.2.
Definition a_objection : node_state := self_state example_conf 10.
Definition a_batch2 : list NodeState :=
  match mapM wire_state (batch a_objects) with Ok ws => ws | Crash _ => [] end.
Definition a_ping2 : Z * list Z * gossiper :=
  the (0, [], a_objects) (generatePing BigEndian 2 (blank mtu) mtu a_objects).
Definition b_heals : Z * list Z * gossiper :=
  the (0, [], b_pong.2)
    (handlePacket LittleEndian (received a_ping2.1.1 a_ping2.1.2 (blank mtu)) a_ping2.1.1 mtu b_pong.2).

Lemma a_pings : generatePing BigEndian 1 (blank mtu) mtu example_cluster =
  Ok (a_ping.1.1, a_ping.1.2, a_ping.2).
Proof. eapply (the_pair_Ok a_ping); [unfold a_ping; reflexivity|by vm_compute]. Qed.
Lemma b_pongs : handlePacket LittleEndian (received a_ping.1.1 a_ping.1.2 (blank mtu)) a_ping.1.1 mtu
  b_doubts = Ok (b_pong.1.1, b_pong.1.2, b_pong.2).
Proof. eapply (the_pair_Ok b_pong); [unfold b_pong; reflexivity|by vm_compute]. Qed.
Lemma a_hears_pong : on_pong BigEndian 1 b_pong.1.2 b_pong.1.1 a_ping.2 = Ok (tt, a_objects).
Proof. apply state_after_Ok. by vm_compute. Qed.
Lemma a_pings_again : generatePing BigEndian 2 (blank mtu) mtu a_objects =
  Ok (a_ping2.1.1, a_ping2.1.2, a_ping2.2).
Proof. eapply (the_pair_Ok a_ping2); [unfold a_ping2; reflexivity|by vm_compute]. Qed.
Lemma b_hears_again : handlePacket LittleEndian (received a_ping2.1.1 a_ping2.1.2 (blank mtu))
  a_ping2.1.1 mtu b_pong.2 = Ok (b_heals.1.1, b_heals.1.2, b_heals.2).
Proof. eapply (the_pair_Ok b_heals); [unfold b_heals; reflexivity|by vm_compute]. Qed.

Lemma a_objects_inv : inv a_objects.
Proof.
  destruct (safe_keeps _ _ _ _ _ (generatePing_safe BigEndian 1 (blank mtu) mtu) example_cluster_inv
    a_pings) as [Hg _].
  by destruct (safe_keeps _ _ _ _ _ (on_pong_safe BigEndian 1 b_pong.1.2 b_pong.1.1) Hg a_hears_pong).
Qed.
Lemma b_pong_inv : inv b_pong.2.
Proof.
  assert (Forall is_byte (received a_ping.1.1 a_ping.1.2 (blank mtu))) as Hb.
  { apply bytesb_ok. by vm_compute. }
  by destruct (safe_keeps _ _ _ _ _ (handlePacket_safe LittleEndian _ a_ping.1.1 mtu Hb) b_doubts_inv
    b_pongs).
Qed.

Lemma b_alert_fits : alert_fits (node_map_ b_doubts !! self_name example_cluster) 1.
Proof.
  intros n Hn _. rewrite b_knows_a in Hn. injection Hn as <-. split.
  - unfold node_state_ok. split_and!; try done; [by exists 1|by exists 2].
  - intros w Hw. vm_compute in Hw. injection Hw as <-. by vm_compute.
Qed.

Lemma false_death_heals_witness :
  node_map_ b_doubts !! "a:1" = Some (a_dead 9) /\
  node_map_ b_heals.2 !! "a:1" = Some (set_Timestamp 0 a_objection) /\ "a:1" ∈ nodes_ b_heals.2.
Proof.
  split; [by vm_compute|].
  destruct (false_death_heals BigEndian LittleEndian 1 a_ping.1.1 b_pong.1.1 (blank mtu) (blank mtu)
    a_ping.1.2 b_pong.1.2 example_cluster a_ping.2 b_doubts b_pong.2 (a_dead 9)
    example_cluster_inv b_doubts_inv)
    as (x & t & g2 & Eon & Hq & _ & _ & Hround2).
  - by vm_compute.
  - by vm_compute.
  - done.
  - split; by vm_compute.
  - by vm_compute.
  - exact b_alert_fits.
  - exact b_knows_a.
  - done.
  - done.
  - intros x t Hx. vm_compute in Hx. done.
  - exact a_pings.
  - exact b_pongs.
  - rewrite a_hears_pong in Eon. apply Ok_state_inj in Eon. subst g2.
    assert (map_find "a:1" (m_ (bc_queue_ a_objects)) = Some (a_objection, 3)) as Hq' by by vm_compute.
    change (self_name example_cluster) with "a:1" in Hq. rewrite Hq' in Hq.
    assert (x = a_objection) as -> by congruence. clear t Hq.
    destruct (Hround2 a_objects b_pong.2 2 (blank mtu) (blank mtu) a_batch2) as (sz & sent & g4 & E & Hfin);
      [apply a_objects_inv|apply b_pong_inv|by vm_compute| |by vm_compute| |..].
    + eapply (batch_all _ "a:1" _ 3); [apply a_objects_inv|by vm_compute|exact Hq'].
    + apply all_sendable. by vm_compute.
    + unfold a_batch2.
      assert (is_ok (mapM wire_state (batch a_objects)) = true) as Hok by by vm_compute.
      by destruct (mapM wire_state (batch a_objects)).
    + by vm_compute.
    + by vm_compute.
    + by vm_compute.
    + split; by vm_compute.
    + by vm_compute.
    + by vm_compute.
    + rewrite a_pings_again in E. apply Ok_sent_inj in E as [-> ->]. exact (Hfin _ _ b_hears_again).
Defined.

(** The same exchange through the UDP server of [b:2]. *)
Definition a_packet : list Z := take (Z.to_nat a_ping.1.1) a_ping.1.2.
Definition b_serves : Server * gossiper :=
  the (mkServer [] [], b_doubts)
    (on_received (PacketHandler0 := gossiper_packets LittleEndian) Success (received_size a_packet)
      (mkServer (received (received_size a_packet) a_packet (blank mtu_)) []) b_doubts).
Definition b_sent : list Z := take (Z.to_nat 136) (data_ b_serves.1).

(** One datagram in, one answer out. *)
Lemma one_packet {S} `{!PacketHandler S} d data n (a : S) r :
  r = the (mkServer [] [], a)
    (on_received Success (received_size d) (mkServer (received (received_size d) d data) []) a) ->
  is_ok (on_received Success (received_size d) (mkServer (received (received_size d) d data) []) a) = true ->
  pending r.1 = [Sending n] ->
  rtc serve_step (mkWorld (Start (mkServer data [])) a [d] [])
    (mkWorld (mkServer (data_ r.1) [Receiving]) r.2 [] [take (Z.to_nat n) (data_ r.1)]).
Proof.
  intros -> E Hp. apply (the_Ok (mkServer [] [], a)) in E. destruct (the _ _) as [[data' ops] a'].
  cbn in *. subst ops. eapply rtc_l; [apply serve_receive, E|].
  eapply rtc_l; [apply (serve_send n data' [] a' [] [])|apply rtc_refl].
Qed.

Definition b_world : world :=
  mkWorld (mkServer (data_ b_serves.1) [Receiving]) b_serves.2 [] [b_sent].

Lemma b_answers :
  rtc (serve_step (PacketHandler0 := gossiper_packets LittleEndian))
    (mkWorld (Start (mkServer (blank mtu_) [])) b_doubts [a_packet] []) b_world.
Proof. apply one_packet; [unfold b_serves; reflexivity|by vm_compute|by vm_compute]. Qed.

Lemma udp_server_serves_witness :
  length b_sent = 136%nat /\ length (pending (server b_world)) = 1%nat /\
  exists taken answers, [a_packet] = taken ++ inbox b_world /\
    serve_all (PacketHandler0 := gossiper_packets LittleEndian) taken (blank mtu_) b_doubts =
      Ok ((answers, data_ (server b_world)), owner b_world) /\
    sublist (outbox b_world) answers /\ Forall (fun a => 0 < len a <= mtu_) (outbox b_world).
Proof.
  split; [by vm_compute|].
  exact (udp_server_serves LittleEndian [a_packet] (blank mtu_) b_doubts b_world
    ltac:(by vm_compute) b_answers).
Defined.

(** The reports queued in [example_cluster]. *)
Definition a_batch : list NodeState := the [] (mapM wire_state (batch example_cluster)).

Lemma gossip_delivered_witness :
  exists size sent q, generatePing BigEndian 1 (blank mtu) mtu example_cluster =
      Ok ((size, sent), set_bc_queue_ q example_cluster) /\
    forall h old, len old = mtu ->
      handlePacket LittleEndian (received size sent old) size mtu h =
        (for_each (batch example_cluster) (mergeReport true) ;;
         lift (answerPing LittleEndian (node_map_ h !! "a:1") 1 (received size sent old) mtu)) h.
Proof.
  destruct (gossip_delivered BigEndian LittleEndian 1 (blank mtu) example_cluster a_batch)
    as (size & sent & q & H1 & _ & _ & _ & H2).
  - apply intact_memory_intact.
  - apply example_cluster_inv.
  - by vm_compute.
  - done.
  - split; by vm_compute.
  - by vm_compute.
  - by vm_compute.
  - apply all_sendable. by vm_compute.
  - apply the_Ok. by vm_compute.
  - by vm_compute.
  - exists size, sent, q. split; [exact H1|exact H2].
Defined.

(** A node whose address alone fills a packet. *)
Fixpoint long_string (n : nat) : string :=
  match n with O => EmptyString | S n => ("x" +:+ long_string n)%string end.
Definition huge : node_state := report "h:9" (long_string 1500) "9" 3 STATE_ALIVE "".
Definition a_blocked : gossiper := state_after (aliveNode huge true) example_cluster.

Lemma a_blocked_inv : inv a_blocked.
Proof. apply (state_after_inv no_fault); [by apply aliveNode_safe|apply example_cluster_inv]. Qed.

Lemma oversize_batch_witness :
  exists sent, generatePing LittleEndian 1 (blank mtu) mtu a_blocked =
    Ok ((HEADER_SIZE + len (ping_body a_blocked 1), sent), set_MAX_APPENDED_MSG_ 5 a_blocked).
Proof.
  apply (oversize_batch LittleEndian 1 (blank mtu) a_blocked
    (the [] (mapM wire_state (batch a_blocked)))).
  - apply a_blocked_inv.
  - by vm_compute.
  - by vm_compute.
  - by vm_compute.
  - apply the_Ok. by vm_compute.
  - by vm_compute.
Defined.

(** ** The exchange of tables *)

Definition b_after : gossiper :=
  state_after (for_each (reports example_cluster) (mergeReport true)) b_doubts.

Lemma sync_exchanges_tables_witness :
  syncState BigEndian (session_stream LittleEndian (mkHeader 0 0) (blank 65536) (blank 65536) b_doubts)
    example_cluster =
  (for_each (reports b_after) (mergeReport false) ;; mret true) example_cluster.
Proof.
  destruct (sync_exchanges_tables BigEndian LittleEndian (mkHeader 0 0) (blank 65536) (blank 65536)
    example_cluster b_doubts b_after) as [_ H]; [..|exact H].
  - apply intact_memory_intact.
  - apply intact_freed_intact.
  - apply intact_stack_intact.
  - by vm_compute.
  - by vm_compute.
  - by vm_compute.
  - apply all_sendable. by vm_compute.
  - by vm_compute.
  - intros ws E.
    assert (len (the ([], example_cluster) (encodeLocalState example_cluster)).1 <= buff_size_)
      as Hl by by vm_compute.
    by rewrite E in Hl.
  - apply state_after_Ok. by vm_compute.
  - apply all_sendable. by vm_compute.
  - by vm_compute.
  - intros ws E.
    assert (HEADER_SIZE + len (the ([], b_after) (encodeLocalState b_after)).1 <= buff_size_)
      as Hl by by vm_compute.
    by rewrite E in Hl.
Defined.

(** [d:4] joins through [a:1], which knows [b:2] and [c:3]. *)
Definition d_conf : config := mkConfig "d:4" "d" 4 1000 0 500 500 1000 0.
Definition to_a (phost pport : string) : peer_stream :=
  session_stream BigEndian (mkHeader 0 0) (blank 65536) (blank 65536) example_cluster.
Definition a_welcomes : gossiper := state_after (aliveNode (newcomer d_conf) true) example_cluster.

Lemma d_fits : len (encode_NodeStates (Some (the [] (mapM wire_state [newcomer d_conf])))) <= buff_size_.
Proof. by vm_compute. Qed.
Lemma a_fits : HEADER_SIZE + len (encode_NodeStates (Some (the [] (mapM wire_state (reports a_welcomes)))))
  <= buff_size_.
Proof. by vm_compute. Qed.
Lemma a_short : Z.of_nat (length (reports a_welcomes)) < 2 ^ 12.
Proof. by vm_compute. Qed.
Lemma a_does_not_know_d : node_map_ example_cluster !! "d:4" = None.
Proof. by vm_compute. Qed.

Lemma join_mutual_witness : exists rts g1 body resp g' h',
  Join LittleEndian to_a "a:1" (set_notify_leave_ true (set_notify_join_ true (gossiper_new d_conf))) =
    Ok (rts, g') /\ length rts = 2%nat /\
  Session_Go BigEndian (mkHeader 0 0) (blank 65536) (blank 65536) (packet TYPE_SYNCSTATE body [])
    example_cluster = Ok (Some resp, h') /\ encodeLocalState g1 = Ok (body, g1) /\
  "d:4" ∈ nodes_ h' /\ "b:2" ∈ nodes_ g' /\ "d:4" ∈ nodes_ g'.
Proof.
  destruct (join_mutual LittleEndian BigEndian (mkHeader 0 0) (blank 65536) (blank 65536) d_conf
    true true to_a "a:1" "a" "1" example_cluster)
    as (rts & g1 & body & resp & g' & h' & Ej & -> & _ & Eb & Es & _ & Hin & _ & Hmem).
  - apply intact_memory_intact.
  - apply intact_freed_intact.
  - apply intact_stack_intact.
  - by vm_compute.
  - by vm_compute.
  - by vm_compute.
  - by vm_compute.
  - by left.
  - done.
  - by split; vm_compute.
  - by split; vm_compute.
  - done.
  - intros ws E. pose proof d_fits as Hd. rewrite E in Hd. exact Hd.
  - apply example_cluster_inv.
  - assert (self_name example_cluster = "a:1") as -> by by vm_compute. done.
  - exact a_does_not_know_d.
  - apply all_sendable. by vm_compute.
  - intros h' ws E. assert (h' = a_welcomes) as -> by (unfold a_welcomes, state_after; by rewrite E).
    split; [exact a_short|]. intros Ew. pose proof a_fits as Hf. rewrite Ew in Hf. exact Hf.
  - exists (routines d_conf), g1, body, resp, g', h'.
    split; [exact Ej|]. split; [reflexivity|]. split; [exact Es|]. split; [exact Eb|].
    split; [exact Hin|]. split; [|by apply Hmem; left].
    apply Hmem. right. exists (report "b:2" "b" "2" 5 STATE_ALIVE ""). split; [by vm_compute|]. by split.
Defined.

(** ** A run: join, hear the other's gossip, probe it, and suspect it *)

Definition no_network (phost pport : string) : peer_stream := None.

Lemma no_network_ok phost pport : peer_ok (no_network phost pport).
Proof. done. Qed.

Definition a_joined : gossiper := state_after (Join BigEndian no_network "b:2") example_start.
Definition b_ping : Z * list Z :=
  (the (0, [], b_doubts) (generatePing LittleEndian 1 (blank mtu) mtu
     (state_after (aliveNode (report "b:2" "b" "2" 3 STATE_ALIVE "") true) b_start))).1.
Definition a_datagram : list Z := received b_ping.1 b_ping.2 (blank mtu).
Definition a_heard : gossiper :=
  state_after (handlePacket BigEndian a_datagram b_ping.1 mtu) a_joined.
Lemma a_hears : step BigEndian (mkSystem a_joined []) (mkSystem a_heard []).
Proof.
  apply (step_packet BigEndian a_datagram b_ping.1 mtu _ _
    (the ((0, []), a_joined) (handlePacket BigEndian a_datagram b_ping.1 mtu a_joined)).1).
  - apply bytesb_ok. by vm_compute.
  - by vm_compute.
Qed.

Lemma a_heard_steps :
  rtc (step BigEndian) (mkSystem example_start []) (mkSystem a_heard []).
Proof.
  eapply rtc_l; [|eapply rtc_l; [apply a_hears|apply rtc_refl]].
  apply (step_join BigEndian no_network "b:2" _ _
    (the ([], example_start) (Join BigEndian no_network "b:2" example_start)).1 _ no_network_ok).
  by vm_compute.
Qed.


(** The first probe picks [a:1] itself, the second [b:2]; nothing comes back. *)
Definition a_probe (g : gossiper) : option probe_op * gossiper :=
  the (None, g) (probe BigEndian (blank mtu) g).
Definition a_idle : gossiper := (a_probe a_heard).2.
Definition a_probing : gossiper := (a_probe a_idle).2.
Definition b_probe : probe_op :=
  default (mkProbe 0 "" 0 [] 0 0 b_record) (a_probe a_idle).1.
Definition a_suspects : gossiper := state_after (on_probe_timeout b_probe) a_probing.
Definition a_convicts : gossiper := state_after (on_suspicion_timer "b:2") a_suspects.

Lemma a_probes_itself : probe BigEndian (blank mtu) a_heard = Ok (None, a_idle).
Proof. by vm_compute. Qed.
Lemma a_probes_b : probe BigEndian (blank mtu) a_idle = Ok (Some b_probe, a_probing).
Proof. by vm_compute. Qed.
Lemma b_times_out : on_probe_timeout b_probe a_probing = Ok (tt, a_suspects).
Proof. by vm_compute. Qed.
Lemma b_is_convicted : on_suspicion_timer "b:2" a_suspects = Ok (tt, a_convicts).
Proof. by vm_compute. Qed.

Lemma b_convicted_steps :
  rtc (step BigEndian) (mkSystem a_heard []) (mkSystem a_convicts [b_probe]).
Proof.
  eapply rtc_l; [exact (step_probe _ _ _ [] _ _ a_probes_itself)|].
  eapply rtc_l; [exact (step_probe _ _ _ [] _ _ a_probes_b)|].
  eapply rtc_l; [apply (step_probe_timeout _ b_probe _ _ _ ltac:(by left) b_times_out)|].
  eapply rtc_l; [exact (step_suspicion_timer _ _ _ _ _ b_is_convicted)|apply rtc_refl].
Qed.

(** Where the run starts, hears [b:2], and ends. *)
Definition run_start : system := mkSystem example_start [].
Definition run_heard : system := mkSystem a_heard [].
Definition run_end : system := mkSystem a_convicts [b_probe].

Lemma run_to_end : rtc (step BigEndian) run_heard run_end.
Proof. exact b_convicted_steps. Qed.
Lemma run_heard_reachable : reachable BigEndian example_conf true true run_heard.
Proof. exists run_start. split; [done|exact a_heard_steps]. Qed.
Lemma run_end_reachable : reachable BigEndian example_conf true true run_end.
Proof. exists run_start. split; [done|etrans; [exact a_heard_steps|exact run_to_end]]. Qed.

Lemma reachable_members_witness :
  nodes_ (gos run_end) = ["a:1"] /\
  (forall k, k ∈ nodes_ (gos run_end) <->
    exists n, node_map_ (gos run_end) !! k = Some n /\ State_ n <> STATE_DEAD).
Proof.
  split; [by vm_compute|].
  exact (proj1 (proj2 (reachable_members BigEndian example_conf true true run_end run_end_reachable))).
Defined.

Lemma reachable_notifications_witness :
  notified_ (gos run_end) = [Joined "b:2"; Left "b:2"] /\
  replay (notified_ (gos run_end)) = Some (others (gos run_end)).
Proof.
  split; [by vm_compute|].
  exact (reachable_notifications BigEndian example_conf run_end run_end_reachable).
Defined.

Lemma view_monotone_witness :
  exists n', node_map_ (gos run_end) !! "b:2" = Some n' /\
    stamp_le (stamp (report "b:2" "b" "2" 3 STATE_ALIVE "")) (stamp n').
Proof.
  refine (view_monotone BigEndian example_conf true true run_heard run_end "b:2"
    (report "b:2" "b" "2" 3 STATE_ALIVE "") run_heard_reachable run_to_end _).
  by vm_compute.
Defined.

Lemma joined_stays_member_witness : conf_Name example_conf ∈ nodes_ (gos run_end).
Proof.
  refine (joined_stays_member BigEndian example_conf true true no_network "b:2" run_start run_end
    (the ([], example_start) (Join BigEndian no_network "b:2" (gos run_start))).1 a_joined
    _ no_network_ok _ _ _).
  - split; by vm_compute.
  - by vm_compute.
  - by vm_compute.
  - exact (rtc_l _ _ _ _ a_hears run_to_end).
Defined.

(** ** The same run, its types *)

Lemma example_configured : config_new 0 "a:1" = Ok example_conf.
Proof. by vm_compute. Qed.

Lemma reachable_typed_witness :
  length (m_ (bc_queue_ (gos run_end))) = 1%nat /\
  (forall e, e ∈ m_ (bc_queue_ (gos run_end)) -> typed_record (msg_of e)) /\
  (forall p, p ∈ probes run_end -> typed_record (p_node p)).
Proof.
  destruct (reachable_typed BigEndian 0 "a:1" example_conf true true run_end
    example_configured run_end_reachable) as (_ & Hq & _ & _ & Hp & _).
  split; [by vm_compute|]. split; [exact Hq|exact Hp].
Defined.

Lemma sending_never_fails_witness :
  (exists body, encodeLocalState (gos run_end) = Ok (body, gos run_end)) /\
  (exists p g', probe BigEndian (blank mtu) (gos run_end) = Ok (p, g')).
Proof.
  destruct (sending_never_fails BigEndian 0 "a:1" example_conf true true run_end (blank mtu)
    example_configured run_end_reachable ltac:(by vm_compute)) as (He & _ & _ & Hp).
  split; [exact He|]. apply Hp. intros E.
  assert (bool_decide (nodes_ (gos run_end) = []) = false) as Hb by by vm_compute.
  by rewrite E in Hb.
Defined.

(** Once around the two members. *)
Lemma two_blanks : Forall (fun buff => len buff = mtu) [blank mtu; blank mtu].
Proof. by repeat (constructor; [by vm_compute|]). Qed.
Lemma two_members : length [blank mtu; blank mtu] = length (nodes_ (gos run_heard)).
Proof. by vm_compute. Qed.
Lemma b_is_known : node_map_ (gos run_heard) !! "b:2" = Some (report "b:2" "b" "2" 3 STATE_ALIVE "").
Proof. by vm_compute. Qed.
Lemma a_is_not_b : "b:2" <> self_name (gos run_heard).
Proof.
  assert (self_name (gos run_heard) = "a:1") as -> by by vm_compute. done.
Qed.

Lemma round_probes_everyone_witness : exists ps g',
  probe_round BigEndian [blank mtu; blank mtu] (gos run_heard) = Ok (ps, g') /\
  NoDup ((Name_ ∘ p_node) <$> ps) /\ "b:2" ∈ (Name_ ∘ p_node) <$> ps.
Proof.
  destruct (round_probes_everyone BigEndian 0 "a:1" example_conf true true run_heard [blank mtu; blank mtu]
    example_configured run_heard_reachable two_blanks two_members) as (ps & g' & E & _ & _ & Hn & Hk).
  exists ps, g'. split; [exact E|]. split; [exact Hn|]. apply Hk.
  exact (ex_intro _ _ (conj b_is_known (conj eq_refl a_is_not_b))).
Defined.

(** Each report fits a packet, as computed. *)
Definition check_room (g : gossiper) (seqs : list Z) : bool :=
  forallb (fun seq => (HEADER_SIZE + len (ping_body g seq) <=? mtu) &&
    forallb (fun e => match wire_state (msg_of e) with
      | Ok w => HEADER_SIZE + len (ping_body g seq) + len (encode_NodeStates (Some [w])) <=? mtu
      | Crash _ => true end) (m_ (bc_queue_ g))) seqs.

Lemma check_room_roomy g seqs : check_room g seqs = true -> roomy g seqs.
Proof.
  unfold check_room. rewrite forallb_forall. intros Hc seq Hin%list_elem_of_In.
  apply Hc, andb_true_iff in Hin as [Hp%Z.leb_le Hm]. split; [done|].
  intros m w (k & t & Hq%list_elem_of_In) Ew. rewrite forallb_forall in Hm. apply Hm in Hq.
  unfold msg_of in Hq. cbn [fst snd] in Hq. rewrite Ew in Hq. by apply Z.leb_le.
Qed.

Lemma b_has_room : check_room (gos run_heard) [1; 2; 3; 4; 5; 6] = true.
Proof. by vm_compute. Qed.
Lemma b_is_owed : owed (bc_queue_ (gos run_heard)) = 3 /\ MAX_APPENDED_MSG_ (gos run_heard) = 10 /\
  remaining "b:2" (m_ (bc_queue_ (gos run_heard))) = 3.
Proof. by vm_compute. Qed.

Lemma queue_drains_witness : exists bs g',
  pings BigEndian (blank mtu) [1; 2; 3; 4; 5; 6] (gos run_heard) = Ok (bs, g') /\
  m_ (bc_queue_ g') = [] /\ sent_count "b:2" (concat bs) = 3.
Proof.
  destruct (queue_drains BigEndian 0 "a:1" example_conf true true run_heard (blank mtu) [1; 2; 3; 4; 5; 6]
    example_configured run_heard_reachable ltac:(by vm_compute) (check_room_roomy _ _ b_has_room))
    as (bs & g' & E & _ & _ & _ & _ & Hend).
  destruct b_is_owed as (Ho & Hm & Hr). destruct Hend as [Hq Hk]; [by rewrite Ho, Hm|].
  exists bs, g'. split; [exact E|]. split; [exact Hq|]. by rewrite Hk.
Defined.

(** The round, and what it leaves. *)
Definition round_end : gossiper :=
  state_after (probe_round BigEndian [blank mtu; blank mtu]) (gos run_heard).

Lemma crash_detected_witness :
  let n := report "b:2" "b" "2" 3 STATE_ALIVE "" in
  node_num_ round_end = 2 /\
  exists p g2, p_node p = n /\ on_probe_timeout p round_end = Ok (tt, g2) /\
    ((exists n', node_map_ g2 !! "b:2" = Some n' /\
        (Dominant_ n < Dominant_ n' \/ State_ n' = STATE_DEAD)) \/
     (exists g4, on_suspicion_timer "b:2" g2 = Ok (tt, g4) /\
        convicted g2 g4 "b:2" (set_Timestamp 0 n))).
Proof.
  intros n. split; [by vm_compute|].
  destruct (crash_detected BigEndian 0 "a:1" example_conf true true run_heard [blank mtu; blank mtu]
    "b:2" n example_configured run_heard_reachable two_blanks two_members b_is_known eq_refl a_is_not_b)
    as (ps & g1 & p & E & _ & Hp & Hd).
  assert (g1 = round_end) as Eg by (unfold round_end, state_after; by rewrite E).
  destruct (Hd (mkSystem g1 (rev ps ++ probes run_heard)) (rtc_refl _ _)) as (g2 & E2 & _ & H3).
  - rewrite Eg. by vm_compute.
  - rewrite Eg. by vm_compute.
  - rewrite Eg. assert (node_num_ round_end = 2) as Hn by by vm_compute. cbn [gos]. by rewrite Hn.
  - exists p, g2. split; [exact Hp|]. split; [by rewrite <- Eg|]. exact (H3 _ (rtc_refl _ _)).
Defined.

(** ** The two of them, joining *)

Definition confs : list config := [example_conf; b_conf].
Definition hosts (k : string) : endian := if decide (k = "a:1"%string) then BigEndian else LittleEndian.

(** [a:1] joins alone; [b:2] sends it its table, and joins with the answer. *)
Definition a_alone : list (Z * routine) * gossiper :=
  the ([], example_start) (Join BigEndian no_network "b:2" example_start).
Definition b_self : gossiper := state_after Join_self b_start.
Definition b_request : list Z := the [] (request LittleEndian b_self).
Definition a_session : option (list Z) * gossiper :=
  the (None, a_alone.2) (Session_Go BigEndian (mkHeader 0 0) (blank buff_size_) (blank buff_size_) b_request a_alone.2).
Definition a_network (phost pport : string) : peer_stream := (fun resp _ => Some resp) <$> a_session.1.
Definition b_joined : list (Z * routine) * gossiper :=
  the ([], b_start) (Join LittleEndian a_network "a:1" b_start).
Definition c_alone : cluster := update "a:1" (mkSystem a_alone.2 []) [] [] (cluster_new confs).
Definition c_requested : cluster := update "b:2" (mkSystem b_start []) [] [b_request] c_alone.
Definition c_served : cluster := update "a:1" (mkSystem a_session.2 []) [] (option_list a_session.1) c_requested.
Definition b_end : system := mkSystem b_joined.2 [].
Definition c_joined : cluster := update "b:2" b_end [] [] c_served.

Lemma the_result {A S} (d : A * S) (o : outcome (A * S)) : is_ok o = true ->
  o = Ok ((the d o).1, (the d o).2).
Proof. by destruct o as [[]|]. Qed.

Lemma a_started : members (cluster_new confs) !! "a:1" = Some (mkSystem example_start []).
Proof. apply lookup_insert_eq. Qed.
Lemma b_started : members c_alone !! "b:2" = Some (mkSystem b_start []).
Proof.
  unfold c_alone. rewrite member_other by done. etrans; [by apply lookup_insert_ne|].
  apply lookup_insert_eq.
Qed.
Lemma a_alone_there : members c_requested !! "a:1" = Some (mkSystem a_alone.2 []).
Proof. unfold c_requested. rewrite member_other by done. apply member_updated. Qed.
Lemma b_started_still : members c_served !! "b:2" = Some (mkSystem b_start []).
Proof. unfold c_served. rewrite member_other by done. apply member_updated. Qed.
Lemma a_joins_alone : Join BigEndian no_network "b:2" example_start = Ok (a_alone.1, a_alone.2).
Proof. unfold a_alone. apply the_result. by vm_compute. Qed.
Lemma a_serves : Session_Go BigEndian (mkHeader 0 0) (blank buff_size_) (blank buff_size_) b_request a_alone.2 =
  Ok (a_session.1, a_session.2).
Proof. unfold a_session. apply the_result. by vm_compute. Qed.
Lemma b_joins : Join LittleEndian a_network "a:1" b_start = Ok (b_joined.1, b_joined.2).
Proof. unfold b_joined. apply the_result. by vm_compute. Qed.
Lemma cluster_alone : cluster_step hosts (cluster_new confs) c_alone.
Proof.
  unfold c_alone.
  apply (cluster_join hosts _ "a:1" example_start [] no_network "b:2" a_alone.1 _ a_started); [done|].
  exact a_joins_alone.
Qed.

Lemma cluster_requested : cluster_step hosts c_alone c_requested.
Proof.
  unfold c_requested.
  apply (cluster_request hosts _ "b:2" b_start [] b_self b_request b_started).
  - apply state_after_Ok. by vm_compute.
  - apply the_Ok. by vm_compute.
  - by vm_compute.
Qed.

Lemma cluster_served : cluster_step hosts c_requested c_served.
Proof.
  unfold c_served.
  apply (cluster_session hosts _ "a:1" a_alone.2 [] (mkHeader 0 0) (blank buff_size_) (blank buff_size_)
    b_request a_session.1 _ a_alone_there).
  - by left.
  - unfold blank, len. by rewrite length_replicate.
  - unfold blank, len. by rewrite length_replicate.
  - exact a_serves.
Qed.

(** A network that has at most one answer. *)
Lemma one_answer (resp : option (list Z)) (answer : list Z -> option (list Z)) req d :
  (fun resp _ => Some resp) <$> resp = Some answer -> answer req = Some d -> d ∈ option_list resp.
Proof. destruct resp; intros [= <-] [= <-]. by left. Qed.

Lemma cluster_joined : cluster_step hosts c_served c_joined.
Proof.
  unfold c_joined, b_end.
  apply (cluster_join hosts _ "b:2" b_start [] a_network "a:1" b_joined.1 _ b_started_still).
  - intros h p answer req d Ha Hd. apply elem_of_app. left. exact (one_answer _ _ _ _ Ha Hd).
  - exact b_joins.
Qed.

Lemma cluster_run : rtc (cluster_step hosts) (cluster_new confs) c_joined.
Proof.
  exact (rtc_l _ _ _ _ cluster_alone (rtc_l _ _ _ _ cluster_requested (rtc_l _ _ _ _ cluster_served
    (rtc_once _ _ cluster_joined)))).
Qed.

Lemma confs_ok : Forall conf_ok confs.
Proof. repeat (constructor; [by vm_compute|]). constructor. Qed.

Lemma b_ends : members c_joined !! "b:2" = Some b_end.
Proof. apply member_updated. Qed.

Lemma cluster_genuine_witness :
  nodes_ (gos b_end) = ["b:2"; "a:1"] /\
  (forall j n, node_map_ (gos b_end) !! j = Some n -> exists conf, conf ∈ confs /\
     conf_Name conf = j /\ IP_ n = conf_Addr conf /\ Port_ n = to_string (conf_Port conf) /\
     From_ n = EmptyString).
Proof.
  split; [by vm_compute|].
  destruct (cluster_genuine hosts confs c_joined "b:2" b_end confs_ok eq_refl cluster_run b_ends)
    as (_ & _ & Ht & _). exact Ht.
Defined.
