(* ===== verification/ProbeScenarios.v ===== *)
(** * Concrete probes

    The gossiper [a:1] of the scenarios probes a node at 127.0.0.1 and the node
    [b:2], whose address is a name. *)
From stdpp Require Import relations.
From S2P Require Import Prelude Utils Bytes Header Node Broadcast Suspicion Messages FlatBuffers.
From S2P Require Import Codec Gossiper Membership Reports Protocol Dynamics Exchange Scenarios.
From S2P Require Import Timer UdpClient Probe.
Local Open Scope Z_scope.

#[local] Existing Instances memory codec.

(** Dotted decimal, for [asio::ip::address::from_string]. *)
Definition dotted (s : string) : bool :=
  forallb (fun c => let n := Z.of_nat (Ascii.nat_of_ascii c) in (n =? 46) || ((48 <=? n) && (n <=? 57)))
    (String.list_ascii_of_string s).

Definition c_record : node_state := report "127.0.0.1:3" "127.0.0.1" "3" 3 STATE_ALIVE "".
Definition c_probe : probe_op := (the (b_probe, a_idle) (probeNode BigEndian (blank mtu) c_record a_idle)).1.
Definition c_suspected : gossiper := state_after (on_probe_timeout c_probe) a_probing.
Definition c_client : AsyncClient := the (client_new []) (start_probe dotted 0 [] c_probe).

Lemma c_client_Ok : start_probe dotted 0 [] c_probe = Ok c_client.
Proof. by vm_compute. Qed.
Lemma c_times_out : on_probe_timeout c_probe a_probing = Ok (tt, c_suspected).
Proof. by vm_compute. Qed.

(** The ping is out after a millisecond. *)
Definition c_sent : probing :=
  the (mkProbing 0 c_client a_probing [])
    (drain BigEndian dotted c_probe 2
       (set_client (io Success (p_size c_probe) []) (mkProbing 1000000 c_client a_probing []))).

Lemma c_is_sent : rtc (probe_step BigEndian dotted c_probe) (mkProbing 0 c_client a_probing []) c_sent.
Proof.
  eapply rtc_l; [apply probe_client, (client_time _ _ _ 0 1000000); lia|].
  etrans; [eapply io_steps|]. eapply drain_steps.
  apply (the_Ok (mkProbing 0 c_client a_probing [])). by vm_compute.
Qed.

Lemma probe_callbacks_witness :
  log c_sent = [(1000000, SendFinish)] /\ p_timeout c_probe = 500 /\
  probe_calls (p_timeout c_probe) (log c_sent) /\
  forall t ec bytes h, exists r, handle t ec bytes h (client c_sent) = Ok r.
Proof.
  split; [by vm_compute|]. split; [by vm_compute|].
  exact (probe_callbacks BigEndian dotted c_probe 0 [] c_client a_probing c_sent ltac:(by vm_compute)
    ltac:(by vm_compute) ltac:(split; by vm_compute) c_client_Ok c_is_sent).
Defined.

Lemma probe_verdict_witness :
  exists w w', log w = [(1000000, SendFinish)] /\
    drain BigEndian dotted c_probe 2 (set_client (expire 501000000) (set_clock 501000000 w)) = Ok w' /\
  owner w' = c_suspected /\ log w' = [(1000000, SendFinish); (501000000, ReceiveTimeout)].
Proof.
  destruct (probe_verdict BigEndian dotted c_probe ltac:(by vm_compute) ltac:(by vm_compute)
    ltac:(split; by vm_compute) 0 1000000 501000000 [] c_client a_probing c_client_Ok)
    as (w & _ & _ & Hl & Hsilent & _).
  destruct (Hsilent ltac:(by vm_compute) c_suspected c_times_out) as (w' & H1 & H2 & H3).
  exists w, w'. split; [exact Hl|]. split; [exact H1|]. split; [exact H2|exact H3].
Defined.

(** [b:2]'s address is [b]: a name. *)
Definition b_client : AsyncClient := the (client_new []) (start_probe dotted 0 [] b_probe).
Lemma b_client_Ok : start_probe dotted 0 [] b_probe = Ok b_client.
Proof. by vm_compute. Qed.

Lemma probe_of_a_name_terminates_witness :
  socket_ops b_client = [] /\
  drain BigEndian dotted b_probe 1 (set_client (expire 500000000) (mkProbing 500000000 b_client a_probing [])) =
    Crash Terminated.
Proof.
  exact (probe_of_a_name_terminates BigEndian dotted b_probe 0 500000000 [] b_client a_probing
    ltac:(by vm_compute) ltac:(by vm_compute) ltac:(split; by vm_compute) b_client_Ok ltac:(by vm_compute)).
Defined.
