(* ===== verification/ProcessScenarios.v ===== *)
(** * A process that joins and ticks

    The node [a:1] of the scenarios joins, alone; its probe ticker's wait ends
    after the interval, and the probe finds nobody but itself. *)
From stdpp Require Import relations.
From S2P Require Import Prelude Utils Bytes Header Node Broadcast Suspicion Messages FlatBuffers.
From S2P Require Import Codec Gossiper Membership Reports Protocol Dynamics Exchange Session Runs.
From S2P Require Import Scenarios Timer Ticker UdpServer HybridRunner.
Local Open Scope Z_scope.

#[local] Existing Instances memory heap room stack codec codec_ok.

Definition nobody (s : string) : bool := true.
Abbreviation a_step := (process_step BigEndian nobody 1).

Definition started : process := mkProcess 0 example_start (runner_new (blank 1460)) [] [] 0.

Definition a_routines : list (Z * routine) :=
  (the ([], example_start) (Join BigEndian no_network "b:2" example_start)).1.
Lemma a_joins : Join BigEndian no_network "b:2" example_start = Ok (a_routines, a_joined).
Proof. by vm_compute. Qed.

Definition joined : process :=
  mkProcess 0 a_joined (start_routines 0 1 a_routines (runner_new (blank 1460))) [] [] 1.
Definition waited : process :=
  mkProcess 1000000000 a_joined (start_routines 0 1 a_routines (runner_new (blank 1460))) [] [] 1.

(** The first ticker, before and after its wait. *)
Definition probe_ticker : AsioTicker := Tick 0 500 true ticker_new.
Definition probe_due : AsioTicker := expire 1000000000 probe_ticker.
Definition probe_done : AsioTicker := run_ready 1000000000 1000000500 probe_due.
Definition a_probed : gossiper := (a_probe a_joined).2.

Definition due : process :=
  mkProcess 1000000000 a_joined (set_ticker 0 (ProbeRoutine, probe_due) (hybrid_runner_ waited)) [] [] 1.
Definition probed : process :=
  mkProcess 1000000500 a_probed (set_ticker 0 (ProbeRoutine, probe_done) (hybrid_runner_ due)) [] [] 1.

Lemma a_finds_itself : probe BigEndian (blank mtu) a_joined = Ok (None, a_probed).
Proof. by vm_compute. Qed.

Lemma probed_steps : rtc a_step started probed.
Proof.
  eapply rtc_l; [apply (process_join BigEndian nobody 1 no_network "b:2" a_routines);
    [exact no_network_ok|exact a_joins]|].
  eapply rtc_l; [apply (process_time BigEndian nobody 1 0 1000000000); lia|].
  eapply rtc_l; [by apply (process_expire BigEndian nobody 1 0 ProbeRoutine probe_ticker)|].
  eapply rtc_l; [|apply rtc_refl].
  by apply (process_tick_probe BigEndian nobody 1 0 probe_due (blank mtu) None 1000000000 1000000500
    a_joined a_probed (hybrid_runner_ due) [] [] [] 1 ltac:(lia) eq_refl ltac:(by vm_compute) a_finds_itself).
Qed.

Lemma process_refines_witness :
  length (UdpServer.pending (udp_svr_ (hybrid_runner_ probed))) = 1%nat /\ calls_ probe_done = [1000000000] /\
  reachable BigEndian example_conf true true (seen probed).
Proof.
  destruct (process_refines BigEndian nobody 1 example_conf true true (blank 1460) started probed
    ltac:(by vm_compute) ltac:(by vm_compute)) as (Hr & _ & Hu & _).
  - exists 0, example_start. split; [by vm_compute|reflexivity].
  - exact probed_steps.
  - split; [exact Hu|]. split; [by vm_compute|exact Hr].
Defined.
